(* ===== verification/_CoqProject ===== *)
-Q . S2P
Prelude.v
PyString.v
Itertools.v
PyValue.v
PyText.v
PyFloat.v
Rounding.v
Sha256.v
TaskModel.v
TaskModelFacts.v
Diagnostics.v
TaskStore.v
StateStore.v
StoreFacts.v
Runner.v
RunnerFacts.v
RunnerOnce.v
Registry.v
RegistryFacts.v
Recorder.v
HostedQueue.v
HostedQueueFacts.v
HostedCheckpoint.v
HostedCheckpointFacts.v
TrustedRunFacts.v
QueuePlanner.v
QueuePlannerFacts.v
HostedActivity.v
HostedActivityFacts.v
Activation.v
HostedWorker.v
HostedWorkerFacts.v
HostedRecovery.v
HostedRecoveryFacts.v
Bridge.v
Runtime.v
RuntimeFacts.v
NoteDrafts.v
NoteDraftsFacts.v
Credentials.v
Refresh.v
RefreshFacts.v
SecretStore.v
SecretFacts.v
SecretInstances.v
DurableStore.v
DurableFacts.v
PostgresFacts.v
CredentialAdapter.v
CredentialAdapterFacts.v
Payouts.v
PayoutsFacts.v
Dataset.v
DatasetFacts.v
Evaluation.v
EvaluationFacts.v
PrepareFacts.v
History.v
HistoryFacts.v
Form.v
FormFacts.v
Settle.v
SettleFacts.v
Selection.v
SelectionFacts.v
Preview.v
ModelHistory.v
ModelHistoryFacts.v
Session.v
SessionFacts.v
Preparation.v
PreparationFacts.v
Inference.v
InferenceFacts.v
Training.v
TrainingFacts.v
Holdout.v
HoldoutFacts.v
Entrants.v
EntrantsFacts.v
