(* ===== verification/Prelude.v ===== *)
(** A verification library for the keirin repository: its agent runtime
    (src/agent_core) and the pure core of its offline models (src/ml): payouts,
    training rows, settlement, evaluation, historical plans, recent form, ticket selection,
    frozen prediction histories and the session of the synthetic workbench.

    * The program

    A task is a list of named steps (model.py).  The runner (runner.py) executes
    the action of each step with bounded retries and keeps the task state in a
    store (store.py) beside an append-only ledger.  Actions come from a registry of
    tools with declared permissions (adapters.py); the orchestrator runs a task
    only after a preflight (orchestrator.py).  In the hosted mode the state lives
    in a leased row of a remote queue (hosted_queue.py), evidence in a remote ledger
    (hosted_activity.py), checkpoints of trusted runs in a remote table
    (hosted_checkpoint.py, trusted_run_*.py); a planner proposes rows
    (queue_planner.py), workers claim and run them (hosted_worker.py,
    hosted_readonly_worker.py) and interrupted runs are inspected
    (hosted_recovery.py).  Actions that need a secret are gated behind a credential
    snapshot (credential_adapter.py), issued by a static or a refreshing provider
    (credential_provider.py, refresh_credentials.py), the latter over a versioned
    secret store (versioned_secret_store.py) that may be durable
    (durable_secret_store.py, postgres_secret_backend.py).  A host serves capabilities
    through a bridge (runtime_bridge.py, provider_adapters.py, delivery.py), bound by a
    credential-free manifest (runtime.py); note_drafts.py edits drafts through a browser.

    The offline part normalises payout tables (historical_payouts.py), joins them with the
    entrants (historical_entrants.py) and makes review records of them
    (historical_records.py), attaches to a
    finished race the result of its cars (settle_snapshot.py), builds the training rows of
    the position models (dataset.py, position_features.py, feature_extraction.py), accepts,
    selects and splits the snapshots of an evaluation (evaluation_protocol.py) and picks
    tickets from a table of probabilities (category_selection.py).  Reviewed historical records
    are audited and planned into partitions (historical_audit.py, historical_training.py), and
    the recent form of the riders is computed from past races (historical_form.py).  A
    displayable prediction keeps a contract (offline_preview.py); predictions are frozen,
    settled and reviewed (model_history.py, probability_metrics.py) by a local workbench
    (synthetic_workbench.py) that keeps its session in one file (synthetic_session.py).
    Three models are trained on the rows of past races (train_position_models.py), predict a
    race (predict_position_models.py, trifecta_adapter.py) and are compared with the saved
    baseline on a holdout (evaluate_offline.py), once a collection is large enough
    (collection_status.py, build_training_dataset.py).  A historical plan is prepared through
    the shared runner (historical_preparation.py), which joins the two parts.

    * The files

    - Prelude.v: exceptions with their class hierarchy, the results of fallible
      code, the state-and-error monad [eff] with its proof rules ([wp], [keeps]),
      lemmas and automation.  PyString.v, PyValue.v, Sha256.v: Python's strings,
      JSON values with their text, and SHA-256.  Itertools.v: permutations, products,
      stable sorting and grouping by a key.
    - TaskModel.v models model.py; TaskModelFacts.v its validation, the round trips
      through documents and the merging of artifacts.
    - Diagnostics.v models diagnostics.py.
    - TaskStore.v is the interface of the runner to a store: a class of operations
      and a class of their laws.  It has two instances, [file_store] of StateStore.v
      (store.py) and [store] of HostedWorker.v (the leased row).
    - Runner.v models runner.py over any store; RunnerFacts.v proves preservation,
      the termination of the retry loop, and that the text of untrusted exceptions
      reaches nothing; RunnerOnce.v bounds the calls of an action over any sequence
      of interrupted runs.
    - Registry.v and RegistryFacts.v: the registry, the read-only GitHub adapter and
      the orchestrator.
    - Recorder.v: transports that log what they are asked, and the rules that bound
      the log.  HostedQueue.v, HostedCheckpoint.v (with the trusted runs),
      HostedActivity.v, QueuePlanner.v, HostedRecovery.v and HostedWorker.v model the
      modules of the same names; each has its theorems in the file named after it with the
      suffix Facts (TrustedRunFacts.v for the trusted runs).
    - Credentials.v, Refresh.v, SecretStore.v, DurableStore.v and CredentialAdapter.v
      model the credential modules.  SecretFacts.v is proved against the class of a
      compare-and-swap register; SecretInstances.v, DurableFacts.v and PostgresFacts.v
      show that the in-memory store and the durable store over PostgreSQL are
      registers, even when writes are lost, refused or doubtful.
    - Bridge.v: the bridge adapters; Runtime.v, RuntimeFacts.v: the manifest
      and the runtime built from it, composing Bridge.v with Registry.v; Activation.v: the
      committed activation manifest; NoteDrafts.v, NoteDraftsFacts.v:
      the draft adapter.
    - PyText.v: UTF-8 text, instants, and the classes of the readers of the standard library;
      PyFloat.v: binary64 values, their sum as Python 3.12 compensates it, their parsing.
    - Dataset.v, DatasetFacts.v: the features of a car and the rows of a race; Settle.v,
      SettleFacts.v: the record of a settled snapshot, composed with Evaluation.v.
    - Evaluation.v, EvaluationFacts.v: the acceptance of a record, the selection of snapshots
      and their split; PrepareFacts.v: the whole preparation, from records to partitions;
      Selection.v, SelectionFacts.v: the five categories of tickets.
    - History.v, HistoryFacts.v: the audit and the plan of historical records.  Rounding.v:
      the division of integers to a float and its monotonicity; Form.v, FormFacts.v: recent form.
    - Preview.v, ModelHistory.v, ModelHistoryFacts.v: the contract of a prediction, its
      snapshots, their settlement and the review of histories, composed with Selection.v.
    - Session.v, SessionFacts.v: the session file over a directory that can lose its power,
      composed with ModelHistory.v, and the workbench over it.
    - Preparation.v, PreparationFacts.v: the preparation of a historical plan on a local disk,
      composed with Runner.v, Registry.v, StateStore.v and History.v.
    - Inference.v, InferenceFacts.v: the prediction of one race, composed with Dataset.v and
      Selection.v and shown against the contract of Preview.v.  Training.v, TrainingFacts.v:
      training and the model directory, which Inference.v reads.  Holdout.v, HoldoutFacts.v:
      the report on a collection and the paired evaluation, composed with Evaluation.v,
      Training.v, Inference.v and the metrics of ModelHistory.v.
    - Payouts.v models historical_payouts.py; PayoutsFacts.v shows that an accepted race
      pays exactly the combinations its finish order allows, dead heats included.
    - Entrants.v models historical_entrants.py and historical_records.py; EntrantsFacts.v
      composes them with Payouts.v on one side and with Preparation.v on the other.

    Definitions keep the names of the code.  A module of the development groups the
    methods of a class.  An operation of the code that raises is a [result], one that also
    has effects is an [eff] on the state it works on.

    * What the theorems show

    - Execution: an action is called at most its attempts, crashes included; retries
      end; the ledger only grows; a saved state is read back; what an exception says
      stays out of files, ledger and diagnostics; a run starts exactly when its
      definition is valid and permitted.
    - Remote services: whatever a service answers, an accepted lease, row,
      checkpoint or event keeps the contract and is bound to what was asked for; a
      save is fenced by revision and generation; inspections only read; paging ends
      and returns every event once; a hosted run calls read actions only and its saves
      form one chain of revisions.
    - Hosts: the registry of an accepted manifest is exactly the manifest; a draft is
      saved at most once, over expected content, and success is what was read back.
    - Planning: first in, first out, within the capacity.
    - Secrets: what leaves the gate is a fixed exception, or a value in which nothing that is
      scanned holds a secret; which parts of a value are not scanned is stated; a refresh fails closed and commits
      before it returns; the exchanges form one chain; a revocation is final; the
      stores implement the register.
    - Payouts: in an accepted race no car is listed twice, ranks are those of a
      competition with ties, and every bet pays each allowed combination once.
    - Intake: what the normaliser and the join accept is converted, each candidate by a
      replay that finds it again; and nothing converted is ever placed in a plan.
    - Training: every row of a car has the label of its rank in the result, and its features
      do not depend on the result.
    - Settlement: a settled record is a candidate of the evaluation exactly under the
      conditions the code documents, and which ones the evaluation turns away.
    - Evaluation: every record is accepted, superseded or rejected for a stated reason, no race
      is in two partitions and no result used was unknown when the predictions it is compared
      with were made.
    - Selection: each category holds the most probable of its candidates, none twice.
    - Historical plans: every record is placed or reported once, only what a complete review
      signs is placed, and no result is used before it was available.
    - Recent form: only past races known before the cutoff count; the rates are bounded.
    - Histories: a settled history validates when it is read back; a review uses exactly the
      races that need no human decision, each by one latest record.
    - Sessions: the file is never torn, also by a loss of power that leaves anything in what
      was not synchronised, and nobody's content is replaced unseen; a save that returns is
      durable, the store that opens next decodes what it saved, and one that fails stops
      the store; the workbench shows only what is saved.

    - Preparation: no input or output is ever replaced, only the state file of the task is;
      the receipt of a completed run is true of the disk in its hash, its inputs and each of
      its counts; and a reconciliation never repeats the action.
    - Models: a training hands the learner the first races to fit and the others to stop early,
      and measures on those others; what it writes is what inference accepts; a prediction that is returned can be displayed; a holdout learns only
      from results known before each prediction it tests, and the report on a collection says
      when it can run.

    * Bounds and fuel

    Python integers are unbounded and are [Z].  Words of SHA-256 are reduced modulo
    2^32; floats are binary64 in PyValue.v.  The retry loop runs on fuel: RunnerFacts
    shows that it takes at most max_attempts turns less the stored attempt count, at least
    one, and that more fuel changes nothing.  The paging
    loop of HostedRecovery runs on fuel too: HostedRecoveryFacts shows that a finite ledger is
    exhausted.  Everything else is structural recursion.  The split points of an evaluation
    are products of binary64 numbers, exact fifths below 2^50 records; the mass of a table of
    probabilities is a sum of binary64 numbers (SpecFloat).

    * What the models take as parameters

    Transports, clocks, sources of randomness, exchange callables, provider actions,
    sinks and the PostgreSQL driver are operations on a world [W] chosen by the
    theorem; laws about them are hypotheses and have concrete instances.
    [datetime.fromisoformat], [float] and [int] of a text and the decimal digits of the
    regular expressions (class Readers of PyText.v, whose laws are class ReaderLaws), the text
    of the errors of [strptime], the error of [urlsplit] for a bracketed host, the fingerprint pinned for trusted runs, the activation
    manifest's pinned fingerprint and the files of the repository it names are arguments.
    So are the calendar (class Calendar), the logarithm and the square of a float (class
    Mathematics) of ModelHistory.v, and [json.loads], [isoformat], the prediction of the models
    and the outcome of every system call in Session.v; [json.loads], the float of a time and
    the outcome of every file creation in Preparation.v; NumPy's [max], [exp] and [sum] (class
    Numpy of Inference.v), the boosters and [lgb.train], the digest of a model directory, and
    the text of a UTC time in Evaluation.v and Holdout.v.

    * Limits of the models

    Strings hold code points below 256 (exact there).  In the offline files a string is UTF-8
    text, read by characters where the code does (PyText.v); [str] of a container
    that holds non-ASCII text is not the text Python writes.  The cells of the raw tables in
    Entrants.v are texts.  The odds table of a settled
    snapshot is a dictionary.  A document is a JSON value; where a theorem needs it, its keys are
    unique.  The text of a TypeError or an AttributeError of the interpreter is a label.  In
    the metrics an integer probability counts as its float.  The session directory is used by
    one process, which its lock is there for; a file of it has a content that may or may not be
    synchronised, and a synchronised file keeps its content; [json.loads] of the text of a
    session is what json_sorted of PyValue.v says (an assumption on this one text); and an answer of the
    workbench (its state and report) is not part of the model.  The paths of Preparation.v are
    resolved texts of one file system, and its [disk] is what lies outside the state directory of
    the run: in that directory the state files and the ledger are those of StateStore.v, its
    lock file and temporary files are left out.  A record of the ledger is appended whole or not
    at all: a line cut short, or one written before the synchronisation fails, is not modelled.
    The values the scan of credentials sees contain no cycle.  The writes of a model directory succeed, its documents read back
    as they were written, and a saved booster keeps the feature names it was trained with; a
    row of a CSV table has no more fields than its header.  A prediction names the cars of its
    probabilities by the texts JSON gives them.  Each reading of a
    clock within one parse is modelled once.  The artifacts of a dict result are a list or a
    tuple.  In the hosted store the code of the artifact update is that of the file store
    and is shared.  Threads interleave where Refresh.v says so; elsewhere the code is
    sequential.

    * Not modelled

    HTTP transports, process and host glue, the command lines and the reading of files
    (the work is done by system calls and third-party drivers); schedules and reports; the
    fitting of the models (LightGBM); the search for history files and the CSV table written; the pages the workbench and the preview render; the
    parsers of collected pages (HTML and spreadsheets in Japanese text); the custody
    rehearsals under src/review (shell and system calls). *)
From Stdlib Require Export ZArith Lia.
From stdpp Require Export base tactics option list strings gmap numbers.

#[export] Set Default Goal Selector "!".
#[global] Open Scope Z_scope.

(** ** Exceptions

    The Python exception classes the modelled code raises or tells apart, with
    the class hierarchy that decides which [except] clause catches what. *)
Inductive exc_class :=
  | BaseException | Exception | ValueError | TypeError | KeyError | IndexError
  | AttributeError | AssertionError | OSError | OverflowError | RuntimeError
  | KeyboardInterrupt | SystemExit | StopIteration | ZeroDivisionError
  | JSONDecodeError
  (* agent_core/runner.py *)
  | BlockedAction | SafeActionError
  (* agent_core/credential_provider.py and refresh_credentials.py *)
  | CredentialProviderError | CredentialScopeError | CredentialLifetimeError
  | CredentialRevokedError | CredentialAuthBlocked | CredentialRefreshInProgress
  (* agent_core/versioned_secret_store.py *)
  | SecretStoreError | SecretStoreConflict | SecretStoreAmbiguousWrite
  | RefreshExchangeRejected | RefreshExchangeAmbiguous
  (* agent_core/durable_secret_store.py *)
  | DurableSecretBackendError | DurableSecretBackendConflict
  | DurableSecretBackendAmbiguousWrite | DurableSecretBackendUnavailable
  (* agent_core/hosted_queue.py, hosted_checkpoint.py, hosted_activity.py,
     hosted_recovery.py, trusted_run_enqueue.py *)
  | HostedQueueError | HostedQueueConflict | HostedQueueIntegrityError
  | HostedCheckpointError | HostedCheckpointConflict
  | HostedCheckpointNotFound | HostedCheckpointIntegrityError
  | HostedActivityError | HostedActivityIntegrityError
  | HostedRecoveryIntegrityError | TrustedRunAlreadyUsed
  (* agent_core/hosted_readonly_worker.py *)
  | HostedExecutionNotAuthorized
  (* the fuel of a modelled loop ran out: theorems show it never does *)
  | OutOfFuel.

#[export] Instance exc_class_eq_dec : EqDecision exc_class.
Proof. solve_decision. Defined.

(** The direct base class of each class. *)
Definition base_of (c : exc_class) : option exc_class :=
  match c with
  | BaseException | OutOfFuel => None
  | Exception | KeyboardInterrupt | SystemExit => Some BaseException
  | ValueError | TypeError | KeyError | IndexError | AttributeError | AssertionError
  | OSError | OverflowError | RuntimeError | StopIteration | ZeroDivisionError => Some Exception
  | JSONDecodeError => Some ValueError
  | BlockedAction | SafeActionError | CredentialProviderError
  | SecretStoreError | RefreshExchangeRejected | RefreshExchangeAmbiguous
  | DurableSecretBackendError | HostedQueueError | HostedCheckpointError
  | HostedActivityError | HostedRecoveryIntegrityError
  | TrustedRunAlreadyUsed | HostedExecutionNotAuthorized => Some RuntimeError
  | CredentialScopeError | CredentialLifetimeError | CredentialRevokedError
  | CredentialAuthBlocked | CredentialRefreshInProgress =>
      Some CredentialProviderError
  | SecretStoreConflict | SecretStoreAmbiguousWrite => Some SecretStoreError
  | DurableSecretBackendConflict | DurableSecretBackendAmbiguousWrite
  | DurableSecretBackendUnavailable => Some DurableSecretBackendError
  | HostedQueueConflict | HostedQueueIntegrityError => Some HostedQueueError
  | HostedCheckpointConflict | HostedCheckpointNotFound
  | HostedCheckpointIntegrityError => Some HostedCheckpointError
  | HostedActivityIntegrityError => Some HostedActivityError
  end.

(** [issubclass c d]: the hierarchy is at most five classes deep. *)
Fixpoint subclass_within (fuel : nat) (c d : exc_class) : bool :=
  bool_decide (c = d) ||
  match fuel, base_of c with
  | S fuel', Some b => subclass_within fuel' b d
  | _, _ => false
  end.

Definition issubclass (c d : exc_class) : bool := subclass_within 5 c d.

Record exn := Exn { exn_class : exc_class; exn_msg : string }.

#[export] Instance exn_eq_dec : EqDecision exn.
Proof. solve_decision. Defined.

Definition isinstance (e : exn) (d : exc_class) : bool := issubclass (exn_class e) d.

(** ** Results: what a pure Python function returns or raises *)
Inductive result (A : Type) := Ok (a : A) | Err (e : exn).
Arguments Ok {A} a.
Arguments Err {A} e.

#[export] Instance result_eq_dec `{EqDecision A} : EqDecision (result A).
Proof. solve_decision. Defined.

#[export] Instance result_ret : MRet result := @Ok.
#[export] Instance result_bind : MBind result := λ A B f m,
  match m with Ok a => f a | Err e => Err e end.
#[export] Instance result_fmap : FMap result := λ A B f m,
  match m with Ok a => Ok (f a) | Err e => Err e end.

Definition raise {A} (c : exc_class) (msg : string) : result A := Err (Exn c msg).

(** [if bad: raise C(msg)] *)
Definition reject_if (bad : bool) (c : exc_class) (msg : string) : result unit :=
  if bad then raise c msg else Ok tt.

Definition is_ok {A} (r : result A) : bool :=
  match r with Ok _ => true | Err _ => false end.

Fixpoint mapR {A B} (f : A → result B) (l : list A) : result (list B) :=
  match l with
  | [] => Ok []
  | x :: l' => y ← f x; ys ← mapR f l'; Ok (y :: ys)
  end.

Fixpoint foldR {A B} (f : A → B → result A) (a : A) (l : list B) : result A :=
  match l with
  | [] => Ok a
  | x :: l' => a' ← f a x; foldR f a' l'
  end.

Lemma bind_Ok {A B} (m : result A) (f : A → result B) b :
  m ≫= f = Ok b ↔ ∃ a, m = Ok a ∧ f a = Ok b.
Proof. destruct m; cbn; naive_solver. Qed.

Lemma bind_Err {A B} (m : result A) (f : A → result B) e :
  m ≫= f = Err e ↔ m = Err e ∨ ∃ a, m = Ok a ∧ f a = Err e.
Proof. destruct m; cbn; naive_solver. Qed.

Lemma reject_if_Ok b c msg x : reject_if b c msg = Ok x ↔ b = false.
Proof. destruct b, x; cbn; split; congruence || done. Qed.

Lemma reject_if_Err b c msg e : reject_if b c msg = Err e ↔ b = true ∧ e = Exn c msg.
Proof. destruct b; cbn; unfold raise; naive_solver. Qed.

Lemma mapR_Ok {A B} (f : A → result B) l ys :
  mapR f l = Ok ys ↔ Forall2 (λ x y, f x = Ok y) l ys.
Proof.
  revert ys. induction l as [|x l IH]; intros ys; cbn.
  - split; [intros [= <-]; constructor | by inversion 1].
  - rewrite bind_Ok. split.
    + intros (y & Hy & H). apply bind_Ok in H as (ys' & Hys & [= <-]).
      constructor; [done | by apply IH].
    + inversion 1 as [|? y ? ys' Hy Hys]; subst.
      exists y. split; [done|]. by rewrite (proj2 (IH ys') Hys).
Qed.

Lemma mapR_total {A B} (f : A → result B) l :
  (∀ x, x ∈ l → ∃ y, f x = Ok y) → ∃ ys, mapR f l = Ok ys.
Proof.
  induction l as [|x l IH]; intros H; cbn; [by exists []|].
  destruct (H x) as [y ->]; [set_solver|]. destruct IH as [ys ->]; [set_solver|]. by eexists.
Qed.
Lemma filter_nil_iff {A} (f : A → bool) l : List.filter f l = [] ↔ ∀ x, x ∈ l → f x = false.
Proof.
  induction l as [|x l IH]; cbn.
  { split; [by intros _ x ?%not_elem_of_nil|done]. }
  setoid_rewrite elem_of_cons. destruct (f x) eqn:E.
  - split; [done|]. intros H. specialize (H x (or_introl eq_refl)). congruence.
  - rewrite IH. split; [intros H y [->|]; auto|]. intros H y Hy. auto.
Qed.

(** ** Effects: state-passing with exceptions

    A Python method that mutates objects is [eff S A]: it maps the state to
    the outcome (a value or an exception) and the state it leaves behind.  As
    in Python, an exception does not undo the mutations before it. *)
Definition eff (S A : Type) : Type := S → result A * S.

#[export] Instance eff_ret {S} : MRet (eff S) := λ A a s, (Ok a, s).
#[export] Instance eff_bind {S} : MBind (eff S) := λ A B f m s,
  match m s with
  | (Ok a, s') => f a s'
  | (Err e, s') => (Err e, s')
  end.

Definition get {S} : eff S S := λ s, (Ok s, s).
Definition gets {S A} (f : S → A) : eff S A := λ s, (Ok (f s), s).
Definition modify {S} (f : S → S) : eff S unit := λ s, (Ok tt, f s).
Definition throw {S A} (e : exn) : eff S A := λ s, (Err e, s).
Definition lift {S A} (r : result A) : eff S A := λ s, (r, s).

(** [try: m  except Exception as e: h e]: the handler decides by class; a
    class the handler does not list is re-raised by [h] itself. *)
Definition try_with {S A} (m : eff S A) (h : exn → eff S A) : eff S A := λ s,
  match m s with
  | (Ok a, s') => (Ok a, s')
  | (Err e, s') => h e s'
  end.

(** The outcome of [m] as a value: [try] whose handlers only record. *)
Definition attempt {S A} (m : eff S A) : eff S (result A) := λ s,
  let '(r, s') := m s in (Ok r, s').

(** ** A weakest-precondition calculus for effects *)
Definition wp {S A} (m : eff S A) (Q : result A → S → Prop) (s : S) : Prop :=
  let '(r, s') := m s in Q r s'.

Section wp_rules.
Context {S : Type}.
Implicit Types s : S.

Lemma wp_mono {A} (m : eff S A) Q Q' s :
  wp m Q s → (∀ r s', Q r s' → Q' r s') → wp m Q' s.
Proof. unfold wp. destruct (m s). auto. Qed.

Lemma wp_bind {A B} (m : eff S A) (f : A → eff S B) Q s :
  wp m (λ r s', match r with Ok a => wp (f a) Q s' | Err e => Q (Err e) s' end) s →
  wp (m ≫= f) Q s.
Proof. unfold wp, mbind, eff_bind. by destruct (m s) as [[a|e] s']. Qed.

Lemma wp_ret {A} (a : A) Q s : Q (Ok a) s → wp (mret a) Q s.
Proof. done. Qed.
Lemma wp_throw {A} e (Q : result A → S → Prop) s : Q (Err e) s → wp (throw e) Q s.
Proof. done. Qed.
Lemma wp_lift {A} (r : result A) Q s : Q r s → wp (lift r) Q s.
Proof. done. Qed.
Lemma wp_gets {A} (f : S → A) Q s : Q (Ok (f s)) s → wp (gets f) Q s.
Proof. done. Qed.
Lemma wp_get Q s : Q (Ok s) s → wp get Q s.
Proof. done. Qed.
Lemma wp_modify f Q s : Q (Ok tt) (f s) → wp (modify f) Q s.
Proof. done. Qed.
Lemma wp_attempt {A} (m : eff S A) Q s :
  wp m (λ r s', Q (Ok r) s') s → wp (attempt m) Q s.
Proof. unfold wp, attempt. by destruct (m s). Qed.
Lemma wp_try {A} (m : eff S A) h Q s :
  wp m (λ r s', match r with Ok a => Q (Ok a) s' | Err e => wp (h e) Q s' end) s →
  wp (try_with m h) Q s.
Proof. unfold wp, try_with. by destruct (m s) as [[a|e] s']. Qed.

(** An assertion on states that an operation keeps whatever its outcome. *)
Definition preserves {A} (I : S → Prop) (m : eff S A) : Prop :=
  ∀ s, I s → I (m s).2.

Lemma preserves_bind {A B} I (m : eff S A) (f : A → eff S B) :
  preserves I m → (∀ a, preserves I (f a)) → preserves I (m ≫= f).
Proof.
  intros Hm Hf s Hs. unfold mbind, eff_bind. specialize (Hm s Hs).
  destruct (m s) as [[a|e] s']; cbn in *; [by apply Hf | done].
Qed.
Lemma preserves_ret {A} I (a : A) : preserves I (mret a).
Proof. by intros s. Qed.
Lemma preserves_throw {A} I e : preserves I (throw (A:=A) e).
Proof. by intros s. Qed.
Lemma preserves_lift {A} I (r : result A) : preserves I (lift r).
Proof. by intros s. Qed.
Lemma preserves_gets {A} I (f : S → A) : preserves I (gets f).
Proof. by intros s. Qed.
Lemma preserves_attempt {A} I (m : eff S A) : preserves I m → preserves I (attempt m).
Proof. intros Hm s Hs. unfold attempt. specialize (Hm s Hs). by destruct (m s). Qed.
Lemma preserves_try {A} I (m : eff S A) h :
  preserves I m → (∀ e, preserves I (h e)) → preserves I (try_with m h).
Proof.
  intros Hm Hh s Hs. unfold try_with. specialize (Hm s Hs).
  destruct (m s) as [[a|e] s']; cbn in *; [done | by apply Hh].
Qed.
Lemma preserves_modify I f : (∀ s, I s → I (f s)) → preserves I (modify f).
Proof. by intros H s Hs; apply H. Qed.

(** [I] at a normal exit, [J] when an exception leaves. *)
Definition keeps {A} (I J : S → Prop) (m : eff S A) : Prop :=
  ∀ s, I s → match m s with (Ok _, s') => I s' | (Err _, s') => J s' end.

Lemma keeps_preserves {A} I (m : eff S A) : keeps I I m ↔ preserves I m.
Proof.
  split; intros H s Hs; specialize (H s Hs); destruct (m s) as [[a|e] s']; done.
Qed.
Section keeps.
Context (I J : S → Prop) (IJ : ∀ s, I s → J s).
Lemma keeps_bind {A B} (m : eff S A) (f : A → eff S B) :
  keeps I J m → (∀ a, keeps I J (f a)) → keeps I J (m ≫= f).
Proof.
  intros Hm Hf s Hs. unfold mbind, eff_bind. specialize (Hm s Hs).
  destruct (m s) as [[a|e] s']; [by apply Hf|done].
Qed.
Lemma keeps_ret {A} (a : A) : keeps I J (mret a).
Proof. by intros s. Qed.
Lemma keeps_throw {A} e : keeps I J (throw (A:=A) e).
Proof. intros s. apply IJ. Qed.
Lemma keeps_lift {A} (r : result A) : keeps I J (lift r).
Proof. intros s Hs. unfold lift. destruct r; auto. Qed.
Lemma keeps_gets {A} (f : S → A) : keeps I J (gets f).
Proof. by intros s. Qed.
Lemma keeps_attempt {A} (m : eff S A) : keeps I I m → keeps I J (attempt m).
Proof. intros Hm s Hs. unfold attempt. specialize (Hm s Hs). by destruct (m s) as [[a|e] s']. Qed.
Lemma keeps_try {A} (m : eff S A) h :
  keeps I I m → (∀ e, keeps I J (h e)) → keeps I J (try_with m h).
Proof.
  intros Hm Hh s Hs. unfold try_with. specialize (Hm s Hs).
  destruct (m s) as [[a|e] s']; [done|by apply Hh].
Qed.
End keeps.
End wp_rules.

(** The same calculus with an invariant [I] that holds at every exit and a
    condition [X] on the exceptions that leave the operation. *)
Definition wpi {S A} (I : S → Prop) (X : exn → Prop) (m : eff S A) (Q : A → S → Prop) (s : S) : Prop :=
  wp m (λ r s', I s' ∧ match r with Ok a => Q a s' | Err e => X e end) s.

#[global] Arguments wp : simpl never.
#[global] Arguments wpi : simpl never.

Section wpi_rules.
Context {S : Type} (I : S → Prop) (X : exn → Prop).

Lemma wpi_mono {A} (m : eff S A) Q Q' s :
  wpi I X m Q s → (∀ a s', I s' → Q a s' → Q' a s') → wpi I X m Q' s.
Proof. intros H HQ. eapply wp_mono; [exact H|]. intros [a|e] s'; naive_solver. Qed.
Lemma wpi_bind {A B} (m : eff S A) (f : A → eff S B) Q s :
  wpi I X m (λ a s', wpi I X (f a) Q s') s → wpi I X (m ≫= f) Q s.
Proof.
  intros H. apply wp_bind. eapply wp_mono; [exact H|]. intros [a|e] s'; cbn; tauto.
Qed.
Lemma wpi_ret {A} (a : A) (Q : A → S → Prop) s : I s → Q a s → wpi I X (mret a) Q s.
Proof. by split. Qed.
Lemma wpi_throw {A} e (Q : A → S → Prop) s : I s → X e → wpi I X (throw e) Q s.
Proof. by split. Qed.
Lemma wpi_lift {A} (r : result A) (Q : A → S → Prop) s :
  I s → (∀ a, r = Ok a → Q a s) → (∀ e, r = Err e → X e) → wpi I X (lift r) Q s.
Proof. intros Hs Ha He. split; [done|]. destruct r; auto. Qed.
Lemma wpi_get (Q : S → S → Prop) s : I s → Q s s → wpi I X get Q s.
Proof. by split. Qed.
Lemma wpi_modify f (Q : unit → S → Prop) s : I (f s) → Q tt (f s) → wpi I X (modify f) Q s.
Proof. by split. Qed.
Lemma wpi_attempt {A} (m : eff S A) (Q : result A → S → Prop) s :
  wp m (λ r s', I s' ∧ Q r s') s → wpi I X (attempt m) Q s.
Proof. intros H. apply wp_attempt. eapply wp_mono; [exact H|]. auto. Qed.
Lemma wpi_try {A} (m : eff S A) h (Q : A → S → Prop) s :
  wp m (λ r s', match r with Ok a => I s' ∧ Q a s' | Err e => wpi I X (h e) Q s' end) s →
  wpi I X (try_with m h) Q s.
Proof. intros H. apply wp_try. eapply wp_mono; [exact H|]. by intros [a|e]. Qed.
End wpi_rules.

Create HintDb effdb.
#[export] Hint Resolve preserves_bind preserves_ret preserves_throw preserves_lift
  preserves_gets preserves_attempt preserves_try : effdb.

(** ** Tactics *)

(** Run an inverted monadic success or failure to its leaves. *)
Ltac inv_result :=
  repeat match goal with
  | H : Ok _ = Ok _ |- _ => injection H as H; try subst
  | H : Err _ = Err _ |- _ => injection H as H; try subst
  | H : Ok _ = Err _ |- _ => discriminate H
  | H : Err _ = Ok _ |- _ => discriminate H
  | H : raise _ _ = Ok _ |- _ => discriminate H
  | H : mret _ = Ok _ |- _ => injection H as H; try subst
  | H : _ ≫= _ = Ok _ |- _ =>
      let a := fresh "a" in let Ha := fresh "Ha" in
      apply bind_Ok in H as (a & Ha & H)
  | H : reject_if _ _ _ = Ok _ |- _ => apply reject_if_Ok in H
  | H : _ || _ = false |- _ => apply orb_false_iff in H as [? ?]
  | H : negb _ = false |- _ => apply negb_false_iff in H
  | H : negb _ = true |- _ => apply negb_true_iff in H
  | H : bool_decide _ = true |- _ => apply bool_decide_eq_true in H
  | H : bool_decide _ = false |- _ => apply bool_decide_eq_false in H
  | x : unit |- _ => destruct x
  end.

(** One structural step of a weakest-precondition goal. *)
Ltac wp_step :=
  first
    [ apply wp_bind | apply wp_ret | apply wp_throw | apply wp_gets | apply wp_get
    | apply wp_modify | apply wp_lift | apply wp_attempt | apply wp_try ].

(** Take structural steps as long as there are any. *)
Ltac wp_go := repeat (wp_step; cbv beta iota).

(** Bind as a function of the state, for rewriting runs. *)
Lemma bind_run {S A B} (m : eff S A) (f : A → eff S B) s :
  (m ≫= f) s = match m s with (Ok a, s') => f a s' | (Err e, s') => (Err e, s') end.
Proof. reflexivity. Qed.

(** Evaluate the monad, leaving the program's own functions folded. *)
Ltac eff_eval :=
  cbv beta iota zeta delta [mbind eff_bind result_bind mret eff_ret result_ret lift get gets
    modify throw attempt try_with reject_if raise negb].

(** ** The classes a function can raise *)
Definition raises {A} (P : exc_class → bool) (r : result A) : Prop :=
  ∀ e, r = Err e → P (exn_class e) = true.

(** Functions that raise only subclasses of [Exception]. *)
Abbreviation ordinary := (raises (λ c, issubclass c Exception)).

Section raises.
Context (P : exc_class → bool).
Lemma raises_ok {A} (a : A) : raises P (Ok a).
Proof. by intros e. Qed.
Lemma raises_raise {A} c msg : P c = true → raises P (raise (A:=A) c msg).
Proof. by intros H e [= <-]. Qed.
Lemma raises_reject b c msg : P c = true → raises P (reject_if b c msg).
Proof. intros H e [_ ->]%reject_if_Err. done. Qed.
Lemma raises_bind {A B} (m : result A) (f : A → result B) :
  raises P m → (∀ a, raises P (f a)) → raises P (m ≫= f).
Proof. intros Hm Hf e [H|(a & _ & H)]%bind_Err; [by apply Hm | by eapply Hf]. Qed.
Lemma raises_mapR {A B} (f : A → result B) l : (∀ a, raises P (f a)) → raises P (mapR f l).
Proof.
  intros Hf. induction l as [|x l IH]; cbn; [apply raises_ok|].
  apply raises_bind; [done|]. intros y. apply raises_bind; [done|]. intros ys. apply raises_ok.
Qed.
End raises.
Create HintDb raises.
#[export] Hint Resolve raises_ok raises_mapR : raises.
#[export] Hint Extern 1 (raises _ (raise _ _)) => (apply raises_raise; reflexivity) : raises.
#[export] Hint Extern 1 (raises _ (reject_if _ _ _)) => (apply raises_reject; reflexivity) : raises.

(** Show what a function raises by following its text. *)
Ltac raises_tac :=
  repeat first
    [ solve [eauto with raises] | apply raises_bind; [|intros ?] | case_match ].

(** Two effects that agree on every state stay so under a bind. *)
Lemma bind_ext {S A B} (m m' : eff S A) (f f' : A → eff S B) s :
  (∀ s, m s = m' s) → (∀ a s, f a s = f' a s) → (m ≫= f) s = (m' ≫= f') s.
Proof. intros Hm Hf. rewrite !bind_run, <- Hm. destruct (m s) as [[a|e] s']; auto. Qed.

(** ** Inverting successful runs *)
Lemma eff_bind_Ok {S A B} (m : eff S A) (f : A → eff S B) s b s' :
  (m ≫= f) s = (Ok b, s') ↔ ∃ a s1, m s = (Ok a, s1) ∧ f a s1 = (Ok b, s').
Proof.
  rewrite bind_run. destruct (m s) as [[a|e] s1]; split.
  - eauto.
  - by intros (? & ? & [= <- <-] & ?).
  - done.
  - by intros (? & ? & ? & ?).
Qed.
Lemma lift_Ok {S A} (r : result A) (s : S) a s' : lift r s = (Ok a, s') ↔ r = Ok a ∧ s' = s.
Proof. unfold lift. split; [by intros [= -> ->]|by intros [-> ->]]. Qed.

(** Decompose a hypothesis that a run returned. *)
Ltac inv_eff :=
  repeat match goal with
  | H : (_ ≫= _) _ = (Ok _, _) |- _ =>
      let a := fresh "a" in let w := fresh "w" in let Ha := fresh "Ha" in
      apply eff_bind_Ok in H as (a & w & Ha & H)
  | H : lift _ _ = (Ok _, _) |- _ => apply lift_Ok in H as [H ?]; try subst
  | H : mret _ _ = (Ok _, _) |- _ => injection H as H ?; try subst
  | H : throw _ _ = (Ok _, _) |- _ => discriminate H
  end; inv_result.
