(* ===== verification/PyString.v ===== *)
(** Python [str] as the development models it.

    A Rocq [string] stands for the Python string whose code points are the
    codes of its characters: the model covers the strings of code points below
    256, and every function here is exact on them ([str.isspace], [str.strip],
    [str.lower], slicing, [in], [re.fullmatch] with one character class, the
    ordering of [sorted], decimal conversions and [repr]). *)
From Stdlib Require Import Ascii.
From S2P Require Import Prelude.

Definition code (c : ascii) : Z := Z.of_N (N_of_ascii c).
Definition chr (z : Z) : ascii := ascii_of_N (Z.to_N z).

Fixpoint chars (s : string) : list ascii :=
  match s with EmptyString => [] | String c s' => c :: chars s' end.
Fixpoint of_chars (l : list ascii) : string :=
  match l with [] => EmptyString | c :: l' => String c (of_chars l') end.

Lemma chars_of_chars l : chars (of_chars l) = l.
Proof. induction l; cbn; congruence. Qed.
Lemma of_chars_chars s : of_chars (chars s) = s.
Proof. induction s; cbn; congruence. Qed.
Lemma chars_inj s t : chars s = chars t → s = t.
Proof. intros H. by rewrite <- (of_chars_chars s), H, of_chars_chars. Qed.
Lemma chars_app s t : chars (s ++ t) = (chars s ++ chars t)%list.
Proof. induction s as [|c s IH]; [done|]. exact (f_equal (cons c) IH). Qed.

(** [len(s)] *)
Definition slen (s : string) : Z := Z.of_nat (String.length s).

Definition in_range (lo hi : Z) (c : ascii) : bool := (lo <=? code c) && (code c <=? hi).
Definition is_upper (c : ascii) : bool := in_range 65 90 c.
Definition is_lower (c : ascii) : bool := in_range 97 122 c.
Definition is_digit (c : ascii) : bool := in_range 48 57 c.
Definition is_alpha (c : ascii) : bool := is_upper c || is_lower c.
(** [ch.isascii() and ch.isalnum()] *)
Definition is_ascii_alnum (c : ascii) : bool := is_alpha c || is_digit c.
Definition one_of (cs : string) (c : ascii) : bool :=
  existsb (Ascii.eqb c) (chars cs).

(** [str.isspace] below 256: \t \n \v \f \r, the four separators, space, NEL
    and NBSP. *)
Definition is_space (c : ascii) : bool :=
  in_range 9 13 c || in_range 28 31 c || (code c =? 32) || (code c =? 133) || (code c =? 160).

Fixpoint ltrim (l : list ascii) : list ascii :=
  match l with
  | [] => []
  | c :: l' => if is_space c then ltrim l' else l
  end.
(** [s.strip()] *)
Definition strip (s : string) : string := of_chars (rev (ltrim (rev (ltrim (chars s))))).
(** [bool(s)] *)
Definition truthy_s (s : string) : bool := negb (String.eqb s "").
(** [not s.strip()] *)
Definition blank (s : string) : bool := negb (truthy_s (strip s)).

(** [c.lower()] below 256 *)
Definition lower_char (c : ascii) : ascii :=
  if is_upper c || (in_range 192 222 c && negb (code c =? 215)) then chr (code c + 32) else c.
Definition lower (s : string) : string := of_chars (map lower_char (chars s)).

(** [t in s] *)
Fixpoint is_prefix (t s : list ascii) : bool :=
  match t, s with
  | [], _ => true
  | c :: t', d :: s' => Ascii.eqb c d && is_prefix t' s'
  | _ :: _, [] => false
  end.
Fixpoint is_infix (t s : list ascii) : bool :=
  is_prefix t s || match s with [] => false | _ :: s' => is_infix t s' end.
Definition contains (t s : string) : bool := is_infix (chars t) (chars s).
(** [s.startswith(t)] and [s[n:]] *)
Definition startswith (s t : string) : bool := is_prefix (chars t) (chars s).
Definition drop_s (n : nat) (s : string) : string := of_chars (skipn n (chars s)).

(** [re.compile("^[HEAD][TAIL]{0,max}$").fullmatch(s)] *)
Definition fullmatch (head tail : ascii → bool) (max : nat) (s : string) : bool :=
  match chars s with
  | [] => false
  | c :: l => head c && forallb tail l && (length l <=? max)%nat
  end.

(** [sep.join(l)] *)
Fixpoint join (sep : string) (l : list string) : string :=
  match l with
  | [] => ""
  | [x] => x
  | x :: l' => x ++ sep ++ join sep l'
  end.

(** [a <= b] on strings, and [sorted] *)
Definition str_le (a b : string) : bool := String.leb a b.
Fixpoint insert_sorted {A} (key : A → string) (x : A) (l : list A) : list A :=
  match l with
  | [] => [x]
  | y :: l' => if str_le (key y) (key x) then y :: insert_sorted key x l' else x :: l
  end.
Definition sorted_on {A} (key : A → string) (l : list A) : list A :=
  fold_left (λ acc x, insert_sorted key x acc) l [].
Definition sorted (l : list string) : list string := sorted_on id l.

(** [str(n)] for an integer *)
Fixpoint digits_rev (fuel : nat) (n : Z) : list ascii :=
  match fuel with
  | O => []
  | S f => if n <? 10 then [chr (48 + n)] else chr (48 + n mod 10) :: digits_rev f (n / 10)
  end.
Definition nat_str (n : Z) : string :=
  of_chars (rev (digits_rev (Z.to_nat (Z.log2 n + 2)) n)).
Definition z_str (n : Z) : string :=
  if n <? 0 then "-" ++ nat_str (- n) else nat_str n.

(** [int(s)]: surrounding white space, a sign, digits with single underscores
    between them. *)
Fixpoint parse_digits (acc : Z) (prev_digit : bool) (l : list ascii) : option Z :=
  match l with
  | [] => if prev_digit then Some acc else None
  | c :: l' =>
      if is_digit c then parse_digits (10 * acc + (code c - 48)) true l'
      else if Ascii.eqb c "_" && prev_digit then
        match l' with
        | d :: _ => if is_digit d then parse_digits acc false l' else None
        | [] => None
        end
      else None
  end.
Definition parse_int (s : string) : option Z :=
  match chars (strip s) with
  | c :: l =>
      if Ascii.eqb c "-" then option_map Z.opp (parse_digits 0 false l)
      else if Ascii.eqb c "+" then parse_digits 0 false l
      else parse_digits 0 false (c :: l)
  | [] => None
  end.

(** [repr(s)] *)
Definition hex_digit (n : Z) : ascii := if n <? 10 then chr (48 + n) else chr (87 + n).
Definition repr_char (quote c : ascii) : string :=
  let n := code c in
  if Ascii.eqb c quote || Ascii.eqb c "\" then String "\" (String c "")
  else if n =? 10 then "\n" else if n =? 13 then "\r" else if n =? 9 then "\t"
  else if (n <? 32) || ((127 <=? n) && (n <=? 160)) || (n =? 173) then
    "\x" ++ String (hex_digit (n / 16)) (String (hex_digit (n mod 16)) "")
  else String c "".
Definition repr_str (s : string) : string :=
  let apos := chr 39 in let quot := chr 34 in
  let q := if one_of s apos && negb (one_of s quot) then quot else apos in
  String q "" ++ String.concat "" (map (repr_char q) (chars s)) ++ String q "".

(** ** Lemmas *)

Lemma ltrim_all l : forallb is_space l = true → ltrim l = [].
Proof. induction l as [|c l IH]; cbn; [done|]. intros [-> ?]%andb_true_iff. auto. Qed.

Lemma ltrim_nil l : ltrim l = [] → forallb is_space l = true.
Proof. induction l as [|c l IH]; cbn; [done|]. destruct (is_space c); [auto|done]. Qed.

Lemma ltrim_not_nil_head l c l' : ltrim l = c :: l' → is_space c = false.
Proof.
  induction l as [|d l IH]; cbn; [done|].
  destruct (is_space d) eqn:E; [done|]. by intros [= <- <-].
Qed.

Lemma ltrim_id l : (∀ c l', l = c :: l' → is_space c = false) → ltrim l = l.
Proof. destruct l as [|c l]; cbn; [done|]. intros H. by rewrite (H c l eq_refl). Qed.

Lemma ltrim_suffix l : ∃ p, l = p ++ ltrim l ∧ forallb is_space p = true.
Proof.
  induction l as [|c l (p & Hp & Hs)]; cbn; [by exists []|].
  destruct (is_space c) eqn:E; [|by exists []].
  exists (c :: p). cbn. rewrite E. split; [by rewrite <- Hp|done].
Qed.

(** A string strips to nothing exactly when it is all white space. *)
Lemma blank_spec s : blank s = forallb is_space (chars s).
Proof.
  unfold blank, truthy_s, strip. rewrite negb_involutive.
  destruct (String.eqb_spec (of_chars (rev (ltrim (rev (ltrim (chars s)))))) "") as [E|E].
  - symmetry. destruct (ltrim_suffix (chars s)) as (p & Hp & Hsp).
    assert (ltrim (rev (ltrim (chars s))) = []) as H.
    { apply (f_equal chars) in E. rewrite chars_of_chars in E. cbn in E.
      destruct (ltrim (rev (ltrim (chars s)))); [done|].
      cbn in E. by destruct (rev l). }
    apply ltrim_nil in H. rewrite Hp, forallb_app, Hsp. cbn.
    rewrite forallb_forall in H |- *. intros x Hx. apply H. by rewrite <- in_rev.
  - destruct (forallb is_space (chars s)) eqn:F; [|done].
    exfalso. apply E. by rewrite (ltrim_all _ F).
Qed.

(** A character of a string that is not white space keeps it from being blank. *)
Lemma not_blank_cons c s : is_space c = false → blank (String c s) = false.
Proof. intros H. rewrite blank_spec. cbn. by rewrite H. Qed.

Lemma ltrim_idem l : ltrim (ltrim l) = ltrim l.
Proof. apply ltrim_id. intros c l'. apply ltrim_not_nil_head. Qed.

(** [s.strip().strip() == s.strip()] *)
Lemma strip_strip s : strip (strip s) = strip s.
Proof.
  unfold strip. rewrite chars_of_chars. do 2 f_equal.
  set (m := ltrim (chars s)). set (r := ltrim (rev m)).
  assert (ltrim (rev r) = rev r) as Hr.
  { apply ltrim_id. intros c l' E.
    destruct (ltrim_suffix (rev m)) as (p & Hp & _). fold r in Hp.
    apply (f_equal (@rev ascii)) in Hp. rewrite rev_involutive, rev_app_distr, E in Hp.
    cbn in Hp. unfold m in Hp. by eapply ltrim_not_nil_head. }
  rewrite Hr, rev_involutive. unfold r. by rewrite ltrim_idem.
Qed.

Lemma truthy_s_false s : truthy_s s = false ↔ s = "".
Proof. unfold truthy_s. rewrite negb_false_iff. apply String.eqb_eq. Qed.

Lemma blank_empty : blank "" = true.
Proof. reflexivity. Qed.

Lemma not_blank_nonempty s : blank s = false → s ≠ "".
Proof. intros H ->. discriminate H. Qed.

(** A matched identifier is non-empty and bounded. *)
Lemma fullmatch_length h t m s :
  fullmatch h t m s = true → (1 ≤ String.length s ≤ m + 1)%nat.
Proof.
  unfold fullmatch. intros H.
  assert (String.length s = length (chars s)) as ->.
  { clear H. induction s; cbn; congruence. }
  destruct (chars s) as [|c l]; [done|].
  apply andb_true_iff in H as [_ H%Nat.leb_le]. cbn. lia.
Qed.

Lemma fullmatch_chars (P : ascii → Prop) h t m s :
  (∀ c, h c = true → P c) → (∀ c, t c = true → P c) →
  fullmatch h t m s = true → Forall P (chars s).
Proof.
  unfold fullmatch. intros Hh Ht H. destruct (chars s) as [|c l]; [done|].
  apply andb_true_iff in H as [[Hc Hl]%andb_true_iff _].
  constructor; [auto|]. rewrite forallb_forall in Hl.
  apply List.Forall_forall. auto.
Qed.

(** [sorted] returns the same elements. *)
Lemma insert_sorted_perm {A} (key : A → string) x l :
  insert_sorted key x l ≡ₚ x :: l.
Proof.
  induction l as [|y l IH]; cbn; [done|].
  destruct (str_le (key y) (key x)); [|done].
  rewrite IH. apply Permutation.perm_swap.
Qed.

Lemma sorted_on_perm {A} (key : A → string) l : sorted_on key l ≡ₚ l.
Proof.
  unfold sorted_on.
  enough (∀ acc, fold_left (λ acc x, insert_sorted key x acc) l acc ≡ₚ l ++ acc) as H.
  { rewrite H. by rewrite app_nil_r. }
  induction l as [|x l IH]; intros acc; cbn; [done|].
  rewrite IH, insert_sorted_perm. by rewrite <- Permutation.Permutation_middle.
Qed.

Lemma sorted_perm l : sorted l ≡ₚ l.
Proof. apply sorted_on_perm. Qed.

Lemma elem_of_sorted x l : x ∈ sorted l ↔ x ∈ l.
Proof. by rewrite sorted_perm. Qed.

Lemma sorted_nil_iff l : sorted l = [] ↔ l = [].
Proof.
  split; [|by intros ->]. intros H. apply Permutation.Permutation_nil.
  by rewrite <- H, sorted_perm.
Qed.

(** ** [sorted] changes nothing in a sorted list *)
Lemma ascii_compare_trans_le a b c :
  Ascii.compare a b ≠ Gt → Ascii.compare b c ≠ Gt →
  Ascii.compare a c ≠ Gt ∧ (Ascii.compare a c = Eq → Ascii.compare a b = Eq ∧ Ascii.compare b c = Eq).
Proof. unfold Ascii.compare. rewrite !N.compare_gt_iff, !N.compare_eq_iff. lia. Qed.

Lemma str_le_trans a b c : str_le a b = true → str_le b c = true → str_le a c = true.
Proof.
  unfold str_le, String.leb. revert b c.
  induction a as [|x a IH]; intros [|y b] [|z c]; cbn; try done.
  destruct (Ascii.compare x y) eqn:E1, (Ascii.compare y z) eqn:E2; try done;
    destruct (ascii_compare_trans_le x y z) as [H1 H2]; rewrite ?E1, ?E2; try done;
    destruct (Ascii.compare x z) eqn:E3; try done;
    destruct (H2 eq_refl); try congruence; apply IH.
Qed.

Lemma str_le_total a b : str_le a b = true ∨ str_le b a = true.
Proof. unfold str_le. destruct (String.leb_total a b); auto. Qed.

(** In order: each element is at most all the later ones. *)
Fixpoint in_order (l : list string) : Prop :=
  match l with [] => True | x :: l' => (∀ y, y ∈ l' → str_le x y = true) ∧ in_order l' end.

Lemma insert_in_order x l : in_order l → in_order (insert_sorted id x l).
Proof.
  induction l as [|y l IH]; cbn.
  { split; [|done]. by intros y ?%not_elem_of_nil. }
  intros [Hy Hl]. unfold id in *. destruct (str_le y x) eqn:E; cbn.
  - split; [|by apply IH]. intros z Hz. rewrite insert_sorted_perm in Hz.
    apply elem_of_cons in Hz as [-> | Hz]; auto.
  - destruct (str_le_total x y) as [Hx|Hx]; [|congruence]. split; [|done].
    intros z [-> | Hz]%elem_of_cons; [done|]. eapply str_le_trans; eauto.
Qed.

Lemma sorted_in_order l : in_order (sorted l).
Proof.
  unfold sorted, sorted_on.
  enough (∀ acc, in_order acc → in_order (fold_left (λ acc x, insert_sorted id x acc) l acc)) as H
    by by apply H.
  induction l as [|x l IH]; cbn; [done|]. intros acc H. by apply IH, insert_in_order.
Qed.

Lemma insert_last x l : (∀ y, y ∈ l → str_le y x = true) → insert_sorted id x l = l ++ [x].
Proof.
  induction l as [|y l IH]; intros H; cbn; [done|]. unfold id in *.
  rewrite H by set_solver. f_equal. apply IH. set_solver.
Qed.

Lemma sorted_of_in_order l : in_order l → sorted l = l.
Proof.
  unfold sorted, sorted_on. intros Hl.
  enough (∀ acc, (∀ x y, x ∈ acc → y ∈ l → str_le x y = true) →
    fold_left (λ acc x, insert_sorted id x acc) l acc = acc ++ l) as H.
  { rewrite H; [done|]. by intros x y ?%not_elem_of_nil. }
  induction l as [|x l IH]; intros acc H; cbn; [by rewrite app_nil_r|].
  destruct Hl as [Hx Hl]. rewrite insert_last by (intros y Hy; apply H; set_solver).
  rewrite IH; [by rewrite <- (assoc_L (++))|done|]. intros a b Ha Hb.
  apply elem_of_app in Ha as [Ha|Ha%list_elem_of_singleton]; [apply H; set_solver|subst; auto].
Qed.

Lemma sorted_idem l : sorted (sorted l) = sorted l.
Proof. apply sorted_of_in_order, sorted_in_order. Qed.

(** [sorted({s.strip() for s in l})] *)
Definition normal_strs (l : list string) : list string := sorted (remove_dups (map strip l)).

Lemma elem_of_normal_strs s l : s ∈ normal_strs l ↔ ∃ r, r ∈ l ∧ s = strip r.
Proof.
  unfold normal_strs. rewrite elem_of_sorted, elem_of_remove_dups, list_elem_of_fmap. naive_solver.
Qed.

Lemma remove_dups_NoDup {A} `{EqDecision A} (l : list A) : NoDup l → remove_dups l = l.
Proof.
  induction 1 as [|x l Hx Hl IH]; cbn; [done|]. case_decide; [done|]. by rewrite IH.
Qed.

Lemma normal_strs_idem l : normal_strs (normal_strs l) = normal_strs l.
Proof.
  assert (map strip (normal_strs l) = normal_strs l) as E.
  { rewrite <- (map_id (normal_strs l)) at 2. apply map_ext_in. intros s Hs.
    apply list_elem_of_In, elem_of_normal_strs in Hs as (r & _ & ->). apply strip_strip. }
  unfold normal_strs at 1. rewrite E, remove_dups_NoDup; [apply sorted_idem|].
  unfold normal_strs. rewrite sorted_perm. apply NoDup_remove_dups.
Qed.
