(* ===== verification/Itertools.v ===== *)
(** [itertools.permutations] and [itertools.product], in their order, and a stable
    [sorted] with an integer key.

    Grouping by a string key, as [groups.setdefault(key, []).append(item)] does: the
    groups in the order of their first item, each with its items in their order. *)
From stdpp Require Import sorting.
From S2P Require Import Prelude PyString.

(** [itertools.permutations(l, r)], in its order *)
Fixpoint permutations {A} (r : nat) (l : list A) : list (list A) :=
  match r with
  | O => [[]]
  | S r' => concat (imap (λ i x, map (cons x) (permutations r' (delete i l))) l)
  end.
(** [itertools.product] of the lists *)
Fixpoint product {A} (ls : list (list A)) : list (list A) :=
  match ls with
  | [] => [[]]
  | l :: ls' => concat (map (λ x, map (cons x) (product ls')) l)
  end.

(** [sorted(l, key=key)] is stable. *)
Fixpoint insert_by {A} (key : A → Z) (x : A) (l : list A) : list A :=
  match l with
  | [] => [x]
  | y :: l' => if key x <=? key y then x :: l else y :: insert_by key x l'
  end.
Definition with_key {A} (key : A → Z) (x : A) : Z * A := (key x, x).
(** The keys are computed once. *)
Definition sorted_by {A} (key : A → Z) (l : list A) : list A :=
  map snd (foldr (insert_by fst) [] (map (with_key key) l)).

(** ** Arrangements *)
Lemma permutations_spec {A} r (l p : list A) :
  p ∈ permutations r l ↔ length p = r ∧ p ⊆+ l.
Proof.
  revert l p. induction r as [|r IH]; intros l p; cbn.
  { rewrite list_elem_of_singleton. split; [intros ->; split; [done|apply submseteq_nil_l]|].
    intros [H _]. by apply nil_length_inv. }
  rewrite list_elem_of_In, in_concat. split.
  - intros (ps & Hps%list_elem_of_In & Hp%list_elem_of_In).
    apply elem_of_lookup_imap in Hps as (i & x & -> & Hi).
    apply list_elem_of_fmap in Hp as (p' & -> & [Hl Hs]%IH). cbn. split; [congruence|].
    rewrite (delete_Permutation l i x Hi). by constructor.
  - intros [Hl Hs]. destruct p as [|x p']; [done|]. injection Hl as Hl.
    assert (x ∈ l) as [i Hi]%list_elem_of_lookup_1 by (eapply elem_of_submseteq; [left|exact Hs]).
    exists (map (cons x) (permutations r (delete i l))). split; apply list_elem_of_In.
    + apply elem_of_lookup_imap. eauto.
    + apply list_elem_of_fmap. exists p'. split; [done|]. apply IH. split; [done|].
      rewrite (delete_Permutation l i x Hi) in Hs. by apply (submseteq_app_inv_l _ _ [x]) in Hs.
Qed.

Lemma product_spec {A} (ls : list (list A)) t : t ∈ product ls ↔ Forall2 (λ x l, x ∈ l) t ls.
Proof.
  revert t. induction ls as [|l ls IH]; intros t; cbn.
  { rewrite list_elem_of_singleton. split; [intros ->; constructor|by inversion 1]. }
  rewrite list_elem_of_In, in_concat. split.
  - intros (ts & Hts%list_elem_of_In & Ht%list_elem_of_In).
    apply list_elem_of_fmap in Hts as (x & -> & Hx).
    apply list_elem_of_fmap in Ht as (t' & -> & Ht%IH). by constructor.
  - inversion 1 as [|x l' t' ls' Hx Ht]; subst.
    exists (map (cons x) (product ls)). split; apply list_elem_of_In; apply list_elem_of_fmap.
    + eauto.
    + exists t'. split; [done|]. by apply IH.
Qed.

(** ** Stable sorting *)
Lemma insert_by_perm {A} (key : A → Z) x l : insert_by key x l ≡ₚ x :: l.
Proof.
  induction l as [|y l IH]; cbn; [done|]. destruct (key x <=? key y); [done|].
  rewrite IH. apply Permutation_swap.
Qed.
Lemma insert_by_sorted {A} (key : A → Z) x l : StronglySorted (λ a b, key a ≤ key b) l →
  StronglySorted (λ a b, key a ≤ key b) (insert_by key x l).
Proof.
  induction 1 as [|y l Hs IH Hy]; cbn; [by repeat constructor|].
  destruct (Z.leb_spec (key x) (key y)).
  - constructor; [by constructor|]. constructor; [lia|].
    eapply list.Forall_impl; [exact Hy|]. cbn. lia.
  - constructor; [done|]. apply list.Forall_forall. intros z. rewrite insert_by_perm.
    rewrite list.Forall_forall in Hy. intros [->|Hz]%elem_of_cons; [lia|auto].
Qed.
Lemma insert_with_key {A} (key : A → Z) x l :
  insert_by fst (with_key key x) (map (with_key key) l) = map (with_key key) (insert_by key x l).
Proof. induction l as [|y l IH]; cbn; [done|]. destruct (key x <=? key y); cbn; by rewrite ?IH. Qed.
Lemma sorted_by_eq {A} (key : A → Z) l : sorted_by key l = foldr (insert_by key) [] l.
Proof.
  unfold sorted_by. assert (foldr (insert_by fst) [] (map (with_key key) l) = map (with_key key) (foldr (insert_by key) [] l)) as ->.
  { induction l as [|x l IH]; cbn; [done|]. by rewrite IH, insert_with_key. }
  by rewrite map_map, map_id.
Qed.
Lemma sorted_by_perm {A} (key : A → Z) l : sorted_by key l ≡ₚ l.
Proof. rewrite sorted_by_eq. induction l as [|x l IH]; cbn; [done|]. by rewrite insert_by_perm, IH. Qed.
Lemma sorted_by_sorted {A} (key : A → Z) l : StronglySorted (λ a b, key a ≤ key b) (sorted_by key l).
Proof. rewrite sorted_by_eq. induction l as [|x l IH]; cbn; [constructor|]. by apply insert_by_sorted. Qed.
Lemma StronglySorted_sublist {A} (R : A → A → Prop) l1 l2 :
  l1 `sublist_of` l2 → StronglySorted R l2 → StronglySorted R l1.
Proof.
  induction 1 as [|x l1 l2 Hs IH|x l1 l2 Hs IH]; intros H; [done| |]; inversion H as [|? ? Hl Hx]; subst.
  - constructor; [by apply IH|]. rewrite list.Forall_forall in *. intros y Hy. apply Hx.
    eapply elem_of_submseteq; [exact Hy|]. by apply sublist_submseteq.
  - by apply IH.
Qed.

(** * Grouping *)
Section grouping.
Context {A : Type} (key : A → string).

Fixpoint append_at (c : A) (groups : list (string * list A)) : list (string * list A) :=
  match groups with
  | [] => [(key c, [c])]
  | (id, g) :: groups' =>
      if String.eqb id (key c) then (id, g ++ [c]) :: groups' else (id, g) :: append_at c groups'
  end.
Definition group_on (l : list A) : list (string * list A) := foldl (λ gs c, append_at c gs) [] l.

(** ** What the groups hold *)
Definition at_key (id : string) (l : list A) : list A :=
  List.filter (λ c, String.eqb (key c) id) l.
Lemma at_key_app id l l' : at_key id (l ++ l') = at_key id l ++ at_key id l'.
Proof. apply List.filter_app. Qed.
Lemma elem_at_key id c l : c ∈ at_key id l ↔ c ∈ l ∧ key c = id.
Proof. unfold at_key. by rewrite list_elem_of_In, filter_In, <- list_elem_of_In, String.eqb_eq. Qed.

(** The groups hold the items key by key. *)
Record grouped (gs : list (string * list A)) (l : list A) : Prop := {
  gr_nodup : NoDup (map fst gs);
  gr_group : ∀ id g, (id, g) ∈ gs → g = at_key id l ∧ g ≠ [];
  gr_all : ∀ c, c ∈ l → key c ∈ map fst gs;
  gr_length : length l = sum_list (map (λ ig, length ig.2) gs) }.

Lemma append_at_keys c gs : ∀ id, id ∈ map fst (append_at c gs) ↔ id = key c ∨ id ∈ map fst gs.
Proof.
  intros id. induction gs as [|[i g] gs IH]; cbn.
  { rewrite list_elem_of_singleton, list.elem_of_nil. tauto. }
  destruct (String.eqb_spec i (key c)) as [->|N]; cbn; rewrite !elem_of_cons; [tauto|].
  rewrite IH. tauto.
Qed.
Lemma append_at_groups c gs id g : NoDup (map fst gs) → (id, g) ∈ append_at c gs →
  (id ≠ key c ∧ (id, g) ∈ gs) ∨
  (id = key c ∧ ((∃ g', (id, g') ∈ gs ∧ g = g' ++ [c]) ∨ (id ∉ map fst gs ∧ g = [c]))).
Proof.
  induction gs as [|[i h] gs IH]; cbn; intros Hn Hin.
  { apply list_elem_of_singleton in Hin as [= -> ->]. right. split; [done|]. right. split; [apply not_elem_of_nil|done]. }
  apply list.NoDup_cons in Hn as [Hni Hn]. destruct (String.eqb_spec i (key c)) as [->|N].
  - apply elem_of_cons in Hin as [[= -> ->]|Hin].
    + right. split; [done|]. left. exists h. split; [left|done].
    + left. split; [|by right]. intros ->. apply Hni. by apply (list_elem_of_fmap_2 fst) in Hin.
  - apply elem_of_cons in Hin as [[= -> ->]|Hin]; [left; split; [done|left]|].
    destruct (IH Hn Hin) as [[? ?]|[-> [(g' & ? & ->)|[? ->]]]].
    + left. split; [done|by right].
    + right. split; [done|]. left. exists g'. split; [by right|done].
    + right. split; [done|]. right. split; [|done]. by intros [?|?]%elem_of_cons.
Qed.
Lemma append_at_ok c gs l : grouped gs l → grouped (append_at c gs) (l ++ [c]).
Proof.
  intros [Hn Hg Ha Hl]. split.
  - clear -Hn. induction gs as [|[i g] gs IH]; cbn; [apply NoDup_singleton|].
    cbn in Hn. apply list.NoDup_cons in Hn as [Hni Hn].
    destruct (String.eqb_spec i (key c)) as [->|N]; cbn; apply list.NoDup_cons; [done|].
    split; [|by apply IH]. by intros [?|?]%append_at_keys.
  - intros id g Hin. rewrite at_key_app.
    apply append_at_groups in Hin as [[Hne Hin]|[-> [(g' & Hin & ->)|[Hni ->]]]]; [| | |done].
    + apply Hg in Hin as [-> ?]. cbn. rewrite (proj2 (String.eqb_neq _ _)) by done. by rewrite app_nil_r.
    + apply Hg in Hin as [-> ?]. cbn. rewrite String.eqb_refl. split; [done|]. by destruct (at_key _ _).
    + cbn. rewrite String.eqb_refl. split; [|done].
      destruct (at_key (key c) l) as [|c' ?] eqn:E; [done|]. exfalso. apply Hni.
      assert (c' ∈ at_key (key c) l) as [? <-]%elem_at_key by (rewrite E; left). by apply Ha.
  - intros c' [Hin| ->%list_elem_of_singleton]%elem_of_app; apply append_at_keys; auto.
  - rewrite length_app, Hl. cbn. clear. induction gs as [|[i g] gs IH]; cbn; [done|].
    destruct (String.eqb i (key c)); cbn; [rewrite length_app; cbn|]; lia.
Qed.
Lemma group_on_ok l : grouped (group_on l) l.
Proof.
  unfold group_on. assert (∀ gs l0, grouped gs l0 → grouped (foldl (λ gs c, append_at c gs) gs l) (l0 ++ l)) as H.
  { induction l as [|c l IH]; intros gs l0 H; cbn; [by rewrite app_nil_r|].
    rewrite cons_middle, (assoc_L (++)). by apply IH, append_at_ok. }
  apply (H [] []). split; cbn; [constructor|..]; try done; by intros ? ?%not_elem_of_nil || intros ? ? ?%not_elem_of_nil.
Qed.

Lemma append_at_perm c gs : concat (map snd (append_at c gs)) ≡ₚ c :: concat (map snd gs).
Proof.
  induction gs as [|[i g] gs IH]; cbn; [done|]. destruct (String.eqb i (key c)); cbn.
  - rewrite <- (assoc_L (++)). cbn. by rewrite <- Permutation_middle.
  - by rewrite IH, <- Permutation_middle.
Qed.
Lemma group_on_perm l : concat (map snd (group_on l)) ≡ₚ l.
Proof.
  unfold group_on. assert (∀ gs, concat (map snd (foldl (λ gs c, append_at c gs) gs l)) ≡ₚ
    concat (map snd gs) ++ l) as H; [|apply (H [])].
  induction l as [|c l IH]; intros gs; cbn; [by rewrite app_nil_r|].
  by rewrite IH, append_at_perm, <- Permutation_middle.
Qed.
End grouping.
