(* ===== verification/PyValue.v ===== *)
(** Python values the code handles without static types: the JSON documents it
    loads, stores and exchanges, tuples, and the conversions [str], [int],
    [bool], [list], [dict], [==], [repr], [json.loads(json.dumps(v))] and
    the canonical [json.dumps(v, sort_keys=True, separators=(",", ":"))].

    Dictionaries keep insertion order and have string keys (as every decoded
    JSON object has); floats are IEEE 754 binary64. *)
From Stdlib Require Import Ascii SpecFloat.
From S2P Require Import Prelude PyString.

#[warnings="-register-all"]
Inductive pyval :=
  | VNone
  | VBool (b : bool)
  | VInt (z : Z)
  | VFloat (f : spec_float)
  | VStr (s : string)
  | VList (l : list pyval)
  | VTuple (l : list pyval)
  | VDict (kvs : list (string * pyval)).

Section pyval_ind.
Variable P : pyval → Prop.
Hypothesis HNone : P VNone.
Hypothesis HBool : ∀ b, P (VBool b).
Hypothesis HInt : ∀ z, P (VInt z).
Hypothesis HFloat : ∀ f, P (VFloat f).
Hypothesis HStr : ∀ s, P (VStr s).
Hypothesis HList : ∀ l, Forall P l → P (VList l).
Hypothesis HTuple : ∀ l, Forall P l → P (VTuple l).
Hypothesis HDict : ∀ kvs, Forall (λ kv, P kv.2) kvs → P (VDict kvs).

(** Induction that reaches the elements of containers. *)
Fixpoint pyval_rec_ind (v : pyval) : P v :=
  let fix all l : Forall P l :=
    match l with
    | [] => List.Forall_nil _
    | x :: l' => List.Forall_cons _ _ _ (pyval_rec_ind x) (all l')
    end in
  let fix all_kv l : Forall (λ kv, P kv.2) l :=
    match l with
    | [] => List.Forall_nil _
    | x :: l' => List.Forall_cons _ _ _ (pyval_rec_ind x.2) (all_kv l')
    end in
  match v with
  | VNone => HNone | VBool b => HBool b | VInt z => HInt z
  | VFloat f => HFloat f | VStr s => HStr s
  | VList l => HList l (all l) | VTuple l => HTuple l (all l)
  | VDict kvs => HDict kvs (all_kv kvs)
  end.
End pyval_ind.

(** ** Dictionaries *)
Abbreviation pydict := (list (string * pyval)).

Fixpoint dict_get (k : string) (d : pydict) : option pyval :=
  match d with
  | [] => None
  | (k', v) :: d' => if String.eqb k' k then Some v else dict_get k d'
  end.
Fixpoint dict_set (k : string) (v : pyval) (d : pydict) : pydict :=
  match d with
  | [] => [(k, v)]
  | (k', v') :: d' => if String.eqb k' k then (k, v) :: d' else (k', v') :: dict_set k v d'
  end.
Definition dict_update (d e : pydict) : pydict :=
  fold_left (λ acc kv, dict_set kv.1 kv.2 acc) e d.
Definition keys (d : pydict) : list string := map fst d.

(** ** Floats *)
Definition float_is_finite (f : spec_float) : bool :=
  match f with S754_zero _ | S754_finite _ _ _ => true | _ => false end.

(** Exact comparison of a float with an integer. *)
Definition float_eq_Z (f : spec_float) (z : Z) : bool :=
  match f with
  | S754_zero _ => z =? 0
  | S754_finite s m e =>
      let v := if s then Zneg m else Zpos m in
      if 0 <=? e then v * 2 ^ e =? z else v =? z * 2 ^ (- e)
  | _ => false
  end.
Definition float_trunc (f : spec_float) : Z :=
  match f with
  | S754_finite s m e =>
      let v := if 0 <=? e then Zpos m * 2 ^ e else Zpos m / 2 ^ (- e) in
      if s then - v else v
  | _ => 0
  end.

(** Round-half-even division, for [den > 0]. *)
Definition div_half_even (num den : Z) : Z :=
  let q := num / den in let r := num mod den in
  if 2 * r <? den then q
  else if den <? 2 * r then q + 1
  else if Z.even q then q else q + 1.
(** The positive rational [num/den] as a binary64 (mantissa, exponent). *)
Definition round64 (num den : Z) : Z * Z :=
  let t := Z.log2 num - Z.log2 den in
  let e1 := if num * 2 ^ Z.max (- t) 0 <? den * 2 ^ Z.max t 0 then t - 53 else t - 52 in
  let e := Z.max e1 (-1074) in
  (div_half_even (num * 2 ^ Z.max (- e) 0) (den * 2 ^ Z.max e 0), e).
Definition same_float (a b : Z * Z) : bool :=
  let lo := Z.min a.2 b.2 in a.1 * 2 ^ (a.2 - lo) =? b.1 * 2 ^ (b.2 - lo).

(** Decimal exponent [k] with [10^k <= num/den < 10^(k+1)]. *)
Definition pow10_num (k : Z) : Z := 10 ^ Z.max k 0.
Definition ge_pow10 (num den k : Z) : bool :=
  den * pow10_num k <=? num * pow10_num (- k).
Definition dec_exponent (num den : Z) : Z :=
  let t := ((Z.log2 num - Z.log2 den) * 30103) / 100000 in
  if ge_pow10 num den (t + 2) then t + 2
  else if ge_pow10 num den (t + 1) then t + 1
  else if ge_pow10 num den t then t else t - 1.

(** The shortest decimal that reads back as the float: the first of 1, 2, ...,
    17 digits whose nearest decimal does.  Below a power of two the floats are
    denser, so there the next decimal above is a second candidate. *)
Definition carry10 (n k d : Z) : Z * Z :=
  if d =? 10 ^ n then (10 ^ (n - 1), k + 1) else (d, k).
Definition reads_back (n : Z) (dk target : Z * Z) : bool :=
  same_float (round64 (dk.1 * pow10_num (dk.2 - n + 1)) (pow10_num (n - 1 - dk.2))) target.
Fixpoint shortest (tries : nat) (n num den k : Z) (target : Z * Z) : Z * Z :=
  let d := div_half_even (num * pow10_num (n - 1 - k)) (den * pow10_num (k - n + 1)) in
  let c1 := carry10 n k d in
  let c2 := carry10 n k (d + 1) in
  match tries with
  | O => c1
  | S tries' =>
      if reads_back n c1 target then c1
      else if reads_back n c2 target then c2
      else shortest tries' (n + 1) num den k target
  end.
Fixpoint strip_zeros (fuel : nat) (d : Z) : Z :=
  match fuel with
  | O => d
  | S f => if d mod 10 =? 0 then strip_zeros f (d / 10) else d
  end.
Definition zeros (n : Z) : string := of_chars (repeat (chr 48) (Z.to_nat n)).
Definition take_s (n : Z) (s : string) : string := of_chars (firstn (Z.to_nat n) (chars s)).

(** [float.__repr__] of a positive finite float. *)
Definition pos_float_repr (m e : Z) : string :=
  let num := m * 2 ^ Z.max e 0 in let den := 2 ^ Z.max (- e) 0 in
  let '(d0, k) := shortest 16 1 num den (dec_exponent num den) (m, e) in
  let s := nat_str (strip_zeros 17 d0) in
  let n := slen s in
  if (-4 <=? k) && (k <? 16) then
    if k <? 0 then ("0." ++ zeros (- k - 1) ++ s)%string
    else if n <=? k + 1 then (s ++ zeros (k + 1 - n) ++ ".0")%string
    else (take_s (k + 1) s ++ "." ++ drop_s (Z.to_nat (k + 1)) s)%string
  else
    let mant := if n =? 1 then s else (take_s 1 s ++ "." ++ drop_s 1 s)%string in
    let a := Z.abs k in
    (mant ++ "e" ++ (if (k <? 0)%Z then "-" else "+") ++
     (if (a <? 10)%Z then "0" else "") ++ nat_str a)%string.
Definition float_repr (f : spec_float) : string :=
  match f with
  | S754_zero s => if s then "-0.0" else "0.0"
  | S754_infinity s => if s then "-inf" else "inf"
  | S754_nan => "nan"
  | S754_finite s m e => ((if s then "-" else "") ++ pos_float_repr (Zpos m) e)%string
  end.

(** ** Type tests, truth and equality *)
(** [type(v) is int] and [isinstance(v, int)] *)
Definition type_is_int (v : pyval) : bool := match v with VInt _ => true | _ => false end.
Definition isinstance_int (v : pyval) : bool :=
  match v with VInt _ | VBool _ => true | _ => false end.
Definition is_str (v : pyval) : bool := match v with VStr _ => true | _ => false end.
Definition is_dict (v : pyval) : bool := match v with VDict _ => true | _ => false end.
Definition is_none (v : pyval) : bool := match v with VNone => true | _ => false end.
Definition is_true (v : pyval) : bool := match v with VBool true => true | _ => false end.
Definition is_false (v : pyval) : bool := match v with VBool false => true | _ => false end.
Definition as_str (v : pyval) : option string := match v with VStr s => Some s | _ => None end.

(** [bool(v)] *)
Definition truthy (v : pyval) : bool :=
  match v with
  | VNone => false
  | VBool b => b
  | VInt z => negb (z =? 0)
  | VFloat (S754_zero _) => false
  | VFloat _ => true
  | VStr s => truthy_s s
  | VList l | VTuple l => match l with [] => false | _ => true end
  | VDict d => match d with [] => false | _ => true end
  end.

(** [a or b] *)
Definition py_or (a b : pyval) : pyval := if truthy a then a else b.

Definition of_bool (b : bool) : Z := if b then 1 else 0.

(** [a == b]: booleans are the integers 0 and 1, lists and tuples differ, the
    order of dictionary entries does not matter. *)
Fixpoint py_eqb (a b : pyval) {struct a} : bool :=
  let fix eq_list xs ys :=
    match xs, ys with
    | [], [] => true
    | x :: xs', y :: ys' => py_eqb x y && eq_list xs' ys'
    | _, _ => false
    end in
  let fix eq_entries xs ys :=
    match xs with
    | [] => true
    | (k, x) :: xs' =>
        match dict_get k ys with
        | Some y => py_eqb x y && eq_entries xs' ys
        | None => false
        end
    end in
  match a, b with
  | VNone, VNone => true
  | VBool x, VBool y => Bool.eqb x y
  | VInt x, VInt y => x =? y
  | VBool x, VInt y => of_bool x =? y
  | VInt x, VBool y => x =? of_bool y
  | VFloat x, VFloat y => SFeqb x y
  | VFloat x, VInt y => float_eq_Z x y
  | VInt x, VFloat y => float_eq_Z y x
  | VFloat x, VBool y => float_eq_Z x (of_bool y)
  | VBool x, VFloat y => float_eq_Z y (of_bool x)
  | VStr x, VStr y => String.eqb x y
  | VList x, VList y => eq_list x y
  | VTuple x, VTuple y => eq_list x y
  | VDict x, VDict y => (length x =? length y)%nat && eq_entries x y
  | _, _ => false
  end.

(** ** Conversions *)
(** [repr(v)] and [str(v)] *)
Fixpoint py_repr (v : pyval) : string :=
  match v with
  | VNone => "None"
  | VBool b => if b then "True" else "False"
  | VInt z => z_str z
  | VFloat f => float_repr f
  | VStr s => repr_str s
  | VList l => ("[" ++ join ", " (map py_repr l) ++ "]")%string
  | VTuple [x] => ("(" ++ py_repr x ++ ",)")%string
  | VTuple l => ("(" ++ join ", " (map py_repr l) ++ ")")%string
  | VDict d =>
      ("{" ++ join ", " (map (λ kv, (repr_str kv.1 ++ ": " ++ py_repr kv.2)%string) d) ++ "}")%string
  end.
Definition py_str (v : pyval) : string :=
  match v with VStr s => s | _ => py_repr v end.

(** [str(exc)] of a caught exception *)
Definition exn_text (e : exn) : string :=
  if isinstance e KeyError then repr_str (exn_msg e) else exn_msg e.
(** [int(v)] *)
Definition py_int (v : pyval) : result Z :=
  match v with
  | VInt z => Ok z
  | VBool b => Ok (of_bool b)
  | VFloat (S754_nan) => raise ValueError "cannot convert float NaN to integer"
  | VFloat (S754_infinity _) => raise OverflowError "cannot convert float infinity to integer"
  | VFloat f => Ok (float_trunc f)
  | VStr s =>
      match parse_int s with
      | Some z => Ok z
      | None => raise ValueError "invalid literal for int() with base 10"
      end
  | _ => raise TypeError "int() argument must be a string, a bytes-like object or a real number"
  end.

(** [iter(v)], as in [list(v)] and [for x in v] *)
Definition py_iter (v : pyval) : result (list pyval) :=
  match v with
  | VList l | VTuple l => Ok l
  | VStr s => Ok (map (λ c, VStr (String c "")) (chars s))
  | VDict d => Ok (map (λ kv, VStr kv.1) d)
  | _ => raise TypeError "object is not iterable"
  end.

(** [dict(v)]: a copy of a dictionary, or a sequence of (string, value) pairs.
    (A pair with another kind of key is outside the model and an error.) *)
Definition dict_item (v : pyval) : result (string * pyval) :=
  match v with
  | VList [VStr k; x] | VTuple [VStr k; x] => Ok (k, x)
  | VStr s =>
      match chars s with
      | [a; b] => Ok (String a "", VStr (String b ""))
      | _ => raise ValueError "dictionary update sequence element has wrong length"
      end
  | VList [_; _] | VTuple [_; _] => raise TypeError "dictionary key"
  | VList _ | VTuple _ => raise ValueError "dictionary update sequence element has wrong length"
  | _ => raise TypeError "cannot convert dictionary update sequence element to a sequence"
  end.
Definition py_dict (v : pyval) : result pydict :=
  match v with
  | VDict d => Ok d
  | VNone | VBool _ | VInt _ | VFloat _ => raise TypeError "object is not iterable"
  | _ => items ← py_iter v; kvs ← mapR dict_item items; Ok (dict_update [] kvs)
  end.

(** [v[k]] for a string key *)
Definition getitem (v : pyval) (k : string) : result pyval :=
  match v with
  | VDict d => match dict_get k d with Some x => Ok x | None => raise KeyError k end
  | _ => raise TypeError "indices must be integers or slices, not str"
  end.
(** [v.get(k)] and [v.get(k, default)] *)
Definition py_get (v : pyval) (k : string) : result (option pyval) :=
  match v with
  | VDict d => Ok (dict_get k d)
  | _ => raise AttributeError "get"
  end.
(** [d.get(k)]: [None] when absent *)
Definition get_or_none (k : string) (d : pydict) : pyval := default VNone (dict_get k d).

(** [k in d] for a dictionary, [v in {"a", ...}] for a set of strings (an
    unhashable [v] raises), [v in l] for a list *)
Definition dict_has (k : string) (d : pydict) : bool :=
  match dict_get k d with Some _ => true | None => false end.
Fixpoint hashable (v : pyval) : bool :=
  match v with
  | VList _ | VDict _ => false
  | VTuple l => forallb hashable l
  | _ => true
  end.
Definition in_strs (v : pyval) (l : list string) : bool :=
  match v with VStr s => bool_decide (s ∈ l) | _ => false end.
Definition in_str_set (v : pyval) (l : list string) : result bool :=
  if hashable v then Ok (in_strs v l) else raise TypeError "unhashable type".
Definition in_list (v : pyval) (l : list pyval) : bool := existsb (py_eqb v) l.

(** ** JSON *)
(** [json.loads(json.dumps(v, sort_keys=True))] as documents: tuples come back
    as lists and the entries of dictionaries in key order. *)
Fixpoint json_sorted (v : pyval) : pyval :=
  match v with
  | VList l | VTuple l => VList (map json_sorted l)
  | VDict d => VDict (sorted_on fst (map (λ kv, (kv.1, json_sorted kv.2)) d))
  | _ => v
  end.

(** [json.loads(json.dumps(v, allow_nan=False))] as documents: tuples come
    back as lists, the rest is unchanged, a non-finite float is refused. *)
Fixpoint json_detach (v : pyval) : result pyval :=
  match v with
  | VFloat f => if float_is_finite f then Ok v
                else raise ValueError "Out of range float values are not JSON compliant"
  | VList l | VTuple l => l' ← mapR json_detach l; Ok (VList l')
  | VDict d =>
      d' ← (fix go d := match d with
            | [] => Ok []
            | (k, x) :: d' => x' ← json_detach x; r ← go d'; Ok ((k, x') :: r)
            end) d;
      Ok (VDict d')
  | _ => Ok v
  end.

Definition json_char (c : ascii) : string :=
  let n := code c in
  if n =? 34 then String "\" (String c "") else if n =? 92 then "\\"
  else if n =? 8 then "\b" else if n =? 9 then "\t" else if n =? 10 then "\n"
  else if n =? 12 then "\f" else if n =? 13 then "\r"
  else if n <? 32 then
    ("\u00" ++ String (hex_digit (n / 16)) (String (hex_digit (n mod 16)) ""))%string
  else String c "".
Definition quote_ : string := String (chr 34) "".
Definition json_str (s : string) : string :=
  (quote_ ++ String.concat "" (map json_char (chars s)) ++ quote_)%string.

(** [json.dumps(v, sort_keys=True, separators=(",", ":"), ensure_ascii=False,
    allow_nan=False)] *)
Fixpoint json_dumps (v : pyval) : result string :=
  match v with
  | VNone => Ok "null"
  | VBool b => Ok (if b then "true" else "false")
  | VInt z => Ok (z_str z)
  | VFloat f => if float_is_finite f then Ok (float_repr f)
                else raise ValueError "Out of range float values are not JSON compliant"
  | VStr s => Ok (json_str s)
  | VList l | VTuple l =>
      ss ← mapR json_dumps l; Ok ("[" ++ join "," ss ++ "]")%string
  | VDict d =>
      kss ← (fix go d := match d with
             | [] => Ok []
             | (k, x) :: d' => s ← json_dumps x; r ← go d'; Ok ((k, s) :: r)
             end) d;
      let items := sorted_on fst kss in
      Ok ("{" ++ join "," (map (λ ks, (json_str ks.1 ++ ":" ++ ks.2)%string) items) ++ "}")%string
  end.

(** [s.encode("utf-8")] *)
Definition utf8_char (c : ascii) : list Z :=
  let n := code c in
  if n <? 128 then [n] else [192 + n / 64; 128 + n mod 64].
Definition utf8 (s : string) : list Z := concat (map utf8_char (chars s)).

(** ** Lemmas *)
Lemma py_eqb_str a s : py_eqb a (VStr s) = true ↔ a = VStr s.
Proof.
  destruct a; cbn; try (split; [done | congruence]).
  rewrite String.eqb_eq. split; congruence.
Qed.
Lemma py_eqb_str_l a s : py_eqb (VStr s) a = true ↔ a = VStr s.
Proof.
  destruct a; cbn; try (split; [done | congruence]).
  rewrite String.eqb_eq. split; congruence.
Qed.
Lemma in_list_str s l : in_list (VStr s) l = true ↔ VStr s ∈ l.
Proof.
  unfold in_list. rewrite existsb_exists. setoid_rewrite list_elem_of_In.
  split.
  - intros (x & Hx & E). apply py_eqb_str_l in E. by subst.
  - intros H. exists (VStr s). split; [done|]. by apply py_eqb_str_l.
Qed.
Lemma in_list_str_false s l : in_list (VStr s) l = false ↔ VStr s ∉ l.
Proof. rewrite <- in_list_str. by destruct (in_list (VStr s) l). Qed.

(** Membership in a set of strings, when the test returns. *)
Lemma in_strs_ok v l b : in_str_set v l = Ok b → b = true → ∃ s, v = VStr s ∧ s ∈ l.
Proof.
  intros H ->. revert H. unfold in_str_set. destruct (hashable v); [|done]. intros [= H]. destruct v; try done.
  exists s. by apply bool_decide_eq_true in H.
Qed.

Lemma dict_get_set k k' v d :
  dict_get k (dict_set k' v d) = if String.eqb k' k then Some v else dict_get k d.
Proof.
  induction d as [|[k0 v0] d IH]; cbn; [done|].
  destruct (String.eqb_spec k0 k') as [->|N]; cbn.
  - by destruct (String.eqb k' k).
  - rewrite IH. destruct (String.eqb_spec k0 k) as [->|]; [|done].
    by destruct (String.eqb_spec k' k) as [->|].
Qed.
Lemma dict_get_not_in k d : k ∉ keys d → dict_get k d = None.
Proof.
  induction d as [|[k0 v0] d IH]; cbn; [done|]. rewrite not_elem_of_cons.
  intros [N H]. destruct (String.eqb_spec k0 k); [congruence|auto].
Qed.
Lemma dict_get_elem k v d : NoDup (keys d) → (k, v) ∈ d → dict_get k d = Some v.
Proof.
  induction d as [|[k0 v0] d IH]; cbn; [by intros _ ?%not_elem_of_nil|].
  intros [N ND]%list.NoDup_cons [E|H]%elem_of_cons.
  - injection E as <- <-. by rewrite String.eqb_refl.
  - destruct (String.eqb_spec k0 k) as [->|]; [|auto].
    destruct N. apply list_elem_of_fmap. by exists (k, v).
Qed.

(** Sorting commutes with mapping the values. *)
Lemma insert_sorted_map {A B} (key : A → string) (key' : B → string) (g : A → B) x l :
  (∀ x, key' (g x) = key x) →
  insert_sorted key' (g x) (map g l) = map g (insert_sorted key x l).
Proof.
  intros H. induction l as [|y l IH]; cbn; [done|]. rewrite !H.
  destruct (str_le (key y) (key x)); cbn; [by rewrite IH|done].
Qed.
Lemma sorted_on_map {A B} (key : A → string) (key' : B → string) (g : A → B) l :
  (∀ x, key' (g x) = key x) → sorted_on key' (map g l) = map g (sorted_on key l).
Proof.
  intros H. unfold sorted_on. change (@nil B) with (map g []). generalize (@nil A).
  induction l as [|x l IH]; intros acc; cbn; [done|].
  by rewrite <- IH, (insert_sorted_map key).
Qed.

(** The entries of a finite map, sorted, and back. *)
Lemma sorted_entries_to_map {A} (m : gmap string A) :
  list_to_map (sorted_on fst (map_to_list m)) = m.
Proof.
  rewrite <- (list_to_map_to_list m) at 2. apply list_to_map_proper.
  - rewrite sorted_on_perm. apply NoDup_fst_map_to_list.
  - apply sorted_on_perm.
Qed.

(** Sorting the entries of a dictionary does not change its lookups. *)
Lemma dict_get_elem_inv k v d : dict_get k d = Some v → (k, v) ∈ d.
Proof.
  induction d as [|[k0 v0] d IH]; cbn; [done|].
  destruct (String.eqb_spec k0 k) as [->|]; [intros [= ->]; constructor|].
  intros H. constructor. auto.
Qed.
Lemma dict_get_perm k d d' : NoDup (keys d) → d ≡ₚ d' → dict_get k d' = dict_get k d.
Proof.
  intros ND P. assert (NoDup (keys d')) as ND'.
  { unfold keys. by rewrite <- (fmap_Permutation fst _ _ P). }
  destruct (dict_get k d) as [v|] eqn:E.
  - apply dict_get_elem; [done|]. rewrite <- P. by apply dict_get_elem_inv.
  - destruct (dict_get k d') as [v|] eqn:E'; [|done].
    apply dict_get_elem_inv in E'. rewrite <- P in E'.
    by rewrite (dict_get_elem _ _ _ ND E') in E.
Qed.
Lemma dict_get_sorted k d : NoDup (keys d) → dict_get k (sorted_on fst d) = dict_get k d.
Proof. intros H. apply dict_get_perm; [done|]. by rewrite sorted_on_perm. Qed.

(** ** Sorting the entries of a dictionary *)
(** The sort is stable: it commutes with looking up, filtering and setting. *)
Lemma keys_sorted_on (d : pydict) : keys (sorted_on fst d) = sorted (keys d).
Proof. unfold keys, sorted. symmetry. by apply (sorted_on_map fst id fst). Qed.
Lemma sorted_on_keys (d : pydict) : in_order (keys (sorted_on fst d)).
Proof. rewrite keys_sorted_on. apply sorted_in_order. Qed.
Lemma sorted_on_snoc {A} (key : A → string) l x : sorted_on key (l ++ [x]) = insert_sorted key x (sorted_on key l).
Proof. unfold sorted_on. by rewrite fold_left_app. Qed.
Lemma insert_entry_last x (d : pydict) : (∀ k, k ∈ keys d → str_le k x.1 = true) → insert_sorted fst x d = d ++ [x].
Proof.
  induction d as [|y d IH]; intros Hd; cbn in *; [done|]. rewrite Hd by set_solver. f_equal. apply IH. intros k Hk. apply Hd. set_solver.
Qed.
Lemma sorted_on_in_order (d : pydict) : in_order (keys d) → sorted_on fst d = d.
Proof.
  induction d as [|x d IH] using rev_ind; intros Ho; [done|]. unfold keys in Ho. rewrite map_app in Ho. cbn in Ho.
  assert (in_order (map fst d) ∧ ∀ k, k ∈ map fst d → str_le k x.1 = true) as [Hd Hx].
  { clear IH. induction d as [|y d IH]; [by split; [|intros ? ?%not_elem_of_nil]|]. cbn in *. destruct Ho as [Hy Ho]. destruct (IH Ho) as [Hd Hx]. split.
    - split; [|done]. intros k Hk. apply Hy, elem_of_app. by left.
    - intros k [->|Hk]%elem_of_cons; [|by apply Hx]. apply Hy, elem_of_app. right. left. }
  rewrite sorted_on_snoc, (IH Hd). by apply insert_entry_last.
Qed.
Lemma sorted_on_twice (d : pydict) : sorted_on fst (sorted_on fst d) = sorted_on fst d.
Proof. apply sorted_on_in_order, sorted_on_keys. Qed.
Lemma above_not_in k x (d : pydict) : in_order (x :: keys d) → str_le x k = false → k ∉ keys d.
Proof.
  intros [Hx _] Hk Hin. destruct (str_le_total x k) as [|Hkx]; [congruence|]. apply Hx in Hin. congruence.
Qed.
Lemma insert_get k x (d : pydict) : in_order (keys d) →
  dict_get k (insert_sorted fst x d) = match dict_get k d with Some v => Some v | None => dict_get k [x] end.
Proof.
  destruct x as [k0 v0]. induction d as [|[k1 v1] d IH]; intros Ho; [done|]. cbn -[str_le] in *.
  destruct (str_le k1 k0) eqn:E; cbn -[str_le].
  - destruct (String.eqb k1 k); [done|]. apply IH. by destruct Ho.
  - destruct (String.eqb_spec k0 k) as [->|N]; [|destruct (String.eqb k1 k), (dict_get k d); done].
    destruct (String.eqb_spec k1 k) as [->|_]; [by destruct (str_le_total k k); congruence|].
    by rewrite (dict_get_not_in k d (above_not_in k k1 d Ho E)).
Qed.
Lemma dict_get_app k (d e : pydict) : dict_get k (d ++ e) = match dict_get k d with Some v => Some v | None => dict_get k e end.
Proof. induction d as [|[k0 v0] d IH]; cbn; [done|]. by destruct (String.eqb k0 k). Qed.
Lemma get_sorted k (d : pydict) : dict_get k (sorted_on fst d) = dict_get k d.
Proof.
  induction d as [|x d IH] using rev_ind; [done|]. by rewrite sorted_on_snoc, insert_get, dict_get_app, IH by apply sorted_on_keys.
Qed.
Lemma in_order_tail x l : in_order (x :: l) → in_order l.
Proof. by intros [_ ?]. Qed.
Lemma insert_filter (f : string * pyval → bool) x (d : pydict) : in_order (keys d) →
  List.filter f (insert_sorted fst x d) = if f x then insert_sorted fst x (List.filter f d) else List.filter f d.
Proof.
  induction d as [|y d IH]; intros Ho; [done|]. cbn -[str_le] in *. destruct (str_le y.1 x.1) eqn:E; cbn -[str_le].
  - rewrite IH by by destruct Ho. destruct (f y) eqn:Ey, (f x); cbn -[str_le]; rewrite ?E; done.
  - destruct (f x) eqn:Ex, (f y) eqn:Ey; cbn -[str_le]; rewrite ?E; try done.
    destruct (List.filter f d) as [|z l] eqn:El; [done|]. cbn -[str_le].
    destruct (str_le z.1 x.1) eqn:Ez; [|done]. destruct Ho as [Hy _].
    assert (str_le y.1 z.1 = true) as Hz.
    { apply Hy. apply list_elem_of_fmap. exists z. split; [done|]. apply list_elem_of_In.
      apply (proj1 (filter_In f z d)). rewrite El. by left. }
    rewrite (str_le_trans _ _ _ Hz Ez) in E. done.
Qed.
Lemma filter_sorted f (d : pydict) : List.filter f (sorted_on fst d) = sorted_on fst (List.filter f d).
Proof.
  induction d as [|x d IH] using rev_ind; [done|]. rewrite sorted_on_snoc, insert_filter, List.filter_app, IH by apply sorted_on_keys.
  cbn. destruct (f x); [by rewrite sorted_on_snoc|by rewrite app_nil_r].
Qed.
Lemma insert_set k v x (d : pydict) : in_order (keys d) → k ∈ keys d →
  insert_sorted fst x (dict_set k v d) = dict_set k v (insert_sorted fst x d).
Proof.
  induction d as [|[k1 v1] d IH]; intros Ho Hk; [by apply not_elem_of_nil in Hk|]. cbn -[str_le] in *.
  destruct (String.eqb_spec k1 k) as [->|N]; cbn -[str_le].
  - destruct (str_le k x.1) eqn:E; cbn -[str_le]; [by rewrite String.eqb_refl|]. destruct x as [k0 v0]. cbn -[str_le] in *.
    destruct (String.eqb_spec k0 k) as [->|]; [by destruct (str_le_total k k); congruence|]. by rewrite String.eqb_refl.
  - apply elem_of_cons in Hk as [->|Hk]; [done|]. destruct (str_le k1 x.1) eqn:E; cbn -[str_le].
    + destruct (String.eqb_spec k1 k); [done|]. f_equal. apply IH; [by destruct Ho|done].
    + destruct x as [k0 v0]. cbn -[str_le] in *. destruct (String.eqb_spec k0 k) as [->|N0].
      * by destruct (above_not_in k k1 d Ho E).
      * by destruct (String.eqb_spec k1 k).
Qed.
Lemma set_snoc k v x (d : pydict) : dict_set k v (d ++ [x]) =
  if bool_decide (k ∈ keys d) then dict_set k v d ++ [x] else d ++ dict_set k v [x].
Proof.
  induction d as [|[k1 v1] d IH]; cbn; [done|]. destruct (String.eqb_spec k1 k) as [->|N].
  - by rewrite bool_decide_true by set_solver.
  - rewrite IH. destruct (decide (k ∈ map fst d)); [rewrite !bool_decide_true by set_solver|rewrite !bool_decide_false by set_solver]; done.
Qed.
Lemma keys_sorted_elem k (d : pydict) : k ∈ keys (sorted_on fst d) ↔ k ∈ keys d.
Proof. unfold keys. by rewrite (fmap_Permutation fst _ _ (sorted_on_perm fst d)). Qed.
Lemma set_absent k v (d : pydict) : k ∉ keys d → dict_set k v d = d ++ [(k, v)].
Proof.
  induction d as [|[k1 v1] d IH]; cbn; [done|]. intros [N H]%not_elem_of_cons.
  destruct (String.eqb_spec k1 k); [congruence|]. by rewrite IH.
Qed.
(** Sorting after an entry is set is sorting before and after. *)
Lemma sorted_set_present k v (d : pydict) : k ∈ keys d → sorted_on fst (dict_set k v d) = dict_set k v (sorted_on fst d).
Proof.
  induction d as [|[k1 v1] d IH] using rev_ind; intros Hk; [by apply not_elem_of_nil in Hk|].
  rewrite set_snoc, sorted_on_snoc. case_bool_decide as Hin.
  - rewrite sorted_on_snoc, IH by done. apply insert_set; [apply sorted_on_keys|by apply keys_sorted_elem].
  - unfold keys in Hk. rewrite map_app, elem_of_app in Hk. destruct Hk as [Hk|Hk%list_elem_of_singleton]; [done|]. cbn in Hk. subst k1.
    cbn. rewrite String.eqb_refl, sorted_on_snoc. rewrite <- keys_sorted_elem in Hin. revert Hin. generalize (sorted_on fst d). clear IH.
    intros e. induction e as [|[k1 w] e IH]; cbn -[str_le]; [by rewrite String.eqb_refl|]. intros [N He]%not_elem_of_cons.
    destruct (str_le k1 k); cbn; [|by rewrite String.eqb_refl]. destruct (String.eqb_spec k1 k); [congruence|]. by rewrite IH.
Qed.
Lemma sorted_set k v (d : pydict) : sorted_on fst (dict_set k v (sorted_on fst d)) = sorted_on fst (dict_set k v d).
Proof.
  destruct (decide (k ∈ keys d)) as [Hk|Hk].
  - rewrite sorted_set_present, sorted_on_twice, <- sorted_set_present; [done|done|by apply keys_sorted_elem].
  - rewrite !set_absent, !sorted_on_snoc, sorted_on_twice; [done|done|by rewrite keys_sorted_elem].
Qed.

(** ** Documents equal to themselves

    A NaN differs from itself, and a dictionary that had a key twice (none
    does) would; every document with a canonical JSON text equals itself. *)
Fixpoint unique_keys (v : pyval) : bool :=
  match v with
  | VList l | VTuple l => forallb unique_keys l
  | VDict d => bool_decide (NoDup (keys d)) && forallb (λ kv, unique_keys kv.2) d
  | _ => true
  end.

(** The canonical text exists exactly when every part has one. *)
Lemma dumps_list_ok l : is_ok (json_dumps (VList l)) = forallb (λ v, is_ok (json_dumps v)) l.
Proof.
  cbn [json_dumps]. induction l as [|v l IH]; cbn -[json_dumps]; [done|].
  destruct (json_dumps v); [|done]. cbn. rewrite <- IH. by destruct (mapR json_dumps l).
Qed.
Lemma dumps_tuple_ok l : is_ok (json_dumps (VTuple l)) = forallb (λ v, is_ok (json_dumps v)) l.
Proof. apply dumps_list_ok. Qed.
Definition dump_entries : pydict → result (list (string * string)) :=
  fix go d := match d with
              | [] => Ok []
              | (k, x) :: d' => s ← json_dumps x; r ← go d'; Ok ((k, s) :: r)
              end.
Lemma dumps_dict_ok d : is_ok (json_dumps (VDict d)) = forallb (λ kv, is_ok (json_dumps kv.2)) d.
Proof.
  change (is_ok (json_dumps (VDict d))) with (is_ok (kss ← dump_entries d;
    Ok ("{" ++ join "," (map (λ ks, (json_str ks.1 ++ ":" ++ ks.2)%string) (sorted_on fst kss)) ++ "}")%string)).
  transitivity (is_ok (dump_entries d)); [by destruct (dump_entries d)|].
  induction d as [|[k v] d IH]; cbn -[json_dumps]; [done|].
  destruct (json_dumps v); [|done]. cbn. rewrite <- IH. by destruct (dump_entries d).
Qed.

Lemma SFeqb_refl f : float_is_finite f = true → SFeqb f f = true.
Proof.
  destruct f as [s|s| |s m e]; try done; intros _; unfold SFeqb; cbn.
  rewrite Z.compare_refl, Pos.compare_refl. by destruct s.
Qed.
Definition eq_values : list pyval → list pyval → bool :=
  fix eq_list xs ys :=
    match xs, ys with
    | [], [] => true
    | x :: xs', y :: ys' => py_eqb x y && eq_list xs' ys'
    | _, _ => false
    end.
Definition eq_entries (ys : pydict) : pydict → bool :=
  fix go xs :=
    match xs with
    | [] => true
    | (k, x) :: xs' =>
        match dict_get k ys with
        | Some y => py_eqb x y && go xs'
        | None => false
        end
    end.
Lemma py_eqb_dict d e :
  py_eqb (VDict d) (VDict e) = (length d =? length e)%nat && eq_entries e d.
Proof.
  change (py_eqb (VDict d) (VDict e)) with ((length d =? length e)%nat &&
    (fix go xs ys := match xs with [] => true | (k, x) :: xs' =>
        match dict_get k ys with Some y => py_eqb x y && go xs' ys | None => false end end) d e).
  f_equal. induction d as [|[k v] d IH]; [done|]. cbn [eq_entries]. by rewrite <- IH.
Qed.

Lemma py_eqb_refl v : unique_keys v = true → is_ok (json_dumps v) = true → py_eqb v v = true.
Proof.
  induction v as [|b|z|f|s|l IH|l IH|d IH] using pyval_rec_ind; intros U D.
  - done.
  - apply eqb_reflx.
  - apply Z.eqb_refl.
  - apply SFeqb_refl. cbn in D. by destruct (float_is_finite f).
  - apply String.eqb_refl.
  - rewrite dumps_list_ok in D. cbn in U. change (eq_values l l = true).
    induction IH as [|v l Hv Hl IH]; [done|]. cbn -[py_eqb] in *.
    apply andb_true_iff in U as [??], D as [??]. rewrite Hv by done. by apply IH.
  - rewrite dumps_tuple_ok in D. cbn in U. change (eq_values l l = true).
    induction IH as [|v l Hv Hl IH]; [done|]. cbn -[py_eqb] in *.
    apply andb_true_iff in U as [??], D as [??]. rewrite Hv by done. by apply IH.
  - rewrite dumps_dict_ok in D. cbn [unique_keys] in U. apply andb_true_iff in U as [N U].
    apply bool_decide_eq_true in N. rewrite py_eqb_dict, Nat.eqb_refl. cbn [andb].
    assert (∀ kv, kv ∈ d → dict_get kv.1 d = Some kv.2) as G.
    { intros [k v] H. by apply dict_get_elem. }
    clear N. revert G. generalize d at 2 3 as whole. intros whole G.
    induction IH as [|[k v] d Hv Hd IH]; [done|]. cbn -[py_eqb] in *.
    apply andb_true_iff in U as [??], D as [??].
    assert (dict_get k whole = Some v) as -> by (apply (G (k, v)); set_solver).
    rewrite Hv by done. cbn [andb].
    apply IH; [done|done|]. intros kv Hkv. apply G. set_solver.
Qed.
