(* ===== verification/PyText.v ===== *)
(** Text as UTF-8: the documents of the offline programs hold Japanese, so there a
    string is the bytes of its UTF-8 encoding, cut into characters where the code
    looks at them.

    The parsers of the standard library that turn a text into a number or a time are
    the operations of [Readers]. *)
From Stdlib Require Import Ascii SpecFloat.
From S2P Require Import Prelude PyString PyValue.

(** ** Characters *)
(** A byte that continues the character before it. *)
Definition continues (c : ascii) : bool := in_range 128 191 c.
(** The characters, each with its bytes. *)
Fixpoint split_chars (l : list ascii) : list (list ascii) :=
  match l with
  | [] => []
  | c :: l' =>
      match split_chars l' with
      | (d :: ds) :: rest => if continues d then (c :: d :: ds) :: rest else [c] :: (d :: ds) :: rest
      | rest => [c] :: rest
      end
  end.
Definition characters (s : string) : list string := map of_chars (split_chars (chars s)).

Definition of_bytes (l : list Z) : string := of_chars (map chr l).
(** The characters [str.strip] removes. *)
Definition SPACES : list string :=
  map of_bytes ([[9]; [10]; [11]; [12]; [13]; [28]; [29]; [30]; [31]; [32]; [194; 133]; [194; 160]; [225; 154; 128];
                 [226; 128; 168]; [226; 128; 169]; [226; 128; 175]; [226; 129; 159]; [227; 128; 128]]
                ++ map (λ i, [226; 128; 128 + Z.of_nat i]) (seq 0 11)).
Definition is_white (c : string) : bool := bool_decide (c ∈ SPACES).
Fixpoint trim_left (l : list string) : list string :=
  match l with c :: l' => if is_white c then trim_left l' else l | [] => [] end.
(** [s.strip()] *)
Definition strip_text (s : string) : string :=
  String.concat "" (rev (trim_left (rev (trim_left (characters s))))).

(** [s.split(sep)] for a separator of one ASCII character *)
Fixpoint split_on (sep : ascii) (s : string) : list string :=
  match s with
  | EmptyString => [EmptyString]
  | String c s' =>
      let rest := split_on sep s' in
      if Ascii.eqb c sep then EmptyString :: rest
      else match rest with w :: ws => String c w :: ws | [] => [String c EmptyString] end
  end.
(** [s.replace(c, t)] *)
Definition replace_char (c : ascii) (t s : string) : string :=
  String.concat "" (map (λ d, if Ascii.eqb d c then t else String d EmptyString) (chars s)).

(** [iter(v)]: of a text, its characters *)
Definition iter_text (v : pyval) : result (list pyval) :=
  match v with VStr s => Ok (map VStr (characters s)) | _ => py_iter v end.

(** ** [json.dumps(v, sort_keys=True)], which escapes what is not ASCII *)
(** The code point of a character. *)
Definition code_point (l : list ascii) : Z :=
  match map code l with
  | [a] => a
  | [a; b] => (a - 192) * 64 + (b - 128)
  | [a; b; c] => ((a - 224) * 64 + (b - 128)) * 64 + (c - 128)
  | [a; b; c; d] => (((a - 240) * 64 + (b - 128)) * 64 + (c - 128)) * 64 + (d - 128)
  | _ => 0
  end.
Definition hex4 (n : Z) : string :=
  ("\u" ++ of_chars (map hex_digit [n / 4096; n / 256 mod 16; n / 16 mod 16; n mod 16]))%string.
Definition escape_char (l : list ascii) : string :=
  match l with
  | [c] => if code c =? 127 then hex4 127 else json_char c
  | _ =>
      let n := code_point l in
      if n <? 65536 then hex4 n
      else (hex4 (55296 + (n - 65536) / 1024) ++ hex4 (56320 + (n - 65536) mod 1024))%string
  end.
Definition json_text (s : string) : string :=
  (quote_ ++ String.concat "" (map escape_char (split_chars (chars s))) ++ quote_)%string.
Definition json_float (f : spec_float) : string :=
  match f with
  | S754_infinity s => if s then "-Infinity" else "Infinity"
  | S754_nan => "NaN"
  | _ => float_repr f
  end.
Fixpoint dumps_sorted (v : pyval) : string :=
  match v with
  | VNone => "null"
  | VBool b => if b then "true" else "false"
  | VInt z => z_str z
  | VFloat f => json_float f
  | VStr s => json_text s
  | VList l | VTuple l => ("[" ++ join ", " (map dumps_sorted l) ++ "]")%string
  | VDict d =>
      let items := sorted_on fst (map (λ kv, (kv.1, dumps_sorted kv.2)) d) in
      ("{" ++ join ", " (map (λ ks, (json_text ks.1 ++ ": " ++ ks.2)%string) items) ++ "}")%string
  end.

(** ** Readers *)
(** What [datetime.fromisoformat] returns: whether it has a time zone; then the instant,
    in microseconds, which is what comparisons see; and its [timestamp()], a float held
    as its exact multiple of 2^-1074.  A naive time is read in the time zone of the
    host, which can fail. *)
Record datetime := Datetime { zoned : bool; instant : Z; posix : result Z }.
Class Readers := {
  (* datetime.fromisoformat(s), float(s) and int(s) of a text *)
  fromisoformat : string → result datetime;
  read_float : string → result spec_float;
  read_int : string → result Z;
  (* the characters \d matches *)
  decimal_digit : string → bool }.
(** Instants whose timestamps tell microseconds apart, until the year 2242. *)
Definition near (t : Z) : Prop := - 2 ^ 33 * 10 ^ 6 < t < 2 ^ 33 * 10 ^ 6.
(** Their documented behaviour: a text that is refused is a ValueError; the timestamp
    of a time with a zone is defined and ordered as the instant; and a decimal digit is
    read as that digit. *)
Class ReaderLaws `{Readers} := {
  fromisoformat_error s e : fromisoformat s = Err e → exn_class e = ValueError;
  read_float_error s e : read_float s = Err e → exn_class e = ValueError;
  read_int_error s e : read_int s = Err e → exn_class e = ValueError;
  zoned_posix s d : fromisoformat s = Ok d → zoned d = true → is_ok (posix d) = true;
  posix_order s s' d d' t t' : fromisoformat s = Ok d → fromisoformat s' = Ok d' → zoned d = true → zoned d' = true →
    posix d = Ok t → posix d' = Ok t' → instant d ≤ instant d' → t ≤ t';
  posix_strict s s' d d' t t' : fromisoformat s = Ok d → fromisoformat s' = Ok d' → zoned d = true → zoned d' = true →
    posix d = Ok t → posix d' = Ok t' → near (instant d) → near (instant d') → instant d < instant d' → t < t';
  read_digit i : 1 ≤ i ≤ 9 → read_int (z_str i) = Ok i }.

(** [int(v)] *)
Definition int_value `{Readers} (v : pyval) : result Z :=
  match v with VStr s => read_int s | _ => py_int v end.

(** ** Lemmas *)
Example strip_keeps_text : strip_text (" 東京" ++ of_bytes [227; 128; 128]) = "東京".
Proof. vm_compute. reflexivity. Qed.
Example text_escaped : json_text "逃é" = (quote_ ++ "\u9003\u00e9" ++ quote_)%string.
Proof. vm_compute. reflexivity. Qed.

Lemma split_on_not_nil sep s : split_on sep s ≠ [].
Proof. destruct s; cbn; [done|]. destruct (Ascii.eqb _ _); [done|]. by destruct (split_on _ _). Qed.
