(* ===== verification/PyFloat.v ===== *)
(** Python floats beyond their text: [float(v)], sums, and exact comparison.

    A float is a binary64 value of SpecFloat.  Finite numbers are compared exactly, as
    multiples of 2^-1074. *)
From Stdlib Require Import SpecFloat.
From S2P Require Import Prelude PyString PyValue PyText.

Definition unit_ : Z := 2 ^ 1074.
Definition scaled_float (f : spec_float) : Z :=
  match f with
  | S754_finite s m e => let x := Z.shiftl (Zpos m) (e + 1074) in if s then - x else x
  | _ => 0
  end.
(** The exact value of a finite number, in multiples of 2^-1074. *)
Definition scaled (v : pyval) : Z :=
  match v with VInt z => z * unit_ | VFloat f => scaled_float f | _ => 0 end.

(** An integer from this one on is too large for a float. *)
Definition float_overflow : Z := 2 ^ 1024 - 2 ^ 970.
Definition float_of_Z (z : Z) : result spec_float :=
  reject_if (float_overflow <=? Z.abs z) OverflowError "int too large to convert to float";;
  Ok (binary_normalize 53 1024 z 0 false).
Definition float_add (a b : spec_float) : spec_float := SFadd 53 1024 a b.
Definition float_sub (a b : spec_float) : spec_float := SFsub 53 1024 a b.
Definition float_div (a b : spec_float) : spec_float := SFdiv 53 1024 a b.
Definition float_one : spec_float := S754_finite false 4503599627370496 (-52).
(** [abs(x - 1) > 1e-6] *)
Definition millionth : spec_float := S754_finite false 4722366482869645 (-72).
Definition mass_is_off (x : spec_float) : bool := SFltb millionth (SFabs (float_sub x float_one)).

(** [sum] of floats, which compensates the rounding errors (CPython 3.12). *)
Definition sum_step (acc : spec_float * spec_float) (x : spec_float) : spec_float * spec_float :=
  let '(total, c) := acc in
  let t := float_add total x in
  (t, float_add c (if SFleb (SFabs x) (SFabs total) then float_add (float_sub total t) x
                   else float_add (float_sub x t) total)).
Definition float_sum (l : list spec_float) : spec_float :=
  match l with
  | [] => S754_zero false
  | x :: l' =>
      let '(total, c) := foldl sum_step (float_add (S754_zero false) x, S754_zero false) l' in
      match c with
      | S754_finite _ _ _ => float_add total c
      | _ => total
      end
  end.

(** [float(v)] *)
Definition py_float `{Readers} (v : pyval) : result spec_float :=
  match v with
  | VBool b => float_of_Z (of_bool b)
  | VInt z => float_of_Z z
  | VFloat f => Ok f
  | VStr s => read_float s
  | _ => raise TypeError "float() argument must be a string or a real number"
  end.

Example sum_compensates :
  float_sum [S754_finite false 4503599627370496 0; float_one; S754_finite true 4503599627370496 0] = float_one.
Proof. vm_compute. reflexivity. Qed.
