(* ===== verification/Rounding.v ===== *)
(** The quotient of two integers as Python rounds it, [a / b], and that rounding keeps the
    order of quotients. *)
From Stdlib Require Import SpecFloat.
From S2P Require Import Prelude PyString PyValue PyText PyFloat.

(** [a / b] of integers with [0 <= a] and [0 < b], below the overflow: the float nearest
    to the quotient. *)
Definition true_div (a b : Z) : spec_float :=
  if a =? 0 then S754_zero false else
  let '(m, e) := round64 a b in
  if m =? 0 then S754_zero false
  else if m =? 2 ^ 53 then S754_finite false (Z.to_pos (2 ^ 52)) (e + 1) else S754_finite false (Z.to_pos m) e.

(** It is the division of the two floats. *)
Definition float_quotient (a b : Z) : result spec_float := x ← float_of_Z a; y ← float_of_Z b; Ok (float_div x y).
Example true_div_examples : forallb (λ ab, match float_quotient ab.1 ab.2 with
    | Ok f => SFeqb (true_div ab.1 ab.2) f
    | Err _ => false
    end) (concat (map (λ a, map (λ b, (100 * Z.of_nat a, Z.of_nat b)) (seq 1 12)) (seq 0 12))) = true.
Proof. vm_compute. reflexivity. Qed.

(** ** Rounding is monotone *)
Lemma div_half_even_mono a b c d : 0 < b → 0 < d → a * d ≤ c * b → div_half_even a b ≤ div_half_even c d.
Proof.
  intros Hb Hd Hle. unfold div_half_even.
  pose proof (Z.div_mod a b ltac:(lia)) as Ea. pose proof (Z.mod_pos_bound a b Hb) as Ra.
  pose proof (Z.div_mod c d ltac:(lia)) as Ec. pose proof (Z.mod_pos_bound c d Hd) as Rc.
  set (q := a / b) in *. set (r := a mod b) in *. set (q' := c / d) in *. set (r' := c mod d) in *.
  assert (a * d = b * d * q + r * d) as E1 by (rewrite Ea; ring). assert (c * b = b * d * q' + r' * b) as E2 by (rewrite Ec; ring).
  assert (r' * b < b * d) by nia. assert (0 ≤ r * d) by nia.
  assert (b * d * q < b * d * (q' + 1)) as Hq by lia. apply Z.mul_lt_mono_pos_l in Hq; [|nia].
  destruct (Z.eq_dec q q') as [<-|N].
  - assert (r * d ≤ r' * b) by lia.
    destruct (Z.ltb_spec (2 * r) b), (Z.ltb_spec (2 * r') d), (Z.ltb_spec b (2 * r)), (Z.ltb_spec d (2 * r')), (Z.even q); nia.
  - destruct (2 * r <? b), (2 * r' <? d), (b <? 2 * r), (d <? 2 * r'), (Z.even q), (Z.even q'); lia.
Qed.

Lemma div_half_even_1 q : div_half_even q 1 = q.
Proof. unfold div_half_even. by rewrite Z.div_1_r, Z.mod_1_r. Qed.
Lemma div_half_even_scale a b k : 0 < b → 0 < k → div_half_even (a * k) (b * k) = div_half_even a b.
Proof. intros Hb Hk. apply Z.le_antisymm; apply div_half_even_mono; nia. Qed.
Lemma div_half_even_ge q a b : 0 < b → q * b ≤ a → q ≤ div_half_even a b.
Proof. intros Hb Hq. rewrite <- (div_half_even_1 q) at 1. apply div_half_even_mono; lia. Qed.
Lemma div_half_even_le q a b : 0 < b → a ≤ q * b → div_half_even a b ≤ q.
Proof. intros Hb Hq. rewrite <- (div_half_even_1 q) at 1. apply div_half_even_mono; lia. Qed.

(** A comparison with a power of two, at any common scale. *)
Lemma shift_split k s : 0 ≤ s → 0 ≤ s + k →
  2 ^ s = 2 ^ Z.max (- k) 0 * 2 ^ (s - Z.max (- k) 0) ∧ 2 ^ (s + k) = 2 ^ Z.max k 0 * 2 ^ (s - Z.max (- k) 0).
Proof.
  intros Hs Hk. rewrite <- !Z.pow_add_r by lia. split; f_equal; lia.
Qed.
Lemma shift_lt num den k s : 0 ≤ s → 0 ≤ s + k →
  (num * 2 ^ Z.max (- k) 0 <? den * 2 ^ Z.max k 0) = (num * 2 ^ s <? den * 2 ^ (s + k)).
Proof.
  intros Hs Hk. destruct (shift_split k s Hs Hk) as [-> ->]. rewrite !Z.mul_assoc.
  assert (0 < 2 ^ (s - Z.max (- k) 0)) as Hp by (apply Z.pow_pos_nonneg; lia). set (p := 2 ^ (s - _)) in *.
  apply eq_true_iff_eq. rewrite !Z.ltb_lt. by apply Z.mul_lt_mono_pos_r.
Qed.
(** The mantissa and the exponent, at a common scale. *)
Lemma round64_spec num den s : 0 < num → 0 < den → Z.log2 den + 1200 ≤ s →
  ∃ e1, (round64 num den).2 = Z.max e1 (-1074) ∧
    (round64 num den).1 = div_half_even (num * 2 ^ s) (den * 2 ^ (s + Z.max e1 (-1074))) ∧
    0 ≤ s + e1 ∧ den * 2 ^ (s + e1 + 52) ≤ num * 2 ^ s < den * 2 ^ (s + e1 + 53).
Proof.
  intros Hn Hd Hs. unfold round64. cbv zeta. set (t := Z.log2 num - Z.log2 den).
  pose proof (Z.log2_spec num Hn) as [N1 N2]. pose proof (Z.log2_spec den Hd) as [D1 D2].
  pose proof (Z.log2_nonneg num). pose proof (Z.log2_nonneg den).
  rewrite (shift_lt num den t s) by lia.
  assert (num * 2 ^ s < den * 2 ^ (s + t + 1)) as Hup.
  { replace (2 ^ (s + t + 1)) with (2 ^ (Z.succ (Z.log2 num)) * 2 ^ (s - Z.log2 den)) by (rewrite <- Z.pow_add_r by lia; f_equal; lia).
    replace (2 ^ s) with (2 ^ Z.log2 den * 2 ^ (s - Z.log2 den)) by (rewrite <- Z.pow_add_r by lia; f_equal; lia).
    assert (0 < 2 ^ (s - Z.log2 den)) as Hw by (apply Z.pow_pos_nonneg; lia).
    assert (0 < 2 ^ Z.log2 den) by (apply Z.pow_pos_nonneg; lia).
    assert (num * 2 ^ Z.log2 den < den * 2 ^ Z.succ (Z.log2 num)) as Hx by nia. rewrite !Z.mul_assoc. by apply Z.mul_lt_mono_pos_r. }
  assert (den * 2 ^ (s + t - 1) ≤ num * 2 ^ s) as Hlow.
  { replace (2 ^ (s + t - 1)) with (2 ^ Z.log2 num * 2 ^ (s - Z.succ (Z.log2 den))) by (rewrite <- Z.pow_add_r by lia; f_equal; lia).
    replace (2 ^ s) with (2 ^ Z.succ (Z.log2 den) * 2 ^ (s - Z.succ (Z.log2 den))) by (rewrite <- Z.pow_add_r by lia; f_equal; lia).
    assert (0 < 2 ^ (s - Z.succ (Z.log2 den))) as Hw by (apply Z.pow_pos_nonneg; lia).
    assert (0 < 2 ^ Z.log2 num) by (apply Z.pow_pos_nonneg; lia).
    assert (den * 2 ^ Z.log2 num ≤ num * 2 ^ Z.succ (Z.log2 den)) as Hx by nia. rewrite !Z.mul_assoc. by apply Z.mul_le_mono_pos_r. }
  set (e1 := if num * 2 ^ s <? den * 2 ^ (s + t) then t - 53 else t - 52). exists e1.
  assert (0 ≤ s + e1 ∧ den * 2 ^ (s + e1 + 52) ≤ num * 2 ^ s < den * 2 ^ (s + e1 + 53)) as (He & Hb).
  { unfold e1. destruct (Z.ltb_spec (num * 2 ^ s) (den * 2 ^ (s + t))).
    - replace (s + (t - 53) + 52) with (s + t - 1) by lia. replace (s + (t - 53) + 53) with (s + t) by lia. lia.
    - replace (s + (t - 52) + 52) with (s + t) by lia. replace (s + (t - 52) + 53) with (s + t + 1) by lia. lia. }
  cbn [fst snd]. split; [done|]. split; [|done]. set (e := Z.max e1 (-1074)).
  destruct (shift_split e s) as [-> ->]; [lia|lia|]. rewrite !Z.mul_assoc. symmetry.
  apply div_half_even_scale; [|apply Z.pow_pos_nonneg; lia].
  apply Z.mul_pos_pos; [done|apply Z.pow_pos_nonneg; lia].
Qed.
Definition rounded (num den : Z) : Z := (round64 num den).1 * 2 ^ ((round64 num den).2 + 1074).
Lemma round64_mono a b c d : 0 < a → 0 < b → 0 < c → 0 < d → a * d ≤ c * b → rounded a b ≤ rounded c d.
Proof.
  intros Ha Hb Hc Hd Hle. set (s := Z.log2 b + Z.log2 d + 1200).
  pose proof (Z.log2_nonneg b). pose proof (Z.log2_nonneg d).
  destruct (round64_spec a b s) as (e & Ee & Em & He & Hx); [lia..|].
  destruct (round64_spec c d s) as (f & Ef & Fm & Hf & Hy); [lia..|].
  unfold rounded. rewrite Ee, Em, Ef, Fm.
  assert (0 < 2 ^ s) by (apply Z.pow_pos_nonneg; lia).
  assert (e ≤ f) as Hef.
  { destruct (Z.le_gt_cases e f) as [|Hgt]; [done|]. exfalso.
    assert (2 ^ (s + f + 53) ≤ 2 ^ (s + e + 52)) by (apply Z.pow_le_mono_r; lia).
    assert (0 < 2 ^ (s + e + 52)) by (apply Z.pow_pos_nonneg; lia). 
    set (P := 2 ^ s) in *. set (X := 2 ^ (s + e + 52)) in *. set (Y := 2 ^ (s + f + 53)) in *.
    assert (c * P * b < d * Y * b) by nia. assert (b * X * d ≤ a * P * d) by nia.
    assert (a * d * P ≤ c * b * P) by nia. assert (d * b * Y ≤ d * b * X) by nia. lia. }
  destruct (Z.eq_dec (Z.max e (-1074)) (Z.max f (-1074))) as [E|N].
  - rewrite <- E. set (g := Z.max e (-1074)). apply Z.mul_le_mono_nonneg_r; [apply Z.pow_nonneg; lia|].
    assert (0 < 2 ^ (s + g)) by (apply Z.pow_pos_nonneg; lia).
    apply div_half_even_mono; [nia|nia|]. set (P := 2 ^ s) in *. set (Q := 2 ^ (s + g)) in *.
    assert (0 < P * Q) by nia. replace (a * P * (d * Q)) with (a * d * (P * Q)) by ring.
    replace (c * P * (b * Q)) with (c * b * (P * Q)) by ring. nia.
  - set (g := Z.max e (-1074)) in *. assert (Z.max f (-1074) = f) as -> by lia.
    assert (div_half_even (a * 2 ^ s) (b * 2 ^ (s + g)) ≤ 2 ^ 53) as Hm1.
    { assert (0 < 2 ^ (s + g)) by (apply Z.pow_pos_nonneg; lia). apply div_half_even_le; [nia|].
      assert (2 ^ (s + e + 53) ≤ 2 ^ 53 * 2 ^ (s + g)) by (rewrite <- Z.pow_add_r by lia; apply Z.pow_le_mono_r; lia). nia. }
    assert (2 ^ 52 ≤ div_half_even (c * 2 ^ s) (d * 2 ^ (s + f))) as Hm2.
    { assert (0 < 2 ^ (s + f)) by (apply Z.pow_pos_nonneg; lia). apply div_half_even_ge; [nia|].
      replace (2 ^ (s + f + 52)) with (2 ^ 52 * 2 ^ (s + f)) in Hy by (rewrite <- Z.pow_add_r by lia; f_equal; lia). nia. }
    assert (2 ^ 53 * 2 ^ (g + 1074) ≤ 2 ^ 52 * 2 ^ (f + 1074)) as Hm3
      by (rewrite <- !Z.pow_add_r by lia; apply Z.pow_le_mono_r; lia).
    assert (0 < 2 ^ (g + 1074)) by (apply Z.pow_pos_nonneg; lia). assert (0 < 2 ^ (f + 1074)) by (apply Z.pow_pos_nonneg; lia).
    set (P53 := 2 ^ 53) in *. set (P52 := 2 ^ 52) in *. nia.
Qed.
Lemma scaled_true_div a b : 0 ≤ a → 0 < b →
  scaled_float (true_div a b) = if a =? 0 then 0 else rounded a b.
Proof.
  intros Ha Hb. unfold true_div, rounded. destruct (Z.eqb_spec a 0) as [->|N]; [done|].
  destruct (round64_spec a b (Z.log2 b + 1200)) as (e & Ee & Em & He & Hx); [lia..|].
  assert (0 ≤ (round64 a b).1) as Hm.
  { rewrite Em. apply div_half_even_ge; [|nia]. apply Z.mul_pos_pos; [done|apply Z.pow_pos_nonneg; lia]. }
  destruct (round64 a b) as [m f]. cbn [fst snd] in *.
  destruct (Z.eqb_spec m 0) as [->|Nm]; [done|]. destruct (Z.eqb_spec m (2 ^ 53)) as [->|N53]; cbn [scaled_float]; rewrite Z.shiftl_mul_pow2 by lia.
  - replace (f + 1 + 1074) with (f + 1074 + 1) by lia. rewrite Z.pow_add_r by lia.
    change (Z.pos (Z.to_pos (2 ^ 52))) with (2 ^ 52). change (2 ^ 53) with (2 ^ 52 * 2). ring.
  - rewrite Z2Pos.id by lia. done.
Qed.
(** Quotients keep their order. *)
Lemma true_div_mono a b c d : 0 ≤ a → 0 < b → 0 ≤ c → 0 < d → a * d ≤ c * b →
  scaled_float (true_div a b) ≤ scaled_float (true_div c d).
Proof.
  intros Ha Hb Hc Hd Hle. rewrite !scaled_true_div by done. destruct (Z.eqb_spec a 0), (Z.eqb_spec c 0); [lia| |nia|].
  - unfold rounded. destruct (round64_spec c d (Z.log2 d + 1200)) as (x & Ex & Em & Hs & Hx); [lia..|].
    apply Z.mul_nonneg_nonneg; [|apply Z.pow_nonneg; lia]. rewrite Em. apply div_half_even_ge; [|nia].
    apply Z.mul_pos_pos; [done|apply Z.pow_pos_nonneg; lia].
  - apply round64_mono; lia.
Qed.
