(* ===== verification/Sha256.v ===== *)
(** [hashlib.sha256(data).hexdigest()] on lists of bytes, with 32-bit words in the
    63-bit integers of the kernel and every wrap-around written out. *)
From Stdlib Require Import PrimInt63.
From S2P Require Import Prelude PyString PyValue.

(** ** Machine words *)
(** A 32-bit word is a 63-bit integer of the kernel, reduced modulo 2^32. *)
Abbreviation word := PrimInt63.int.
Fixpoint word_of_pos (p : positive) : word :=
  match p with
  | xH => 1%uint63
  | xO p' => PrimInt63.lsl (word_of_pos p') 1
  | xI p' => PrimInt63.add (PrimInt63.lsl (word_of_pos p') 1) 1
  end.
Definition word_of_Z (z : Z) : word := match z with Zpos p => word_of_pos p | _ => 0%uint63 end.
(** The number of the lowest [n] bits. *)
Fixpoint low_bits (n : nat) (x : word) : Z :=
  match n with
  | O => 0
  | S n' =>
      let rest := low_bits n' (PrimInt63.lsr x 1) in
      if PrimInt63.eqb (PrimInt63.land x 1) 0 then Z.double rest else Z.succ_double rest
  end.

Definition w32 (x : word) : word := PrimInt63.land x 4294967295.
Definition rotr (n x : word) : word :=
  PrimInt63.lor (PrimInt63.lsr x n) (w32 (PrimInt63.lsl x (PrimInt63.sub 32 n))).
Definition add32 (a b : word) : word := w32 (PrimInt63.add a b).
Definition xor3 (a b c : word) : word := PrimInt63.lxor a (PrimInt63.lxor b c).

(** ** The compression of a block *)
Definition K256 : list word :=
 [1116352408; 1899447441; 3049323471; 3921009573; 961987163; 1508970993; 2453635748; 2870763221;
  3624381080; 310598401; 607225278; 1426881987; 1925078388; 2162078206; 2614888103; 3248222580;
  3835390401; 4022224774; 264347078; 604807628; 770255983; 1249150122; 1555081692; 1996064986;
  2554220882; 2821834349; 2952996808; 3210313671; 3336571891; 3584528711; 113926993; 338241895;
  666307205; 773529912; 1294757372; 1396182291; 1695183700; 1986661051; 2177026350; 2456956037;
  2730485921; 2820302411; 3259730800; 3345764771; 3516065817; 3600352804; 4094571909; 275423344;
  430227734; 506948616; 659060556; 883997877; 958139571; 1322822218; 1537002063; 1747873779;
  1955562222; 2024104815; 2227730452; 2361852424; 2428436474; 2756734187; 3204031479; 3329325298]%uint63.
Definition H256 : list word :=
 [1779033703; 3144134277; 1013904242; 2773480762; 1359893119; 2600822924; 528734635; 1541459225]%uint63.

Definition be_bytes (n : nat) (x : Z) : list Z :=
  map (λ i, Z.land (Z.shiftr x (8 * Z.of_nat i)) 255) (rev (seq 0 n)).
(** Append 1, zeros and the 64-bit length to a multiple of 64 bytes. *)
Definition sha_pad (data : list Z) : list Z :=
  let n := Z.of_nat (length data) in
  data ++ 128 :: repeat 0 (Z.to_nat ((55 - n) mod 64)) ++ be_bytes 8 (8 * n).

Fixpoint words (l : list word) : list word :=
  match l with
  | a :: b :: c :: d :: l' =>
      PrimInt63.add (PrimInt63.lsl a 24) (PrimInt63.add (PrimInt63.lsl b 16) (PrimInt63.add (PrimInt63.lsl c 8) d)) :: words l'
  | _ => []
  end.

(** The schedule, most recent word first. *)
Fixpoint extend (n : nat) (w : list word) : list word :=
  match n with
  | O => w
  | S n' =>
      let w2 := nth 1 w 0%uint63 in let w7 := nth 6 w 0%uint63 in
      let w15 := nth 14 w 0%uint63 in let w16 := nth 15 w 0%uint63 in
      let s0 := xor3 (rotr 7 w15) (rotr 18 w15) (PrimInt63.lsr w15 3) in
      let s1 := xor3 (rotr 17 w2) (rotr 19 w2) (PrimInt63.lsr w2 10) in
      extend n' (add32 (PrimInt63.add w16 s0) (PrimInt63.add w7 s1) :: w)
  end.

Definition sha_round (st : list word) (kw : word * word) : list word :=
  match st with
  | [a; b; c; d; e; f; g; h] =>
      let S1 := xor3 (rotr 6 e) (rotr 11 e) (rotr 25 e) in
      let ch := PrimInt63.lxor (PrimInt63.land e f) (PrimInt63.land (PrimInt63.lxor e 4294967295) g) in
      let t1 := add32 (PrimInt63.add h (PrimInt63.add S1 ch)) (PrimInt63.add kw.1 kw.2) in
      let S0 := xor3 (rotr 2 a) (rotr 13 a) (rotr 22 a) in
      let maj := xor3 (PrimInt63.land a b) (PrimInt63.land a c) (PrimInt63.land b c) in
      [add32 t1 (PrimInt63.add S0 maj); a; b; c; add32 d t1; e; f; g]
  | _ => st
  end.
Definition sha_block (st : list word) (block : list word) : list word :=
  let ws := rev (extend 48 (rev (words block))) in
  zip_with add32 st (fold_left sha_round (zip K256 ws) st).

Fixpoint blocks {A} (fuel : nat) (l : list A) : list (list A) :=
  match fuel, l with
  | S f, _ :: _ => firstn 64 l :: blocks f (skipn 64 l)
  | _, _ => []
  end.
Definition sha256 (data : list Z) : list Z :=
  let p := map word_of_Z (sha_pad data) in
  concat (map (λ x, be_bytes 4 (low_bits 32 x)) (fold_left sha_block (blocks (length p) p) H256)).

Definition hex (l : list Z) : string :=
  of_chars (concat (map (λ b, [hex_digit (b / 16); hex_digit (b mod 16)]) l)).
Definition sha256_hex (s : string) : string := hex (sha256 (utf8 s)).
(** [digest(record)] of ml/historical_training.py; the text is UTF-8 *)
Definition digest (v : pyval) : result string :=
  text ← json_dumps v; Ok (hex (sha256 (map code (chars text)))).

Example sha256_abc : sha256_hex "abc" =
  "ba7816bf8f01cfea414140de5dae2223b00361a396177a9cb410ff61f20015ad".
Proof. vm_compute. reflexivity. Qed.

Example sha256_two_blocks :
  sha256_hex "abcdbcdecdefdefgefghfghighijhijkijkljklmklmnlmnomnopnopq" =
  "248d6a61d20638b8e5c026930c3e6039a33ce45964ff2167f6ecedd419db06c1".
Proof. vm_compute. reflexivity. Qed.
