(* ===== verification/TaskModel.v ===== *)
(** agent_core/model.py: task definitions, artifacts and task state.

    A dataclass is a record.  Fields the code fills through a conversion
    ([str(...)], [int(...)], [dict(...)]) or checks have the converted type;
    fields it copies from a document unchecked keep type [pyval]. *)
From S2P Require Import Prelude PyString PyValue Sha256.

Definition TASK_SCHEMA_VERSION : string := "agent-task-v1".
Definition STATE_SCHEMA_VERSION : string := "agent-task-state-v1".
Definition ARTIFACT_SCHEMA_VERSION : string := "agent-artifact-state-v1".

Definition opt_str (o : option string) : pyval :=
  match o with Some s => VStr s | None => VNone end.

Module StepSpec.
Record t := mk {
  step_id : string;
  action : string;
  args : pydict;
  verify_action : option string;
  retry_safe : bool;
  max_attempts : Z }.

Definition validate (s : t) : result unit :=
  reject_if (blank (step_id s)) ValueError "step_id_required";;
  reject_if (blank (action s)) ValueError "action_required";;
  reject_if (max_attempts s <? 1) ValueError "max_attempts_must_be_positive";;
  reject_if (negb (retry_safe s) && negb (max_attempts s =? 1)) ValueError
    "unsafe_retry_requires_single_attempt".

Definition to_dict (s : t) : pyval :=
  VDict [("step_id", VStr (step_id s)); ("action", VStr (action s));
         ("args", VDict (args s)); ("verify_action", opt_str (verify_action s));
         ("retry_safe", VBool (retry_safe s)); ("max_attempts", VInt (max_attempts s))].

Definition from_dict (payload : pyval) : result t :=
  id_ ← getitem payload "step_id";
  action_ ← getitem payload "action";
  args_ ← py_get payload "args";
  args_ ← py_dict (py_or (default VNone args_) (VDict []));
  verify_ ← py_get payload "verify_action";
  retry_ ← py_get payload "retry_safe";
  max_ ← py_get payload "max_attempts";
  max_ ← py_int (default (VInt 1) max_);
  Ok {| step_id := py_str id_;
        action := py_str action_;
        args := args_;
        verify_action := match default VNone verify_ with
                         | VNone => None
                         | v => Some (py_str v)
                         end;
        retry_safe := truthy (default (VBool false) retry_);
        max_attempts := max_ |}.
End StepSpec.

Module TaskSpec.
Record t := mk {
  task_id : string;
  title : string;
  goal : string;
  allowed_actions : list string;
  steps : list StepSpec.t;
  inputs : pydict;
  completion_conditions : list string;
  schema_version : string }.

(** [step.verify_action] when it is a non-empty string *)
Definition verifier_of (s : StepSpec.t) : option string :=
  match StepSpec.verify_action s with
  | Some v => if truthy_s v then Some v else None
  | None => None
  end.

(** One turn of the loop over the steps, with the set of identifiers seen. *)
Definition validate_step (allowed seen : list string) (s : StepSpec.t) : result (list string) :=
  StepSpec.validate s;;
  reject_if (bool_decide (StepSpec.step_id s ∈ seen)) ValueError "duplicate_step_id";;
  reject_if (bool_decide (StepSpec.action s ∉ allowed)) ValueError
    ("action_not_allowed:" ++ StepSpec.action s)%string;;
  match verifier_of s with
  | Some v => reject_if (bool_decide (v ∉ allowed)) ValueError
                ("verification_action_not_allowed:" ++ v)%string
  | None => Ok tt
  end;;
  Ok (StepSpec.step_id s :: seen).

Definition validate (s : t) : result unit :=
  reject_if (negb (String.eqb (schema_version s) TASK_SCHEMA_VERSION)) ValueError
    "task_schema_mismatch";;
  reject_if (blank (task_id s)) ValueError "task_id_required";;
  reject_if (blank (title s)) ValueError "title_required";;
  reject_if (blank (goal s)) ValueError "goal_required";;
  reject_if (bool_decide (steps s = [])) ValueError "at_least_one_step_required";;
  reject_if (negb (length (remove_dups (allowed_actions s)) =? length (allowed_actions s))%nat)
    ValueError "duplicate_allowed_action";;
  foldR (validate_step (allowed_actions s)) [] (steps s);;
  Ok tt.

Definition to_dict (s : t) : pyval :=
  VDict [("schema_version", VStr (schema_version s)); ("task_id", VStr (task_id s));
         ("title", VStr (title s)); ("goal", VStr (goal s));
         ("allowed_actions", VList (map VStr (allowed_actions s)));
         ("steps", VList (map StepSpec.to_dict (steps s)));
         ("inputs", VDict (inputs s));
         ("completion_conditions", VList (map VStr (completion_conditions s)))].

(** [payload.get(k) or ()] iterated *)
Definition items_of (payload : pyval) (k : string) : result (list pyval) :=
  v ← py_get payload k; py_iter (py_or (default VNone v) (VTuple [])).

Definition from_dict (payload : pyval) : result t :=
  id_ ← getitem payload "task_id";
  title_ ← getitem payload "title";
  goal_ ← getitem payload "goal";
  allowed_ ← items_of payload "allowed_actions";
  steps_ ← items_of payload "steps";
  steps_ ← mapR StepSpec.from_dict steps_;
  inputs_ ← py_get payload "inputs";
  inputs_ ← py_dict (py_or (default VNone inputs_) (VDict []));
  conds_ ← items_of payload "completion_conditions";
  schema_ ← py_get payload "schema_version";
  let spec := {| task_id := py_str id_; title := py_str title_; goal := py_str goal_;
                 allowed_actions := map py_str allowed_; steps := steps_;
                 inputs := inputs_; completion_conditions := map py_str conds_;
                 schema_version := py_str (py_or (default VNone schema_) (VStr "")) |} in
  validate spec;; Ok spec.

(** The digest of the canonical JSON of the whole definition. *)
Definition fingerprint (s : t) : result string :=
  encoded ← json_dumps (to_dict s);
  Ok ("sha256-v1:" ++ sha256_hex encoded)%string.
End TaskSpec.

(** Artifacts.  Nothing checks the types of their fields when they come from a
    document or from an action, so the fields are [pyval]s. *)
Module ArtifactUpdate.
Record t := mk {
  artifact_id : pyval; kind : pyval; locator : pyval;
  created : pyval; verified : pyval; persistent_saved : pyval;
  device_saved : pyval; ui_loaded : pyval; metadata : pyval }.

(** [v.strip()] tested for emptiness *)
Definition required (v : pyval) (msg : string) : result unit :=
  match v with
  | VStr s => reject_if (blank s) ValueError msg
  | _ => raise AttributeError "strip"
  end.
Definition validate (u : t) : result unit :=
  required (artifact_id u) "artifact_id_required";;
  required (kind u) "artifact_kind_required".

Definition fields : list string :=
  ["artifact_id"; "kind"; "locator"; "created"; "verified"; "persistent_saved";
   "device_saved"; "ui_loaded"; "metadata"].
(** [ArtifactUpdate(item fields as keyword arguments)] *)
Definition of_kwargs (item : pyval) : result t :=
  match item with
  | VDict d =>
      reject_if (negb (forallb (λ k, bool_decide (k ∈ fields)) (keys d))) TypeError
        "unexpected keyword argument";;
      match dict_get "artifact_id" d, dict_get "kind" d with
      | Some i, Some k =>
          let f n := default VNone (dict_get n d) in
          Ok {| artifact_id := i; kind := k; locator := f "locator"; created := f "created";
                verified := f "verified"; persistent_saved := f "persistent_saved";
                device_saved := f "device_saved"; ui_loaded := f "ui_loaded";
                metadata := default (VDict []) (dict_get "metadata" d) |}
      | _, _ => raise TypeError "missing required argument"
      end
  | _ => raise TypeError "argument must be a mapping"
  end.
(** [artifact.__dict__] *)
Definition to_dict (u : t) : pyval :=
  VDict [("artifact_id", artifact_id u); ("kind", kind u); ("locator", locator u);
         ("created", created u); ("verified", verified u);
         ("persistent_saved", persistent_saved u); ("device_saved", device_saved u);
         ("ui_loaded", ui_loaded u); ("metadata", metadata u)].
End ArtifactUpdate.

Module ArtifactState.
Record t := mk {
  artifact_id : pyval; kind : pyval; locator : pyval;
  created : pyval; verified : pyval; persistent_saved : pyval;
  device_saved : pyval; ui_loaded : pyval; metadata : pyval;
  schema_version : pyval }.

(** [ArtifactState(artifact_id=i, kind=k)] *)
Definition fresh (i k : pyval) : t :=
  {| artifact_id := i; kind := k; locator := VNone; created := VBool false;
     verified := VBool false; persistent_saved := VBool false; device_saved := VBool false;
     ui_loaded := VBool false; metadata := VDict [];
     schema_version := VStr ARTIFACT_SCHEMA_VERSION |}.

Definition fields : list string := ArtifactUpdate.fields ++ ["schema_version"].
Definition of_kwargs (item : pyval) : result t :=
  match item with
  | VDict d =>
      reject_if (negb (forallb (λ k, bool_decide (k ∈ fields)) (keys d))) TypeError
        "unexpected keyword argument";;
      match dict_get "artifact_id" d, dict_get "kind" d with
      | Some i, Some k =>
          let f n dflt := default dflt (dict_get n d) in
          Ok {| artifact_id := i; kind := k; locator := f "locator" VNone;
                created := f "created" (VBool false); verified := f "verified" (VBool false);
                persistent_saved := f "persistent_saved" (VBool false);
                device_saved := f "device_saved" (VBool false);
                ui_loaded := f "ui_loaded" (VBool false); metadata := f "metadata" (VDict []);
                schema_version := f "schema_version" (VStr ARTIFACT_SCHEMA_VERSION) |}
      | _, _ => raise TypeError "missing required argument"
      end
  | _ => raise TypeError "argument must be a mapping"
  end.

Definition to_dict (a : t) : pyval :=
  VDict [("artifact_id", artifact_id a); ("kind", kind a); ("locator", locator a);
         ("created", created a); ("verified", verified a);
         ("persistent_saved", persistent_saved a); ("device_saved", device_saved a);
         ("ui_loaded", ui_loaded a); ("metadata", metadata a);
         ("schema_version", schema_version a)].

(** [if value is not None: setattr(self, name, bool(value))] *)
Definition flag (old new : pyval) : pyval :=
  match new with VNone => old | v => VBool (truthy v) end.

Definition merge (a : t) (u : ArtifactUpdate.t) : result t :=
  reject_if (truthy (ArtifactUpdate.kind u) && negb (py_eqb (kind a) (ArtifactUpdate.kind u)))
    ValueError "artifact_kind_conflict";;
  metadata_ ←
    (if truthy (ArtifactUpdate.metadata u) then
       match metadata a with
       | VDict d => e ← py_dict (ArtifactUpdate.metadata u); Ok (VDict (dict_update d e))
       | _ => raise AttributeError "update"
       end
     else Ok (metadata a));
  Ok {| artifact_id := artifact_id a; kind := kind a;
        locator := match ArtifactUpdate.locator u with VNone => locator a | v => v end;
        created := flag (created a) (ArtifactUpdate.created u);
        verified := flag (verified a) (ArtifactUpdate.verified u);
        persistent_saved := flag (persistent_saved a) (ArtifactUpdate.persistent_saved u);
        device_saved := flag (device_saved a) (ArtifactUpdate.device_saved u);
        ui_loaded := flag (ui_loaded a) (ArtifactUpdate.ui_loaded u);
        metadata := metadata_; schema_version := schema_version a |}.
End ArtifactState.

Module ActionResult.
Record t := mk {
  message : string;
  artifacts : list ArtifactUpdate.t;
  data : pydict }.
Definition empty : t := {| message := ""; artifacts := []; data := [] |}.
End ActionResult.

Module TaskState.
Record t := mk {
  task_id : string;
  status : pyval;
  completed_steps : list pyval;
  attempts : gmap string Z;
  blocked_reason : pyval;
  last_error : pyval;
  artifacts : gmap string ArtifactState.t;
  reconciliations : list pyval;
  updated_at : string;
  schema_version : string;
  spec_fingerprint : pyval }.

(** [TaskState(task_id=i)] *)
Definition fresh (i now : string) : t :=
  {| task_id := i; status := VStr "pending"; completed_steps := []; attempts := ∅;
     blocked_reason := VNone; last_error := VNone; artifacts := ∅; reconciliations := [];
     updated_at := now; schema_version := STATE_SCHEMA_VERSION; spec_fingerprint := VNone |}.

(** Assignments to the fields. *)
Definition set_status (v : string) (s : t) : t :=
  mk (task_id s) (VStr v) (completed_steps s) (attempts s) (blocked_reason s) (last_error s)
     (artifacts s) (reconciliations s) (updated_at s) (schema_version s) (spec_fingerprint s).
Definition set_completed (l : list pyval) (s : t) : t :=
  mk (task_id s) (status s) l (attempts s) (blocked_reason s) (last_error s)
     (artifacts s) (reconciliations s) (updated_at s) (schema_version s) (spec_fingerprint s).
Definition set_attempts (m : gmap string Z) (s : t) : t :=
  mk (task_id s) (status s) (completed_steps s) m (blocked_reason s) (last_error s)
     (artifacts s) (reconciliations s) (updated_at s) (schema_version s) (spec_fingerprint s).
Definition set_blocked_reason (v : pyval) (s : t) : t :=
  mk (task_id s) (status s) (completed_steps s) (attempts s) v (last_error s)
     (artifacts s) (reconciliations s) (updated_at s) (schema_version s) (spec_fingerprint s).
Definition set_last_error (v : pyval) (s : t) : t :=
  mk (task_id s) (status s) (completed_steps s) (attempts s) (blocked_reason s) v
     (artifacts s) (reconciliations s) (updated_at s) (schema_version s) (spec_fingerprint s).
Definition set_artifacts (m : gmap string ArtifactState.t) (s : t) : t :=
  mk (task_id s) (status s) (completed_steps s) (attempts s) (blocked_reason s) (last_error s)
     m (reconciliations s) (updated_at s) (schema_version s) (spec_fingerprint s).
Definition set_reconciliations (l : list pyval) (s : t) : t :=
  mk (task_id s) (status s) (completed_steps s) (attempts s) (blocked_reason s) (last_error s)
     (artifacts s) l (updated_at s) (schema_version s) (spec_fingerprint s).
Definition touch (now : string) (s : t) : t :=
  mk (task_id s) (status s) (completed_steps s) (attempts s) (blocked_reason s) (last_error s)
     (artifacts s) (reconciliations s) now (schema_version s) (spec_fingerprint s).
Definition set_spec_fingerprint (v : pyval) (s : t) : t :=
  mk (task_id s) (status s) (completed_steps s) (attempts s) (blocked_reason s) (last_error s)
     (artifacts s) (reconciliations s) (updated_at s) (schema_version s) v.

Definition to_dict (s : t) : pyval :=
  VDict [("task_id", VStr (task_id s)); ("status", status s);
         ("completed_steps", VList (completed_steps s));
         ("attempts", VDict (map (λ kv, (kv.1, VInt kv.2)) (map_to_list (attempts s))));
         ("blocked_reason", blocked_reason s); ("last_error", last_error s);
         ("artifacts", VDict (map (λ kv, (kv.1, ArtifactState.to_dict kv.2))
                                (map_to_list (artifacts s))));
         ("reconciliations", VList (reconciliations s)); ("updated_at", VStr (updated_at s));
         ("schema_version", VStr (schema_version s));
         ("spec_fingerprint", spec_fingerprint s)].

(** [f] on the value of every entry of a dictionary *)
Definition map_values {A} (f : pyval → result A) (d : pydict) : result (list (string * A)) :=
  mapR (λ kv, v ← f kv.2; Ok (kv.1, v)) d.

(** [now] is what [utc_now_iso()] returns if it is called. *)
Definition from_dict (now : string) (payload : pyval) : result t :=
  schema_ ← py_get payload "schema_version";
  reject_if (negb (py_eqb (default VNone schema_) (VStr STATE_SCHEMA_VERSION))) ValueError
    "state_schema_mismatch";;
  arts_ ← py_get payload "artifacts";
  arts_ ← py_dict (py_or (default VNone arts_) (VDict []));
  arts_ ← map_values ArtifactState.of_kwargs arts_;
  id_ ← getitem payload "task_id";
  status_ ← py_get payload "status";
  done_ ← py_get payload "completed_steps";
  done_ ← py_iter (py_or (default VNone done_) (VList []));
  att_ ← py_get payload "attempts";
  att_ ← py_dict (py_or (default VNone att_) (VDict []));
  att_ ← map_values py_int att_;
  reason_ ← py_get payload "blocked_reason";
  error_ ← py_get payload "last_error";
  recs_ ← py_get payload "reconciliations";
  recs_ ← py_iter (py_or (default VNone recs_) (VList []));
  upd_ ← py_get payload "updated_at";
  fp_ ← py_get payload "spec_fingerprint";
  Ok {| task_id := py_str id_; status := default (VStr "pending") status_;
        completed_steps := done_; attempts := list_to_map att_;
        blocked_reason := default VNone reason_; last_error := default VNone error_;
        artifacts := list_to_map arts_; reconciliations := recs_;
        updated_at := py_str (py_or (default VNone upd_) (VStr now));
        schema_version := py_str (default VNone schema_);
        spec_fingerprint := default VNone fp_ |}.
End TaskState.
