(* ===== verification/TaskModelFacts.v ===== *)
(** Properties of the task model: what validation promises, the round trips
    through documents, and artifact merging. *)
From S2P Require Import Prelude PyString PyValue Sha256 TaskModel.

(** ** Validation *)

(** What a valid step is, declaratively. *)
Record step_ok (s : StepSpec.t) : Prop := {
  so_id : blank (StepSpec.step_id s) = false;
  so_action : blank (StepSpec.action s) = false;
  so_attempts : 1 ≤ StepSpec.max_attempts s;
  so_retry : StepSpec.retry_safe s = true ∨ StepSpec.max_attempts s = 1 }.

Lemma step_validate_iff s : StepSpec.validate s = Ok tt ↔ step_ok s.
Proof.
  unfold StepSpec.validate. split.
  - intros H. inv_result. apply andb_false_iff in H. split; [done|done|lia|].
    destruct H as [H|H]; inv_result; [by left | right; lia].
  - intros [E1 E2 Ha Hr]. rewrite E1, E2. cbn.
    replace (StepSpec.max_attempts s <? 1) with false by (symmetry; lia). cbn.
    destruct Hr as [E|E]; rewrite E; cbn; [done|]. by rewrite andb_false_r.
Qed.

(** What a valid task is, given the identifiers already seen. *)
Record steps_ok (allowed seen : list string) (l : list StepSpec.t) : Prop := {
  ss_each : Forall step_ok l;
  ss_nodup : NoDup (map StepSpec.step_id l);
  ss_fresh : ∀ s, s ∈ l → StepSpec.step_id s ∉ seen;
  ss_allowed : ∀ s, s ∈ l → StepSpec.action s ∈ allowed;
  ss_verify : ∀ s v, s ∈ l → TaskSpec.verifier_of s = Some v → v ∈ allowed }.

Lemma validate_step_Ok allowed seen s seen' :
  TaskSpec.validate_step allowed seen s = Ok seen' ↔
  step_ok s ∧ (StepSpec.step_id s ∉ seen) ∧ StepSpec.action s ∈ allowed ∧
  (∀ v, TaskSpec.verifier_of s = Some v → v ∈ allowed) ∧ seen' = StepSpec.step_id s :: seen.
Proof.
  unfold TaskSpec.validate_step. rewrite <- step_validate_iff. split.
  - intros H. inv_result. apply dec_stable in Ha1.
    split_and!; [done..| |done].
    intros v E. rewrite E in Ha2. inv_result. by apply dec_stable.
  - intros (-> & Hs & Ha & Hv & ->). cbn.
    rewrite (bool_decide_eq_false_2 _ Hs). cbn.
    rewrite (bool_decide_eq_false_2 (_ ∉ allowed)) by tauto. cbn.
    destruct (TaskSpec.verifier_of s) as [v|]; [|done].
    specialize (Hv v eq_refl). by rewrite (bool_decide_eq_false_2 (v ∉ allowed)) by tauto.
Qed.

Lemma steps_validate_iff allowed seen l :
  is_ok (foldR (TaskSpec.validate_step allowed) seen l) = true ↔ steps_ok allowed seen l.
Proof.
  revert seen. induction l as [|s l IH]; intros seen; cbn.
  { split; [|done]. split; try constructor; set_solver. }
  split.
  - destruct (TaskSpec.validate_step allowed seen s) as [seen'|] eqn:E; [|done]. cbn.
    apply validate_step_Ok in E as (Hs & Hf & Ha & Hv & ->). rewrite IH. intros [].
    split; cbn.
    + by constructor.
    + apply list.NoDup_cons. split; [|done]. intros (s' & Es & Hin)%list_elem_of_fmap.
      apply (ss_fresh0 s'); [done|]. rewrite Es. set_solver.
    + intros s' [->|H]%elem_of_cons; [done|]. specialize (ss_fresh0 s' H). set_solver.
    + intros s' [->|H]%elem_of_cons; [done|auto].
    + intros s' v [->|H]%elem_of_cons; [auto|eauto].
  - intros [H1 H2 H3 H4 H5]. inversion H1; subst.
    apply list.NoDup_cons in H2 as [Hn Hnd].
    assert (TaskSpec.validate_step allowed seen s = Ok (StepSpec.step_id s :: seen)) as ->.
    { apply validate_step_Ok. split_and!; [done| | | |done].
      - apply H3. set_solver.
      - apply H4. set_solver.
      - intros v. apply H5. set_solver. }
    cbn. apply IH. split; [done|done| | |].
    + intros s' Hs' [E|E]%elem_of_cons; [|by apply (H3 s'); [set_solver|]].
      apply Hn. apply list_elem_of_fmap. by exists s'.
    + set_solver.
    + intros s' v Hs'. apply H5. set_solver.
Qed.

(** What a valid task definition is. *)
Record spec_ok (s : TaskSpec.t) : Prop := {
  sp_schema : TaskSpec.schema_version s = TASK_SCHEMA_VERSION;
  sp_id : blank (TaskSpec.task_id s) = false;
  sp_title : blank (TaskSpec.title s) = false;
  sp_goal : blank (TaskSpec.goal s) = false;
  sp_steps : TaskSpec.steps s ≠ [];
  sp_allowed : NoDup (TaskSpec.allowed_actions s);
  sp_each : steps_ok (TaskSpec.allowed_actions s) [] (TaskSpec.steps s) }.

Lemma length_remove_dups_le {A} `{EqDecision A} (l : list A) :
  (length (remove_dups l) ≤ length l)%nat.
Proof. induction l as [|x l IH]; cbn; [lia|]. case_decide; cbn; lia. Qed.

Lemma length_remove_dups {A} `{EqDecision A} (l : list A) :
  length (remove_dups l) = length l ↔ NoDup l.
Proof.
  split.
  - induction l as [|x l IH]; cbn; [constructor|].
    pose proof (length_remove_dups_le l). case_decide; cbn; [lia|].
    intros [= H1]. apply list.NoDup_cons. auto.
  - induction 1 as [|x l Hx Hl IH]; cbn; [done|].
    case_decide; [done|]. cbn. by rewrite IH.
Qed.

Lemma spec_validate_iff s : TaskSpec.validate s = Ok tt ↔ spec_ok s.
Proof.
  unfold TaskSpec.validate. split.
  - intros H. inv_result. apply Nat.eqb_eq, length_remove_dups in Ha4.
    split; try done; [by apply String.eqb_eq|].
    apply steps_validate_iff. by rewrite Ha5.
  - intros [E0 E1 E2 E3 H4 H5 H6]. rewrite E0, E1, E2, E3. cbn.
    rewrite bool_decide_eq_false_2 by done. cbn.
    rewrite (proj2 (length_remove_dups _)) by done. rewrite Nat.eqb_refl. cbn.
    apply steps_validate_iff in H6. by destruct (foldR _ _ _).
Qed.

(** ** Round trips *)

Lemma mapR_map_Ok {A B C} (f : B → result C) (g : A → B) (h : A → C) l :
  (∀ x, x ∈ l → f (g x) = Ok (h x)) → mapR f (map g l) = Ok (map h l).
Proof.
  induction l as [|x l IH]; intros H; cbn; [done|].
  rewrite H by set_solver. cbn. rewrite IH by set_solver. done.
Qed.

Lemma py_or_dict d : py_dict (py_or (VDict d) (VDict [])) = Ok d.
Proof. by destruct d. Qed.
Lemma iter_or_list l : py_iter (py_or (VList l) (VTuple [])) = Ok l.
Proof. by destruct l. Qed.
Lemma iter_or_list' l : py_iter (py_or (VList l) (VList [])) = Ok l.
Proof. by destruct l. Qed.

Lemma step_from_to_dict s : StepSpec.from_dict (StepSpec.to_dict s) = Ok s.
Proof.
  destruct s as [i a args v r m]. unfold StepSpec.from_dict, StepSpec.to_dict. cbn.
  rewrite py_or_dict. cbn. by destruct v.
Qed.

Lemma map_py_str l : map py_str (map VStr l) = l.
Proof. rewrite map_map. cbn. apply map_id. Qed.

Lemma mapR_steps l : mapR StepSpec.from_dict (map StepSpec.to_dict l) = Ok l.
Proof.
  rewrite (mapR_map_Ok _ _ id); [by rewrite map_id|]. intros. apply step_from_to_dict.
Qed.

Lemma py_str_or s : py_str (py_or (VStr s) (VStr "")) = s.
Proof. unfold py_or. cbn. destruct (truthy_s s) eqn:E; [done|]. by apply truthy_s_false in E as ->. Qed.

(** Reading back a definition's document re-validates it and changes nothing. *)
Lemma spec_from_to_dict s :
  TaskSpec.from_dict (TaskSpec.to_dict s) = (TaskSpec.validate s;; Ok s).
Proof.
  destruct s as [i t g al st inp cc sv].
  unfold TaskSpec.from_dict, TaskSpec.to_dict, TaskSpec.items_of, py_get, getitem.
  cbn -[py_iter py_or mapR py_dict py_str TaskSpec.validate map].
  rewrite !iter_or_list. cbn -[py_or mapR py_dict py_str TaskSpec.validate map].
  rewrite mapR_steps. cbn -[py_or py_dict py_str TaskSpec.validate map].
  rewrite py_or_dict. cbn -[py_or py_str TaskSpec.validate map].
  rewrite !map_py_str, py_str_or. done.
Qed.

(** ** Detached definitions

    A JSON round trip may change the embedded documents; identifiers, actions,
    verifications and attempt limits are those of the caller's definition. *)
Definition with_args (args : pydict) (s : StepSpec.t) : StepSpec.t :=
  StepSpec.mk (StepSpec.step_id s) (StepSpec.action s) args (StepSpec.verify_action s)
    (StepSpec.retry_safe s) (StepSpec.max_attempts s).

Lemma detach_dict d v : json_detach (VDict d) = Ok v → ∃ d', v = VDict d'.
Proof. cbn. intros (d' & _ & [= <-])%bind_Ok. eauto. Qed.

Lemma detach_strs l : mapR json_detach (map VStr l) = Ok (map VStr l).
Proof. induction l as [|x l IH]; cbn; [done|]. by rewrite IH. Qed.

Lemma detach_fields d :
  json_detach (VDict d) = (VDict <$> mapR (λ kv, x ← json_detach kv.2; Ok (kv.1, x)) d).
Proof.
  change (VDict <$> ?r) with (d' ← r; Ok (VDict d')).
  cbn [json_detach]. f_equal. induction d as [|[k x] d IH]; [done|].
  cbn [mapR fst snd]. rewrite <- IH. by destruct (json_detach x).
Qed.

Lemma detach_step s v :
  json_detach (StepSpec.to_dict s) = Ok v →
  ∃ args, v = StepSpec.to_dict (with_args args s).
Proof.
  unfold StepSpec.to_dict. rewrite detach_fields. cbn [mapR fst snd].
  destruct (json_detach (VDict (StepSpec.args s))) as [v'|] eqn:E; [|done].
  apply detach_dict in E as (args & ->). intros H. exists args.
  destruct s as [i a args0 [vf|] r m]; cbn in H; by injection H as <-.
Qed.

Lemma detach_str x : json_detach (VStr x) = Ok (VStr x).
Proof. done. Qed.
Lemma detach_list l : json_detach (VList l) = (l' ← mapR json_detach l; Ok (VList l')).
Proof. done. Qed.

(** The detached definition is the caller's up to embedded documents, and valid. *)
Record detached (spec spec' : TaskSpec.t) : Prop := {
  dt_id : TaskSpec.task_id spec' = TaskSpec.task_id spec;
  dt_valid : spec_ok spec';
  dt_steps : Forall2 (λ s s', ∃ args, s' = with_args args s)
               (TaskSpec.steps spec) (TaskSpec.steps spec') }.

Lemma detach_steps l v :
  mapR json_detach (map StepSpec.to_dict l) = Ok v →
  ∃ l', v = map StepSpec.to_dict l' ∧ Forall2 (λ s s', ∃ args, s' = with_args args s) l l'.
Proof.
  revert v. induction l as [|s l IH]; intros v; cbn [map mapR].
  - intros [= <-]. by exists [].
  - intros (v1 & H1 & (vs & (l' & -> & Hl)%IH & [= <-])%bind_Ok)%bind_Ok.
    apply detach_step in H1 as (args & ->).
    exists (with_args args s :: l'). split; [done|]. constructor; eauto.
Qed.

Lemma read_detached spec doc spec' :
  json_detach (TaskSpec.to_dict spec) = Ok doc → TaskSpec.from_dict doc = Ok spec' →
  detached spec spec'.
Proof.
  intros Hdoc H2.
  assert (∃ spec1, doc = TaskSpec.to_dict spec1 ∧
    TaskSpec.task_id spec1 = TaskSpec.task_id spec ∧
    Forall2 (λ s s', ∃ args, s' = with_args args s) (TaskSpec.steps spec) (TaskSpec.steps spec1))
    as (spec1 & -> & Eid & Hst).
  { clear H2. revert Hdoc. unfold TaskSpec.to_dict. rewrite detach_fields.
    cbn [mapR fst snd]. rewrite !detach_str, !detach_list, !detach_strs.
    destruct (mapR json_detach (map StepSpec.to_dict (TaskSpec.steps spec))) as [vs|] eqn:E2;
      [|done].
    apply detach_steps in E2 as (l' & -> & Hl).
    destruct (json_detach (VDict (TaskSpec.inputs spec))) as [v'|] eqn:E; [|done].
    apply detach_dict in E as (inputs & ->). intros [= <-].
    exists (TaskSpec.mk (TaskSpec.task_id spec) (TaskSpec.title spec) (TaskSpec.goal spec)
      (TaskSpec.allowed_actions spec) l' inputs (TaskSpec.completion_conditions spec)
      (TaskSpec.schema_version spec)). done. }
  rewrite spec_from_to_dict in H2.
  destruct (TaskSpec.validate spec1) as [[]|] eqn:Ev; [|done]. injection H2 as <-.
  split; [done| |done]. by apply spec_validate_iff.
Qed.

(** What an artifact and a state look like once written and read again: the
    embedded documents have their keys sorted and their tuples as lists. *)
Definition artifact_read (a : ArtifactState.t) : ArtifactState.t :=
  {| ArtifactState.artifact_id := json_sorted (ArtifactState.artifact_id a);
     ArtifactState.kind := json_sorted (ArtifactState.kind a);
     ArtifactState.locator := json_sorted (ArtifactState.locator a);
     ArtifactState.created := json_sorted (ArtifactState.created a);
     ArtifactState.verified := json_sorted (ArtifactState.verified a);
     ArtifactState.persistent_saved := json_sorted (ArtifactState.persistent_saved a);
     ArtifactState.device_saved := json_sorted (ArtifactState.device_saved a);
     ArtifactState.ui_loaded := json_sorted (ArtifactState.ui_loaded a);
     ArtifactState.metadata := json_sorted (ArtifactState.metadata a);
     ArtifactState.schema_version := json_sorted (ArtifactState.schema_version a) |}.
Definition state_read (s : TaskState.t) : TaskState.t :=
  {| TaskState.task_id := TaskState.task_id s;
     TaskState.status := json_sorted (TaskState.status s);
     TaskState.completed_steps := map json_sorted (TaskState.completed_steps s);
     TaskState.attempts := TaskState.attempts s;
     TaskState.blocked_reason := json_sorted (TaskState.blocked_reason s);
     TaskState.last_error := json_sorted (TaskState.last_error s);
     TaskState.artifacts := artifact_read <$> TaskState.artifacts s;
     TaskState.reconciliations := map json_sorted (TaskState.reconciliations s);
     TaskState.updated_at := TaskState.updated_at s;
     TaskState.schema_version := TaskState.schema_version s;
     TaskState.spec_fingerprint := json_sorted (TaskState.spec_fingerprint s) |}.

Lemma artifact_of_sorted a :
  ArtifactState.of_kwargs (json_sorted (ArtifactState.to_dict a)) = Ok (artifact_read a).
Proof. by destruct a. Qed.

Lemma map_values_sorted {A B} (f : pyval → result B) (g : A → pyval) (h : A → B) (m : gmap string A) :
  (∀ x, f (json_sorted (g x)) = Ok (h x)) →
  ∃ l, TaskState.map_values f
         (sorted_on fst (map (λ kv, (kv.1, json_sorted kv.2))
            (map (λ kv, (kv.1, g kv.2)) (map_to_list m)))) = Ok l ∧
       list_to_map l = h <$> m.
Proof.
  intros H. rewrite map_map. cbn [fst snd].
  rewrite (sorted_on_map fst fst (λ kv, (kv.1, json_sorted (g kv.2)))) by done.
  unfold TaskState.map_values.
  rewrite (mapR_map_Ok _ _ (prod_map id h)).
  - eexists. split; [done|]. rewrite <- (sorted_entries_to_map m) at 2.
    by rewrite <- list_to_map_fmap.
  - intros [k v] _. cbn. by rewrite H.
Qed.

Lemma sorted_dict_nonempty d : py_dict (py_or (VDict d) (VDict [])) = Ok d.
Proof. by destruct d. Qed.

(** Reading a saved state file: [now] only stands in for an empty time stamp. *)
Lemma state_from_saved now s :
  TaskState.schema_version s = STATE_SCHEMA_VERSION →
  TaskState.from_dict now (json_sorted (TaskState.to_dict s)) =
  Ok (TaskState.touch (if truthy_s (TaskState.updated_at s) then TaskState.updated_at s else now)
        (state_read s)).
Proof.
  intros Hs. destruct s as [i st cs at_ br le ar rc ua sv fp]. cbn in Hs. subst sv.
  destruct (map_values_sorted py_int VInt id at_) as (latt & Ha & Eatt); [done|].
  destruct (map_values_sorted ArtifactState.of_kwargs ArtifactState.to_dict artifact_read ar)
    as (lart & Hr & Eart); [apply artifact_of_sorted|].
  rewrite map_fmap_id in Eatt.
  unfold TaskState.to_dict. cbn [TaskState.task_id TaskState.status TaskState.completed_steps
    TaskState.attempts TaskState.blocked_reason TaskState.last_error TaskState.artifacts
    TaskState.reconciliations TaskState.updated_at TaskState.schema_version
    TaskState.spec_fingerprint].
  remember (map (λ kv, (kv.1, VInt kv.2)) (map_to_list at_)) as datt.
  remember (map (λ kv, (kv.1, ArtifactState.to_dict kv.2)) (map_to_list ar)) as dart.
  simpl json_sorted.
  set (D1 := sorted_on fst (map _ datt)) in *. set (D2 := sorted_on fst (map _ dart)) in *.
  clearbody D1 D2. unfold TaskState.from_dict, py_get, getitem.
  rewrite !dict_get_sorted by (apply (bool_decide_unpack _); vm_compute; exact I).
  cbn -[py_dict py_or py_iter TaskState.map_values json_sorted map list_to_map].
  rewrite !py_or_dict. cbn -[py_or py_iter TaskState.map_values json_sorted map list_to_map].
  rewrite Hr. cbn -[py_or py_iter TaskState.map_values json_sorted map list_to_map].
  rewrite !iter_or_list'. cbn -[py_or TaskState.map_values json_sorted map list_to_map].
  rewrite Ha. cbn -[py_or json_sorted map list_to_map].
  rewrite Eatt, Eart. unfold py_or. cbn -[json_sorted map].
  by destruct (truthy_s ua).
Qed.

(** ** Artifacts *)
Lemma dict_set_same k v d : dict_get k d = Some v → dict_set k v d = d.
Proof.
  induction d as [|[k0 v0] d IH]; cbn; [done|].
  destruct (String.eqb_spec k0 k) as [->|]; [by intros [= ->]|]. intros H. by rewrite IH.
Qed.
Lemma dict_get_update_notin k d e : k ∉ keys e → dict_get k (dict_update d e) = dict_get k d.
Proof.
  unfold dict_update. revert d. induction e as [|[k0 v0] e IH]; intros d; cbn; [done|].
  rewrite not_elem_of_cons. intros [N H]. rewrite IH by done. rewrite dict_get_set.
  by destruct (String.eqb_spec k0 k) as [->|].
Qed.
Lemma dict_get_update_in k v d e :
  NoDup (keys e) → (k, v) ∈ e → dict_get k (dict_update d e) = Some v.
Proof.
  revert d. induction e as [|[k0 v0] e IH]; intros d; cbn; [by intros _ ?%not_elem_of_nil|].
  intros [N ND]%list.NoDup_cons [E|H]%elem_of_cons.
  - injection E as <- <-. change (dict_get k (dict_update (dict_set k v d) e) = Some v).
    rewrite dict_get_update_notin by done. by rewrite dict_get_set, String.eqb_refl.
  - by apply IH.
Qed.
Lemma dict_update_present d e :
  (∀ k v, (k, v) ∈ e → dict_get k d = Some v) → dict_update d e = d.
Proof.
  unfold dict_update. induction e as [|[k v] e IH]; intros H; cbn; [done|].
  rewrite (dict_set_same k v) by (apply H; set_solver). apply IH. set_solver.
Qed.
Lemma dict_update_twice d e :
  NoDup (keys e) → dict_update (dict_update d e) e = dict_update d e.
Proof. intros. apply dict_update_present. intros k v H'. by apply dict_get_update_in. Qed.

Lemma flag_twice o n : ArtifactState.flag (ArtifactState.flag o n) n = ArtifactState.flag o n.
Proof. by destruct n. Qed.

(** Merging an update into an artifact a second time changes nothing. *)
Theorem merge_idempotent a u b e :
  ArtifactUpdate.metadata u = VDict e → NoDup (keys e) →
  ArtifactState.merge a u = Ok b → ArtifactState.merge b u = Ok b.
Proof.
  intros Hm ND H. unfold ArtifactState.merge in *. rewrite Hm in *.
  apply bind_Ok in H as ([] & Hk & H). apply bind_Ok in H as (md & Hmd & H).
  injection H as <-. cbn [ArtifactState.kind ArtifactState.metadata]. rewrite Hk. cbn.
  destruct e as [|kv e]; cbn -[dict_update] in Hmd.
  - injection Hmd as <-. rewrite !flag_twice. by destruct (ArtifactUpdate.locator u).
  - destruct (ArtifactState.metadata a) as [| | | | | | |d]; try discriminate Hmd.
    assert (md = VDict (dict_update d (kv :: e))) as -> by (by injection Hmd). cbn -[dict_update].
    rewrite dict_update_twice by done. rewrite !flag_twice.
    by destruct (ArtifactUpdate.locator u).
Qed.

(** A merge keeps the artifact's identity, kind and schema, never clears its
    locator, and leaves every flag the update does not mention. *)
Theorem merge_keeps a u b :
  ArtifactState.merge a u = Ok b →
  ArtifactState.artifact_id b = ArtifactState.artifact_id a ∧
  ArtifactState.kind b = ArtifactState.kind a ∧
  ArtifactState.schema_version b = ArtifactState.schema_version a ∧
  (ArtifactState.locator b = VNone → ArtifactState.locator a = VNone) ∧
  (ArtifactUpdate.verified u = VNone → ArtifactState.verified b = ArtifactState.verified a) ∧
  (∀ k d, ArtifactState.metadata a = VDict d →
     (∀ e, ArtifactUpdate.metadata u = VDict e → k ∉ keys e) →
     is_dict (ArtifactUpdate.metadata u) = true →
     ∃ d', ArtifactState.metadata b = VDict d' ∧ dict_get k d' = dict_get k d).
Proof.
  intros H. unfold ArtifactState.merge in H.
  apply bind_Ok in H as ([] & _ & H). apply bind_Ok in H as (md & Hmd & H).
  injection H as <-. cbn. split_and!; try done.
  - by destruct (ArtifactUpdate.locator u).
  - by intros ->.
  - intros k d Ha Hk Hu. rewrite Ha in Hmd.
    destruct (ArtifactUpdate.metadata u) as [| | | | | | |e]; try discriminate Hu. cbn in Hmd.
    specialize (Hk e eq_refl). destruct e as [|kv e]; cbn in Hmd.
    + injection Hmd as <-. eauto.
    + injection Hmd as <-. eexists. split; [done|].
      exact (dict_get_update_notin k d (kv :: e) Hk).
Qed.

(** An artifact and an update for witnesses. *)
Definition sample_artifact : ArtifactState.t :=
  ArtifactState.fresh (VStr "report") (VStr "file").
Definition sample_update : ArtifactUpdate.t :=
  {| ArtifactUpdate.artifact_id := VStr "report"; ArtifactUpdate.kind := VStr "file";
     ArtifactUpdate.locator := VStr "out/report.json"; ArtifactUpdate.created := VBool true;
     ArtifactUpdate.verified := VNone; ArtifactUpdate.persistent_saved := VNone;
     ArtifactUpdate.device_saved := VNone; ArtifactUpdate.ui_loaded := VNone;
     ArtifactUpdate.metadata := VDict [("rows", VInt 3)] |}.

Lemma merge_idempotent_witness :
  ∃ b, ArtifactState.merge sample_artifact sample_update = Ok b ∧
       ArtifactState.merge b sample_update = Ok b.
Proof.
  eexists. split; [vm_compute; reflexivity|].
  apply (merge_idempotent sample_artifact sample_update _ [("rows", VInt 3)]);
    [reflexivity | apply (bool_decide_unpack _); vm_compute; exact I | vm_compute; reflexivity].
Defined.

Lemma merge_keeps_witness :
  ∃ b, ArtifactState.merge sample_artifact sample_update = Ok b ∧
       ArtifactState.kind b = VStr "file".
Proof.
  eexists. split; [vm_compute; reflexivity|].
  apply (merge_keeps sample_artifact sample_update _). vm_compute; reflexivity.
Defined.
