(* ===== verification/Diagnostics.v ===== *)
(** agent_core/diagnostics.py: the metadata a failed action may leave in an
    ephemeral, host-injected sink. *)
From S2P Require Import Prelude PyString PyValue.

Definition name_head (c : Ascii.ascii) : bool := is_alpha c || one_of "_" c.
Definition name_tail (c : Ascii.ascii) : bool := is_ascii_alnum c || one_of "_.:-" c.
Definition code_tail (c : Ascii.ascii) : bool := is_lower c || is_digit c || one_of "_.:-" c.
(** [_SAFE_NAME_RE] and [_SAFE_CODE_RE] *)
Definition safe_name (s : string) : bool := fullmatch name_head name_tail 127 s.
Definition safe_code (s : string) : bool := fullmatch is_lower code_tail 127 s.

Record ActionDiagnosticEvent := {
  task_id : string; step_id : string; action : string; phase : string;
  attempt_ : Z; retry_safe : bool; classification : string; exception_type : string }.

Definition short_id (v err : string) : result unit :=
  reject_if (negb (truthy_s v) || (256 <? slen v)) ValueError err.

(** [ActionDiagnosticEvent.__post_init__] *)
Definition post_init (e : ActionDiagnosticEvent) : result unit :=
  short_id (task_id e) "diagnostic_task_id_invalid";;
  short_id (step_id e) "diagnostic_step_id_invalid";;
  short_id (action e) "diagnostic_action_invalid";;
  reject_if (negb (bool_decide (phase e ∈ ["action"; "verification"]))) ValueError
    "diagnostic_phase_invalid";;
  reject_if (attempt_ e <? 1) ValueError "diagnostic_attempt_invalid";;
  reject_if (negb (safe_code (classification e))) ValueError "diagnostic_classification_invalid";;
  reject_if (negb (safe_name (exception_type e))) ValueError "diagnostic_exception_type_invalid".

Definition mk_event (e : ActionDiagnosticEvent) : result ActionDiagnosticEvent :=
  post_init e;; Ok e.

Definition to_safe_dict (e : ActionDiagnosticEvent) : pyval :=
  VDict [("task_id", VStr (task_id e)); ("step_id", VStr (step_id e));
         ("action", VStr (action e)); ("phase", VStr (phase e));
         ("attempt", VInt (attempt_ e)); ("retry_safe", VBool (retry_safe e));
         ("classification", VStr (classification e));
         ("exception_type", VStr (exception_type e))].

(** [safe_exception_type]: [name] is [type(error).__name__]. *)
Definition safe_exception_type (name : string) : string :=
  if safe_name name then name else "Exception".

(** [CollectingDiagnosticSink] *)
Definition collect_emit (events : list ActionDiagnosticEvent) (e : ActionDiagnosticEvent) :=
  events ++ [e].
Definition collect_clear (events : list ActionDiagnosticEvent) : list ActionDiagnosticEvent := [].

Lemma safe_exception_type_safe name : safe_name (safe_exception_type name) = true.
Proof. unfold safe_exception_type. by destruct (safe_name name) eqn:E. Qed.
