(* ===== verification/TaskStore.v ===== *)
(** The interface through which the runner reaches a store of task states.

    agent_core/runner.py is duck-typed in its [store]: agent_core/store.py keeps
    the states in files, agent_core/hosted_readonly_worker.py in a leased row of
    the hosted queue.  [H] is the state of the process with its store, [W] the
    outside world the provider actions live in. *)
From S2P Require Import Prelude PyString PyValue TaskModel.

Class TaskStore (H W : Type) := {
  (** [store.state_path(id).exists()] *)
  ts_exists : string → eff H bool;
  ts_load : string → eff H TaskState.t;
  (** [store.save_state(state)] touches the state: the touched state is returned. *)
  ts_save : TaskState.t → eff H TaskState.t;
  (** [task_id], [event_type], [message], [step_id] and [data] *)
  ts_append : string → string → string → option string → pydict → eff H pyval;
  (** [with store.task_lock(id): body] *)
  ts_lock : ∀ {A}, string → eff H A → eff H A;
  (** a call that leaves the process *)
  ts_world : ∀ {A}, eff W A → eff H A }.
#[global] Hint Mode TaskStore ! - : typeclass_instances.

(** What the runner relies on: a save hands back the state it was given, touched;
    a call outside sees and changes nothing but the outside world; and a lock
    runs its body. *)
Class TaskStoreLaws (H W : Type) {TS : TaskStore H W} := {
  outside : H → W;
  put_outside : W → H → H;
  save_touches st (h : H) st' : (ts_save st h).1 = Ok st' → ∃ t, st' = TaskState.touch t st;
  world_run {A} (m : eff W A) (h : H) :
    ts_world m h = (let '(r, w) := m (outside h) in (r, put_outside w h));
  lock_ext {A} id (m m' : eff H A) h : (∀ h, m h = m' h) → ts_lock id m h = ts_lock id m' h }.

(** An exception that is not the mark of a loop without fuel. *)
Definition quiet_exn (e : exn) : Prop := exn_class e ≠ OutOfFuel.
Definition quiet {A} (r : result A) : Prop := ∀ e, r = Err e → quiet_exn e.

(** A store whose own operations never claim to have run out of fuel. *)
Class QuietStore (H W : Type) {TS : TaskStore H W} := {
  save_quiet st (h : H) : quiet (ts_save st h).1;
  append_quiet id ty msg s d (h : H) : quiet (ts_append id ty msg s d h).1 }.

(** The same facts as rules of the invariant calculus. *)
Section rules.
Context {H W : Type} `{TaskStoreLaws H W} `{!QuietStore H W}.
Abbreviation T := (λ _ : H, True).

Lemma wpi_ts_save st (Q : TaskState.t → H → Prop) h :
  (∀ h' t, Q (TaskState.touch t st) h') → wpi T quiet_exn (ts_save st) Q h.
Proof.
  intros HQ. unfold wpi, wp. pose proof (save_touches st h) as Ht. pose proof (save_quiet st h) as Hq.
  destruct (ts_save st h) as [[st'|e] h']; (split; [done|]).
  - destruct (Ht st' eq_refl) as [t ->]. apply HQ.
  - by apply Hq.
Qed.
Lemma wpi_ts_append id ty msg s d (Q : pyval → H → Prop) h :
  (∀ h' v, Q v h') → wpi T quiet_exn (ts_append id ty msg s d) Q h.
Proof.
  intros HQ. unfold wpi, wp. pose proof (append_quiet id ty msg s d h) as Hq.
  destruct (ts_append id ty msg s d h) as [[v|e] h']; (split; [done|]); [apply HQ|by apply Hq].
Qed.
End rules.
