(* ===== verification/StateStore.v ===== *)
(** agent_core/store.py: the local file store of task states and its activity
    ledger.

    The file system is the map from task identifiers to the JSON documents of
    their state files, the ledger is the list of its records, and locks are the
    set of identifiers whose lock file is held.  [now n] is the [n]-th clock
    reading.  [io_fault n] tells whether the [n]-th durable operation (a state
    replacement or a ledger append) raises [OSError] instead of happening: a
    crash or a full disk at any point of an execution is one such function.
    [W] is the outside world of the provider actions. *)
From S2P Require Import Prelude PyString PyValue TaskModel TaskStore.

Definition id_head (c : Ascii.ascii) : bool := is_ascii_alnum c.
Definition id_tail (c : Ascii.ascii) : bool := is_ascii_alnum c || one_of "._-" c.
(** [_SAFE_ID.fullmatch] *)
Definition safe_id (s : string) : bool := fullmatch id_head id_tail 127 s.

Record host (W : Type) := Host {
  files : gmap string pyval;
  ledger : list pyval;
  locked : gset string;
  ticks : nat;
  writes : nat;
  world : W }.
Arguments Host {W}.
Arguments files {W}. Arguments ledger {W}. Arguments locked {W}.
Arguments ticks {W}. Arguments writes {W}. Arguments world {W}.

Definition RECONCILIATION_RESOLUTIONS : list string :=
  ["not_applied"; "applied_and_verified"; "needs_manual_action"].

Section Store.
Context {W : Type} (now : nat → string) (io_fault : nat → bool).
Abbreviation host := (host W).
Abbreviation E := (eff host).

Definition utc_now_iso : E string := λ h,
  (Ok (now (ticks h)),
   Host (files h) (ledger h) (locked h) (S (ticks h)) (writes h) (world h)).

(** A durable operation: it happens, or it raises [OSError] and does not. *)
Definition durable (f : host → host) : E unit := λ h,
  let h' := Host (files h) (ledger h) (locked h) (ticks h) (S (writes h)) (world h) in
  if io_fault (writes h) then (raise OSError "io", h') else (Ok tt, f h').
Definition put_file (id : string) (doc : pyval) (h : host) : host :=
  Host (<[id := doc]> (files h)) (ledger h) (locked h) (ticks h) (writes h) (world h).
Definition push_event (ev : pyval) (h : host) : host :=
  Host (files h) (ledger h ++ [ev]) (locked h) (ticks h) (writes h) (world h).
Definition set_locked (l : gset string) (h : host) : host :=
  Host (files h) (ledger h) l (ticks h) (writes h) (world h).

Definition _safe_task_id (id : string) : result string :=
  reject_if (negb (safe_id id)) ValueError "unsafe_task_id";; Ok id.
(** The file of a task is named by its identifier. *)
Definition state_path (id : string) : result string := _safe_task_id id.

(** [with self.task_lock(id): body] *)
Definition task_lock {A} (id : string) (body : E A) : E A :=
  lift (_safe_task_id id);;
  h ← get;
  if bool_decide (id ∈ locked h) then lift (raise RuntimeError "task_already_running")
  else
    modify (set_locked ({[id]} ∪ locked h));;
    r ← attempt body;
    modify (λ h', set_locked (locked h' ∖ {[id]}) h');;
    lift r.

Definition load_state (id : string) : E TaskState.t :=
  path ← lift (state_path id);
  h ← get;
  match files h !! path with
  | None => t ← utc_now_iso; mret (TaskState.fresh id t)
  | Some payload =>
      t ← utc_now_iso;
      state ← lift (TaskState.from_dict t payload);
      lift (reject_if (negb (String.eqb (TaskState.task_id state) id)) ValueError
        "task_state_id_mismatch");;
      mret state
  end.

(** Returns the state with its new [updated_at]. *)
Definition save_state (state : TaskState.t) : E TaskState.t :=
  path ← lift (state_path (TaskState.task_id state));
  t ← utc_now_iso;
  let state := TaskState.touch t state in
  durable (put_file path (json_sorted (TaskState.to_dict state)));;
  mret state.

Definition apply_artifact_update (state : TaskState.t) (u : ArtifactUpdate.t) : result TaskState.t :=
  ArtifactUpdate.validate u;;
  let id := py_str (ArtifactUpdate.artifact_id u) in
  let existing := default (ArtifactState.fresh (ArtifactUpdate.artifact_id u) (ArtifactUpdate.kind u))
                    (TaskState.artifacts state !! id) in
  merged ← ArtifactState.merge existing u;
  Ok (TaskState.set_artifacts (<[id := merged]> (TaskState.artifacts state)) state).

Definition append_event (id event_type message : string) (step_id : option string)
    (data : pydict) : E pyval :=
  lift (_safe_task_id id);;
  t ← utc_now_iso;
  let event := VDict [("timestamp", VStr t); ("task_id", VStr id); ("step_id", opt_str step_id);
                      ("event_type", VStr event_type); ("message", VStr message);
                      ("data", VDict data)] in
  durable (push_event (json_sorted event));;
  mret event.

(** [load_events(task_id)]; records are dictionaries. *)
Definition load_events (id : option string) : E (list pyval) :=
  h ← get;
  mret (List.filter (λ ev,
    match id with
    | None => true
    | Some i => match ev with
                | VDict d => py_eqb (get_or_none "task_id" d) (VStr i)
                | _ => false
                end
    end) (ledger h)).

(** The state after a resolution of the blocked step [step_id]. *)
Definition resolve (resolution step_id : string) (state : TaskState.t) : TaskState.t :=
  let unblock s := TaskState.set_last_error VNone
                     (TaskState.set_blocked_reason VNone (TaskState.set_status "pending" s)) in
  if String.eqb resolution "not_applied" then
    let s := unblock state in
    TaskState.set_attempts (delete step_id (TaskState.attempts s)) s
  else if String.eqb resolution "applied_and_verified" then
    unblock (if in_list (VStr step_id) (TaskState.completed_steps state) then state
             else TaskState.set_completed (TaskState.completed_steps state ++ [VStr step_id]) state)
  else TaskState.set_status "blocked" state.

Definition _reconcile_blocked_step_locked (id step_id resolution note : string)
    (updates : list ArtifactUpdate.t) : E TaskState.t :=
  lift (reject_if (negb (bool_decide (resolution ∈ RECONCILIATION_RESOLUTIONS))) ValueError
    "invalid_reconciliation_resolution");;
  lift (reject_if (blank step_id) ValueError "step_id_required");;
  lift (reject_if (blank note) ValueError "reconciliation_note_required");;
  state ← load_state id;
  lift (reject_if (negb (py_eqb (TaskState.status state) (VStr "blocked"))) ValueError
    "task_not_blocked");;
  state ← lift (foldR apply_artifact_update state updates);
  t ← utc_now_iso;
  let record := VDict [("timestamp", VStr t); ("step_id", VStr step_id);
                       ("resolution", VStr resolution); ("note", VStr note);
                       ("previous_blocked_reason", TaskState.blocked_reason state);
                       ("previous_last_error", TaskState.last_error state)] in
  let state := TaskState.set_reconciliations (TaskState.reconciliations state ++ [record]) state in
  let state := resolve resolution step_id state in
  state ← save_state state;
  append_event id "step_reconciled" resolution (Some step_id) [("note", VStr note)];;
  mret state.

Definition reconcile_blocked_step (id step_id resolution note : string)
    (updates : list ArtifactUpdate.t) : E TaskState.t :=
  task_lock id (_reconcile_blocked_step_locked id step_id resolution note updates).

(** [state_path(id).exists()] *)
Definition state_exists (id : string) : E bool :=
  path ← lift (state_path id); gets (λ h, bool_decide (is_Some (files h !! path))).

(** The provider actions of a run act on the outside world. *)
Definition on_world {A} (m : eff W A) : E A := λ h,
  let '(r, w) := m (world h) in
  (r, Host (files h) (ledger h) (locked h) (ticks h) (writes h) w).

(** The runner over this store. *)
Definition file_store : TaskStore host W := {|
  ts_exists := state_exists; ts_load := load_state; ts_save := save_state;
  ts_append := append_event; ts_lock := @task_lock; ts_world := @on_world |}.
End Store.
