(* ===== verification/StoreFacts.v ===== *)
(** Properties of the state store: atomic saves, saved states read back, the
    append-only ledger, locks, and the reconciliation of blocked steps. *)
From S2P Require Import Prelude PyString PyValue Sha256 TaskModel TaskModelFacts StateStore.

(** The [OSError] of a durable operation that did not happen. *)
Definition io_error : exn := Exn OSError "io".

Lemma in_str_terminal v l s : in_strs v l = true → v = VStr s → s ∈ l.
Proof. intros H ->. cbn in H. by apply bool_decide_eq_true in H. Qed.

Section facts.
Context {W : Type} (now : nat → string) (io_fault : nat → bool).
Abbreviation E := (eff (host W)).
Implicit Types h : host W.

(** Nothing but the clock, the write counter and possibly the ledger moved. *)
Record same_disk h h' : Prop := {
  sd_files : files h' = files h;
  sd_locked : locked h' = locked h;
  sd_world : world h' = world h }.

(** The document a state is saved as. *)
Definition saved (st : TaskState.t) : pyval := json_sorted (TaskState.to_dict st).

Lemma wp_save_state st Q h :
  safe_id (TaskState.task_id st) = true →
  (∀ h', same_disk h h' → ledger h' = ledger h → Q (Err io_error) h') →
  (∀ h' t, files h' = <[TaskState.task_id st := saved (TaskState.touch t st)]> (files h) →
     locked h' = locked h → world h' = world h → ledger h' = ledger h →
     Q (Ok (TaskState.touch t st)) h') →
  wp (save_state now io_fault st) Q h.
Proof.
  intros Hs He Hok. unfold save_state, state_path, _safe_task_id. rewrite Hs.
  wp_go. unfold wp, utc_now_iso, durable. cbv beta iota. cbn [writes].
  rewrite ?bind_run. cbn [writes]. destruct (io_fault (writes h)); [by apply He | by apply Hok].
Qed.

Lemma save_state_unsafe st h :
  safe_id (TaskState.task_id st) = false →
  save_state now io_fault st h = (raise ValueError "unsafe_task_id", h).
Proof. intros Hs. unfold save_state, state_path, _safe_task_id. by rewrite Hs. Qed.

Lemma wp_append_event id ty msg sid data Q h :
  safe_id id = true →
  (∀ h', same_disk h h' → ledger h' = ledger h → Q (Err io_error) h') →
  (∀ h' ev, same_disk h h' → ledger h' = ledger h ++ [json_sorted ev] → Q (Ok ev) h') →
  wp (append_event now io_fault id ty msg sid data) Q h.
Proof.
  intros Hs He Hok. unfold append_event, _safe_task_id. rewrite Hs.
  wp_go. unfold wp, utc_now_iso, durable. cbv beta iota. cbn [writes].
  rewrite ?bind_run. cbn [writes]. destruct (io_fault (writes h)); [by apply He | by apply Hok].
Qed.

Lemma append_event_unsafe id ty msg sid data h :
  safe_id id = false →
  append_event now io_fault id ty msg sid data h = (raise ValueError "unsafe_task_id", h).
Proof. intros Hs. unfold append_event, _safe_task_id. by rewrite Hs. Qed.

(** The result of loading and the clock tick it may take. *)
Definition loaded id h : result TaskState.t :=
  if negb (safe_id id) then raise ValueError "unsafe_task_id"
  else match files h !! id with
       | None => Ok (TaskState.fresh id (now (ticks h)))
       | Some doc =>
           st ← TaskState.from_dict (now (ticks h)) doc;
           if String.eqb (TaskState.task_id st) id then Ok st
           else raise ValueError "task_state_id_mismatch"
       end.

Lemma load_state_spec id h :
  ∃ h', load_state now id h = (loaded id h, h') ∧ same_disk h h' ∧ ledger h' = ledger h ∧
        writes h' = writes h.
Proof.
  unfold load_state, loaded, state_path, _safe_task_id.
  destruct (safe_id id); [|by exists h].
  exists (Host (files h) (ledger h) (locked h) (S (ticks h)) (writes h) (world h)).
  split; [|by repeat split].
  eff_eval. destruct (files h !! id) as [doc|]; [|reflexivity].
  cbv beta iota delta [utc_now_iso]. destruct (TaskState.from_dict _ doc) as [st|e]; [|done].
  by destruct (String.eqb _ id).
Qed.

Lemma wp_load_state id (Q : result TaskState.t → host W → Prop) h :
  (∀ h', same_disk h h' → ledger h' = ledger h → Q (loaded id h) h') →
  wp (load_state now id) Q h.
Proof.
  intros H. unfold wp. destruct (load_state_spec id h) as (h' & -> & Hd & Hl & _). by apply H.
Qed.

(** A save either replaces the state file of its own task, atomically and
    with the state it returns, or raises and leaves every file as it was. *)
Lemma save_state_cases st h :
  match save_state now io_fault st h with
  | (Ok st', h') =>
      files h' = <[TaskState.task_id st := saved st']> (files h) ∧
      (∃ t, st' = TaskState.touch t st) ∧ ledger h' = ledger h
  | (Err e, h') => files h' = files h ∧ ledger h' = ledger h
  end.
Proof.
  destruct (safe_id (TaskState.task_id st)) eqn:Hs.
  - pose proof (wp_save_state st (λ r h', match r with
      | Ok st' => files h' = <[TaskState.task_id st := saved st']> (files h) ∧
                  (∃ t, st' = TaskState.touch t st) ∧ ledger h' = ledger h
      | Err e => files h' = files h ∧ ledger h' = ledger h end) h Hs) as H.
    unfold wp in H. destruct (save_state _ _ st h) as [[st'|e] h']; apply H; clear H.
    + by intros h1 [].
    + intros h1 t F _ _ L. eauto.
    + by intros h1 [].
    + intros h1 t F _ _ L. eauto.
  - by rewrite save_state_unsafe.
Qed.

(** A save that returns stamps the state with the clock and leaves its document. *)
Lemma save_state_Ok st h st' h' :
  save_state now io_fault st h = (Ok st', h') →
  st' = TaskState.touch (now (ticks h)) st ∧ safe_id (TaskState.task_id st) = true ∧
  files h' = <[TaskState.task_id st := saved st']> (files h).
Proof.
  intros H. destruct (safe_id (TaskState.task_id st)) eqn:Hs; [|by rewrite save_state_unsafe in H].
  pose proof (save_state_cases st h) as A. rewrite H in A. destruct A as (F & _). split_and!; [|done..].
  revert H. unfold save_state, state_path, _safe_task_id. rewrite Hs. unfold utc_now_iso, durable. eff_eval.
  cbn [writes]. destruct (io_fault (writes h)); intros Hr; simplify_eq/=; done.
Qed.

(** C8: what a successful save wrote is what every later load of the task returns: the
    state stamped with the clock of the save, its embedded documents in JSON normal form.
    In particular the time stamp that comes back is that of the save, never that of the
    load. *)
Theorem load_after_save st h st' h' h2 :
  (∀ n, now n ≠ "") → TaskState.schema_version st = STATE_SCHEMA_VERSION →
  save_state now io_fault st h = (Ok st', h') →
  files h2 !! TaskState.task_id st = files h' !! TaskState.task_id st →
  st' = TaskState.touch (now (ticks h)) st ∧ TaskState.updated_at (state_read st') = now (ticks h) ∧
  (load_state now (TaskState.task_id st) h2).1 = Ok (state_read st').
Proof.
  intros Hnow Hv (-> & Hs & F)%save_state_Ok H2. split_and!; [done..|].
  destruct (load_state_spec (TaskState.task_id st) h2) as (h'' & -> & _). cbn [fst].
  unfold loaded. rewrite Hs, H2, F, lookup_insert_eq. cbn -[json_sorted TaskState.from_dict saved].
  unfold saved. rewrite state_from_saved by done. cbn -[truthy_s]. rewrite String.eqb_refl.
  specialize (Hnow (ticks h)). by destruct (now (ticks h)).
Qed.

(** ** Ledger, locks *)

(** The ledger only ever grows at its end. *)
Definition ledger_from (l : list pyval) h : Prop := l `prefix_of` ledger h.

Lemma preserves_ledger_save l st : preserves (ledger_from l) (save_state now io_fault st).
Proof.
  intros h Hl. pose proof (save_state_cases st h) as A.
  unfold ledger_from in *. destruct (save_state _ _ st h) as [[st'|e] h']; cbn.
  - by destruct A as (_ & _ & ->).
  - by destruct A as (_ & ->).
Qed.

Lemma preserves_ledger_append l id ty msg sid data :
  preserves (ledger_from l) (append_event now io_fault id ty msg sid data).
Proof.
  intros h Hl. unfold ledger_from in *. destruct (safe_id id) eqn:Hs.
  - pose proof (wp_append_event id ty msg sid data (λ r h', l `prefix_of` ledger h') h Hs) as H.
    unfold wp in H. destruct (append_event _ _ id ty msg sid data h) as [r h']. apply H.
    + by intros h1 _ ->.
    + intros h1 ev _ ->. by apply prefix_app_r.
  - by rewrite append_event_unsafe.
Qed.

Lemma preserves_ledger_load l id : preserves (ledger_from l) (load_state now id).
Proof.
  intros h Hl. destruct (load_state_spec id h) as (h' & -> & _ & L & _).
  unfold ledger_from in *. cbn. by rewrite L.
Qed.

Lemma preserves_clock l : preserves (ledger_from l) (utc_now_iso (W:=W) now).
Proof. by intros h. Qed.

Lemma preserves_get (I : host W → Prop) : preserves I get.
Proof. by intros h. Qed.

Lemma task_lock_eq {A} id (body : E A) h :
  safe_id id = true → id ∉ locked h →
  task_lock id body h =
    (let '(r, h') := body (set_locked ({[id]} ∪ locked h) h) in
     (r, set_locked (locked h' ∖ {[id]}) h')).
Proof.
  intros Hs Hl. unfold task_lock, _safe_task_id. rewrite Hs. eff_eval.
  rewrite bool_decide_eq_false_2 by done. by destruct (body _).
Qed.

Lemma task_lock_unsafe {A} id (body : E A) h :
  safe_id id = false → task_lock id body h = (raise ValueError "unsafe_task_id", h).
Proof. intros Hs. unfold task_lock, _safe_task_id. by rewrite Hs. Qed.

Lemma task_lock_held {A} id (body : E A) h :
  safe_id id = true → id ∈ locked h →
  task_lock id body h = (raise RuntimeError "task_already_running", h).
Proof.
  intros Hs Hl. unfold task_lock, _safe_task_id. rewrite Hs. eff_eval.
  by rewrite bool_decide_eq_true_2.
Qed.

Lemma preserves_lock {A} (I : host W → Prop) id (body : E A) :
  (∀ l h, I h → I (set_locked l h)) → preserves I body → preserves I (task_lock id body).
Proof.
  intros HI Hb h Hh. destruct (safe_id id) eqn:Hs; [|by rewrite task_lock_unsafe].
  destruct (decide (id ∈ locked h)) as [Hl|Hl]; [by rewrite task_lock_held|].
  rewrite task_lock_eq by done. pose proof (Hb _ (HI ({[id]} ∪ locked h) h Hh)) as Hb'.
  destruct (body _) as [r h']. cbn in *. by apply HI.
Qed.

(** A task lock is held while its body runs and released whatever the
    outcome of the body. *)
Theorem task_lock_released {A} id (body : E A) h :
  safe_id id = true → id ∉ locked h →
  (∀ h0, locked (body h0).2 = locked h0) →
  task_lock id body h =
    ((body (set_locked ({[id]} ∪ locked h) h)).1,
     set_locked (locked h) (body (set_locked ({[id]} ∪ locked h) h)).2).
Proof.
  intros Hs Hl Hb. rewrite task_lock_eq by done.
  specialize (Hb (set_locked ({[id]} ∪ locked h) h)).
  destruct (body _) as [r h']. cbn in *. rewrite Hb. do 2 f_equal. set_solver.
Qed.

(** Saves and appends in the invariant calculus. *)
Lemma wpi_save_state (I : host W → Prop) (X : exn → Prop) st Q h :
  safe_id (TaskState.task_id st) = true → X io_error →
  (∀ h', same_disk h h' → ledger h' = ledger h → I h') →
  (∀ h' t, files h' = <[TaskState.task_id st := saved (TaskState.touch t st)]> (files h) →
     locked h' = locked h → world h' = world h → ledger h' = ledger h →
     I h' ∧ Q (TaskState.touch t st) h') →
  wpi I X (save_state now io_fault st) Q h.
Proof. intros Hs HX Hf Hok. apply wp_save_state; [done|by split; [apply Hf|]|apply Hok]. Qed.

Lemma wpi_append_event (I : host W → Prop) (X : exn → Prop) id ty msg sid data Q h :
  safe_id id = true → X io_error →
  (∀ h', same_disk h h' → I h' ∧ ∀ ev, Q ev h') →
  wpi I X (append_event now io_fault id ty msg sid data) Q h.
Proof.
  intros Hs HX H. apply wp_append_event; [done|..].
  - intros h' Hd _. split; [by apply H|done].
  - intros h' ev Hd _. destruct (H h' Hd). auto.
Qed.

(** The same when only the outcome matters, whatever the identifier. *)
Lemma wpi_save_any (X : exn → Prop) st (Q : TaskState.t → host W → Prop) h :
  X io_error → X (Exn ValueError "unsafe_task_id") →
  (∀ h' t, Q (TaskState.touch t st) h') →
  wpi (λ _, True) X (save_state now io_fault st) Q h.
Proof.
  intros H1 H2 HQ. destruct (safe_id (TaskState.task_id st)) eqn:Hs.
  - apply wpi_save_state; auto.
  - unfold wpi, wp. by rewrite save_state_unsafe.
Qed.
Lemma wpi_append_any (X : exn → Prop) id ty msg sid data (Q : pyval → host W → Prop) h :
  X io_error → X (Exn ValueError "unsafe_task_id") →
  (∀ h' ev, Q ev h') →
  wpi (λ _, True) X (append_event now io_fault id ty msg sid data) Q h.
Proof.
  intros H1 H2 HQ. destruct (safe_id id) eqn:Hs.
  - apply wpi_append_event; auto.
  - unfold wpi, wp. by rewrite append_event_unsafe.
Qed.
End facts.

#[export] Hint Resolve preserves_ledger_save preserves_ledger_append preserves_ledger_load
  preserves_clock preserves_get : effdb.

(** ** A concrete save *)
Definition idle_host : host unit := Host ∅ [] ∅ 0 0 tt.
Definition sample_state : TaskState.t :=
  TaskState.set_attempts {[ "fetch" := 1 ]} (TaskState.fresh "task-1" "t0").
(** The clock shows another time at each reading. *)
Definition sample_clock (n : nat) : string := ("t" ++ z_str (Z.of_nat n))%string.
Lemma load_after_save_witness :
  ∃ st' h', save_state sample_clock (λ _, false) sample_state idle_host = (Ok st', h') ∧
    TaskState.updated_at (state_read st') = "t0" ∧ ticks h' = 1%nat ∧
    (load_state sample_clock "task-1" h').1 = Ok (state_read st').
Proof.
  destruct (save_state sample_clock (λ _, false) sample_state idle_host) as [[st'|e] h'] eqn:E.
  - exists st', h'. split; [reflexivity|].
    destruct (load_after_save sample_clock (λ _, false) sample_state idle_host st' h' h')
      as (_ & Hu & Hl); [discriminate|reflexivity|exact E|reflexivity|].
    split; [exact Hu|]. split; [|exact Hl]. vm_compute in E. injection E as _ <-. reflexivity.
  - exfalso. vm_compute in E. discriminate E.
Defined.
