(* ===== verification/Runner.v ===== *)
(** agent_core/runner.py: the sequential, resumable task runner.

    Provider actions and the diagnostic sink are arguments: functions on the
    outside world [W] that return a value or raise.  They reach the state store
    only through the runner. *)
From S2P Require Import Prelude PyString PyValue TaskModel Diagnostics TaskStore StateStore.

(** [SafeActionError.__init__] *)
Definition mk_SafeActionError (code : string) : result exn :=
  reject_if (negb (safe_code code)) ValueError "safe_action_error_code_invalid";;
  Ok (Exn SafeActionError code).
(** [raise SafeActionError(code)] *)
Definition raise_safe {A} (code : string) : result A := e ← mk_SafeActionError code; Err e.

(** What an action returns: [None], an [ActionResult], a dictionary (its
    ["artifacts"], whose items are updates or documents, apart from its other
    entries), or another value. *)
Inductive artifact_item := ItemUpdate (u : ArtifactUpdate.t) | ItemValue (v : pyval).
Inductive action_value :=
  | RetNone
  | RetBool (b : bool)
  | RetResult (r : ActionResult.t)
  | RetDict (artifacts : option (list artifact_item)) (rest : pydict)
  | RetOther.

Definition item_update (i : artifact_item) : result ArtifactUpdate.t :=
  match i with ItemUpdate u => Ok u | ItemValue v => ArtifactUpdate.of_kwargs v end.

Definition _normalise_action_result (v : action_value) : result ActionResult.t :=
  match v with
  | RetNone => Ok ActionResult.empty
  | RetResult r => Ok r
  | RetDict arts d =>
      artifacts ← mapR item_update (default [] arts);
      data ← py_dict (py_or (get_or_none "data" d) (VDict []));
      Ok {| ActionResult.message := py_str (py_or (get_or_none "message" d) (VStr ""));
            ActionResult.artifacts := artifacts; ActionResult.data := data |}
  | RetBool _ | RetOther => raise TypeError "unsupported_action_result"
  end.

Definition _verification_passed (v : action_value) : bool :=
  match v with
  | RetBool b => b
  | RetResult r => is_true (get_or_none "verified" (ActionResult.data r))
  | RetDict _ d => is_true (get_or_none "verified" d)
  | _ => false
  end.

Definition _persistent_error (e : exn) (verification : bool) : string :=
  if isinstance e SafeActionError then ("SafeActionError:" ++ exn_msg e)%string
  else if verification then "UntrustedActionError:verification_exception_redacted"
  else "UntrustedActionError:action_exception_redacted".

Definition _diagnostic_classification (e : exn) (verification : bool) : string :=
  if isinstance e SafeActionError then exn_msg e
  else if verification then "verification_exception_redacted" else "action_exception_redacted".

Module RunOutcome.
Record t := mk {
  task_id : string; status : pyval; completed_steps : list pyval;
  blocked_reason : pyval; last_error : pyval;
  executed_steps : list string; skipped_steps : list string }.
End RunOutcome.

Definition TERMINAL : list string := ["completed"; "blocked"; "failed"].

(** An action maps its arguments and its context to an outcome. *)
Definition Action (W : Type) : Type := pydict → pydict → eff W action_value.

Section Runner.
(** [self.store] *)
Context {H W : Type} `{TS : !TaskStore H W}.
(** [self.actions], [self.diagnostic_sink] and [type(e).__name__] *)
Context (actions : gmap string (Action W)).
Context (sink : option (ActionDiagnosticEvent → eff W unit)).
Context (type_name : exn → string).
Abbreviation E := (eff H).
Abbreviation ts_exists := (ts_exists (TaskStore:=TS)).
Abbreviation ts_load := (ts_load (TaskStore:=TS)).
Abbreviation ts_save := (ts_save (TaskStore:=TS)).
Abbreviation ts_append := (ts_append (TaskStore:=TS)).
Abbreviation ts_lock := (ts_lock (TaskStore:=TS)).

(** [self.actions.get(name)] *)
Definition action_named (name : string) : option (Action W) := actions !! name.

(** Exceptions of the sink and of the event's own checks are dropped; what is
    not an [Exception] goes through. *)
Definition _emit_diagnostic (spec : TaskSpec.t) (step : StepSpec.t) (action phase : string)
    (attempt : Z) (retry_safe : bool) (error : exn) : E unit :=
  match sink with
  | None => mret tt
  | Some emit =>
      try_with
        (event ← lift (mk_event
           {| Diagnostics.task_id := TaskSpec.task_id spec;
              Diagnostics.step_id := StepSpec.step_id step;
              Diagnostics.action := action; Diagnostics.phase := phase;
              Diagnostics.attempt_ := attempt; Diagnostics.retry_safe := retry_safe;
              Diagnostics.classification :=
                _diagnostic_classification error (String.eqb phase "verification");
              Diagnostics.exception_type := safe_exception_type (type_name error) |});
         ts_world (emit event))
        (λ e, if isinstance e Exception then mret tt else throw e)
  end.

Definition _outcome (st : TaskState.t) (executed skipped : list string) : RunOutcome.t :=
  {| RunOutcome.task_id := TaskState.task_id st;
     RunOutcome.status := TaskState.status st;
     RunOutcome.completed_steps := TaskState.completed_steps st;
     RunOutcome.blocked_reason := TaskState.blocked_reason st;
     RunOutcome.last_error := TaskState.last_error st;
     RunOutcome.executed_steps := executed; RunOutcome.skipped_steps := skipped |}.

Definition _block (st : TaskState.t) (reason : string) (step : option StepSpec.t)
    (error : option string) : E TaskState.t :=
  let st := TaskState.set_last_error (opt_str error)
              (TaskState.set_blocked_reason (VStr reason) (TaskState.set_status "blocked" st)) in
  st ← ts_save st;
  ts_append (TaskState.task_id st) "task_blocked" reason (StepSpec.step_id <$> step)
    (match error with
     | Some e => if truthy_s e then [("error", VStr e)] else []
     | None => []
     end);;
  mret st.

(** [attempts.get(step_id, default)] *)
Definition attempts_of (st : TaskState.t) (step : StepSpec.t) (dflt : Z) : Z :=
  default dflt (TaskState.attempts st !! StepSpec.step_id step).

(** Block and return from [run]. *)
Definition block_out {A} (st : TaskState.t) (reason : string) (step : StepSpec.t)
    (error : option string) (ex sk : list string) : E (RunOutcome.t + A) :=
  st ← _block st reason (Some step) error; mret (inl (_outcome st ex sk)).

(** The [except Exception] clause of an action call: leave [run] blocked or
    failed, or go round the loop again. *)
Definition action_failed (spec : TaskSpec.t) (step : StepSpec.t) (attempt : Z) (e : exn)
    (st : TaskState.t) (ex sk : list string) : E (RunOutcome.t + TaskState.t) :=
  let id := TaskSpec.task_id spec in
  let sid := Some (StepSpec.step_id step) in
  _emit_diagnostic spec step (StepSpec.action step) "action" attempt (StepSpec.retry_safe step) e;;
  let error := _persistent_error e false in
  let st := TaskState.set_last_error (VStr error) st in
  ts_append id "step_error" error sid [("attempt", VInt attempt)];;
  if negb (StepSpec.retry_safe step) then
    block_out st "action_error_requires_reconciliation" step (Some error) ex sk
  else if StepSpec.max_attempts step <=? attempt then
    st ← ts_save (TaskState.set_blocked_reason VNone (TaskState.set_status "failed" st));
    ts_append id "task_failed" "retry-safe action exhausted configured attempts" sid
      [("error", VStr error); ("attempts", VInt attempt)];;
    mret (inl (_outcome st ex sk))
  else mret (inr st).

(** What follows the call of attempt [n]: the break of the loop or an [except]
    clause. *)
Definition after_call (spec : TaskSpec.t) (step : StepSpec.t) (n : Z)
    (r : result ActionResult.t) (st : TaskState.t) (ex sk : list string) :
    E (RunOutcome.t + (TaskState.t + TaskState.t * ActionResult.t)) :=
  match r with
  | Ok result => mret (inr (inr (st, result)))
  | Err e =>
      if isinstance e BlockedAction then
        block_out st ("action_blocked:" ++ exn_msg e)%string step None ex sk
      else if isinstance e Exception then
        o ← action_failed spec step n e st ex sk;
        mret (match o with inl out => inl out | inr st => inr (inl st) end)
      else throw e
  end.

(** One turn of [while True]: record the attempt, then call the action. *)
Definition attempt_once (spec : TaskSpec.t) (step : StepSpec.t) (act : Action W)
    (ctx : pydict) (st : TaskState.t) (ex sk : list string) :
    E (RunOutcome.t + (TaskState.t + TaskState.t * ActionResult.t)) :=
  let n := attempts_of st step 0 + 1 in
  let st := TaskState.set_attempts
              (<[StepSpec.step_id step := n]> (TaskState.attempts st)) st in
  st ← ts_save st;
  ts_append (TaskSpec.task_id spec) "step_started" (StepSpec.action step)
    (Some (StepSpec.step_id step))
    [("attempt", VInt n); ("retry_safe", VBool (StepSpec.retry_safe step))];;
  r ← attempt (v ← ts_world (act (StepSpec.args step) ctx); lift (_normalise_action_result v));
  after_call spec step n r st ex sk.

Fixpoint attempt_loop (fuel : nat) (spec : TaskSpec.t) (step : StepSpec.t) (act : Action W)
    (ctx : pydict) (st : TaskState.t) (ex sk : list string) :
    E (RunOutcome.t + TaskState.t * ActionResult.t) :=
  match fuel with
  | O => throw (Exn OutOfFuel "attempt_loop")
  | S fuel' =>
      o ← attempt_once spec step act ctx st ex sk;
      match o with
      | inl out => mret (inl out)
      | inr (inl st) => attempt_loop fuel' spec step act ctx st ex sk
      | inr (inr sr) => mret (inr sr)
      end
  end.

(** The number of turns the retry loop can take from [st]: those the stored attempts
    leave, and one in any case. *)
Definition loop_fuel (step : StepSpec.t) (st : TaskState.t) : nat :=
  Z.to_nat (Z.max 1 (StepSpec.max_attempts step - attempts_of st step 0)).

Definition verify_args (step : StepSpec.t) (r : ActionResult.t) : pydict :=
  [("step_action", VStr (StepSpec.action step)); ("step_args", VDict (StepSpec.args step));
   ("action_result",
      VDict [("message", VStr (ActionResult.message r)); ("data", VDict (ActionResult.data r));
             ("artifacts", VList (map ArtifactUpdate.to_dict (ActionResult.artifacts r)))])].

(** The verification gate: leave [run] blocked, or go on. *)
Definition verify_step (spec : TaskSpec.t) (step : StepSpec.t) (ctx : pydict)
    (r : ActionResult.t) (st : TaskState.t) (ex sk : list string) : E (RunOutcome.t + unit) :=
  match TaskSpec.verifier_of step with
  | None => mret (inr tt)
  | Some v =>
      match action_named v with
      | None => block_out st ("verification_action_unavailable:" ++ v)%string step None ex sk
      | Some verifier =>
          res ← attempt (ts_world (verifier (verify_args step r) ctx));
          match res with
          | Err e =>
              if isinstance e Exception then
                _emit_diagnostic spec step v "verification" (attempts_of st step 1) false e;;
                block_out st "verification_error_requires_reconciliation" step
                  (Some (_persistent_error e true)) ex sk
              else throw e
          | Ok value =>
              if _verification_passed value then
                ts_append (TaskSpec.task_id spec) "step_verified" v
                  (Some (StepSpec.step_id step)) [];;
                mret (inr tt)
              else block_out st ("verification_failed:" ++ v)%string step None ex sk
          end
      end
  end.

Definition step_context (base : pydict) (spec : TaskSpec.t) (step : StepSpec.t) : pydict :=
  dict_update base
    [("task_inputs", VDict (TaskSpec.inputs spec)); ("step_id", VStr (StepSpec.step_id step));
     ("idempotency_key",
        VStr (TaskSpec.task_id spec ++ ":" ++ StepSpec.step_id step)%string)].

(** The body of the loop over the steps. *)
Definition run_step (base : pydict) (spec : TaskSpec.t) (step : StepSpec.t)
    (st : TaskState.t) (ex sk : list string) :
    E (RunOutcome.t + TaskState.t * list string * list string) :=
  let id := TaskSpec.task_id spec in
  let sid := StepSpec.step_id step in
  if in_list (VStr sid) (TaskState.completed_steps st) then
    ts_append id "step_skipped_completed" "completed step was not repeated" (Some sid) [];;
    mret (inr (st, ex, sk ++ [sid]))
  else
    match action_named (StepSpec.action step) with
    | None => block_out st ("action_unavailable:" ++ StepSpec.action step)%string step None ex sk
    | Some act =>
        let ctx := step_context base spec step in
        o ← attempt_loop (loop_fuel step st) spec step act ctx st ex sk;
        match o with
        | inl out => mret (inl out)
        | inr (st, result) =>
            st ← lift (foldR apply_artifact_update st (ActionResult.artifacts result));
            st ← ts_save st;
            o ← verify_step spec step ctx result st ex sk;
            match o with
            | inl out => mret (inl out)
            | inr _ =>
                let st := TaskState.set_completed
                            (TaskState.completed_steps st ++ [VStr sid]) st in
                st ← ts_save (TaskState.set_last_error VNone st);
                ts_append id "step_completed" (ActionResult.message result) (Some sid) [];;
                mret (inr (st, ex ++ [sid], sk))
            end
        end
    end.

Fixpoint run_steps (base : pydict) (spec : TaskSpec.t) (steps : list StepSpec.t)
    (st : TaskState.t) (ex sk : list string) :
    E (RunOutcome.t + TaskState.t * list string * list string) :=
  match steps with
  | [] => mret (inr (st, ex, sk))
  | step :: steps' =>
      o ← run_step base spec step st ex sk;
      match o with
      | inl out => mret (inl out)
      | inr (st, ex, sk) => run_steps base spec steps' st ex sk
      end
  end.

(** Identifiers with a recorded attempt and no recorded completion, sorted. *)
Definition unresolved_steps (st : TaskState.t) : list string :=
  sorted (omap (λ kv, if (0 <? kv.2) && negb (in_list (VStr kv.1) (TaskState.completed_steps st))
                      then Some kv.1 else None) (map_to_list (TaskState.attempts st))).

(** Load the state and bind it to the fingerprint of the task definition. *)
Definition bind_state (spec : TaskSpec.t) : E TaskState.t :=
  existed ← ts_exists (TaskSpec.task_id spec);
  st ← ts_load (TaskSpec.task_id spec);
  lift (reject_if (negb (String.eqb (TaskState.task_id st) (TaskSpec.task_id spec))) ValueError
    "task_state_id_mismatch");;
  fingerprint ← lift (TaskSpec.fingerprint spec);
  lift (reject_if ((existed : bool) && is_none (TaskState.spec_fingerprint st)) ValueError
    "legacy_task_spec_requires_review");;
  lift (reject_if (negb (is_none (TaskState.spec_fingerprint st)) &&
                   negb (py_eqb (TaskState.spec_fingerprint st) (VStr fingerprint))) ValueError
    "task_spec_changed");;
  if (existed : bool) then mret st
  else ts_save (TaskState.set_spec_fingerprint (VStr fingerprint) st).

Definition _run_locked (spec : TaskSpec.t) (context : pydict) : E RunOutcome.t :=
  let id := TaskSpec.task_id spec in
  st ← bind_state spec;
  terminal ← lift (in_str_set (TaskState.status st) TERMINAL);
  if terminal : bool then
    ts_append id "terminal_resume_skipped"
      ("task already " ++ py_str (TaskState.status st) ++ "; no action repeated")%string None [];;
    mret (_outcome st [] [])
  else
    match unresolved_steps st with
    | u :: us =>
        st ← _block st ("interrupted_step_requires_reconciliation:" ++ join "," (u :: us))%string
               None None;
        mret (_outcome st [] [])
    | [] =>
        st ← ts_save (TaskState.set_last_error VNone
               (TaskState.set_blocked_reason VNone (TaskState.set_status "running" st)));
        ts_append id "task_started" (TaskSpec.title spec) None [];;
        let base := dict_set "task_inputs" (VDict (TaskSpec.inputs spec))
                      (dict_set "task_id" (VStr id) context) in
        o ← run_steps base spec (TaskSpec.steps spec) st [] [];
        match o with
        | inl out => mret out
        | inr (st, executed, skipped) =>
            st ← ts_save (TaskState.set_last_error VNone
                   (TaskState.set_blocked_reason VNone (TaskState.set_status "completed" st)));
            ts_append id "task_completed"
              "all configured steps completed and required verifications passed" None
              [("completion_conditions", VList (map VStr (TaskSpec.completion_conditions spec)))];;
            mret (_outcome st executed skipped)
        end
    end.

(** [spec] is detached from the caller by a JSON round trip and validated. *)
Definition detach (spec : TaskSpec.t) : result TaskSpec.t :=
  doc ← json_detach (TaskSpec.to_dict spec);
  spec ← TaskSpec.from_dict doc;
  TaskSpec.validate spec;; Ok spec.

Definition run (spec : TaskSpec.t) (context : pydict) : E RunOutcome.t :=
  spec ← lift (detach spec);
  ts_lock (TaskSpec.task_id spec) (_run_locked spec context).
End Runner.
