(* ===== verification/RunnerFacts.v ===== *)
(** Properties of the runner that do not depend on what the actions do: what it
    preserves, terminal states, the binding to the task definition, termination
    of the retry loop and redaction of untrusted errors. *)
From S2P Require Import Prelude PyString PyValue Sha256 TaskModel TaskModelFacts Diagnostics.
From S2P Require Import TaskStore StateStore StoreFacts Runner.

(** ** A structural preservation principle

    Assertions [I] on normal exits and [J] on exceptional ones that each primitive
    of the store keeps, the outside world keeping [I], are kept by the whole run. *)
Section preservation.
Context {H W : Type} `{TS : !TaskStore H W}.
Context (actions : gmap string (Action W)).
Context (sink : option (ActionDiagnosticEvent → eff W unit)).
Context (type_name : exn → string).
Context (I J : H → Prop) (IJ : ∀ h, I h → J h).
Hypothesis I_save : ∀ st, keeps I J (ts_save st).
Hypothesis I_append : ∀ id ty msg sid data, keeps I J (ts_append id ty msg sid data).
Hypothesis I_load : ∀ id, keeps I J (ts_load id).
Hypothesis I_exists : ∀ id, keeps I J (ts_exists id).
(** The calls outside that keep [I], among them those of the actions and the sink. *)
Context (calm : ∀ A, eff W A → Prop).
Hypothesis I_world : ∀ A (m : eff W A), calm A m → keeps I I (ts_world m).
Hypothesis calm_actions : ∀ name act args ctx,
  action_named actions name = Some act → calm _ (act args ctx).
Hypothesis calm_sink : ∀ emit ev, sink = Some emit → calm _ (emit ev).

Ltac preserve leaf :=
  repeat first
    [ leaf | apply I_save | apply I_append | apply I_load | apply I_exists | apply I_world; solve [eauto]
    | apply keeps_bind; [|intros ?] | apply keeps_ret | apply keeps_throw; [done]
    | apply keeps_lift; [done] | apply keeps_attempt
    | apply keeps_try; [|intros ?] | case_match | progress cbv beta zeta ].

Lemma keeps_emit spec step action phase n b e :
  keeps I J (_emit_diagnostic sink type_name spec step action phase n b e).
Proof. unfold _emit_diagnostic. destruct sink eqn:Es; preserve fail. Qed.
Lemma keeps_block st reason step error :
  keeps I J (_block st reason step error).
Proof. unfold _block. preserve fail. Qed.
Lemma keeps_block_out {A} st reason step error ex sk :
  keeps I J (block_out (A:=A) st reason step error ex sk).
Proof. unfold block_out. apply keeps_bind; [apply keeps_block|intros; preserve fail]. Qed.
Lemma keeps_action_failed spec step n e st ex sk :
  keeps I J (action_failed sink type_name spec step n e st ex sk).
Proof.
  unfold action_failed. apply keeps_bind; [apply keeps_emit|intros _].
  preserve ltac:(apply keeps_block_out).
Qed.
Lemma keeps_attempt_once spec step act ctx st ex sk :
  (∀ args ctx, calm _ (act args ctx)) →
  keeps I J (attempt_once sink type_name spec step act ctx st ex sk).
Proof.
  intros Hact. unfold attempt_once, after_call.
  preserve ltac:(first [apply keeps_block_out | apply keeps_action_failed]).
Qed.
Lemma keeps_attempt_loop fuel spec step act ctx st ex sk :
  (∀ args ctx, calm _ (act args ctx)) →
  keeps I J (attempt_loop sink type_name fuel spec step act ctx st ex sk).
Proof.
  intros Hact. revert st. induction fuel as [|fuel IH]; intros st; cbn; [by apply keeps_throw|].
  apply keeps_bind; [by apply keeps_attempt_once|intros [|[|]]]; preserve ltac:(apply IH).
Qed.
Lemma keeps_verify spec step ctx r st ex sk :
  keeps I J (verify_step actions sink type_name spec step ctx r st ex sk).
Proof. 
  unfold verify_step. preserve ltac:(first [apply keeps_block_out | apply keeps_emit]).
Qed.
Lemma keeps_run_step base spec step st ex sk :
  keeps I J (run_step actions sink type_name base spec step st ex sk).
Proof.
  unfold run_step.
  preserve ltac:(first
    [apply keeps_block_out | apply keeps_attempt_loop; eauto; fail | apply keeps_verify]).
Qed.
Lemma keeps_run_steps base spec steps st ex sk :
  keeps I J (run_steps actions sink type_name base spec steps st ex sk).
Proof.
  revert st ex sk. induction steps as [|s steps IH]; intros st ex sk; cbn; [apply keeps_ret|].
  apply keeps_bind; [apply keeps_run_step|intros [|[[??]?]]]; [apply keeps_ret|apply IH].
Qed.
Lemma keeps_bind_state spec : keeps I J (bind_state spec).
Proof. unfold bind_state. preserve fail. Qed.
Lemma keeps_run_locked spec ctx :
  keeps I J (_run_locked actions sink type_name spec ctx).
Proof.
  unfold _run_locked. apply keeps_bind; [apply keeps_bind_state|intros st].
  preserve ltac:(first [apply keeps_block | apply keeps_run_steps]).
Qed.
Lemma keeps_run spec ctx :
  (∀ (m : eff H RunOutcome.t) id, keeps I J m → keeps I J (ts_lock id m)) →
  keeps I J (run actions sink type_name spec ctx).
Proof.
  intros HI. unfold run. apply keeps_bind; [by apply keeps_lift|intros spec'].
  apply HI, keeps_run_locked.
Qed.
End preservation.

(** The case of one assertion. *)
Section invariant.
Context {H W : Type} `{TS : !TaskStore H W}.
Context (actions : gmap string (Action W)).
Context (sink : option (ActionDiagnosticEvent → eff W unit)).
Context (type_name : exn → string) (I : H → Prop).
Hypothesis I_save : ∀ st, preserves I (ts_save st).
Hypothesis I_append : ∀ id ty msg sid data, preserves I (ts_append id ty msg sid data).
Hypothesis I_load : ∀ id, preserves I (ts_load id).
Hypothesis I_exists : ∀ id, preserves I (ts_exists id).
Hypothesis I_world : ∀ A (m : eff W A), preserves I (ts_world m).

Lemma preserves_run_locked spec ctx : preserves I (_run_locked actions sink type_name spec ctx).
Proof.
  apply keeps_preserves, (keeps_run_locked _ _ _ I I (λ _ H, H)) with (calm := λ _ _, True);
    intros; by try apply keeps_preserves.
Qed.
Lemma preserves_run spec ctx :
  (∀ (m : eff H RunOutcome.t) id, preserves I m → preserves I (ts_lock id m)) →
  preserves I (run actions sink type_name spec ctx).
Proof.
  intros HI. unfold run. apply preserves_bind; [apply preserves_lift|intros spec'].
  apply HI, preserves_run_locked.
Qed.
End invariant.

Section general.
Context {H W : Type} `{TS : !TaskStore H W} `{TL : !TaskStoreLaws H W}.
Context (actions : gmap string (Action W)).
Context (sink : option (ActionDiagnosticEvent → eff W unit)).
Context (type_name : exn → string).
Implicit Types h : H.

(** ** The retry loop *)
Lemma ordinary_py_dict v : ordinary (py_dict v).
Proof.
  unfold py_dict, py_iter. destruct v; raises_tac; apply raises_mapR; intros x;
    unfold dict_item; raises_tac.
Qed.
Lemma ordinary_normalise v : ordinary (_normalise_action_result v).
Proof.
  unfold _normalise_action_result, item_update, ArtifactUpdate.of_kwargs.
  destruct v; raises_tac; try apply ordinary_py_dict; apply raises_mapR; intros []; raises_tac.
Qed.

Section fuel.
Context `{!QuietStore H W}.
Hypothesis sink_quiet : ∀ emit ev w e, sink = Some emit → (emit ev w).1 = Err e →
  exn_class e ≠ OutOfFuel.
Abbreviation X := (λ e, exn_class e ≠ OutOfFuel).
Abbreviation T := (λ _ : H, True).

Lemma emit_quiet spec step action phase n b e (Q : unit → H → Prop) h :
  (∀ h', Q tt h') → wpi T X (_emit_diagnostic sink type_name spec step action phase n b e) Q h.
Proof.
  intros HQ. unfold _emit_diagnostic. destruct sink as [emit|] eqn:Es; [|by apply wpi_ret].
  apply wpi_try. apply wp_bind, wp_lift.
  assert (∀ e', X e' → wpi T X (if isinstance e' Exception then mret tt else throw e') Q h →
    True) as _ by done.
  destruct (mk_event _) as [ev|e'] eqn:Ev.
  - unfold wp. rewrite world_run. destruct (emit ev (outside h)) as [[[]|e'] w] eqn:Ee; [auto|].
    case_match; [by apply wpi_ret|]. apply wpi_throw; [done|].
    apply (sink_quiet emit ev (outside h)); [done|by rewrite Ee].
  - assert (isinstance e' Exception = true) as ->; [|by apply wpi_ret].
    unfold mk_event, post_init, short_id in Ev.
    repeat match goal with
    | H : _ ≫= _ = Err _ |- _ => apply bind_Err in H as [H|([] & _ & H)]
    | H : reject_if _ _ _ = Err _ |- _ => apply reject_if_Err in H as [_ ->]
    end; done.
Qed.

Lemma block_out_quiet {A} st reason step error ex sk (Q : RunOutcome.t + A → H → Prop) h :
  (∀ o h', Q (inl o) h') → wpi T X (block_out st reason step error ex sk) Q h.
Proof.
  intros HQ. unfold block_out, _block. apply wpi_bind, wpi_bind, wpi_ts_save.
  intros. apply wpi_bind, wpi_ts_append. intros. apply wpi_ret; [done|].
  by apply wpi_ret.
Qed.

(** A turn that goes round again has used one attempt and left one. *)
Lemma attempt_once_counts spec step act ctx st ex sk h :
  (∀ w e, (act (StepSpec.args step) ctx w).1 = Err e → exn_class e ≠ OutOfFuel) →
  wpi T X (attempt_once sink type_name spec step act ctx st ex sk)
    (λ o _, match o with
            | inr (inl st') => attempts_of st' step 0 = attempts_of st step 0 + 1 ∧
                               attempts_of st' step 0 < StepSpec.max_attempts step
            | _ => True
            end) h.
Proof.
  intros Hact. unfold attempt_once, after_call. apply wpi_bind, wpi_ts_save. intros h1 t.
  apply wpi_bind, wpi_ts_append. intros h2 ev.
  apply wpi_bind, wpi_attempt. unfold wp.
  destruct ((v ← ts_world (act (StepSpec.args step) ctx); lift (_normalise_action_result v)) h2)
    as [[r|e] h3] eqn:Er; (split; [done|]); [by apply wpi_ret|].
  destruct (isinstance e BlockedAction); [by apply block_out_quiet|].
  destruct (isinstance e Exception) eqn:Ex.
  2:{ apply wpi_throw; [done|]. intros C. rewrite bind_run, world_run in Er.
      destruct (act _ ctx (outside h2)) as [[v|e'] w] eqn:Ea.
      - unfold lift in Er. injection Er as Er <-.
        assert (isinstance e Exception = true) as E; [|congruence].
        by apply (ordinary_normalise v).
      - injection Er as -> _. eapply (Hact (outside h2)); [|exact C]. by rewrite Ea. }
  unfold action_failed. apply wpi_bind, wpi_bind, emit_quiet. intros h4.
  apply wpi_bind, wpi_ts_append. intros h5 ev5.
  destruct (StepSpec.retry_safe step); cbn [negb].
  2:{ apply block_out_quiet. intros. by apply wpi_ret. }
  destruct (StepSpec.max_attempts step <=? attempts_of st step 0 + 1) eqn:Em.
  - apply wpi_bind, wpi_ts_save. intros. apply wpi_bind, wpi_ts_append.
    intros. apply wpi_ret; [done|]. by apply wpi_ret.
  - apply wpi_ret; [done|]. apply wpi_ret; [done|]. unfold attempts_of. cbn.
    rewrite lookup_insert_eq. cbn. unfold attempts_of in Em. lia.
Qed.

(** Fuel that is enough may be raised. *)
Lemma attempt_loop_more spec step act ctx ex sk fuel fuel' st h : (fuel ≤ fuel')%nat →
  (∀ e, (attempt_loop sink type_name fuel spec step act ctx st ex sk h).1 = Err e → exn_class e ≠ OutOfFuel) →
  attempt_loop sink type_name fuel' spec step act ctx st ex sk h =
  attempt_loop sink type_name fuel spec step act ctx st ex sk h.
Proof.
  revert fuel' st h. induction fuel as [|fuel IH]; intros fuel' st h Hle Hok; [by destruct (Hok _ eq_refl eq_refl)|].
  destruct fuel' as [|fuel']; [lia|]. cbn in Hok |- *. rewrite bind_run in Hok. etransitivity; [apply bind_run|]. symmetry. etransitivity; [apply bind_run|]. symmetry.
  destruct (attempt_once _ _ _ _ _ _ _ _ _ h) as [[[o|[st'|sr]]|e] h']; [reflexivity| |reflexivity..].
  apply IH; [lia|exact Hok].
Qed.

(** C12: the retry loop ends.  From a stored attempt count it takes at most as many turns
    as [max_attempts] exceeds that count by, and one when it does not exceed it: so many
    turns are enough fuel, and more fuel changes nothing. *)
Theorem retry_loop_terminates spec step act ctx st ex sk h :
  (∀ w e, (act (StepSpec.args step) ctx w).1 = Err e → exn_class e ≠ OutOfFuel) →
  let turns := Z.to_nat (Z.max 1 (StepSpec.max_attempts step - attempts_of st step 0)) in
  (∀ e, (attempt_loop sink type_name turns spec step act ctx st ex sk h).1 = Err e →
     exn_class e ≠ OutOfFuel) ∧
  ∀ fuel, (turns ≤ fuel)%nat →
    attempt_loop sink type_name fuel spec step act ctx st ex sk h =
    attempt_loop sink type_name turns spec step act ctx st ex sk h.
Proof.
  intros Hact turns.
  enough (∀ fuel st h, (loop_fuel step st ≤ fuel)%nat →
    wpi T X (attempt_loop sink type_name fuel spec step act ctx st ex sk)
      (λ _ _, True) h) as Hloop.
  { assert (∀ e, (attempt_loop sink type_name turns spec step act ctx st ex sk h).1 = Err e → exn_class e ≠ OutOfFuel) as Hok.
    { intros e He. specialize (Hloop turns st h (le_n _)). unfold wpi, wp in Hloop.
      destruct (attempt_loop _ _ _ _ _ _ _ _ _ _ h) as [r h']. cbn in He. subst r. apply Hloop. }
    split; [done|]. intros fuel Hf. by apply attempt_loop_more. }
  clear st h turns. induction fuel as [|fuel IH]; intros st h Hf; [unfold loop_fuel in Hf; lia|].
  cbn. apply wpi_bind. eapply wpi_mono; [by apply attempt_once_counts|].
  intros [o|[st'|sr]] h' _ Ho; [by apply wpi_ret| |by apply wpi_ret].
  apply IH. unfold loop_fuel in *. lia.
Qed.
End fuel.

(** ** Redaction *)

(** An exception whose text must not reach durable state: an ordinary one that
    is neither a blocked action nor a validated classification. *)
Definition untrusted (e : exn) : bool :=
  isinstance e Exception && negb (isinstance e SafeActionError) &&
  negb (isinstance e BlockedAction).

(** Outcomes that differ at most in the text of an untrusted exception. *)
Inductive same_but_text : result action_value → result action_value → Prop :=
  | sbt_same r : same_but_text r r
  | sbt_text e e' : untrusted e = true → untrusted e' = true → type_name e = type_name e' →
      same_but_text (Err e) (Err e').

Definition act_same (a a' : Action W) : Prop := ∀ args ctx w,
  same_but_text (a args ctx w).1 (a' args ctx w).1 ∧ (a args ctx w).2 = (a' args ctx w).2.

Lemma untrusted_inv e :
  untrusted e = true →
  isinstance e Exception = true ∧ isinstance e SafeActionError = false ∧
  isinstance e BlockedAction = false.
Proof.
  unfold untrusted. intros [[H1 H2]%andb_true_iff H3]%andb_true_iff. inv_result. auto.
Qed.

Lemma emit_same spec step action phase n b e e' :
  untrusted e = true → untrusted e' = true → type_name e = type_name e' →
  _emit_diagnostic (TS:=TS) sink type_name spec step action phase n b e =
  _emit_diagnostic (TS:=TS) sink type_name spec step action phase n b e'.
Proof.
  intros (_ & H1 & _)%untrusted_inv (_ & H2 & _)%untrusted_inv Ht.
  unfold _emit_diagnostic, _diagnostic_classification. by rewrite H1, H2, Ht.
Qed.

Lemma persistent_same e e' v :
  untrusted e = true → untrusted e' = true → _persistent_error e v = _persistent_error e' v.
Proof.
  intros (_ & H1 & _)%untrusted_inv (_ & H2 & _)%untrusted_inv.
  unfold _persistent_error. by rewrite H1, H2.
Qed.

Lemma action_failed_same spec step n e e' st ex sk :
  untrusted e = true → untrusted e' = true → type_name e = type_name e' →
  action_failed (TS:=TS) sink type_name spec step n e st ex sk =
  action_failed (TS:=TS) sink type_name spec step n e' st ex sk.
Proof.
  intros He He' Ht. unfold action_failed.
  by rewrite (emit_same _ _ _ _ _ _ e e'), (persistent_same e e').
Qed.

Lemma attempt_once_same spec step a a' ctx st ex sk h :
  act_same a a' →
  attempt_once sink type_name spec step a ctx st ex sk h =
  attempt_once sink type_name spec step a' ctx st ex sk h.
Proof.
  intros Ha. unfold attempt_once, after_call. apply bind_ext; [done|]. intros st' h1.
  apply bind_ext; [done|]. intros ev h2. rewrite !bind_run. unfold attempt.
  rewrite !bind_run, !world_run.
  destruct (Ha (StepSpec.args step) ctx (outside h2)) as [Hr Hw].
  destruct (a (StepSpec.args step) ctx (outside h2)) as [r w].
  destruct (a' (StepSpec.args step) ctx (outside h2)) as [r' w']. cbn in Hr, Hw. subst w'.
  destruct Hr as [r|e e' He He' Ht]; [done|]. cbv beta iota.
  pose proof (untrusted_inv e He) as (-> & _ & ->).
  pose proof (untrusted_inv e' He') as (-> & _ & ->).
  by rewrite (action_failed_same _ _ _ e e').
Qed.

Lemma attempt_loop_same fuel spec step a a' ctx st ex sk h :
  act_same a a' →
  attempt_loop sink type_name fuel spec step a ctx st ex sk h =
  attempt_loop sink type_name fuel spec step a' ctx st ex sk h.
Proof.
  intros Ha. revert st h. induction fuel as [|fuel IH]; intros st h; cbn; [done|].
  apply bind_ext; [intros; by apply attempt_once_same|]. intros [|[|]] h'; auto.
Qed.

Lemma lookup_same (acts : gmap string (Action W)) k :
  (∀ k, option_Forall2 act_same (actions !! k) (acts !! k)) →
  (∃ a a', action_named actions k = Some a ∧ action_named acts k = Some a' ∧ act_same a a') ∨
  (action_named actions k = None ∧ action_named acts k = None).
Proof. unfold action_named. intros Hs. specialize (Hs k). inversion Hs; [left|right]; eauto 6. Qed.

Lemma verify_step_same (acts : gmap string (Action W)) spec step ctx r st ex sk h :
  (∀ k, option_Forall2 act_same (actions !! k) (acts !! k)) →
  verify_step actions sink type_name spec step ctx r st ex sk h =
  verify_step acts sink type_name spec step ctx r st ex sk h.
Proof.
  intros Hs. unfold verify_step. destruct (TaskSpec.verifier_of step) as [v|]; [|done].
  destruct (lookup_same acts v Hs) as [(a & a' & -> & -> & Ha)|[-> ->]]; [|done]. rewrite !bind_run. unfold attempt. rewrite !world_run.
  destruct (Ha (verify_args step r) ctx (outside h)) as [Hr Hw].
  destruct (a _ ctx (outside h)) as [x w]. destruct (a' _ ctx (outside h)) as [x' w'].
  cbn in Hr, Hw. subst w'. destruct Hr as [x|e e' He He' Ht]; [done|]. cbv beta iota.
  pose proof (untrusted_inv e He) as (-> & _ & _).
  pose proof (untrusted_inv e' He') as (-> & _ & _).
  by rewrite (emit_same _ _ _ _ _ _ e e'), (persistent_same e e').
Qed.

Lemma run_step_same (acts : gmap string (Action W)) base spec step st ex sk h :
  (∀ k, option_Forall2 act_same (actions !! k) (acts !! k)) →
  run_step actions sink type_name base spec step st ex sk h =
  run_step acts sink type_name base spec step st ex sk h.
Proof.
  intros Hs. unfold run_step. case_match; [done|].
  destruct (lookup_same acts (StepSpec.action step) Hs) as [(a & a' & -> & -> & Ha)|[-> ->]]; [|done].
  apply bind_ext; [intros; by apply attempt_loop_same|]. intros [o|[st' r]] h1; [done|].
  apply bind_ext; [done|]. intros st1 h2. apply bind_ext; [done|]. intros st2 h3.
  apply bind_ext; [intros; by apply verify_step_same|done].
Qed.

(** C2: the text of an untrusted action or verifier exception does not matter.
    Replace the actions by ones that differ only in such texts: the run has the
    same outcome, writes the same files and ledger records and sends the same
    diagnostics. *)
Theorem run_redacts (acts : gmap string (Action W)) spec ctx h :
  (∀ k, option_Forall2 act_same (actions !! k) (acts !! k)) →
  run actions sink type_name spec ctx h = run acts sink type_name spec ctx h.
Proof.
  intros Hs. assert (∀ base spec steps st ex sk h,
    run_steps actions sink type_name base spec steps st ex sk h =
    run_steps acts sink type_name base spec steps st ex sk h) as Hsteps.
  { intros base spec0 steps. induction steps as [|s steps IH]; intros st ex sk h0; cbn; [done|].
    apply bind_ext; [intros; by apply run_step_same|]. intros [|[[??]?]] h1; auto. }
  unfold Runner.run. apply bind_ext; [done|]. intros spec' h1.
  apply (lock_ext (W:=W)). clear h h1. intros h6.
  unfold _run_locked. apply bind_ext; [done|]. intros st h7. apply bind_ext; [done|].
  intros [] h8; [done|]. destruct (unresolved_steps st); [|done].
  apply bind_ext; [done|]. intros st1 h9. apply bind_ext; [done|]. intros ev h10.
  apply bind_ext; [intros; apply Hsteps|]. done.
Qed.
End general.

(** The laws of the interface hold of the file store. *)
#[export] Instance file_store_laws {W} now io_fault :
  TaskStoreLaws (host W) W (TS:=file_store now io_fault).
Proof.
  refine (Build_TaskStoreLaws _ _ _ world
    (λ w h, Host (files h) (ledger h) (locked h) (ticks h) (writes h) w) _ _ _).
  - intros st h st' Hs. pose proof (save_state_cases now io_fault st h) as C.
    cbn [ts_save file_store] in Hs. destruct (save_state now io_fault st h) as [[st1|e] h'];
      [|done]. injection Hs as <-. apply C.
  - done.
  - intros A id m m' h Hm. cbn. unfold task_lock. apply bind_ext; [done|]. intros _ h1.
    apply bind_ext; [done|]. intros h2 h3. case_match; [done|]. apply bind_ext; [done|].
    intros _ h4. apply bind_ext; [|done]. intros h5. unfold attempt. by rewrite Hm.
Defined.
#[export] Instance file_store_quiet {W} now io_fault :
  QuietStore (host W) W (TS:=file_store now io_fault).
Proof.
  split; intros; cbn.
  - pose proof (wpi_save_any now io_fault quiet_exn st (λ _ _, True) h) as C.
    unfold wpi, wp in C. destruct (save_state now io_fault st h) as [r h'].
    intros e He. cbn in He. subst r. by apply C.
  - pose proof (wpi_append_any now io_fault quiet_exn id ty msg s d (λ _ _, True) h) as C.
    unfold wpi, wp in C. destruct (append_event now io_fault id ty msg s d h) as [r h'].
    intros e He. cbn in He. subst r. by apply C.
Qed.

(** ** The file store *)
Section reconciliation.
Context {W : Type} (now : nat → string) (io_fault : nat → bool).
Context (I : host W → Prop).
Hypothesis I_save : ∀ st, preserves I (save_state now io_fault st).
Hypothesis I_append : ∀ id ty msg sid data, preserves I (append_event now io_fault id ty msg sid data).
Hypothesis I_load : ∀ id, preserves I (load_state now id).
Hypothesis I_clock : preserves I (utc_now_iso (W:=W) now).
Lemma preserves_reconcile_locked id sid res note us :
  preserves I (_reconcile_blocked_step_locked now io_fault id sid res note us).
Proof. unfold _reconcile_blocked_step_locked. repeat first
    [ apply I_save | apply I_append | apply I_load | apply I_clock
    | apply preserves_bind; [|intros ?] | apply preserves_ret | apply preserves_lift ]. Qed.
Lemma preserves_reconcile id sid res note us :
  (∀ l h, I h → I (set_locked l h)) →
  preserves I (reconcile_blocked_step now io_fault id sid res note us).
Proof. intros HI. apply preserves_lock; [done|]. apply preserves_reconcile_locked. Qed.

Lemma preserves_exists id : preserves I (state_exists id).
Proof. unfold state_exists. apply preserves_bind; [apply preserves_lift|intros; apply preserves_gets]. Qed.
End reconciliation.

Lemma preserves_locked_save {W} now io_fault l st :
  preserves (λ h : host W, locked h = l) (save_state now io_fault st).
Proof.
  intros h Hl. destruct (safe_id (TaskState.task_id st)) eqn:Hs; [|by rewrite save_state_unsafe].
  pose proof (wp_save_state now io_fault st (λ _ h', locked h' = l) h Hs) as H.
  unfold wp in H. destruct (save_state _ _ st h) as [r h']. apply H.
  - intros h1 [] _. congruence.
  - intros. congruence.
Qed.
Lemma preserves_locked_append {W} now io_fault l id ty msg sid data :
  preserves (λ h : host W, locked h = l) (append_event now io_fault id ty msg sid data).
Proof.
  intros h Hl. destruct (safe_id id) eqn:Hs; [|by rewrite append_event_unsafe].
  pose proof (wp_append_event now io_fault id ty msg sid data (λ _ h', locked h' = l) h Hs) as H.
  unfold wp in H. destruct (append_event _ _ id ty msg sid data h) as [r h']. apply H.
  - intros h1 [] _. congruence.
  - intros h1 ev [] _. congruence.
Qed.
Lemma preserves_locked_load {W} now l id :
  preserves (λ h : host W, locked h = l) (load_state now id).
Proof.
  intros h Hl. destruct (load_state_spec now id h) as (h' & -> & [] & _). cbn. congruence.
Qed.
Lemma preserves_world {W} (P : host W → Prop) :
  (∀ h w, P h → P (Host (files h) (ledger h) (locked h) (ticks h) (writes h) w)) →
  ∀ A (m : eff W A), preserves P (on_world m).
Proof. intros HP A m h Hh. unfold on_world. destruct (m (world h)). by apply HP. Qed.
#[export] Hint Resolve preserves_locked_save preserves_locked_append preserves_locked_load
  preserves_world : effdb.

Section file.
Context {W : Type} (now : nat → string) (io_fault : nat → bool).
Context (actions : gmap string (Action W)).
Context (sink : option (ActionDiagnosticEvent → eff W unit)).
Context (type_name : exn → string).
Abbreviation run := (run (TS:=file_store now io_fault) actions sink type_name).
Implicit Types h : host W.

(** Whatever the actions do, and whatever fails, a run and a reconciliation
    only append to the activity ledger: no earlier record is changed or lost. *)
Theorem ledger_append_only spec ctx id sid res note us h :
  ledger h `prefix_of` ledger (run spec ctx h).2 ∧
  ledger h `prefix_of` ledger (reconcile_blocked_step now io_fault id sid res note us h).2.
Proof.
  split.
  - apply (preserves_run (TS:=file_store now io_fault) actions sink type_name
             (ledger_from (ledger h))); cbn; auto with effdb.
    + by intros; apply preserves_exists.
    + intros m i Hm. apply preserves_lock; [by unfold ledger_from|done].
    + by unfold ledger_from.
  - apply (preserves_reconcile now io_fault (ledger_from (ledger h)));
      auto with effdb; by unfold ledger_from.
Qed.

(** The lock of a task is free again after a run, however the run ends. *)
Theorem run_releases_lock spec ctx h : locked (run spec ctx h).2 = locked h.
Proof.
  unfold Runner.run. rewrite bind_run. unfold lift. destruct (detach spec) as [spec'|e]; [|done].
  cbn [ts_lock file_store].
  destruct (safe_id (TaskSpec.task_id spec')) eqn:Hs; [|by rewrite task_lock_unsafe].
  destruct (decide (TaskSpec.task_id spec' ∈ locked h)) as [Hl|Hl];
    [by rewrite task_lock_held|].
  rewrite task_lock_released; [done|done|done|]. intros h0.
  apply (preserves_run_locked (TS:=file_store now io_fault) actions sink type_name
           (λ h, locked h = locked h0)); cbn; auto with effdb.
  by intros; apply preserves_exists.
Qed.

End file.

(** ** Concrete actions *)
Definition calm : Action nat := λ _ _ w, (Ok RetNone, S w).
(** Fails with a text of its own choosing. *)
Definition noisy (text : string) : Action nat := λ _ _ w, (Err (Exn ValueError text), S w).
Definition one_step : StepSpec.t := StepSpec.mk "fetch" "download" [] None true 3.
Definition one_spec : TaskSpec.t :=
  TaskSpec.mk "task-1" "Title" "Goal" ["download"] [one_step] [] [] TASK_SCHEMA_VERSION.
Definition demo_store : TaskStore (host nat) nat := file_store (λ _, "t") (λ _, false).
(** A step that always fails, from three stored counts: the bound is reached, and one turn
    fewer is not enough. *)
Definition counted (stored : Z) : TaskState.t := TaskState.set_attempts {[ "fetch" := stored ]} (TaskState.fresh "task-1" "t").
Definition turns_taken (fuel : nat) (stored : Z) : bool * nat :=
  let r := attempt_loop (TS:=demo_store) None (λ _, "Error") fuel one_spec one_step (noisy "boom") [] (counted stored) [] []
             (Host ∅ [] ∅ 0 0 0%nat) in
  (match r.1 with Ok _ => true | Err _ => false end, world r.2).
Lemma retry_loop_terminates_witness :
  (∀ w e, (noisy "boom" (StepSpec.args one_step) [] w).1 = Err e → exn_class e ≠ OutOfFuel) ∧
  (∀ e, (attempt_loop (TS:=demo_store) None (λ _, "Error") 3 one_spec one_step (noisy "boom") []
          (counted 0) [] [] (Host ∅ [] ∅ 0 0 0%nat)).1 = Err e → exn_class e ≠ OutOfFuel) ∧
  map (λ c, turns_taken c.1 c.2) [(3%nat, 0); (2%nat, 0); (1%nat, 2); (1%nat, 7); (5%nat, -2); (4%nat, -2)] =
    [(true, 3%nat); (false, 2%nat); (true, 1%nat); (true, 1%nat); (true, 5%nat); (false, 4%nat)].
Proof.
  split; [intros w e [= <-]; discriminate|]. split; [|vm_compute; reflexivity].
  apply (retry_loop_terminates (TS:=demo_store) None (λ _, "Error")
           (λ _ _ _ _ H, ltac:(discriminate H)) one_spec one_step (noisy "boom") [] (counted 0)).
  intros w e [= <-]. discriminate.
Defined.
Lemma run_redacts_witness :
  run (TS:=demo_store) {[ "download" := noisy "token=1" ]} None (λ _, "Error") one_spec []
    (Host ∅ [] ∅ 0 0 0%nat) =
  run (TS:=demo_store) {[ "download" := noisy "token=2" ]} None (λ _, "Error") one_spec []
    (Host ∅ [] ∅ 0 0 0%nat).
Proof.
  apply (run_redacts (TS:=demo_store) {[ "download" := noisy "token=1" ]} None
    (λ _, "Error") {[ "download" := noisy "token=2" ]}).
  intros k. destruct (decide (k = "download")) as [->|N].
  - rewrite !lookup_singleton_eq. constructor. intros args ctx w. split; [|reflexivity].
    apply sbt_text; reflexivity.
  - rewrite !lookup_singleton_ne by done. constructor.
Defined.
