(* ===== verification/RunnerOnce.v ===== *)
(** How often a run, interrupted and resumed any number of times, invokes the
    action of a step.

    The world of this file is the log of the calls made to the actions.  An
    environment answers each call by any function of the whole log, so every
    deterministic behaviour of the providers is covered, exceptions included;
    the fault function of the store interrupts any durable operation. *)
From S2P Require Import Prelude PyString PyValue Sha256 TaskModel TaskModelFacts Diagnostics.
From S2P Require Import TaskStore StateStore StoreFacts Runner RunnerFacts.

Record call := Call { c_action : string; c_args : pydict; c_ctx : pydict }.

(** A call made on behalf of step [sid] to the action [a]. *)
Definition hits (sid a : string) (c : call) : bool :=
  String.eqb (c_action c) a &&
  match dict_get "step_id" (c_ctx c) with Some (VStr s) => String.eqb s sid | _ => false end.
Definition count_calls (sid a : string) (w : list call) : Z :=
  Z.of_nat (length (List.filter (hits sid a) w)).

Lemma count_snoc sid a w c :
  count_calls sid a (w ++ [c]) = count_calls sid a w + (if hits sid a c then 1 else 0).
Proof.
  unfold count_calls. rewrite List.filter_app, length_app. cbn. destruct (hits sid a c); cbn; lia.
Qed.
Lemma count_nonneg sid a w : 0 ≤ count_calls sid a w.
Proof. unfold count_calls. lia. Qed.

(** No condition on the exceptions that leave an operation. *)
Definition T (e : exn) : Prop := True.

Section env.
Context (now : nat → string) (io_fault : nat → bool).
Context (respond : list call → call → result action_value) (avail : gset string).
Context (diag : option (ActionDiagnosticEvent → result unit)) (type_name : exn → string).

(** The action registered under a name logs its call and answers. *)
Definition log_action (a : string) : Action (list call) := λ args ctx w,
  (respond w (Call a args ctx), w ++ [Call a args ctx]).
Definition log_actions : gmap string (Action (list call)) :=
  set_to_map (λ a, (a, log_action a)) avail.
Definition log_sink : option (ActionDiagnosticEvent → eff (list call) unit) :=
  (λ f ev w, (f ev, w)) <$> diag.

Lemma log_actions_lookup k act : action_named log_actions k = Some act → act = log_action k.
Proof.
  unfold action_named, log_actions. intros H.
  apply lookup_set_to_map in H; [|by intros ? ? ? ? [=]].
  destruct H as (x & _ & [= -> <-]). done.
Qed.

Abbreviation host := (host (list call)).
Abbreviation fs := (file_store now io_fault).
Abbreviation run := (run (TS:=fs) log_actions log_sink type_name).
Abbreviation run_locked := (_run_locked (TS:=fs) log_actions log_sink type_name).

(** Runs of a task, one context each, in sequence. *)
Fixpoint runs (spec : TaskSpec.t) (ctxs : list pydict) (h : host) : host :=
  match ctxs with
  | [] => h
  | ctx :: ctxs' => runs spec ctxs' (run spec ctx h).2
  end.

Section once.
Context (id sid a : string) (mx : Z).
Hypothesis Hsafe : safe_id id = true.
Hypothesis Hmx : 1 ≤ mx.
Abbreviation calls := (count_calls sid a).

(** States of this task whose recorded attempts are positive. *)
Record sane (st : TaskState.t) : Prop := {
  sn_id : TaskState.task_id st = id;
  sn_schema : TaskState.schema_version st = STATE_SCHEMA_VERSION;
  sn_attempts : ∀ k v, TaskState.attempts st !! k = Some v → 1 ≤ v }.
Definition att (st : TaskState.t) : Z := default 0 (TaskState.attempts st !! sid).
(** The recorded attempts of the step bound the calls made for it. *)
Definition bounded (st : TaskState.t) (w : list call) : Prop :=
  sane st ∧ calls w ≤ att st ≤ mx.
Definition diskI (h : host) : Prop :=
  match files h !! id with
  | None => calls (world h) = 0
  | Some doc => ∃ st, doc = saved st ∧ bounded st (world h)
  end.
(** The step is done, or was never attempted. *)
Definition pending (st : TaskState.t) : Prop :=
  VStr sid ∈ TaskState.completed_steps st ∨ TaskState.attempts st !! sid = None.

Lemma bounded_same st st' w :
  TaskState.task_id st' = TaskState.task_id st →
  TaskState.schema_version st' = TaskState.schema_version st →
  TaskState.attempts st' = TaskState.attempts st →
  bounded st w → bounded st' w.
Proof.
  intros E1 E2 E3 [[] Hb]. unfold bounded, att in *. rewrite E3.
  split; [split; [congruence|congruence|by rewrite E3]|done].
Qed.

Lemma diskI_same h h' : files h' = files h → world h' = world h → diskI h → diskI h'.
Proof. unfold diskI. by intros -> ->. Qed.

Lemma diskI_saved st h :
  files h !! id = Some (saved st) → bounded st (world h) → diskI h.
Proof. unfold diskI. intros ->. eauto. Qed.

Lemma save_ok st (Q : TaskState.t → host → Prop) h :
  diskI h → bounded st (world h) →
  (∀ h' t, diskI h' → world h' = world h →
     files h' !! id = Some (saved (TaskState.touch t st)) → Q (TaskState.touch t st) h') →
  wpi diskI T (save_state now io_fault st) Q h.
Proof.
  intros Hd Hb HQ. destruct Hb as [Hs Hb]. pose proof (sn_id _ Hs) as Hid.
  apply wpi_save_state; [by rewrite Hid|done|..].
  - intros h' [] _. by apply (diskI_same h).
  - intros h' t F _ Hw _. rewrite Hid in F.
    assert (files h' !! id = Some (saved (TaskState.touch t st))) as F'
      by (by rewrite F, lookup_insert_eq).
    assert (diskI h') as Hd' by (apply (diskI_saved (TaskState.touch t st)); [done|];
      rewrite Hw; by apply (bounded_same st)).
    auto.
Qed.

Lemma append_ok ty msg s data (Q : pyval → host → Prop) h :
  diskI h →
  (∀ h' ev, diskI h' → world h' = world h → files h' = files h → Q ev h') →
  wpi diskI T (append_event now io_fault id ty msg s data) Q h.
Proof.
  intros Hd HQ. apply wpi_append_event; [done..|]. intros h' [F _ Hw].
  split; [by apply (diskI_same h)|]. intros ev. apply HQ; [by apply (diskI_same h)|done|done].
Qed.

Lemma block_ok st reason step error (Q : TaskState.t → host → Prop) h :
  diskI h → bounded st (world h) → (∀ st' h', diskI h' → Q st' h') →
  wpi diskI T (_block (TS:=fs) st reason step error) Q h.
Proof.
  intros Hd Hb HQ. unfold _block. apply wpi_bind, save_ok; [done|by apply (bounded_same st)|].
  intros h1 t Hd1 Hw F. apply wpi_bind. cbn [TaskState.task_id].
  destruct Hb as [[Hid _ _] _]. cbn. rewrite Hid. apply append_ok; [done|].
  intros h2 ev Hd2 _ _. apply wpi_ret; auto.
Qed.

Lemma block_out_ok {A} st reason step error ex sk (Q : RunOutcome.t + A → host → Prop) h :
  diskI h → bounded st (world h) → (∀ o h', diskI h' → Q (inl o) h') →
  wpi diskI T (block_out (TS:=fs) st reason step error ex sk) Q h.
Proof.
  intros Hd Hb HQ. unfold block_out. apply wpi_bind, block_ok; [done..|].
  intros st' h' Hd'. apply wpi_ret; auto.
Qed.

Lemma emit_ok spec step action phase n b e (Q : unit → host → Prop) h :
  diskI h → (∀ h', diskI h' → world h' = world h → files h' = files h → Q tt h') →
  wpi diskI T (_emit_diagnostic (TS:=fs) log_sink type_name spec step action phase n b e) Q h.
Proof.
  intros Hd HQ. unfold _emit_diagnostic, log_sink. destruct diag as [f|]; cbn [fmap option_fmap option_map];
    [|apply wpi_ret; auto].
  apply wpi_try, wp_bind, wp_lift. destruct (mk_event _) as [ev|e'].
  - unfold wp. cbn [ts_world file_store]. unfold on_world.
    set (h1 := Host (files h) (ledger h) (locked h) (ticks h) (writes h) (world h)).
    assert (diskI h1) as Hd1 by done.
    destruct (f ev) as [[]|e']; [split; [done|by apply HQ]|].
    case_match; [apply wpi_ret; [done|by apply HQ]|by apply wpi_throw].
  - case_match; [apply wpi_ret; [done|by apply HQ]|by apply wpi_throw].
Qed.

(** What the proof needs of a task definition: its identifier, and that the
    step [sid] runs the action [a], is not verified by [a] and may attempt [mx]
    times. *)
Definition step_fits (s : StepSpec.t) : Prop :=
  StepSpec.step_id s = sid →
  StepSpec.action s = a ∧ TaskSpec.verifier_of s ≠ Some a ∧ StepSpec.max_attempts s = mx.

Lemma context_step_id base spec s :
  dict_get "step_id" (step_context base spec s) = Some (VStr (StepSpec.step_id s)).
Proof.
  unfold step_context. apply dict_get_update_in; [|set_solver].
  apply (bool_decide_unpack _). vm_compute. exact I.
Qed.

(** A call from another step, or to another action, is not counted. *)
Lemma hits_context base spec s b args :
  hits sid a (Call b args (step_context base spec s)) = true →
  b = a ∧ StepSpec.step_id s = sid.
Proof.
  unfold hits. cbn [c_action c_ctx]. rewrite context_step_id.
  intros [?%String.eqb_eq ?%String.eqb_eq]%andb_true_iff. done.
Qed.

Definition att_of (s : StepSpec.t) (st : TaskState.t) : Z := attempts_of st s 0.

Lemma attempted_bounded st s w n :
  bounded st w → n = attempts_of st s 0 + 1 →
  (StepSpec.step_id s = sid → att st + 1 ≤ mx) →
  let st1 := TaskState.set_attempts (<[StepSpec.step_id s := n]> (TaskState.attempts st)) st in
  bounded st1 w ∧ (StepSpec.step_id s = sid → att st1 = att st + 1) ∧
  (StepSpec.step_id s ≠ sid → att st1 = att st).
Proof.
  intros [[Hid Hsc Hat] Hb] -> Hlt st1. unfold att, st1, attempts_of. cbn.
  assert (∀ k v, <[StepSpec.step_id s := default 0 (TaskState.attempts st !! StepSpec.step_id s) + 1]>
     (TaskState.attempts st) !! k = Some v → 1 ≤ v) as Hpos.
  { intros k v. rewrite lookup_insert. case_decide; [|apply Hat].
    intros [= <-]. destruct (TaskState.attempts st !! StepSpec.step_id s) as [v|] eqn:E; cbn; [|lia].
    specialize (Hat _ _ E). lia. }
  destruct (decide (StepSpec.step_id s = sid)) as [Es|Es].
  - specialize (Hlt Es). unfold att in *. rewrite Es in *. rewrite lookup_insert_eq. cbn.
    split_and!; [|done|done]. split; [by split|].
    unfold att. cbn. rewrite lookup_insert_eq. cbn. lia.
  - rewrite lookup_insert_ne by done. split_and!; [|done|done]. split; [by split|].
    unfold att. cbn. by rewrite lookup_insert_ne.
Qed.

(** The states an action loop hands over keep the completed steps and change
    only the attempts of their own step. *)
Definition follows (s : StepSpec.t) (st st' : TaskState.t) : Prop :=
  TaskState.completed_steps st' = TaskState.completed_steps st ∧
  ∀ k, k ≠ StepSpec.step_id s → TaskState.attempts st' !! k = TaskState.attempts st !! k.

(** The outcome of a turn: a returned run, another turn, or a result. *)
Definition turn_post (s : StepSpec.t) (st : TaskState.t)
    (o : RunOutcome.t + (TaskState.t + TaskState.t * ActionResult.t)) (h : host) : Prop :=
  match o with
  | inl _ => True
  | inr (inl st') => bounded st' (world h) ∧ follows s st st' ∧
                     (StepSpec.step_id s = sid → att st' + 1 ≤ mx)
  | inr (inr (st', _)) => bounded st' (world h) ∧ follows s st st'
  end.

Lemma action_failed_ok spec s n e st ex sk (Q : RunOutcome.t + TaskState.t → host → Prop) h :
  TaskSpec.task_id spec = id → diskI h → bounded st (world h) →
  (∀ o h', diskI h' → Q (inl o) h') →
  (∀ h', n < StepSpec.max_attempts s → diskI h' → world h' = world h →
     Q (inr (TaskState.set_last_error (VStr (_persistent_error e false)) st)) h') →
  wpi diskI T (action_failed (TS:=fs) log_sink type_name spec s n e st ex sk) Q h.
Proof.
  intros Hid Hd Hb HL HR. unfold action_failed. apply wpi_bind, emit_ok; [done|].
  intros h4 Hd4 Hw4 _. apply wpi_bind. rewrite Hid. apply append_ok; [done|].
  intros h5 ev5 Hd5 Hw5 _.
  assert (bounded (TaskState.set_last_error (VStr (_persistent_error e false)) st) (world h5)) as Hb5.
  { rewrite Hw5, Hw4. by apply (bounded_same st). }
  destruct (StepSpec.retry_safe s); cbn [negb]; [|by apply block_out_ok; auto].
  destruct (StepSpec.max_attempts s <=? n) eqn:Em.
  - apply wpi_bind, save_ok; [done|by eapply bounded_same; [..|exact Hb5]|].
    intros h6 t6 Hd6 Hw6 _. apply wpi_bind, append_ok; [done|]. intros h7 ev7 Hd7 _ _.
    apply wpi_ret; auto.
  - apply wpi_ret; [done|]. apply HR; [lia|done|congruence].
Qed.

Lemma after_call_ok spec s n r st0 st ex sk h :
  TaskSpec.task_id spec = id → step_fits s → diskI h → bounded st (world h) → follows s st0 st →
  (StepSpec.step_id s = sid → n = att st) →
  wpi diskI T (after_call (TS:=fs) log_sink type_name spec s n r st ex sk)
    (turn_post s st0) h.
Proof.
  intros Hid Hfit Hd Hb Hfol Hn. unfold after_call.
  destruct r as [result|e]; [by apply wpi_ret|].
  destruct (isinstance e BlockedAction); [by apply block_out_ok|].
  destruct (isinstance e Exception); [|by apply wpi_throw].
  apply wpi_bind, action_failed_ok; [done|done|done|intros; by apply wpi_ret|].
  intros h' Hlt Hd' Hw'. apply wpi_ret; [done|]. cbn. split_and!.
  - rewrite Hw'. by apply (bounded_same st).
  - done.
  - intros Es. destruct (Hfit Es) as (_ & _ & <-). specialize (Hn Es).
    change (att st + 1 ≤ StepSpec.max_attempts s). lia.
Qed.

Lemma attempt_once_ok spec base s st ex sk h :
  TaskSpec.task_id spec = id → step_fits s → diskI h → bounded st (world h) →
  (StepSpec.step_id s = sid → att st + 1 ≤ mx) →
  wpi diskI T
    (attempt_once (TS:=fs) log_sink type_name spec s (log_action (StepSpec.action s))
       (step_context base spec s) st ex sk) (turn_post s st) h.
Proof.
  intros Hid Hfit Hd Hb Hlt. unfold attempt_once. set (n := attempts_of st s 0 + 1).
  destruct (attempted_bounded st s (world h) n Hb eq_refl Hlt) as (Hb1 & Hs1 & Hn1).
  set (st1 := TaskState.set_attempts _ st) in *.
  apply wpi_bind, save_ok; [done|done|]. intros h1 t Hd1 Hw1 F1.
  set (st2 := TaskState.touch t st1) in *.
  apply wpi_bind. rewrite Hid. apply append_ok; [done|]. intros h2 ev Hd2 Hw2 F2.
  (* the call itself: logged, and covered by the attempt already on disk *)
  set (c := Call (StepSpec.action s) (StepSpec.args s) (step_context base spec s)).
  assert (bounded st2 (world h2 ++ [c])) as Hb2.
  { rewrite Hw2, Hw1. destruct Hb1 as [Hsane1 Hb1]. destruct Hb as [_ Hb].
    split; [apply (bounded_same st1 st2 (world h)); done|].
    change (att st2) with (att st1). rewrite count_snoc.
    destruct (hits sid a c) eqn:Ehit; [|lia].
    apply hits_context in Ehit as [_ Es]. rewrite (Hs1 Es). specialize (Hlt Es). lia. }
  set (h3 := Host (files h2) (ledger h2) (locked h2) (ticks h2) (writes h2) (world h2 ++ [c])).
  assert (diskI h3) as Hd3 by (apply (diskI_saved st2); [cbn; by rewrite F2|done]).
  apply wpi_bind, wpi_attempt. unfold wp. rewrite bind_run. cbn [ts_world file_store]. unfold on_world, log_action.
  assert (∀ r, wpi diskI T (after_call (TS:=fs) log_sink type_name spec s n r st2 ex sk)
    (turn_post s st) h3) as Hafter.
  { intros r. apply after_call_ok; [done|done|done|done| |].
    - split; [done|]. intros k Hk. cbn. by rewrite lookup_insert_ne.
    - intros Es. unfold n, attempts_of. rewrite Es. change (att st + 1 = att st1). by rewrite Hs1. }
  fold c. destruct (respond (world h2) c) as [v|e]; cbv beta iota; unfold lift;
    (split; [exact Hd3|apply Hafter]).
Qed.

Lemma attempt_loop_ok fuel spec base s st ex sk h :
  TaskSpec.task_id spec = id → step_fits s → diskI h → bounded st (world h) →
  (StepSpec.step_id s = sid → att st + 1 ≤ mx) →
  wpi diskI T
    (attempt_loop (TS:=fs) log_sink type_name fuel spec s (log_action (StepSpec.action s))
       (step_context base spec s) st ex sk)
    (λ o h', match o with
             | inl _ => True
             | inr (st', _) => bounded st' (world h') ∧ follows s st st'
             end) h.
Proof.
  intros Hid Hfit. revert st h. induction fuel as [|fuel IH]; intros st h Hd Hb Hlt;
    [by apply wpi_throw|].
  apply wpi_bind. eapply wpi_mono; [by apply attempt_once_ok|].
  intros [o|[st'|[st' r]]] h' Hd' Ho; [by apply wpi_ret| |by apply wpi_ret].
  destruct Ho as (Hb' & [Hc Ha] & Hlt'). eapply wpi_mono; [by apply IH|].
  intros [o|[st'' r]] h'' _; [done|]. intros (Hb'' & Hc' & Ha'). split; [done|].
  split; [congruence|]. intros k Hk. by rewrite Ha', Ha.
Qed.

(** Artifact updates leave the rest of the state alone. *)
Lemma apply_updates_same us st st' :
  foldR apply_artifact_update st us = Ok st' →
  TaskState.task_id st' = TaskState.task_id st ∧
  TaskState.schema_version st' = TaskState.schema_version st ∧
  TaskState.attempts st' = TaskState.attempts st ∧
  TaskState.completed_steps st' = TaskState.completed_steps st.
Proof.
  revert st. induction us as [|u us IH]; intros st; cbn; [by intros [= ->]|].
  intros (st1 & H1 & H)%bind_Ok. apply IH in H as (-> & -> & -> & ->).
  unfold apply_artifact_update in H1. inv_result. by repeat split.
Qed.

Lemma verify_ok spec base s r st ex sk (Q : RunOutcome.t + unit → host → Prop) h :
  TaskSpec.task_id spec = id → step_fits s → diskI h → bounded st (world h) →
  files h !! id = Some (saved st) →
  (∀ o h', diskI h' → Q (inl o) h') →
  (∀ h', diskI h' → bounded st (world h') → Q (inr tt) h') →
  wpi diskI T (verify_step (TS:=fs) log_actions log_sink type_name spec s
    (step_context base spec s) r st ex sk) Q h.
Proof.
  intros Hid Hfit Hd Hb F HL HR. unfold verify_step.
  destruct (TaskSpec.verifier_of s) as [v|] eqn:Ev; [|apply wpi_ret; auto].
  destruct (action_named log_actions v) as [act|] eqn:Ea; [|by apply block_out_ok].
  apply log_actions_lookup in Ea as ->.
  set (c := Call v (verify_args s r) (step_context base spec s)).
  assert (bounded st (world h ++ [c])) as Hb'.
  { destruct Hb as [Hs Hb]. split; [done|]. rewrite count_snoc.
    destruct (hits sid a c) eqn:E; [|lia]. apply hits_context in E as [-> Es].
    destruct (Hfit Es) as (_ & Hv & _). by rewrite Ev in Hv. }
  set (h3 := Host (files h) (ledger h) (locked h) (ticks h) (writes h) (world h ++ [c])).
  assert (diskI h3) as Hd3 by by apply (diskI_saved st).
  apply wpi_bind, wpi_attempt. unfold wp. cbn [ts_world file_store]. unfold on_world, log_action. fold c. fold h3.
  destruct (respond (world h) c) as [value|e]; (split; [done|]).
  - destruct (_verification_passed value); [|by apply block_out_ok].
    apply wpi_bind. rewrite Hid. apply append_ok; [done|]. intros h4 ev Hd4 Hw4 _.
    apply wpi_ret; [done|]. apply HR; [done|]. by rewrite Hw4.
  - destruct (isinstance e Exception); [|by apply wpi_throw].
    apply wpi_bind, emit_ok; [done|]. intros h4 Hd4 Hw4 _. apply block_out_ok; [done| |done].
    by rewrite Hw4.
Qed.

Lemma pending_other s st st' :
  StepSpec.step_id s ≠ sid → follows s st st' → pending st → pending st'.
Proof.
  intros Hs [Hc Ha] [H|H]; [left; by rewrite Hc|right; by rewrite Ha].
Qed.

Lemma run_step_ok spec base s st ex sk h :
  TaskSpec.task_id spec = id → step_fits s → diskI h → bounded st (world h) → pending st →
  wpi diskI T (run_step (TS:=fs) log_actions log_sink type_name base spec s st ex sk)
    (λ o h', match o with
             | inl _ => True
             | inr (st', _, _) => bounded st' (world h') ∧ pending st'
             end) h.
Proof.
  intros Hid Hfit Hd Hb Hp. unfold run_step.
  destruct (in_list (VStr (StepSpec.step_id s)) (TaskState.completed_steps st)) eqn:Ec.
  { apply wpi_bind. rewrite Hid. apply append_ok; [done|]. intros h' ev Hd' Hw' _.
    apply wpi_ret; [done|]. by rewrite Hw'. }
  apply in_list_str_false in Ec.
  destruct (action_named log_actions (StepSpec.action s)) as [act|] eqn:Ea;
    [|by apply block_out_ok].
  apply log_actions_lookup in Ea as ->.
  assert (StepSpec.step_id s = sid → att st + 1 ≤ mx) as Hlt.
  { intros Es. destruct Hp as [Hp|Hp]; [by rewrite Es in Ec|]. unfold att. rewrite Hp. cbn. lia. }
  apply wpi_bind. eapply wpi_mono; [by apply attempt_loop_ok|].
  intros [o|[st1 r]] h1 Hd1; [intros _; by apply wpi_ret|]. intros [Hb1 Hf1].
  apply wpi_bind, wpi_lift; [done| |done]. intros st2 Hu.
  apply apply_updates_same in Hu as (E1 & E2 & E3 & E4).
  apply wpi_bind, save_ok; [done|by apply (bounded_same st1)|]. intros h2 t Hd2 Hw2 F2.
  set (st3 := TaskState.touch t st2) in *.
  assert (bounded st3 (world h2)) as Hb3 by (rewrite Hw2; by apply (bounded_same st1)).
  apply wpi_bind, verify_ok; [done|done|done|done|done|intros; by apply wpi_ret|].
  intros h3 Hd3 Hb3'. apply wpi_bind, save_ok; [done|by apply (bounded_same st3)|].
  intros h4 t4 Hd4 Hw4 _. apply wpi_bind. rewrite Hid. apply append_ok; [done|].
  intros h5 ev Hd5 Hw5 _. apply wpi_ret; [done|]. rewrite Hw5, Hw4.
  split; [by apply (bounded_same st3)|].
  destruct (decide (StepSpec.step_id s = sid)) as [Es|Es].
  - left. cbn. rewrite Es. set_solver.
  - destruct (pending_other s st st1 Es Hf1 Hp) as [H|H]; [left|right]; cbn; [|by rewrite E3].
    rewrite E4. set_solver.
Qed.

Lemma run_steps_ok spec base steps st ex sk h :
  TaskSpec.task_id spec = id → Forall step_fits steps → diskI h → bounded st (world h) →
  pending st →
  wpi diskI T (run_steps (TS:=fs) log_actions log_sink type_name base spec steps st ex sk)
    (λ o h', match o with
             | inl _ => True
             | inr (st', _, _) => bounded st' (world h')
             end) h.
Proof.
  intros Hid Hfit. revert st ex sk h.
  induction Hfit as [|s steps Hs Hfit IH]; intros st ex sk h Hd Hb Hp; [by apply wpi_ret|].
  apply wpi_bind. eapply wpi_mono; [by apply run_step_ok|].
  intros [o|[[st' ex'] sk']] h' Hd' Ho; [by apply wpi_ret|]. destruct Ho. by apply IH.
Qed.

Lemma unresolved_nil st k v :
  unresolved_steps st = [] → TaskState.attempts st !! k = Some v → 0 < v →
  VStr k ∈ TaskState.completed_steps st.
Proof.
  unfold unresolved_steps. intros H Hk Hv. apply (proj1 (sorted_nil_iff _)) in H. apply in_list_str.
  destruct (in_list (VStr k) (TaskState.completed_steps st)) eqn:E; [done|].
  exfalso. apply (list.not_elem_of_nil k). rewrite <- H.
  apply list_elem_of_omap. exists (k, v). split; [by apply elem_of_map_to_list|].
  cbn [fst snd]. rewrite E. replace (0 <? v) with true by (symmetry; lia). done.
Qed.

Lemma loaded_ok h st :
  diskI h → loaded now id h = Ok st →
  bounded st (world h) ∧ (files h !! id = None → TaskState.attempts st = ∅).
Proof.
  intros Hd. unfold loaded. rewrite Hsafe. cbn [negb]. unfold diskI in Hd.
  destruct (files h !! id) as [doc|] eqn:F.
  - destruct Hd as (st0 & -> & Hs & Hb).
    unfold saved. rewrite state_from_saved by apply Hs. cbn -[state_read].
    case_match; [|done]. intros [= <-]. split; [|done]. by apply (bounded_same st0).
  - intros [= <-]. split; [|done]. split; [|unfold att; cbn; rewrite lookup_empty; cbn; lia].
    split; cbn; [done|done|]. intros k v. by rewrite lookup_empty.
Qed.

Lemma bind_state_ok spec h :
  TaskSpec.task_id spec = id → diskI h →
  wpi diskI T (bind_state (TS:=fs) spec) (λ st h', bounded st (world h')) h.
Proof.
  intros Hid Hd. unfold bind_state. rewrite Hid.
  cbn [ts_exists ts_load ts_save file_store]. apply wpi_bind. unfold state_exists.
  apply wpi_bind, wpi_lift; [done| |done]. intros path _. split; [done|].
  apply wpi_bind. unfold wpi. apply wp_load_state.
  intros h1 [F1 _ W1] _. assert (diskI h1) as Hd1 by by apply (diskI_same h).
  split; [done|]. destruct (loaded now id h) as [st|e] eqn:El; [|done].
  apply loaded_ok in El as [Hb _]; [|done]. rewrite <- W1 in Hb.
  apply wpi_bind, wpi_lift; [done| |done]. intros [] _.
  apply wpi_bind, wpi_lift; [done| |done]. intros fp _.
  apply wpi_bind, wpi_lift; [done| |done]. intros [] _.
  apply wpi_bind, wpi_lift; [done| |done]. intros [] _.
  case_match; [by apply wpi_ret|].
  apply save_ok; [done|by apply (bounded_same st)|]. intros h2 t Hd2 W2 _.
  rewrite W2. by apply (bounded_same st).
Qed.

Lemma run_locked_ok spec ctx h :
  TaskSpec.task_id spec = id → Forall step_fits (TaskSpec.steps spec) → diskI h →
  wpi diskI T (run_locked spec ctx) (λ _ _, True) h.
Proof.
  intros Hid Hfit Hd. unfold _run_locked. apply wpi_bind.
  eapply wpi_mono; [by apply bind_state_ok|]. intros st h1 Hd1 Hb1. cbv beta zeta.
  apply wpi_bind, wpi_lift; [done| |done]. intros [] _.
  { apply wpi_bind. rewrite Hid. apply append_ok; [done|]. intros. by apply wpi_ret. }
  destruct (unresolved_steps st) as [|u us] eqn:Eu.
  2:{ apply wpi_bind, block_ok; [done..|]. intros. by apply wpi_ret. }
  apply wpi_bind, save_ok; [done|by apply (bounded_same st)|]. intros h2 t Hd2 W2 _.
  apply wpi_bind. rewrite Hid. apply append_ok; [done|]. intros h3 ev Hd3 W3 _.
  apply wpi_bind. eapply wpi_mono.
  - apply run_steps_ok; [done..| |].
    + rewrite W3, W2. by apply (bounded_same st).
    + unfold pending. cbn. destruct (TaskState.attempts st !! sid) as [v|] eqn:Ev; [left|by right].
      apply (unresolved_nil st sid v); [done..|]. destruct Hb1 as [[_ _ Hat] _].
      specialize (Hat _ _ Ev). lia.
  - intros [o|[[st' ex] sk]] h4 Hd4 Ho; [by apply wpi_ret|].
    apply wpi_bind, save_ok; [done|by apply (bounded_same st')|]. intros h5 t5 Hd5 _ _.
    apply wpi_bind, append_ok; [done|]. intros. by apply wpi_ret.
Qed.

(** A run keeps the bound, whatever its outcome. *)
Lemma run_ok spec spec' ctx h :
  detach spec = Ok spec' → TaskSpec.task_id spec' = id →
  Forall step_fits (TaskSpec.steps spec') → diskI h → diskI (run spec ctx h).2.
Proof.
  intros Hdet Hid Hfit Hd. unfold Runner.run. rewrite Hdet, bind_run. unfold lift.
  cbn [ts_lock file_store]. rewrite Hid. destruct (decide (id ∈ locked h)) as [Hl|Hl].
  - rewrite task_lock_held by done. done.
  - rewrite task_lock_eq by done.
    pose proof (run_locked_ok spec' ctx (set_locked ({[id]} ∪ locked h) h) Hid Hfit Hd) as H.
    unfold wpi, wp in H. destruct (run_locked _ _ _) as [r h']. by destruct H.
Qed.
End once.

Lemma detach_spec spec spec' : detach spec = Ok spec' → detached spec spec'.
Proof.
  unfold detach. intros (doc & Hdoc & (s2 & H2 & H)%bind_Ok)%bind_Ok.
  pose proof (read_detached _ _ _ Hdoc H2). by destruct (TaskSpec.validate s2); inv_result.
Qed.

Lemma run_stuck spec ctx h e : detach spec = Err e → (run spec ctx h).2 = h.
Proof. intros H. unfold Runner.run. rewrite bind_run, H. done. Qed.
Lemma run_unsafe spec spec' ctx h :
  detach spec = Ok spec' → safe_id (TaskSpec.task_id spec') = false → (run spec ctx h).2 = h.
Proof. intros H Hs. unfold Runner.run. rewrite bind_run, H. unfold lift.
  cbn [ts_lock file_store]. by rewrite task_lock_unsafe. Qed.

Lemma fits_of_detached spec spec' sp :
  detached spec spec' → sp ∈ TaskSpec.steps spec →
  TaskSpec.verifier_of sp ≠ Some (StepSpec.action sp) →
  Forall (step_fits (StepSpec.step_id sp) (StepSpec.action sp) (StepSpec.max_attempts sp))
    (TaskSpec.steps spec') ∧ 1 ≤ StepSpec.max_attempts sp.
Proof.
  intros [_ Hok Hst] Hin Hv. destruct (sp_each _ Hok) as [Heach Hnd _ _ _].
  destruct (list_elem_of_lookup_1 _ _ Hin) as [i Hi].
  destruct (Forall2_lookup_l _ _ _ _ _ Hst Hi) as (sp' & Hi' & args & E).
  assert (sp' ∈ TaskSpec.steps spec') as Hin' by by eapply list_elem_of_lookup_2.
  split.
  - apply list.Forall_forall. intros s' Hs' Eid.
    destruct (list_elem_of_lookup_1 _ _ Hs') as [j Hj].
    assert (j = i) as ->.
    { apply (NoDup_lookup _ _ _ (StepSpec.step_id sp) Hnd).
      - rewrite list_lookup_fmap, Hj. cbn. by rewrite Eid.
      - rewrite list_lookup_fmap, Hi'. cbn. by rewrite E. }
    assert (s' = sp') as -> by congruence. by rewrite E.
  - rewrite list.Forall_forall in Heach. apply Heach, so_attempts in Hin'. by rewrite E in Hin'.
Qed.

(** C1: a task that starts with no state file invokes the action of a step at
    most [max_attempts] times (once, for a step that is not retry-safe), however
    often it is run again and whichever durable operations of those runs are
    interrupted. *)
Theorem action_attempts_bounded spec sp ctxs h :
  TaskSpec.validate spec = Ok tt → sp ∈ TaskSpec.steps spec →
  TaskSpec.verifier_of sp ≠ Some (StepSpec.action sp) →
  files h !! TaskSpec.task_id spec = None →
  count_calls (StepSpec.step_id sp) (StepSpec.action sp) (world h) = 0 →
  count_calls (StepSpec.step_id sp) (StepSpec.action sp) (world (runs spec ctxs h)) ≤
    StepSpec.max_attempts sp.
Proof.
  intros Hval Hin Hv Hf H0.
  apply spec_validate_iff, sp_each, ss_each in Hval. rewrite list.Forall_forall in Hval.
  specialize (Hval _ Hin). apply so_attempts in Hval.
  set (sid := StepSpec.step_id sp) in *. set (a := StepSpec.action sp) in *.
  set (mx := StepSpec.max_attempts sp) in *.
  destruct (detach spec) as [spec'|e] eqn:Ed.
  2:{ assert (runs spec ctxs h = h) as ->; [|lia].
      induction ctxs as [|c ctxs IH]; cbn; [done|]. by rewrite (run_stuck _ _ _ e). }
  destruct (safe_id (TaskSpec.task_id spec')) eqn:Hs.
  2:{ assert (runs spec ctxs h = h) as ->; [|lia].
      induction ctxs as [|c ctxs IH]; cbn; [done|]. by erewrite run_unsafe. }
  pose proof (detach_spec _ _ Ed) as Hdet.
  destruct (fits_of_detached _ _ sp Hdet Hin Hv) as [Hfit _].
  assert (diskI (TaskSpec.task_id spec') sid a mx h) as Hd.
  { unfold diskI. by rewrite (dt_id _ _ Hdet), Hf. }
  clear Hf H0. revert h Hd. induction ctxs as [|c ctxs IH]; intros h Hd; cbn [runs].
  - unfold diskI in Hd. destruct (files h !! _) as [doc|]; [|lia].
    destruct Hd as (st & _ & _ & Hb). lia.
  - apply IH. by apply (run_ok _ _ _ _ Hs Hval spec spec').
Qed.
End env.

(** ** A concrete task *)
Definition sample_step : StepSpec.t :=
  StepSpec.mk "fetch" "download" [("url", VStr "u")] (Some "check") true 2.
Definition sample_spec : TaskSpec.t :=
  TaskSpec.mk "task-1" "Title" "Goal" ["download"; "check"] [sample_step] [] []
    TASK_SCHEMA_VERSION.
Definition no_clock (n : nat) : string := "t".
(** A provider whose action fails the first time. *)
Definition flaky (log : list call) (c : call) : result action_value :=
  if String.eqb (c_action c) "check" then Ok (RetBool true)
  else match log with
       | [] => Err (Exn RuntimeError "secret")
       | _ => Ok RetNone
       end.
Definition empty_host : StateStore.host (list call) := Host ∅ [] ∅ 0 0 [].
(** The save that records the first attempt fails when [n] = 2. *)
Definition fault_at (n k : nat) : bool := Nat.eqb n k.

Example sample_run :
  let h := runs no_clock (fault_at 100) flaky {["download"; "check"]} None exn_msg
             sample_spec [[]; []] empty_host in
  count_calls "fetch" "download" (world h) = 2.
Proof. vm_compute. reflexivity. Qed.

Lemma action_attempts_bounded_witness :
  count_calls "fetch" "download"
    (world (runs no_clock (fault_at 5) flaky {["download"; "check"]} None exn_msg
              sample_spec [[]; []; []] empty_host)) ≤ 2.
Proof.
  apply (action_attempts_bounded no_clock (fault_at 5) flaky {["download"; "check"]} None exn_msg
           sample_spec sample_step [[]; []; []] empty_host).
  - vm_compute. reflexivity.
  - apply list_elem_of_here.
  - vm_compute. intros [=].
  - reflexivity.
  - reflexivity.
Defined.
