(* ===== verification/Registry.v ===== *)
(** agent_core/adapters.py, capability_catalog.py and orchestrator.py: the tool
    registry, the read-only GitHub adapter and the preflight that gates a run.

    Provider callables are operations on the outside world [W]. *)
From S2P Require Import Prelude PyString PyValue TaskModel Diagnostics TaskStore StateStore Runner.

(** [access] is ["read"], ["write"] or ["execute"]. *)
Record Capability := MkCapability {
  cap_action : string; access : string; required_permissions : list string;
  supports_dry_run : bool; description : string }.

(** [asdict(capability)] *)
Definition capability_dict (c : Capability) : pydict :=
  [("action", VStr (cap_action c)); ("access", VStr (access c));
   ("required_permissions", VTuple (map VStr (required_permissions c)));
   ("supports_dry_run", VBool (supports_dry_run c)); ("description", VStr (description c))].

(** What an adapter provides: its capabilities, in order, and its actions. *)
Record ToolAdapter (W : Type) := MkAdapter {
  adapter_name : string; capabilities : list Capability; adapter_actions : gmap string (Action W) }.
Arguments MkAdapter {W}.
Arguments adapter_name {W}.
Arguments capabilities {W}.
Arguments adapter_actions {W}.

Module ToolRegistry.
Section Registry.
Context {W : Type}.
Record t := mk {
  actions : gmap string (Action W);
  _capabilities : gmap string Capability;
  adapter_for_action : gmap string string }.

Definition empty : t := mk ∅ ∅ ∅.

(** [{cap.action: cap for cap in ...}]: the last one of a name wins. *)
Definition capability_map (caps : list Capability) : gmap string Capability :=
  foldl (λ m c, <[cap_action c := c]> m) ∅ caps.

(** [sorted(set(actions) & set(self._actions))] *)
Definition collisions (self : t) (a : ToolAdapter W) : list string :=
  sorted (elements (dom (adapter_actions a) ∩ dom (actions self))).

(** The loop over the adapter's actions overwrites nothing: they are new. *)
Definition register (self : t) (adapter : ToolAdapter W) : result t :=
  let caps := capability_map (capabilities adapter) in
  reject_if (negb (bool_decide (dom caps = dom (adapter_actions adapter)))) ValueError
    ("adapter_capability_action_mismatch:" ++ adapter_name adapter)%string;;
  reject_if (negb (bool_decide (collisions self adapter = []))) ValueError
    ("duplicate_registered_action:" ++ join "," (collisions self adapter))%string;;
  Ok (mk (adapter_actions adapter ∪ actions self) (caps ∪ _capabilities self)
         (((λ _, adapter_name adapter) <$> adapter_actions adapter) ∪ adapter_for_action self)).

Definition capability (self : t) (action : string) : option Capability :=
  _capabilities self !! action.

(** [{**asdict(self._capabilities[a]), "adapter": ...}] for the sorted actions *)
Definition describe_action (self : t) (action : string) : result pyval :=
  match _capabilities self !! action, adapter_for_action self !! action with
  | Some c, Some name => Ok (VDict (dict_set "adapter" (VStr name) (capability_dict c)))
  | _, _ => raise KeyError action
  end.
Definition describe (self : t) : result (list pyval) :=
  mapR (describe_action self) (sorted (elements (dom (actions self)))).

Definition require_one (self : t) (u : unit) (action : string) : result unit :=
  match capability self action with
  | None => raise ValueError ("action_not_registered:" ++ action)%string
  | Some c => reject_if (negb (String.eqb (access c) "read")) ValueError
                ("non_read_action_forbidden:" ++ action)%string
  end.
Definition require_read_only (self : t) (names : list string) : result unit :=
  foldR (require_one self) tt names.
End Registry.
#[global] Arguments t : clear implicits.
End ToolRegistry.

(** ** CallableReadOnlyGitHubAdapter *)
Module GitHub.
Section GitHub.
Context {W : Type} (file_reader : string → string → string → eff W pyval)
  (ci_reader : string → string → eff W pyval).

(** [str(v or dflt)] for [v = d.get(k)] *)
Definition text (d : pydict) (k dflt : string) : string :=
  py_str (py_or (get_or_none k d) (VStr dflt)).

Definition _repository (context : pydict) : result string :=
  inputs ← py_get (py_or (get_or_none "task_inputs" context) (VDict [])) "repository";
  let repository := strip (py_str (py_or (default VNone inputs) (VStr ""))) in
  reject_if (negb (truthy_s repository) || negb (contains "/" repository)) ValueError
    "repository_input_required";;
  Ok repository.

(** The loop over the paths, with the results so far. *)
Fixpoint read_files (repository ref : string) (results : pydict) (files : list string) :
    eff W pydict :=
  match files with
  | [] => mret results
  | path :: files' =>
      v ← file_reader repository path ref;
      read_files repository ref (dict_set path v results) files'
  end.

Definition _read_main (args context : pydict) : eff W action_value :=
  repository ← lift (_repository context);
  let ref := text args "ref" "main" in
  items ← lift (py_iter (py_or (get_or_none "required_files" args) (VTuple [])));
  let files := map py_str items in
  lift (reject_if (bool_decide (files = [])) ValueError "required_files_missing");;
  results ← read_files repository ref [] files;
  mret (RetResult
    {| ActionResult.message :=
         ("read " ++ z_str (Z.of_nat (length results)) ++ " repository files")%string;
       ActionResult.artifacts := [];
       ActionResult.data :=
         [("repository", VStr repository); ("ref", VStr ref); ("files", VDict results)] |}).

Definition ci_verified (status : pyval) : bool :=
  match status with
  | VBool b => b
  | VDict d =>
      let conclusion := lower (text d "conclusion" "") in
      let state := lower (text d "status" "") in
      String.eqb conclusion "success"
      || (String.eqb state "completed" && String.eqb conclusion "success")
  | _ => false
  end.

Definition _verify_ci (args context : pydict) : eff W action_value :=
  repository ← lift (_repository context);
  status ← ci_reader repository (text args "ref" "main");
  mret (RetDict None [("verified", VBool (ci_verified status)); ("status", status)]).

Definition adapter : ToolAdapter W :=
  MkAdapter "github-readonly"
    [MkCapability "github.read_main" "read" ["contents:read"] true
       "Read required files from an explicit repository ref.";
     MkCapability "github.verify_ci" "read" ["actions:read"] true
       "Verify an existing CI state without starting or mutating a run."]
    {[ "github.read_main" := _read_main; "github.verify_ci" := _verify_ci ]}.
End GitHub.
End GitHub.

(** ** AgentOrchestrator *)
Record PreflightReport := MkReport {
  ready : bool; missing_actions : list string; forbidden_actions : list string;
  registered_capabilities : list pyval }.

Section Orchestrator.
(** [self.store] *)
Context {H W : Type} `{TS : !TaskStore H W} (type_name : exn → string).
Context (registry : ToolRegistry.t W).

(** The actions and verifiers the steps use; an empty name does not count. *)
Definition step_actions (s : StepSpec.t) : list string :=
  (if truthy_s (StepSpec.action s) then [StepSpec.action s] else []) ++
  match TaskSpec.verifier_of s with Some v => [v] | None => [] end.
Definition used_actions (spec : TaskSpec.t) : gset string :=
  list_to_set (concat (map step_actions (TaskSpec.steps spec))).

Definition forbidden (allowed : list string) (action : string) : bool :=
  match ToolRegistry.capability registry action with
  | Some c => bool_decide (access c ∉ allowed)
  | None => true
  end.

Definition preflight (spec : TaskSpec.t) (allowed_access : option (list string)) :
    result PreflightReport :=
  TaskSpec.validate spec;;
  let used := used_actions spec in
  let registered : gset string := dom (ToolRegistry.actions registry) in
  let missing := sorted (elements (used ∖ registered)) in
  let barred := match allowed_access with
                | Some allowed => List.filter (forbidden allowed) (sorted (elements (used ∩ registered)))
                | None => []
                end in
  caps ← ToolRegistry.describe registry;
  Ok (MkReport (bool_decide (missing = []) && bool_decide (barred = [])) missing barred caps).

Definition run_orchestrated (spec : TaskSpec.t) (context : pydict)
    (allowed_access : option (list string)) : eff H RunOutcome.t :=
  report ← lift (preflight spec allowed_access);
  lift (reject_if (negb (bool_decide (missing_actions report = []))) ValueError
    ("preflight_missing_actions:" ++ join "," (missing_actions report))%string);;
  lift (reject_if (negb (bool_decide (forbidden_actions report = []))) ValueError
    ("preflight_forbidden_actions:" ++ join "," (forbidden_actions report))%string);;
  run (TS:=TS) (ToolRegistry.actions registry) None type_name spec context.

(** [run_task_file]: the document in the task file. *)
Definition run_task_file (payload : pyval) (context : pydict)
    (allowed_access : option (list string)) : eff H RunOutcome.t :=
  spec ← lift (TaskSpec.from_dict payload);
  run_orchestrated spec context allowed_access.
End Orchestrator.
