(* ===== verification/RegistryFacts.v ===== *)
(** The registry never overrides an action and keeps the permission of every
    action it runs; the orchestrator runs a definition only within them. *)
From S2P Require Import Prelude PyString PyValue TaskModel TaskModelFacts Diagnostics StateStore.
From S2P Require Import TaskStore Runner Registry.

Section registry.
Context {W : Type}.
Implicit Types r : ToolRegistry.t W.

(** Every action has its own capability and the name of its adapter. *)
Record registry_ok r : Prop := {
  rg_caps : dom (ToolRegistry._capabilities r) = dom (ToolRegistry.actions r);
  rg_adapters : dom (ToolRegistry.adapter_for_action r) = dom (ToolRegistry.actions r);
  rg_named : ∀ a c, ToolRegistry._capabilities r !! a = Some c → cap_action c = a }.

Lemma empty_ok : registry_ok ToolRegistry.empty.
Proof. by split. Qed.

Lemma capability_map_acc caps (m : gmap string Capability) a c :
  foldl (λ m c, <[cap_action c := c]> m) m caps !! a = Some c →
  m !! a = Some c ∨ c ∈ caps ∧ cap_action c = a.
Proof.
  revert m. induction caps as [|c0 caps IH]; intros m; cbn; [auto|].
  intros [H|[H ?]]%IH; [|set_solver].
  destruct (decide (cap_action c0 = a)) as [<-|N].
  - rewrite lookup_insert_eq in H. injection H as ->. right. set_solver.
  - rewrite lookup_insert_ne in H by done. auto.
Qed.
Lemma capability_map_ok caps a c :
  ToolRegistry.capability_map caps !! a = Some c → c ∈ caps ∧ cap_action c = a.
Proof. intros [H|]%capability_map_acc; [by rewrite lookup_empty in H|done]. Qed.

Lemma collisions_nil r adapter : ToolRegistry.collisions r adapter = [] ↔
  adapter_actions adapter ##ₘ ToolRegistry.actions r.
Proof.
  unfold ToolRegistry.collisions. rewrite sorted_nil_iff, map_disjoint_dom.
  rewrite elements_empty_iff. split; [intros H%leibniz_equiv_iff|intros H; apply leibniz_equiv_iff]; set_solver.
Qed.

Lemma register_ok r adapter r' : ToolRegistry.register r adapter = Ok r' →
  dom (ToolRegistry.capability_map (capabilities adapter)) = dom (adapter_actions adapter) ∧
  adapter_actions adapter ##ₘ ToolRegistry.actions r ∧
  r' = ToolRegistry.mk (adapter_actions adapter ∪ ToolRegistry.actions r)
         (ToolRegistry.capability_map (capabilities adapter) ∪ ToolRegistry._capabilities r)
         (((λ _, adapter_name adapter) <$> adapter_actions adapter) ∪ ToolRegistry.adapter_for_action r).
Proof.
  unfold ToolRegistry.register. intros H. inv_result. split_and!; [done| |done]. by apply collisions_nil.
Qed.

Lemma register_keeps_ok r adapter r' :
  registry_ok r → ToolRegistry.register r adapter = Ok r' → registry_ok r'.
Proof.
  intros [Hc Ha Hn] (Hd & _ & ->)%register_ok. split; cbn.
  - by rewrite !dom_union_L, Hd, Hc.
  - by rewrite !dom_union_L, dom_fmap_L, Ha.
  - intros a c [H|[_ H]]%lookup_union_Some_raw; [|by apply Hn].
    by apply capability_map_ok in H as [_ ?].
Qed.

(** A registration that is accepted keeps the registry well formed, adds
    exactly the adapter's actions with a capability the adapter declared for
    that very name, and changes nothing that was registered before. *)
Theorem register_sound r adapter r' :
  registry_ok r → ToolRegistry.register r adapter = Ok r' →
  registry_ok r' ∧
  ToolRegistry.actions r ⊆ ToolRegistry.actions r' ∧
  ToolRegistry._capabilities r ⊆ ToolRegistry._capabilities r' ∧
  dom (ToolRegistry.actions r') = dom (adapter_actions adapter) ∪ dom (ToolRegistry.actions r) ∧
  ∀ a act, adapter_actions adapter !! a = Some act →
    ToolRegistry.actions r' !! a = Some act ∧
    ToolRegistry.adapter_for_action r' !! a = Some (adapter_name adapter) ∧
    ∃ c, c ∈ capabilities adapter ∧ cap_action c = a ∧ ToolRegistry.capability r' a = Some c.
Proof.
  intros Hok Hr. split; [by eapply register_keeps_ok|].
  destruct Hok as [Hc Ha Hn]. apply register_ok in Hr as (Hd & Hdisj & ->).
  set (caps := ToolRegistry.capability_map (capabilities adapter)) in *.
  assert (caps ##ₘ ToolRegistry._capabilities r) as Hdc.
  { apply map_disjoint_dom. rewrite Hd, Hc. by apply map_disjoint_dom. }
  split_and!; cbn.
  - by apply map_union_subseteq_r.
  - by apply map_union_subseteq_r.
  - by rewrite dom_union_L.
  - intros a act H. split; [by apply lookup_union_Some_l|]. split.
    + apply lookup_union_Some_l. by rewrite lookup_fmap, H.
    + assert (a ∈ dom caps) as [c Hac]%elem_of_dom by (rewrite Hd; by apply elem_of_dom).
      pose proof Hac as [? ?]%capability_map_ok. exists c. split_and!; [done|done|].
      by apply lookup_union_Some_l.
Qed.

(** ** The preflight *)
Lemma describe_total r : registry_ok r → ∃ l, ToolRegistry.describe r = Ok l.
Proof.
  intros [Hc Ha _]. apply mapR_total. intros a Hin.
  rewrite elem_of_sorted, elem_of_elements in Hin. unfold ToolRegistry.describe_action.
  assert (a ∈ dom (ToolRegistry._capabilities r)) as [c ->]%elem_of_dom by (by rewrite Hc).
  assert (a ∈ dom (ToolRegistry.adapter_for_action r)) as [n ->]%elem_of_dom by (by rewrite Ha).
  by eexists.
Qed.

(** Every action a definition uses is registered, with an access allowed. *)
Definition permitted r (allowed : option (list string)) (spec : TaskSpec.t) : Prop :=
  ∀ a, a ∈ used_actions spec → ∃ c, ToolRegistry.capability r a = Some c ∧
    ∀ l, allowed = Some l → access c ∈ l.

(** The two lists the preflights compute. *)
Lemma missing_nil r spec : registry_ok r →
  sorted (elements (used_actions spec ∖ dom (ToolRegistry.actions r))) = [] ↔
  ∀ a, a ∈ used_actions spec → ∃ c, ToolRegistry.capability r a = Some c.
Proof.
  intros Hr. rewrite sorted_nil_iff, elements_empty_iff, <- (rg_caps _ Hr).
  unfold ToolRegistry.capability. setoid_rewrite <- elem_of_dom. split.
  - intros H a Ha. destruct (decide (a ∈ dom (ToolRegistry._capabilities r))); [done|set_solver].
  - intros H. set_solver.
Qed.
Lemma preflight_lists r spec al : registry_ok r →
  sorted (elements (used_actions spec ∖ dom (ToolRegistry.actions r))) = [] ∧
  List.filter (forbidden r al)
    (sorted (elements (used_actions spec ∩ dom (ToolRegistry.actions r)))) = [] ↔
  permitted r (Some al) spec.
Proof.
  intros Hr. rewrite missing_nil by done. rewrite filter_nil_iff.
  setoid_rewrite elem_of_sorted. setoid_rewrite elem_of_elements.
  rewrite <- (rg_caps _ Hr). unfold forbidden, permitted. split.
  - intros [H1 H2] a Ha. destruct (H1 a Ha) as [c Hc]. exists c. split; [done|]. intros l' [= <-].
    specialize (H2 a). rewrite Hc in H2. assert (bool_decide (access c ∉ al) = false) as Hd.
    { apply H2, elem_of_intersection. split; [done|]. apply elem_of_dom. eauto. }
    apply bool_decide_eq_false in Hd. by destruct (decide (access c ∈ al)).
  - intros H. split; [intros a Ha; destruct (H a Ha) as (c & ? & _); eauto|].
    intros a [Ha _]%elem_of_intersection. destruct (H a Ha) as (c & -> & Hal).
    apply bool_decide_eq_false. intros Hn. by apply Hn, Hal.
Qed.

Lemma preflight_spec r spec allowed : registry_ok r → spec_ok spec →
  ∃ report, preflight r spec allowed = Ok report ∧
    (missing_actions report = [] ∧ forbidden_actions report = [] ↔ permitted r allowed spec).
Proof.
  intros Hr Hs. destruct (describe_total r Hr) as [l Hl]. unfold preflight.
  rewrite (proj2 (spec_validate_iff spec) Hs), Hl. eexists. split; [reflexivity|].
  cbn -[sorted used_actions]. destruct allowed as [al|]; [by apply preflight_lists|].
  rewrite missing_nil by done. unfold permitted.
  split; [|intros H; split; [|done]]; [intros [H _]|]; intros a Ha;
    destruct (H a Ha) as [c Hc]; [by exists c|destruct Hc; eauto].
Qed.
End registry.

(** C7: the orchestrator hands a definition to the runner, with exactly the
    registered actions, when the definition is valid and every action and
    verifier it uses is registered with an allowed access; otherwise it raises
    and leaves the store, the ledger and the outside world as they were. *)
Theorem orchestrator_gate {H W} {TS : TaskStore H W} type_name (r : ToolRegistry.t W) spec ctx allowed (h : H) :
  registry_ok r →
  (spec_ok spec → permitted r allowed spec →
     run_orchestrated type_name r spec ctx allowed h =
     run (ToolRegistry.actions r) None type_name spec ctx h) ∧
  (¬ (spec_ok spec ∧ permitted r allowed spec) →
     ∃ e, run_orchestrated type_name r spec ctx allowed h = (Err e, h)).
Proof.
  intros Hr. unfold run_orchestrated. split.
  - intros Hs Hp. destruct (preflight_spec r spec allowed Hr Hs) as (report & -> & Hiff).
    pose proof (proj2 Hiff Hp) as [Em Ef]. unfold lift. rewrite !bind_run. cbn -[run]. by rewrite Em, Ef.
  - intros Hno. destruct (TaskSpec.validate spec) as [[]|e] eqn:Ev.
    + apply spec_validate_iff in Ev.
      destruct (preflight_spec r spec allowed Hr Ev) as (report & -> & Hiff).
      unfold lift. rewrite !bind_run. cbn -[run].
      destruct (decide (missing_actions report = [])) as [Em|Em];
        [rewrite (bool_decide_eq_true_2 _ Em)|rewrite (bool_decide_eq_false_2 _ Em)];
        cbn -[run]; [|by eexists].
      destruct (decide (forbidden_actions report = [])) as [Ef|Ef];
        [rewrite (bool_decide_eq_true_2 _ Ef)|rewrite (bool_decide_eq_false_2 _ Ef)];
        cbn -[run]; [|by eexists].
      exfalso. apply Hno. split; [done|]. by apply Hiff.
    + exists e. unfold preflight. by rewrite Ev.
Qed.

(** Continuous integration counts as verified only on an explicit success:
    the reader answered [True], or a document whose conclusion is "success" up
    to capitalisation; no other value verifies, whatever its status field says. *)
Theorem ci_verified_iff status : GitHub.ci_verified status = true ↔
  status = VBool true ∨
  ∃ d, status = VDict d ∧ lower (GitHub.text d "conclusion" "") = "success".
Proof.
  unfold GitHub.ci_verified. split.
  - destruct status as [|b| | | | | |d]; try done; [by intros ->; left|].
    intros [H|[_ H]%andb_true_iff]%orb_true_iff; apply String.eqb_eq in H; eauto.
  - intros [->|(d & -> & ->)]; done.
Qed.

(** ** The GitHub adapter in an empty registry *)
Definition no_files : string → string → string → eff nat pyval := λ _ _ _, mret (VStr "text").
Definition green_ci : string → string → eff nat pyval := λ _ _, mret (VBool true).
Definition github_registry : ToolRegistry.t nat :=
  match ToolRegistry.register ToolRegistry.empty (GitHub.adapter no_files green_ci) with
  | Ok r => r | Err _ => ToolRegistry.empty end.
Lemma github_registered :
  ToolRegistry.register ToolRegistry.empty (GitHub.adapter no_files green_ci) = Ok github_registry.
Proof.
  assert (is_ok (ToolRegistry.register ToolRegistry.empty (GitHub.adapter no_files green_ci)) = true)
    as H by (vm_compute; reflexivity).
  unfold github_registry. by destruct (ToolRegistry.register _ _).
Qed.
Lemma register_sound_witness :
  ToolRegistry.register ToolRegistry.empty (GitHub.adapter no_files green_ci) = Ok github_registry ∧
  registry_ok github_registry.
Proof.
  split; [exact github_registered|].
  exact (proj1 (register_sound _ _ _ empty_ok github_registered)).
Defined.

Definition download_spec : TaskSpec.t :=
  TaskSpec.mk "task-1" "Title" "Goal" ["download"]
    [StepSpec.mk "fetch" "download" [] None false 1] [] [] TASK_SCHEMA_VERSION.
(** The definition needs an action nobody registered: nothing happens. *)
Lemma orchestrator_gate_witness :
  registry_ok (ToolRegistry.empty (W:=nat)) ∧
  ∀ h : host nat, ∃ e, run_orchestrated (TS:=file_store (λ _, "t") (λ _, false)) (λ _, "Error")
    ToolRegistry.empty download_spec [] None h = (Err e, h).
Proof.
  split; [exact empty_ok|]. intros h.
  apply (orchestrator_gate (TS:=file_store (λ _, "t") (λ _, false)) (λ _, "Error") ToolRegistry.empty download_spec []
    None h empty_ok).
  intros [_ Hp]. destruct (Hp "download") as (c & Hc & _).
  - apply elem_of_list_to_set, list_elem_of_here.
  - discriminate Hc.
Defined.
