(* ===== verification/Recorder.v ===== *)
(** What an operation asks of a remote service: a transport that logs the modes
    it is asked for, and the rules to bound that log. *)
From S2P Require Import Prelude PyString PyValue.

Section recorder.
Context {W L : Type}.

(** The transport with a log of what it was asked, and an operation on the world
    that is not one of its requests. *)
Definition logged (entry : string → pydict → L) (transport : string → pydict → eff W pyval)
    (mode : string) (payload : pydict) : eff (W * list L) pyval := λ s,
  let '(r, w) := transport mode payload s.1 in (r, (w, s.2 ++ [entry mode payload])).
Definition quietly {A} (m : eff W A) : eff (W * list L) A := λ s,
  let '(r, w) := m s.1 in (r, (w, s.2)).

(** The requests [m] adds to the log satisfy [P]. *)
Definition adds {A} (P : list L → Prop) (m : eff (W * list L) A) : Prop :=
  ∀ s, ∃ new, (m s).2.2 = s.2 ++ new ∧ P new.
(** An operation asks for a sublist of [ms], in order. *)
Definition asks {A} (m : eff (W * list L) A) (ms : list L) : Prop :=
  adds (λ new, new `sublist_of` ms) m.
(** An operation only asks for modes in [ms], any number of times. *)
Definition asks_only {A} (ms : list L) (m : eff (W * list L) A) : Prop :=
  adds (Forall (λ mode, mode ∈ ms)) m.

Lemma adds_lift {A} (P : list L → Prop) (r : result A) : P [] → adds P (lift r).
Proof. intros H s. exists []. by rewrite app_nil_r. Qed.
Lemma adds_quietly {A} (P : list L → Prop) (m : eff W A) : P [] → adds P (quietly m).
Proof. intros H s. exists []. unfold quietly. rewrite app_nil_r. by destruct (m s.1). Qed.
Lemma adds_logged (P : list L → Prop) entry transport mode p :
  P [entry mode p] → adds P (logged entry transport mode p).
Proof. intros H s. exists [entry mode p]. unfold logged. by destruct (transport mode p s.1). Qed.
Lemma adds_weaken {A} (P Q : list L → Prop) (m : eff (W * list L) A) :
  adds P m → (∀ new, P new → Q new) → adds Q m.
Proof. intros H HPQ s. destruct (H s) as (new & ? & ?). eauto. Qed.
Lemma adds_attempt {A} P (m : eff (W * list L) A) : adds P m → adds P (attempt m).
Proof. intros H s. unfold attempt. specialize (H s). by destruct (m s). Qed.
Lemma adds_bind {A B} (P Q R : list L → Prop) (m : eff (W * list L) A)
    (f : A → eff (W * list L) B) :
  adds P m → (∀ a, adds Q (f a)) → (∀ l, P l → R l) → (∀ l l', P l → Q l' → R (l ++ l')) →
  adds R (m ≫= f).
Proof.
  intros Hm Hf HP HR s. rewrite bind_run. destruct (Hm s) as (new & E & Hn).
  destruct (m s) as [[a|e] s1]; cbn in E |- *.
  - destruct (Hf a s1) as (new' & -> & Hn'). exists (new ++ new').
    rewrite E, (assoc_L (++)). auto.
  - exists new. auto.
Qed.
Lemma adds_try {A} (P R : list L → Prop) (m : eff (W * list L) A) h :
  adds P m → (∀ e, adds P (h e)) → (∀ l, P l → R l) → (∀ l l', P l → P l' → R (l ++ l')) →
  adds R (try_with m h).
Proof.
  intros Hm Hh HP HR s. unfold try_with. destruct (Hm s) as (new & E & Hn).
  destruct (m s) as [[a|e] s1]; cbn in E |- *.
  - exists new. auto.
  - destruct (Hh e s1) as (new' & -> & Hn'). exists (new ++ new').
    rewrite E, (assoc_L (++)). auto.
Qed.

(** ** Sublists *)
Lemma asks_lift {A} (r : result A) : asks (lift r) [].
Proof. by apply adds_lift. Qed.
Lemma asks_quietly {A} (m : eff W A) : asks (quietly m) [].
Proof. by apply adds_quietly. Qed.
Lemma asks_logged entry transport mode p : asks (logged entry transport mode p) [entry mode p].
Proof. by apply adds_logged. Qed.
Lemma asks_attempt {A} (m : eff (W * list L) A) ms : asks m ms → asks (attempt m) ms.
Proof. apply adds_attempt. Qed.
Lemma asks_nil {A} (m : eff (W * list L) A) ms : asks m [] → asks m ms.
Proof.
  intros H. eapply adds_weaken; [exact H|]. intros new Hn. etrans; [exact Hn|]. apply sublist_nil_l.
Qed.
Lemma asks_bind {A B} (m : eff (W * list L) A) (f : A → eff (W * list L) B) ms ms' :
  asks m ms → (∀ a, asks (f a) ms') → asks (m ≫= f) (ms ++ ms').
Proof.
  intros Hm Hf. eapply adds_bind; [exact Hm|exact Hf|..].
  - intros l Hl. etrans; [exact Hl|]. apply sublist_inserts_r, reflexivity.
  - intros l l' Hl Hl'. by apply sublist_app.
Qed.
(** Silent prefixes and suffixes. *)
Lemma asks_quiet {A B} (m : eff (W * list L) A) (f : A → eff (W * list L) B) ms :
  asks m [] → (∀ a, asks (f a) ms) → asks (m ≫= f) ms.
Proof. apply (asks_bind m f [] ms). Qed.
Lemma asks_then {A B} (m : eff (W * list L) A) (f : A → eff (W * list L) B) ms :
  asks m ms → (∀ a, asks (f a) []) → asks (m ≫= f) ms.
Proof. intros Hm Hf. rewrite <- (app_nil_r ms). by apply asks_bind. Qed.

(** ** Sets of modes *)
Lemma only_lift {A} ms (r : result A) : asks_only ms (lift r).
Proof. by apply adds_lift. Qed.
Lemma only_ret {A} ms (a : A) : asks_only ms (mret a).
Proof. apply (only_lift ms (Ok a)). Qed.
Lemma only_throw {A} ms e : asks_only ms (throw (A:=A) e).
Proof. apply (only_lift ms (Err e)). Qed.
Lemma only_quietly {A} ms (m : eff W A) : asks_only ms (quietly m).
Proof. by apply adds_quietly. Qed.
Lemma only_logged ms entry transport mode p :
  entry mode p ∈ ms → asks_only ms (logged entry transport mode p).
Proof. intros H. apply adds_logged. by constructor. Qed.
Lemma only_bind {A B} ms (m : eff (W * list L) A) (f : A → eff (W * list L) B) :
  asks_only ms m → (∀ a, asks_only ms (f a)) → asks_only ms (m ≫= f).
Proof. intros Hm Hf. eapply adds_bind; [exact Hm|exact Hf|done|]. intros l l'. apply Forall_app_2. Qed.
Lemma only_try {A} ms (m : eff (W * list L) A) h :
  asks_only ms m → (∀ e, asks_only ms (h e)) → asks_only ms (try_with m h).
Proof. intros Hm Hh. eapply adds_try; [exact Hm|exact Hh|done|]. intros l l'. apply Forall_app_2. Qed.
End recorder.

(** The log of the modes, and the log of the modes with their payloads. *)
Abbreviation recorded := (logged (λ mode _, mode)).
Abbreviation traced := (logged (λ mode payload, (mode, payload))).

Create HintDb modes.
#[export] Hint Resolve only_lift only_ret only_throw only_quietly only_bind only_try : modes.
#[export] Hint Extern 1 (asks_only _ (logged _ _ _ _)) =>
  (apply only_logged; repeat constructor) : modes.

(** Bound the modes an operation asks for by following its text. *)
Ltac modes_tac :=
  repeat first
    [ apply only_lift | apply only_ret | apply only_throw | apply only_quietly
    | apply only_logged; repeat first [apply list_elem_of_here | apply list_elem_of_further]
    | apply only_bind; [|intros ?] | apply only_try; [|intros ?] | case_match ].
