(* ===== verification/HostedQueue.v ===== *)
(** agent_core/hosted_queue.py and exact_task_queue.py: the client of the
    durable task queue (claim, fenced save, reconciliation of expired leases).

    The transport and the clock are operations on the world [W]; what the
    transport answers is an arbitrary value, which the client has to check. *)
From S2P Require Import Prelude PyString PyValue TaskModel.

Definition FORBIDDEN_KEYS : list string :=
  ["token"; "access_token"; "refresh_token"; "password"; "secret"; "service_role";
   "service_role_key"; "api_key"; "apikey"; "authorization"].

(** The path of the first key, in document order, that names a secret. *)
Fixpoint _forbidden_secret_path (value : pyval) (path : string) {struct value} : option string :=
  let fix entries (d : pydict) : option string :=
    match d with
    | [] => None
    | (k, child) :: d' =>
        let here := (path ++ "." ++ k)%string in
        if bool_decide (lower k ∈ FORBIDDEN_KEYS) then Some here
        else match _forbidden_secret_path child here with
             | Some found => Some found
             | None => entries d'
             end
    end in
  let fix items (n : Z) (l : list pyval) : option string :=
    match l with
    | [] => None
    | child :: l' =>
        match _forbidden_secret_path child (path ++ "[" ++ z_str n ++ "]")%string with
        | Some found => Some found
        | None => items (n + 1) l'
        end
    end in
  match value with
  | VDict d => entries d
  | VList l | VTuple l => items 0 l
  | _ => None
  end.

Module HostedQueueLease.
Record t := mk {
  task_id : string; status : string; revision : Z; idempotency_key : string;
  spec : TaskSpec.t; state : TaskState.t; attempt_count : Z; max_attempts : Z;
  lease_owner : option string; lease_generation : Z; lease_expires_at : option string;
  not_before : string; created_at : option string; updated_at : option string }.

Definition is_some {A} (o : option A) : bool := match o with Some _ => true | None => false end.
Definition fenced (l : t) : bool :=
  String.eqb (status l) "running" && is_some (lease_owner l) && is_some (lease_expires_at l).
End HostedQueueLease.

Definition ROW_STATUSES : list string := ["queued"; "running"; "blocked"; "completed"; "failed"].
Definition SAVE_STATUSES : list string := ["running"; "blocked"; "completed"; "failed"].

Definition worker_char (c : Ascii.ascii) : bool := is_ascii_alnum c || one_of "._:-" c.
Definition _valid_worker_id (v : pyval) : bool :=
  match v with
  | VStr s => match chars s with
              | [] => false
              | c :: _ => (slen s <=? 128) && is_ascii_alnum c && forallb worker_char (chars s)
              end
  | _ => false
  end.
Definition _valid_lease_seconds (v : pyval) : bool :=
  match v with VInt z => (15 <=? z) && (z <=? 3600) | _ => false end.
Definition _parse_int (value : pyval) (name : string) (minimum : Z) : result Z :=
  match value with
  | VInt z => if z <? minimum then raise HostedQueueIntegrityError ("invalid_" ++ name)%string
              else Ok z
  | _ => raise HostedQueueIntegrityError ("invalid_" ++ name)%string
  end.

Definition integrity {A} (msg : string) : result A := raise HostedQueueIntegrityError msg.
Definition integrity_if (bad : bool) (msg : string) : result unit :=
  reject_if bad HostedQueueIntegrityError msg.

(** [x if isinstance(x, str) and x], and [x if isinstance(x, str) else None] *)
Definition non_empty_str (v : pyval) : option string :=
  match v with VStr s => if truthy_s s then Some s else None | _ => None end.
Definition needed (v : pyval) (msg : string) : result string :=
  match non_empty_str v with Some s => Ok s | None => integrity msg end.

(** The state detached from the caller and bound to its definition. *)
Definition _clean_state (now : string) (spec : TaskSpec.t) (state : TaskState.t) : result TaskState.t :=
  detached ← TaskState.from_dict now (TaskState.to_dict state);
  fingerprint ← TaskSpec.fingerprint spec;
  integrity_if (negb (String.eqb (TaskState.task_id detached) (TaskSpec.task_id spec)))
    "task_state_id_mismatch";;
  integrity_if (negb (py_eqb (TaskState.spec_fingerprint detached) (VStr fingerprint)))
    "task_spec_changed";;
  match _forbidden_secret_path (TaskState.to_dict detached) "$" with
  | Some path => integrity ("state_contains_forbidden_secret:" ++ path)%string
  | None => Ok detached
  end.

(** The models in a row; a model error becomes an integrity error. *)
Definition parse_models (now : string) (raw_spec raw_state : pyval) :
    result (TaskSpec.t * TaskState.t) :=
  match (s ← TaskSpec.from_dict raw_spec; st ← TaskState.from_dict now raw_state; Ok (s, st)) with
  | Err e => if isinstance e KeyError || isinstance e TypeError || isinstance e ValueError
             then integrity "invalid_queue_model" else Err e
  | r => r
  end.

(** The lease columns of a row with the given status. *)
Definition parse_holder (status : string) (generation : Z) (owner expires : pyval) :
    result (option string * option string) :=
  if String.eqb status "running" then
    integrity_if (negb (_valid_worker_id owner)) "invalid_lease_owner";;
    integrity_if (generation <? 1) "invalid_lease_generation";;
    x ← needed expires "invalid_lease_expiry";
    Ok (as_str owner, Some x)
  else
    integrity_if (negb (is_none owner) || negb (is_none expires))
      "terminal_or_queued_lease_not_cleared";;
    Ok (None, None).

Definition _parse_lease (now : string) (value : pyval) (expected_spec : option TaskSpec.t) :
    result HostedQueueLease.t :=
  match value with
  | VDict d =>
      let f k := get_or_none k d in
      task_id ← needed (f "task_id") "invalid_queue_task_id";
      known ← in_str_set (f "status") ROW_STATUSES;
      integrity_if (negb known) "invalid_queue_status";;
      let status := py_str (f "status") in
      integrity_if (negb (is_dict (f "spec")) || negb (is_dict (f "state")))
        "queue_spec_state_required";;
      models ← parse_models now (f "spec") (f "state");
      let spec := models.1 in let state := models.2 in
      integrity_if (negb (String.eqb (TaskSpec.task_id spec) task_id)
                    || negb (String.eqb (TaskState.task_id state) task_id))
        "queue_task_identity_mismatch";;
      integrity_if (match expected_spec with
                    | Some s => negb (py_eqb (TaskSpec.to_dict spec) (TaskSpec.to_dict s))
                    | None => false
                    end) "task_spec_changed";;
      fingerprint ← TaskSpec.fingerprint spec;
      integrity_if (negb (py_eqb (f "spec_fingerprint") (VStr fingerprint))
                    || negb (py_eqb (TaskState.spec_fingerprint state) (VStr fingerprint)))
        "queue_spec_fingerprint_mismatch";;
      integrity_if (negb (py_eqb (TaskState.status state)
                            (VStr (if String.eqb status "queued" then "pending" else status))))
        "queue_state_status_mismatch";;
      match _forbidden_secret_path (VDict [("spec", f "spec"); ("state", f "state")]) "$" with
      | Some path => integrity ("queue_record_contains_forbidden_secret:" ++ path)%string
      | None => Ok tt
      end;;
      revision ← _parse_int (f "revision") "queue_revision" 0;
      attempt_count ← _parse_int (f "attempt_count") "attempt_count" 0;
      max_attempts ← _parse_int (f "max_attempts") "max_attempts" 1;
      generation ← _parse_int (f "lease_generation") "lease_generation" 0;
      integrity_if (max_attempts <? attempt_count) "attempt_budget_exceeded";;
      key ← needed (f "idempotency_key") "invalid_queue_idempotency_key";
      not_before ← needed (f "not_before") "invalid_not_before";
      holder ← parse_holder status generation (f "lease_owner") (f "lease_expires_at");
      Ok (HostedQueueLease.mk task_id status revision key spec state attempt_count max_attempts
            holder.1 generation holder.2 not_before (as_str (f "created_at"))
            (as_str (f "updated_at")))
  | _ => integrity "queue_lease_object_required"
  end.

Definition _error_from_response (response : pydict) : exn :=
  let message := py_str (py_or (get_or_none "error" response) (VStr "hosted_queue_request_failed")) in
  let backend_code := py_str (py_or (get_or_none "backend_code" response) (VStr "")) in
  if String.eqb backend_code "40001" || contains "conflict" message || contains "expired" message
  then Exn HostedQueueConflict message else Exn HostedQueueError message.

(** [TaskSpec.from_dict(deepcopy(spec.to_dict()))] and [spec.validate()] *)
Definition detached_spec (spec : TaskSpec.t) : result TaskSpec.t :=
  spec ← TaskSpec.from_dict (TaskSpec.to_dict spec); TaskSpec.validate spec;; Ok spec.

Section Client.
Context {W : Type} (transport : string → pydict → eff W pyval) (utc_now : eff W string).
Abbreviation E := (eff W).

Definition _request (mode : string) (payload : pydict) : E pydict :=
  response ← transport mode payload;
  match response with
  | VDict d => if is_true (get_or_none "success" d) then mret d else throw (_error_from_response d)
  | _ => lift (raise HostedQueueError "invalid_hosted_queue_response")
  end.

Definition parse_field (response : pydict) (name : string) (expected : option TaskSpec.t) :
    E HostedQueueLease.t :=
  now ← utc_now; lift (_parse_lease now (get_or_none name response) expected).

Definition inspect (spec : TaskSpec.t) : E HostedQueueLease.t :=
  spec ← lift (detached_spec spec);
  response ← _request "checkpoint_get" [("task_id", VStr (TaskSpec.task_id spec))];
  parse_field response "checkpoint" (Some spec).

(** The checks shared by the two claims. *)
Definition check_claimer (worker_id lease_seconds : pyval) : result unit :=
  reject_if (negb (_valid_worker_id worker_id)) ValueError "invalid_worker_id";;
  reject_if (negb (_valid_lease_seconds lease_seconds)) ValueError "invalid_lease_seconds".
Definition check_claimed (worker_id : pyval) (record : HostedQueueLease.t) : result unit :=
  integrity_if (negb (String.eqb (HostedQueueLease.status record) "running")
                || negb (bool_decide (HostedQueueLease.lease_owner record = as_str worker_id)))
    "queue_claim_identity_mismatch";;
  integrity_if ((HostedQueueLease.revision record <? 1)
                || (HostedQueueLease.attempt_count record <? 1))
    "queue_claim_counters_not_advanced".

Definition claim (worker_id lease_seconds : pyval) : E (option HostedQueueLease.t) :=
  lift (check_claimer worker_id lease_seconds);;
  response ← _request "queue_claim" [("worker_id", worker_id); ("lease_seconds", lease_seconds)];
  let claimed := get_or_none "claimed" response in
  if is_false claimed && is_none (get_or_none "lease" response) then mret None
  else
    lift (integrity_if (negb (is_true claimed)) "queue_claim_flag_mismatch");;
    record ← parse_field response "lease" None;
    lift (check_claimed worker_id record);;
    mret (Some record).

Definition check_revision (v : pyval) : result Z :=
  match v with
  | VInt z => if z <? 0 then raise ValueError "expected_revision_must_be_non_negative_integer"
              else Ok z
  | _ => raise ValueError "expected_revision_must_be_non_negative_integer"
  end.
Definition check_generation (v : pyval) : result Z :=
  match v with
  | VInt z => if z <? 1 then raise ValueError "invalid_lease_generation" else Ok z
  | _ => raise ValueError "invalid_lease_generation"
  end.

(** The row written must be the next revision of the same lease generation. *)
Definition check_advanced (revision generation : Z) (record : HostedQueueLease.t) : result unit :=
  integrity_if (negb (HostedQueueLease.revision record =? revision + 1))
    "queue_revision_increment_mismatch";;
  integrity_if (negb (HostedQueueLease.lease_generation record =? generation))
    "queue_fencing_generation_changed".

Definition released (record : HostedQueueLease.t) : bool :=
  negb (HostedQueueLease.is_some (HostedQueueLease.lease_owner record)) &&
  negb (HostedQueueLease.is_some (HostedQueueLease.lease_expires_at record)).

Definition save (spec : TaskSpec.t) (state : TaskState.t) (expected_revision worker_id
    lease_generation lease_seconds : pyval) : E HostedQueueLease.t :=
  spec ← lift (detached_spec spec);
  now ← utc_now;
  state ← lift (_clean_state now spec state);
  saveable ← lift (in_str_set (TaskState.status state) SAVE_STATUSES);
  lift (reject_if (negb saveable) ValueError "invalid_leased_checkpoint_status");;
  revision ← lift (check_revision expected_revision);
  lift (reject_if (negb (_valid_worker_id worker_id)) ValueError "invalid_worker_id");;
  generation ← lift (check_generation lease_generation);
  lift (reject_if (negb (_valid_lease_seconds lease_seconds)) ValueError "invalid_lease_seconds");;
  response ← _request "queue_save"
    [("task_id", VStr (TaskSpec.task_id spec)); ("expected_revision", expected_revision);
     ("worker_id", worker_id); ("lease_generation", lease_generation);
     ("status", TaskState.status state); ("state", TaskState.to_dict state);
     ("lease_seconds", lease_seconds)];
  record ← parse_field response "lease" (Some spec);
  lift (check_advanced revision generation record);;
  lift (if py_eqb (TaskState.status state) (VStr "running")
        then integrity_if (negb (bool_decide (HostedQueueLease.lease_owner record = as_str worker_id))
                           || negb (HostedQueueLease.fenced record)) "running_lease_not_preserved"
        else integrity_if (negb (released record)) "terminal_lease_not_released");;
  mret record.

Definition reconcile_expired (spec : TaskSpec.t) (state : TaskState.t) (expected_revision
    lease_generation : pyval) : E HostedQueueLease.t :=
  spec ← lift (detached_spec spec);
  now ← utc_now;
  state ← lift (_clean_state now spec state);
  lift (reject_if (negb (py_eqb (TaskState.status state) (VStr "blocked"))) ValueError
    "blocked_state_required");;
  revision ← lift (check_revision expected_revision);
  generation ← lift (check_generation lease_generation);
  response ← _request "queue_reconcile_expired"
    [("task_id", VStr (TaskSpec.task_id spec)); ("expected_revision", expected_revision);
     ("lease_generation", lease_generation); ("state", TaskState.to_dict state)];
  record ← parse_field response "lease" (Some spec);
  lift (integrity_if (negb (String.eqb (HostedQueueLease.status record) "blocked"))
    "expired_reconciliation_not_blocked");;
  lift (check_advanced revision generation record);;
  lift (integrity_if (negb (released record)) "expired_lease_not_cleared");;
  mret record.

(** *** exact_task_queue.py *)
Definition claim_task (spec : TaskSpec.t) (worker_id lease_seconds : pyval) :
    E (option HostedQueueLease.t) :=
  spec ← lift (detached_spec spec);
  lift (check_claimer worker_id lease_seconds);;
  response ← _request "queue_claim_task"
    [("task_id", VStr (TaskSpec.task_id spec)); ("worker_id", worker_id);
     ("lease_seconds", lease_seconds)];
  let claimed := get_or_none "claimed" response in
  if is_false claimed && is_none (get_or_none "lease" response) then mret None
  else
    lift (integrity_if (negb (is_true claimed)) "queue_claim_flag_mismatch");;
    record ← parse_field response "lease" (Some spec);
    lift (integrity_if (negb (String.eqb (HostedQueueLease.task_id record) (TaskSpec.task_id spec)))
      "exact_task_claim_identity_mismatch");;
    lift (check_claimed worker_id record);;
    mret (Some record).

(** [BoundExactTaskQueueClient(transport, target_spec)] keeps the detached
    definition; its [claim] can only claim that one. *)
Definition bind_target (target_spec : TaskSpec.t) : result TaskSpec.t := detached_spec target_spec.
Definition bound_claim (target : TaskSpec.t) (worker_id lease_seconds : pyval) :
    E (option HostedQueueLease.t) := claim_task target worker_id lease_seconds.
End Client.
