(* ===== verification/HostedQueueFacts.v ===== *)
(** What the queue client accepts: whatever the transport answers, an accepted
    lease satisfies the queue contract. *)
From S2P Require Import Prelude PyString PyValue Sha256 TaskModel TaskModelFacts HostedQueue.

(** ** Forbidden keys *)

(** A key naming a secret occurs somewhere in a document. *)
Inductive leaks : pyval → Prop :=
  | leak_key d k v : (k, v) ∈ d → lower k ∈ FORBIDDEN_KEYS → leaks (VDict d)
  | leak_entry d k v : (k, v) ∈ d → leaks v → leaks (VDict d)
  | leak_list l v : v ∈ l → leaks v → leaks (VList l)
  | leak_tuple l v : v ∈ l → leaks v → leaks (VTuple l).

Definition path_entries (path : string) : pydict → option string :=
  fix entries d :=
    match d with
    | [] => None
    | (k, child) :: d' =>
        if bool_decide (lower k ∈ FORBIDDEN_KEYS) then Some (path ++ "." ++ k)%string
        else match _forbidden_secret_path child (path ++ "." ++ k) with
             | Some found => Some found
             | None => entries d'
             end
    end.
Definition path_items (path : string) : Z → list pyval → option string :=
  fix items n l :=
    match l with
    | [] => None
    | child :: l' =>
        match _forbidden_secret_path child (path ++ "[" ++ z_str n ++ "]")%string with
        | Some found => Some found
        | None => items (n + 1) l'
        end
    end.
Lemma path_dict d p : _forbidden_secret_path (VDict d) p = path_entries p d.
Proof. done. Qed.
Lemma path_list l p : _forbidden_secret_path (VList l) p = path_items p 0 l.
Proof. done. Qed.
Lemma path_tuple l p : _forbidden_secret_path (VTuple l) p = path_items p 0 l.
Proof. done. Qed.

Lemma path_items_iff p n l :
  Forall (λ v, ∀ p, _forbidden_secret_path v p = None ↔ ¬ leaks v) l →
  path_items p n l = None ↔ ∀ v, v ∈ l → ¬ leaks v.
Proof.
  intros H. revert n. induction H as [|v l Hv Hl IH]; intros n; cbn.
  { split; [intros _ v ?%not_elem_of_nil|]; done. }
  destruct (_forbidden_secret_path v _) eqn:E.
  - split; [done|]. intros Hno. exfalso. assert (¬ leaks v) as Hn by (apply Hno; set_solver).
    apply (Hv (p ++ "[" ++ z_str n ++ "]")%string) in Hn. congruence.
  - apply Hv in E. rewrite IH. split.
    + intros Hno x [-> | Hx]%elem_of_cons; auto.
    + intros Hno x Hx. apply Hno. set_solver.
Qed.

(** The search returns nothing exactly when no key names a secret. *)
Lemma forbidden_path_iff v : ∀ p, _forbidden_secret_path v p = None ↔ ¬ leaks v.
Proof.
  induction v as [| | | | |l IH|l IH|d IH] using pyval_rec_ind; intros p;
    try (split; [by intros _ Hl; inversion Hl|done]).
  - rewrite path_list, path_items_iff by done. split.
    + intros H Hl. inversion Hl; subst. by eapply H.
    + intros H v Hv Hl. apply H. by eapply leak_list.
  - rewrite path_tuple, path_items_iff by done. split.
    + intros H Hl. inversion Hl; subst. by eapply H.
    + intros H v Hv Hl. apply H. by eapply leak_tuple.
  - rewrite path_dict.
    assert (path_entries p d = None ↔ ∀ k v, (k, v) ∈ d → (lower k ∉ FORBIDDEN_KEYS) ∧ ¬ leaks v) as ->.
    { induction IH as [|[k v] d Hv Hd IHd]; cbn [path_entries].
      { split; [intros _ k v ?%not_elem_of_nil|]; done. }
      cbn [snd] in Hv. destruct (bool_decide (lower k ∈ FORBIDDEN_KEYS)) eqn:Ek.
      - apply bool_decide_eq_true in Ek. split; [done|]. intros H.
        destruct (H k v) as [Hn _]; [set_solver|done].
      - apply bool_decide_eq_false in Ek. destruct (_forbidden_secret_path v _) eqn:E.
        + split; [done|]. intros H. destruct (H k v) as [_ Hn]; [set_solver|].
          apply (Hv (p ++ "." ++ k)%string) in Hn. congruence.
        + apply Hv in E. change (path_entries p d = None ↔
            ∀ k0 v0, (k0, v0) ∈ (k, v) :: d → (lower k0 ∉ FORBIDDEN_KEYS) ∧ ¬ leaks v0).
          rewrite IHd. split.
          * intros H k0 v0 [[= -> ->] | Hin]%elem_of_cons; auto.
          * intros H k0 v0 Hin. apply H. set_solver. }
    split.
    + intros H Hl. inversion Hl as [d' k v Hin Hk|d' k v Hin Hv| |]; subst; destruct (H k v Hin); auto.
    + intros H k v Hin. split; intros Hx; apply H; [by eapply leak_key|by eapply leak_entry].
Qed.

(** ** Leases *)
Record lease_ok (l : HostedQueueLease.t) : Prop := {
  lk_spec : spec_ok (HostedQueueLease.spec l);
  lk_id : HostedQueueLease.task_id l = TaskSpec.task_id (HostedQueueLease.spec l) ∧
          HostedQueueLease.task_id l = TaskState.task_id (HostedQueueLease.state l);
  lk_bound : ∃ f, TaskSpec.fingerprint (HostedQueueLease.spec l) = Ok f ∧
                  TaskState.spec_fingerprint (HostedQueueLease.state l) = VStr f;
  lk_status : HostedQueueLease.status l ∈ ROW_STATUSES ∧
     TaskState.status (HostedQueueLease.state l) =
       VStr (if String.eqb (HostedQueueLease.status l) "queued" then "pending"
             else HostedQueueLease.status l);
  lk_counters : 0 ≤ HostedQueueLease.revision l ∧
     0 ≤ HostedQueueLease.attempt_count l ≤ HostedQueueLease.max_attempts l ∧
     1 ≤ HostedQueueLease.max_attempts l;
  (* a running row is fenced by a valid owner, any other row by nobody *)
  lk_fence : match HostedQueueLease.lease_owner l, HostedQueueLease.lease_expires_at l with
             | Some o, Some _ => HostedQueueLease.status l = "running" ∧
                 _valid_worker_id (VStr o) = true ∧ 1 ≤ HostedQueueLease.lease_generation l
             | None, None => HostedQueueLease.status l ≠ "running"
             | _, _ => False
             end }.

Lemma from_dict_ok payload s : TaskSpec.from_dict payload = Ok s → spec_ok s.
Proof.
  unfold TaskSpec.from_dict. intros H. inv_result. apply spec_validate_iff.
  match goal with H : TaskSpec.validate _ = Ok ?u |- _ => by destruct u end.
Qed.
Lemma parse_models_ok now a b s st : parse_models now a b = Ok (s, st) →
  TaskSpec.from_dict a = Ok s ∧ TaskState.from_dict now b = Ok st.
Proof.
  unfold parse_models. destruct (TaskSpec.from_dict a) as [s'|e]; cbn -[isinstance].
  - destruct (TaskState.from_dict now b) as [st'|e]; cbn -[isinstance]; [by intros [= -> ->]|].
    by case_match.
  - by case_match.
Qed.
Lemma parse_int_ok v n m z : _parse_int v n m = Ok z → v = VInt z ∧ m ≤ z.
Proof. destruct v; try done. cbn. destruct (z0 <? m) eqn:E; [done|]. intros [= ->]. split; [done|lia]. Qed.
Lemma needed_ok v m s : needed v m = Ok s → v = VStr s ∧ s ≠ "".
Proof.
  unfold needed, non_empty_str. destruct v; try done. destruct (truthy_s s0) eqn:E; [|done].
  intros [= ->]. split; [done|]. intros ->. done.
Qed.
Lemma parse_holder_ok status gen o x h : parse_holder status gen o x = Ok h →
  match h with
  | (Some w, Some e) => status = "running" ∧ o = VStr w ∧ _valid_worker_id o = true ∧ 1 ≤ gen
  | (None, None) => status ≠ "running" ∧ o = VNone ∧ x = VNone
  | _ => False
  end.
Proof.
  unfold parse_holder, integrity_if. destruct (String.eqb_spec status "running").
  - intros H. inv_result. destruct o; try done. split_and!; [done..|lia].
  - intros H. inv_result. by destruct o, x.
Qed.

(** The lease columns of a row, and what the client reads from them. *)
Definition holder_columns (status : string) (generation : Z) (owner expires : pyval)
    (holder : option string * option string) : Prop :=
  if String.eqb status "running"
  then ∃ w e, owner = VStr w ∧ expires = VStr e ∧ holder = (Some w, Some e) ∧
         _valid_worker_id (VStr w) = true ∧ 1 ≤ generation ∧ e ≠ ""
  else owner = VNone ∧ expires = VNone ∧ holder = (None, None).
(** The contract of a queue row [d]: what every column has to be, and the lease [l] it
    stands for.  [now] stands in for an empty time stamp of the state. *)
Record row_contract (now : string) (expected : option TaskSpec.t) (d : pydict)
    (l : HostedQueueLease.t) : Prop := RowContract {
  rc_id : get_or_none "task_id" d = VStr (HostedQueueLease.task_id l) ∧ HostedQueueLease.task_id l ≠ "";
  rc_status : get_or_none "status" d = VStr (HostedQueueLease.status l) ∧ HostedQueueLease.status l ∈ ROW_STATUSES;
  rc_models : is_dict (get_or_none "spec" d) = true ∧ is_dict (get_or_none "state" d) = true ∧
     TaskSpec.from_dict (get_or_none "spec" d) = Ok (HostedQueueLease.spec l) ∧
     TaskState.from_dict now (get_or_none "state" d) = Ok (HostedQueueLease.state l);
  rc_identity : TaskSpec.task_id (HostedQueueLease.spec l) = HostedQueueLease.task_id l ∧
     TaskState.task_id (HostedQueueLease.state l) = HostedQueueLease.task_id l;
  rc_expected : ∀ s, expected = Some s →
     py_eqb (TaskSpec.to_dict (HostedQueueLease.spec l)) (TaskSpec.to_dict s) = true;
  rc_fingerprint : ∃ f, TaskSpec.fingerprint (HostedQueueLease.spec l) = Ok f ∧
     get_or_none "spec_fingerprint" d = VStr f ∧ TaskState.spec_fingerprint (HostedQueueLease.state l) = VStr f;
  rc_state_status : TaskState.status (HostedQueueLease.state l) =
     VStr (if String.eqb (HostedQueueLease.status l) "queued" then "pending" else HostedQueueLease.status l);
  rc_secrets : ¬ leaks (get_or_none "spec" d) ∧ ¬ leaks (get_or_none "state" d);
  rc_counters : get_or_none "revision" d = VInt (HostedQueueLease.revision l) ∧ 0 ≤ HostedQueueLease.revision l ∧
     get_or_none "attempt_count" d = VInt (HostedQueueLease.attempt_count l) ∧
     get_or_none "max_attempts" d = VInt (HostedQueueLease.max_attempts l) ∧
     0 ≤ HostedQueueLease.attempt_count l ≤ HostedQueueLease.max_attempts l ∧ 1 ≤ HostedQueueLease.max_attempts l;
  rc_generation : get_or_none "lease_generation" d = VInt (HostedQueueLease.lease_generation l) ∧
     0 ≤ HostedQueueLease.lease_generation l;
  rc_key : get_or_none "idempotency_key" d = VStr (HostedQueueLease.idempotency_key l) ∧
     HostedQueueLease.idempotency_key l ≠ "";
  rc_not_before : get_or_none "not_before" d = VStr (HostedQueueLease.not_before l) ∧ HostedQueueLease.not_before l ≠ "";
  rc_holder : holder_columns (HostedQueueLease.status l) (HostedQueueLease.lease_generation l)
     (get_or_none "lease_owner" d) (get_or_none "lease_expires_at" d)
     (HostedQueueLease.lease_owner l, HostedQueueLease.lease_expires_at l);
  rc_stamps : HostedQueueLease.created_at l = as_str (get_or_none "created_at" d) ∧
     HostedQueueLease.updated_at l = as_str (get_or_none "updated_at" d) }.

Lemma parse_models_iff now a b s st : parse_models now a b = Ok (s, st) ↔
  TaskSpec.from_dict a = Ok s ∧ TaskState.from_dict now b = Ok st.
Proof.
  split; [apply parse_models_ok|]. intros [Hs Ht]. unfold parse_models. by rewrite Hs, Ht.
Qed.
Lemma parse_int_iff v n m z : _parse_int v n m = Ok z ↔ v = VInt z ∧ m ≤ z.
Proof.
  split; [apply parse_int_ok|]. intros [-> H]. cbn. by rewrite (proj2 (Z.ltb_ge z m)).
Qed.
Lemma needed_iff v m s : needed v m = Ok s ↔ v = VStr s ∧ s ≠ "".
Proof. split; [apply needed_ok|]. intros [-> H]. by destruct s. Qed.
Lemma integrity_iff b m u : integrity_if b m = Ok u ↔ b = false.
Proof. unfold integrity_if, reject_if. destruct u, b; done. Qed.
Lemma parse_holder_iff status gen o x h : parse_holder status gen o x = Ok h ↔ holder_columns status gen o x h.
Proof.
  unfold parse_holder, holder_columns. destruct (String.eqb_spec status "running") as [->|Hn]; split.
  - intros H. apply bind_Ok in H as (u & ?%integrity_iff & H). apply bind_Ok in H as (u' & ?%integrity_iff & H).
    apply bind_Ok in H as (e & [-> He]%needed_iff & [= <-]). destruct o as [| | | |w| | |]; try done.
    exists w, e. split_and!; [done..|by apply negb_false_iff|lia|done].
  - intros (w & e & -> & -> & -> & Hw & Hg & He). rewrite Hw, (proj2 (Z.ltb_ge gen 1) Hg).
    cbn -[needed]. by rewrite (proj2 (needed_iff _ _ e)).
  - intros H. apply bind_Ok in H as (u & ?%integrity_iff & [= <-]). by destruct o, x.
  - by intros (-> & -> & ->).
Qed.
(** The two documents of a row, scanned together. *)
Lemma leaks_models spec state : leaks (VDict [("spec", spec); ("state", state)]) ↔ leaks spec ∨ leaks state.
Proof.
  split.
  - intros H. inversion H as [d k v Hin Hk|d k v Hin Hv| |]; subst;
      apply elem_of_cons in Hin as [[= -> ->]|[[= -> ->]|[]%not_elem_of_nil]%elem_of_cons];
      auto; by apply bool_decide_unpack in Hk || (apply (bool_decide_pack _) in Hk).
  - intros [Hl|Hl]; (eapply leak_entry; [|exact Hl]);
      [apply list_elem_of_here|apply list_elem_of_further, list_elem_of_here].
Qed.
(** Exactly the rows of the contract are accepted. *)
Lemma parse_lease_contract now d exp l : _parse_lease now (VDict d) exp = Ok l → row_contract now exp d l.
Proof.
  unfold _parse_lease. intros H. inv_result.
  rewrite !integrity_iff, ?orb_false_iff in *.
  destruct a3 as [spec state]. cbn [fst snd] in *.
  apply parse_models_iff in Ha3 as [Hspec Hstate]. apply needed_iff in Ha as [Eid Hid].
  apply in_strs_ok in Ha0 as (status & Est & Hin); [|by apply negb_false_iff]. rewrite Est in *. cbn [py_str] in *.
  apply needed_iff in Ha15, Ha16. apply parse_int_iff in Ha10, Ha11, Ha12, Ha13. apply parse_holder_iff in Ha17.
  destruct Ha2 as [Hd1%negb_false_iff Hd2%negb_false_iff].
  destruct Ha4 as [E1%negb_false_iff%String.eqb_eq E2%negb_false_iff%String.eqb_eq].
  destruct Ha7 as [F1%negb_false_iff%py_eqb_str F2%negb_false_iff%py_eqb_str].
  apply negb_false_iff, py_eqb_str in Ha8. apply Z.ltb_ge in Ha14.
  destruct (_forbidden_secret_path _ "$") eqn:Ef; [done|]. apply forbidden_path_iff in Ef. rewrite leaks_models in Ef.
  split; cbn; try done; try (split_and!; (done || tauto || lia)).
  - intros s ->. by apply negb_false_iff.
  - by eexists.
  - by destruct a17.
Qed.
(** Go past a step of the checks that has the given result. *)
Ltac past H := apply bind_Ok; eexists; split; [by apply H|cbn beta].
Ltac checked H := apply bind_Ok; exists tt; split; [apply H|].
Lemma contract_parse_lease now d exp l : row_contract now exp d l → _parse_lease now (VDict d) exp = Ok l.
Proof.
  destruct l as [id status rev key spec state count most owner gen expires nb created updated].
  intros [Hid [Est Hst] (D1 & D2 & Hm) [I1 I2] He (f & Hf & F1 & F2) Hss Hsec (C1 & C2 & C3 & C4 & [C5 C6] & C7)
    HG Hkey Hnb Hh [Hc Hu]]. cbn in Hc, Hu. subst created updated. unfold _parse_lease.
  cbn in Est. past needed_iff. rewrite Est. apply bind_Ok. exists true. split; [by cbn; rewrite bool_decide_true|].
  checked integrity_iff; [done|]. rewrite D1, D2. checked integrity_iff; [done|].
  apply bind_Ok. exists (spec, state). split; [by apply parse_models_iff|]. cbn [fst snd py_str].
  cbn in I1, I2. checked integrity_iff; [by rewrite I1, I2, String.eqb_refl|].
  checked integrity_iff; [destruct exp as [s|]; [by rewrite He|done]|].
  apply bind_Ok. exists f. split; [done|]. cbn in F2, Hss. rewrite F1, F2.
  checked integrity_iff; [by rewrite (proj2 (py_eqb_str _ f))|].
  checked integrity_iff; [by rewrite (proj2 (py_eqb_str _ _) Hss)|].
  apply bind_Ok. exists tt. split; [by rewrite (proj2 (forbidden_path_iff _ "$")) by (rewrite leaks_models; tauto)|].
  do 4 past parse_int_iff. checked integrity_iff; [by apply Z.ltb_ge|].
  do 2 past needed_iff. past parse_holder_iff. done.
Qed.
(** What an accepted row is, as the client uses it. *)
Lemma contract_lease_ok now exp d l : row_contract now exp d l → lease_ok l.
Proof.
  intros []. destruct rc_models0 as (_ & _ & Hs & _). destruct rc_fingerprint0 as (f & ? & _ & ?).
  split; try done; try tauto; [by eapply from_dict_ok|..].
  - destruct rc_identity0. split; congruence.
  - by exists f.
  - unfold holder_columns in rc_holder0. destruct (String.eqb_spec (HostedQueueLease.status l) "running").
    + destruct rc_holder0 as (w & e' & _ & _ & [= -> ->] & ? & ? & _). done.
    + destruct rc_holder0 as (_ & _ & [= -> ->]). done.
Qed.
Lemma parse_lease_ok now v exp l : _parse_lease now v exp = Ok l →
  lease_ok l ∧
  (∀ s, exp = Some s → py_eqb (TaskSpec.to_dict (HostedQueueLease.spec l)) (TaskSpec.to_dict s) = true).
Proof.
  destruct v as [| | | | | | |d]; try done. intros H%parse_lease_contract.
  split; [by eapply contract_lease_ok|apply H].
Qed.

Section client.
Context {W : Type} (transport : string → pydict → eff W pyval) (utc_now : eff W string).

Lemma parse_field_ok d name exp w l w' :
  parse_field utc_now d name exp w = (Ok l, w') →
  lease_ok l ∧
  (∀ s, exp = Some s → py_eqb (TaskSpec.to_dict (HostedQueueLease.spec l)) (TaskSpec.to_dict s) = true).
Proof.
  unfold parse_field. intros H. inv_eff. by apply parse_lease_ok in H.
Qed.

Lemma detached_spec_eq spec s : detached_spec spec = Ok s → s = spec ∧ spec_ok spec.
Proof.
  unfold detached_spec. rewrite spec_from_to_dict.
  destruct (TaskSpec.validate spec) as [[]|] eqn:E; [|done]. cbn. rewrite E. intros [= <-].
  split; [done|]. by apply spec_validate_iff.
Qed.

(** A lease held by a worker. *)
Record held_by (worker_id : pyval) (l : HostedQueueLease.t) : Prop := {
  hb_ok : lease_ok l;
  hb_owner : ∃ o, worker_id = VStr o ∧ HostedQueueLease.lease_owner l = Some o;
  hb_fenced : HostedQueueLease.fenced l = true ∧ 1 ≤ HostedQueueLease.lease_generation l }.

Lemma owner_fenced worker_id l :
  lease_ok l → _valid_worker_id worker_id = true →
  HostedQueueLease.lease_owner l = as_str worker_id → held_by worker_id l.
Proof.
  intros Hl Hw Ho. pose proof (lk_fence _ Hl) as Hf. destruct worker_id as [| | | |o| | |]; try done.
  cbn in Ho. rewrite Ho in Hf. destruct (HostedQueueLease.lease_expires_at l) eqn:Ex; [|done].
  destruct Hf as (Hs & _ & Hg). split; [done|eauto|]. split; [|done].
  unfold HostedQueueLease.fenced. by rewrite Ho, Ex, Hs.
Qed.

Lemma check_claimed_ok worker_id l :
  lease_ok l → _valid_worker_id worker_id = true → check_claimed worker_id l = Ok tt →
  held_by worker_id l ∧ 1 ≤ HostedQueueLease.revision l ∧ 1 ≤ HostedQueueLease.attempt_count l.
Proof.
  unfold check_claimed, integrity_if. intros Hl Hw H. inv_result. split; [|lia].
  by apply owner_fenced.
Qed.

(** A lease the client reports as claimed is well formed, running, fenced
    and owned by the worker that asked, with its revision and its attempt
    counter advanced, whatever the transport answered. *)
Theorem claim_sound worker_id lease_seconds w l w' :
  claim transport utc_now worker_id lease_seconds w = (Ok (Some l), w') →
  held_by worker_id l ∧ HostedQueueLease.status l = "running" ∧
  1 ≤ HostedQueueLease.revision l ∧ 1 ≤ HostedQueueLease.attempt_count l.
Proof.
  unfold claim, check_claimer. intros H. inv_eff. destruct (_ && _); inv_eff; [done|].
  match goal with H : parse_field _ _ _ _ _ = _ |- _ => apply parse_field_ok in H as [Hl _] end.
  match goal with H : check_claimed _ _ = _ |- _ =>
    apply check_claimed_ok in H as (Hh & ? & ?); [|done|done] end.
  split_and!; [done| |done|done]. destruct Hh as [_ _ [Hf _]].
  unfold HostedQueueLease.fenced in Hf. apply andb_true_iff in Hf as [[Hf _]%andb_true_iff _].
  by apply String.eqb_eq.
Qed.

(** The exact-task client claims only the definition it was given: an
    accepted lease is held by the worker, carries the task identifier of the
    valid target and a definition equal to it as a document. *)
Theorem claim_task_sound spec worker_id lease_seconds w l w' :
  claim_task transport utc_now spec worker_id lease_seconds w = (Ok (Some l), w') →
  spec_ok spec ∧ held_by worker_id l ∧
  HostedQueueLease.task_id l = TaskSpec.task_id spec ∧
  py_eqb (TaskSpec.to_dict (HostedQueueLease.spec l)) (TaskSpec.to_dict spec) = true.
Proof.
  unfold claim_task, check_claimer. intros H. inv_eff. destruct (_ && _); inv_eff; [done|].
  match goal with H : detached_spec _ = _ |- _ => apply detached_spec_eq in H as [-> Hs] end.
  match goal with H : parse_field _ _ _ _ _ = _ |- _ => apply parse_field_ok in H as [Hl He] end.
  match goal with H : check_claimed _ _ = _ |- _ =>
    apply check_claimed_ok in H as (Hh & _ & _); [|done|done] end.
  split_and!; [done|done| |by apply He].
  match goal with H : integrity_if (negb (String.eqb _ _)) _ = _ |- _ =>
    apply reject_if_Ok, negb_false_iff, String.eqb_eq in H; done end.
Qed.

Lemma clean_state_ok now spec st st' : _clean_state now spec st = Ok st' →
  TaskState.task_id st' = TaskSpec.task_id spec ∧
  (∃ f, TaskSpec.fingerprint spec = Ok f ∧ TaskState.spec_fingerprint st' = VStr f) ∧
  ¬ leaks (TaskState.to_dict st').
Proof.
  unfold _clean_state, integrity_if. intros H. inv_result.
  destruct (_forbidden_secret_path _ "$") eqn:E; [done|]. injection H as <-.
  split_and!; [by apply String.eqb_eq| |by apply forbidden_path_iff in E].
  eexists. split; [eassumption|]. by apply py_eqb_str.
Qed.

(** What a fenced save that returns has done. *)
Lemma save_returned spec state rev worker_id gen secs w l w' :
  save transport utc_now spec state rev worker_id gen secs w = (Ok l, w') →
  ∃ r g, rev = VInt r ∧ gen = VInt g ∧ 0 ≤ r ∧ 1 ≤ g ∧
    lease_ok l ∧ HostedQueueLease.revision l = r + 1 ∧ HostedQueueLease.lease_generation l = g ∧
    py_eqb (TaskSpec.to_dict (HostedQueueLease.spec l)) (TaskSpec.to_dict spec) = true ∧
    ∃ now st, _clean_state now spec state = Ok st ∧ TaskState.task_id st = TaskSpec.task_id spec ∧
      ¬ leaks (TaskState.to_dict st) ∧
      (if py_eqb (TaskState.status st) (VStr "running") then held_by worker_id l
       else HostedQueueLease.lease_owner l = None ∧ HostedQueueLease.lease_expires_at l = None).
Proof.
  unfold save. intros H. inv_eff.
  match goal with H : detached_spec _ = _ |- _ => apply detached_spec_eq in H as [-> Hs] end.
  match goal with H : parse_field _ _ _ _ _ = _ |- _ => apply parse_field_ok in H as [Hl He] end.
  match goal with H : check_revision _ = Ok ?r |- _ =>
    assert (rev = VInt r ∧ 0 ≤ r) as [-> Hr]
      by (destruct rev; try done; cbn in H; destruct (_ <? 0) eqn:?; [done|]; injection H as ->;
          split; [done|lia]); clear H; exists r end.
  match goal with H : check_generation _ = Ok ?g |- _ =>
    assert (gen = VInt g ∧ 1 ≤ g) as [-> Hg]
      by (destruct gen; try done; cbn in H; destruct (_ <? 1) eqn:?; [done|]; injection H as ->;
          split; [done|lia]); clear H; exists g end.
  match goal with H : check_advanced _ _ _ = _ |- _ => unfold check_advanced, integrity_if in H end.
  inv_result.
  match goal with H : _clean_state ?n _ _ = Ok ?s |- _ =>
    pose proof H as Hc; apply clean_state_ok in Hc as (Hid & _ & Hleak) end.
  split_and!; try done; [lia|lia|by apply He|].
  eexists _, _. split_and!; [eassumption|done|done|].
  match goal with H : (if _ then _ else _) = Ok tt |- _ => unfold integrity_if in H;
    destruct (py_eqb _ (VStr "running")); inv_result end.
  - by apply owner_fenced.
  - match goal with H : released l = true |- _ => unfold released in H;
      apply andb_true_iff in H as [??] end.
    by destruct (HostedQueueLease.lease_owner l), (HostedQueueLease.lease_expires_at l).
Qed.

(** A fenced save the client reports as done is the next revision of the
    same lease generation, still held by the worker when the saved state is
    running and released otherwise; the state it sent is bound to the definition
    and carries no key that names a secret. *)
Theorem save_sound spec state rev worker_id gen secs w l w' :
  save transport utc_now spec state rev worker_id gen secs w = (Ok l, w') →
  ∃ r g, rev = VInt r ∧ gen = VInt g ∧ 0 ≤ r ∧ 1 ≤ g ∧
    lease_ok l ∧ HostedQueueLease.revision l = r + 1 ∧ HostedQueueLease.lease_generation l = g ∧
    py_eqb (TaskSpec.to_dict (HostedQueueLease.spec l)) (TaskSpec.to_dict spec) = true ∧
    ∃ now st, _clean_state now spec state = Ok st ∧ TaskState.task_id st = TaskSpec.task_id spec ∧
      ¬ leaks (TaskState.to_dict st) ∧
      (if py_eqb (TaskState.status st) (VStr "running") then held_by worker_id l
       else HostedQueueLease.lease_owner l = None ∧ HostedQueueLease.lease_expires_at l = None).
Proof. apply save_returned. Qed.
End client.

(** The secret scan is exact: it returns no path exactly when no key at any
    depth of the document names a secret, in any capitalisation. *)
Theorem secret_scan_exact v : (∀ p, _forbidden_secret_path v p = None) ↔ ¬ leaks v.
Proof. split; [intros H; by apply (forbidden_path_iff v "$")|intros H p; by apply forbidden_path_iff]. Qed.

(** C16: exactly the rows that satisfy the queue contract are accepted.  The client gets
    the lease [l] from a value if and only if the value is a row whose every column is as
    the contract says and stands for [l]; such a lease has a valid definition and is fenced
    exactly while it runs. *)
Theorem parse_lease_sound now v exp l :
  (_parse_lease now v exp = Ok l ↔ ∃ d, v = VDict d ∧ row_contract now exp d l) ∧
  (_parse_lease now v exp = Ok l → lease_ok l).
Proof.
  split; [|by intros [? _]%parse_lease_ok]. split.
  - destruct v as [| | | | | | |d]; try done. intros H%parse_lease_contract. by exists d.
  - intros (d & -> & H). by apply contract_parse_lease.
Qed.

(** ** A concrete row *)
Definition row_spec : TaskSpec.t :=
  TaskSpec.mk "task-1" "Title" "Goal" ["download"]
    [StepSpec.mk "fetch" "download" [("url", VStr "u")] None false 1] [] [] TASK_SCHEMA_VERSION.
Definition row_fingerprint : string :=
  match TaskSpec.fingerprint row_spec with Ok f => f | Err _ => "" end.
Definition row_state (status : string) : TaskState.t :=
  TaskState.set_spec_fingerprint (VStr row_fingerprint)
    (TaskState.set_status status (TaskState.fresh "task-1" "t")).
Definition running_row (revision : Z) : pyval :=
  VDict [("task_id", VStr "task-1"); ("status", VStr "running"); ("revision", VInt revision);
         ("idempotency_key", VStr "task-1"); ("spec", TaskSpec.to_dict row_spec);
         ("state", TaskState.to_dict (row_state "running"));
         ("spec_fingerprint", VStr row_fingerprint); ("attempt_count", VInt 1);
         ("max_attempts", VInt 3); ("lease_owner", VStr "worker-1"); ("lease_generation", VInt 1);
         ("lease_expires_at", VStr "2026-01-01T00:00:00Z"); ("not_before", VStr "2026-01-01")].
(** A backend that counts its requests and hands out that row. *)
Definition row_backend (revision : Z) (mode : string) (payload : pydict) : eff nat pyval := λ n,
  (Ok (VDict [("success", VBool true); ("claimed", VBool true); ("lease", running_row revision);
              ("checkpoint", running_row revision)]), S n).
Definition row_clock : eff nat string := λ n, (Ok "t", n).

Lemma parse_lease_sound_witness :
  ∃ l, _parse_lease "t" (running_row 1) (Some row_spec) = Ok l ∧ lease_ok l ∧
    ∃ d, running_row 1 = VDict d ∧ row_contract "t" (Some row_spec) d l.
Proof.
  eexists. split; [vm_compute; reflexivity|].
  refine (let H := parse_lease_sound "t" (running_row 1) (Some row_spec) _ in
          conj (proj2 H _) (proj1 (proj1 H) _)); vm_compute; reflexivity.
Defined.
Lemma claim_sound_witness :
  ∃ l, claim (row_backend 1) row_clock (VStr "worker-1") (VInt 120) 0%nat = (Ok (Some l), 1%nat) ∧
       held_by (VStr "worker-1") l.
Proof.
  eexists. split; [vm_compute; reflexivity|].
  refine (proj1 (claim_sound (row_backend 1) row_clock (VStr "worker-1") (VInt 120) 0%nat _ 1%nat _)).
  vm_compute. reflexivity.
Defined.
Lemma claim_task_sound_witness :
  ∃ l, claim_task (row_backend 1) row_clock row_spec (VStr "worker-1") (VInt 120) 0%nat
         = (Ok (Some l), 1%nat) ∧ held_by (VStr "worker-1") l.
Proof.
  eexists. split; [vm_compute; reflexivity|].
  refine (proj1 (proj2 (claim_task_sound (row_backend 1) row_clock row_spec (VStr "worker-1")
    (VInt 120) 0%nat _ 1%nat _))).
  vm_compute. reflexivity.
Defined.
Lemma save_sound_witness :
  ∃ l, save (row_backend 2) row_clock row_spec (row_state "running") (VInt 1) (VStr "worker-1")
         (VInt 1) (VInt 120) 0%nat = (Ok l, 1%nat) ∧ HostedQueueLease.revision l = 2.
Proof.
  eexists. split; [vm_compute; reflexivity|].
  destruct (save_sound (row_backend 2) row_clock row_spec (row_state "running") (VInt 1)
    (VStr "worker-1") (VInt 1) (VInt 120) 0%nat _ 1%nat ltac:(vm_compute; reflexivity))
    as (r & g & Hr & _ & _ & _ & _ & Hrev & _).
  rewrite Hrev. injection Hr as <-. reflexivity.
Defined.
