(* ===== verification/HostedCheckpoint.v ===== *)
(** agent_core/hosted_checkpoint.py, trusted_run_instance.py and
    trusted_run_enqueue.py: the checkpoint client, and the trusted run instances
    that are enqueued through it at most once.

    The transport and the clock are operations on the world [W]. *)
From S2P Require Import Prelude PyString PyValue TaskModel HostedQueue.

Module HostedCheckpointRecord.
Record t := mk {
  task_id : string; status : string; revision : Z; idempotency_key : string;
  spec : TaskSpec.t; state : TaskState.t;
  created_at : option string; updated_at : option string }.
End HostedCheckpointRecord.

Module HostedCheckpointSummary.
Record t := mk {
  task_id : string; status : string; revision : Z; idempotency_key : string;
  blocked_reason : option string; last_error : option string;
  created_at : option string; updated_at : option string }.
End HostedCheckpointSummary.

Definition bad_checkpoint {A} (msg : string) : result A := raise HostedCheckpointIntegrityError msg.
Definition bad_checkpoint_if (bad : bool) (msg : string) : result unit :=
  reject_if bad HostedCheckpointIntegrityError msg.

(** Round trips through [json.dumps(..., allow_nan=False)] *)
Definition _detached_spec (spec : TaskSpec.t) : result TaskSpec.t :=
  doc ← json_detach (TaskSpec.to_dict spec); TaskSpec.from_dict doc.
Definition _detached_state (now : string) (state : TaskState.t) : result TaskState.t :=
  doc ← json_detach (TaskState.to_dict state); TaskState.from_dict now doc.

Definition _error_from_response (response : pydict) : exn :=
  let message :=
    py_str (py_or (get_or_none "error" response) (VStr "hosted_checkpoint_request_failed")) in
  let backend_code := py_str (py_or (get_or_none "backend_code" response) (VStr "")) in
  if py_eqb (get_or_none "backend_status" response) (VInt 404)
     || String.eqb message "Checkpoint not found"
  then Exn HostedCheckpointNotFound message
  else if bool_decide (backend_code ∈ ["40001"; "23505"]) || contains "checkpoint_conflict" message
          || String.eqb message "duplicate"
  then Exn HostedCheckpointConflict message
  else Exn HostedCheckpointError message.

(** The state bound to the fingerprint of its definition. *)
Definition _validate_state_for_spec (now : string) (spec : TaskSpec.t) (state : TaskState.t)
    (initial : bool) : result TaskState.t :=
  detached ← _detached_state now state;
  fingerprint ← TaskSpec.fingerprint spec;
  bad_checkpoint_if (negb (String.eqb (TaskState.task_id detached) (TaskSpec.task_id spec)))
    "task_state_id_mismatch";;
  detached ←
    (if is_none (TaskState.spec_fingerprint detached)
     then Ok (TaskState.set_spec_fingerprint (VStr fingerprint) detached)
     else bad_checkpoint_if (negb (py_eqb (TaskState.spec_fingerprint detached) (VStr fingerprint)))
            "task_spec_changed";; Ok detached);
  bad_checkpoint_if (initial && negb (py_eqb (TaskState.status detached) (VStr "pending")))
    "initial_state_must_be_pending";;
  Ok detached.

Definition _parse_revision (value : pyval) : result Z :=
  match value with
  | VInt z => if z <? 0 then bad_checkpoint "invalid_checkpoint_revision" else Ok z
  | _ => bad_checkpoint "invalid_checkpoint_revision"
  end.

Definition stored_models (now : string) (raw_spec raw_state : pyval) :
    result (TaskSpec.t * TaskState.t) :=
  match (s ← TaskSpec.from_dict raw_spec; st ← TaskState.from_dict now raw_state; Ok (s, st)) with
  | Err e => if isinstance e KeyError || isinstance e TypeError || isinstance e ValueError
             then bad_checkpoint "invalid_checkpoint_model" else Err e
  | r => r
  end.

Definition _parse_full_record (now : string) (checkpoint : pyval) (expected : TaskSpec.t) :
    result HostedCheckpointRecord.t :=
  match checkpoint with
  | VDict d =>
      let f k := get_or_none k d in
      bad_checkpoint_if (negb (py_eqb (f "task_id") (VStr (TaskSpec.task_id expected))))
        "checkpoint_task_id_mismatch";;
      known ← in_str_set (f "status") ROW_STATUSES;
      bad_checkpoint_if (negb known) "invalid_checkpoint_status";;
      let status := py_str (f "status") in
      revision ← _parse_revision (f "revision");
      key ← match non_empty_str (f "idempotency_key") with
            | Some k => Ok k
            | None => bad_checkpoint "invalid_checkpoint_idempotency_key"
            end;
      bad_checkpoint_if (negb (is_dict (f "spec")) || negb (is_dict (f "state")))
        "checkpoint_spec_state_required";;
      models ← stored_models now (f "spec") (f "state");
      let spec := models.1 in let state := models.2 in
      bad_checkpoint_if (negb (py_eqb (TaskSpec.to_dict spec) (TaskSpec.to_dict expected)))
        "task_spec_changed";;
      fingerprint ← TaskSpec.fingerprint expected;
      bad_checkpoint_if (negb (py_eqb (f "spec_fingerprint") (VStr fingerprint)))
        "checkpoint_spec_fingerprint_mismatch";;
      bad_checkpoint_if (negb (py_eqb (TaskState.spec_fingerprint state) (VStr fingerprint)))
        "state_spec_fingerprint_mismatch";;
      bad_checkpoint_if (negb (String.eqb (TaskState.task_id state) (TaskSpec.task_id expected)))
        "task_state_id_mismatch";;
      bad_checkpoint_if (negb (py_eqb (TaskState.status state)
                                 (VStr (if String.eqb status "queued" then "pending" else status))))
        "checkpoint_state_status_mismatch";;
      Ok (HostedCheckpointRecord.mk (TaskSpec.task_id expected) status revision key spec state
            (as_str (f "created_at")) (as_str (f "updated_at")))
  | _ => bad_checkpoint "checkpoint_object_required"
  end.

(** [x.strip()] *)
Definition strip_val (v : pyval) : result string :=
  match v with VStr s => Ok (strip s) | _ => raise AttributeError "strip" end.

Section Client.
Context {W : Type} (transport : string → pydict → eff W pyval) (utc_now : eff W string).
Abbreviation E := (eff W).

Definition checkpoint_request (mode : string) (payload : pydict) : E pydict :=
  response ← transport mode payload;
  match response with
  | VDict d => if is_true (get_or_none "success" d) then mret d else throw (_error_from_response d)
  | _ => lift (raise HostedCheckpointError "invalid_hosted_checkpoint_response")
  end.
Definition parse_checkpoint (response : pydict) (spec : TaskSpec.t) : E HostedCheckpointRecord.t :=
  now ← utc_now; lift (_parse_full_record now (get_or_none "checkpoint" response) spec).
(** [spec = self._detached_spec(spec); spec.validate()] *)
Definition checked_spec (spec : TaskSpec.t) : result TaskSpec.t :=
  spec ← _detached_spec spec; TaskSpec.validate spec;; Ok spec.

Definition create (spec : TaskSpec.t) (state : option TaskState.t) (idempotency_key : pyval) :
    E HostedCheckpointRecord.t :=
  spec ← lift (checked_spec spec);
  now ← utc_now;
  state ← lift (_validate_state_for_spec now spec
                  (default (TaskState.fresh (TaskSpec.task_id spec) now) state) true);
  key ← lift (strip_val (py_or idempotency_key (VStr (TaskSpec.task_id spec))));
  lift (reject_if (negb (truthy_s key)) ValueError "idempotency_key_required");;
  response ← checkpoint_request "checkpoint_create"
    [("task", TaskSpec.to_dict spec); ("state", TaskState.to_dict state);
     ("idempotency_key", VStr key)];
  parse_checkpoint response spec.

Definition get_checkpoint (spec : TaskSpec.t) : E HostedCheckpointRecord.t :=
  spec ← lift (checked_spec spec);
  response ← checkpoint_request "checkpoint_get" [("task_id", VStr (TaskSpec.task_id spec))];
  parse_checkpoint response spec.

Definition load_checkpoint_state (spec : TaskSpec.t) : E TaskState.t :=
  r ← get_checkpoint spec; mret (HostedCheckpointRecord.state r).

Definition save_checkpoint (spec : TaskSpec.t) (state : TaskState.t) (expected_revision : pyval) :
    E HostedCheckpointRecord.t :=
  spec ← lift (checked_spec spec);
  revision ← lift (check_revision expected_revision);
  now ← utc_now;
  state ← lift (_validate_state_for_spec now spec state false);
  lift (reject_if (py_eqb (TaskState.status state) (VStr "pending")) ValueError
    "pending_state_cannot_be_saved_after_creation");;
  response ← checkpoint_request "checkpoint_save"
    [("task_id", VStr (TaskSpec.task_id spec)); ("expected_revision", expected_revision);
     ("status", TaskState.status state); ("state", TaskState.to_dict state)];
  record ← parse_checkpoint response spec;
  lift (bad_checkpoint_if (negb (HostedCheckpointRecord.revision record =? revision + 1))
    "checkpoint_revision_increment_mismatch");;
  mret record.

(** One row of a listing, given the identifiers already seen. *)
Definition parse_summary (seen : list string) (row : pyval) :
    result HostedCheckpointSummary.t :=
  match row with
  | VDict d =>
      let f k := get_or_none k d in
      id_ ← match non_empty_str (f "task_id") with
            | Some i => bad_checkpoint_if (bool_decide (i ∈ seen))
                          "invalid_or_duplicate_checkpoint_task_id";; Ok i
            | None => bad_checkpoint "invalid_or_duplicate_checkpoint_task_id"
            end;
      known ← in_str_set (f "status") ROW_STATUSES;
      bad_checkpoint_if (negb known) "invalid_checkpoint_status";;
      key ← match non_empty_str (f "idempotency_key") with
            | Some k => Ok k
            | None => bad_checkpoint "invalid_checkpoint_idempotency_key"
            end;
      revision ← _parse_revision (f "revision");
      Ok (HostedCheckpointSummary.mk id_ (py_str (f "status")) revision key
            (as_str (f "blocked_reason")) (as_str (f "last_error")) (as_str (f "created_at"))
            (as_str (f "updated_at")))
  | _ => bad_checkpoint "invalid_checkpoint_summary"
  end.
Definition add_summary (acc : list HostedCheckpointSummary.t) (row : pyval) :
    result (list HostedCheckpointSummary.t) :=
  s ← parse_summary (map HostedCheckpointSummary.task_id acc) row; Ok (acc ++ [s]).

Definition list_limit (limit : pyval) : bool :=
  match limit with VInt z => (1 <=? z) && (z <=? 100) | _ => false end.
Definition list_checkpoints (status limit : pyval) : E (list HostedCheckpointSummary.t) :=
  known ← lift (if is_none status then Ok true else in_str_set status ROW_STATUSES);
  lift (reject_if (negb known) ValueError "invalid_checkpoint_status");;
  lift (reject_if (negb (list_limit limit)) ValueError "checkpoint_list_limit_out_of_range");;
  response ← checkpoint_request "checkpoint_list"
    (if is_none status then [("limit", limit)] else [("limit", limit); ("status", status)]);
  match get_or_none "checkpoints" response with
  | VList rows => lift (foldR add_summary [] rows)
  | _ => lift (bad_checkpoint "checkpoint_list_required")
  end.
End Client.

(** ** trusted_run_instance.py *)
(** activation.py *)
Definition TRUSTED_TASK_ID : string := "keirin-readonly-status-check".
Definition TRUSTED_TASK_FINGERPRINT : string :=
  "sha256-v1:f9af0209ae2545d096d9c04cf4cfe5d434b90407bfc6aaa73ca0c6445d749403".
Definition TRUSTED_RUN_ID_PREFIX : string := TRUSTED_TASK_ID ++ ".".

Definition hex_lower (c : Ascii.ascii) : bool := is_digit c || in_range 97 102 c.
(** [_INSTANCE_TOKEN_RE.fullmatch]: 16 to 32 lower-case hexadecimal digits *)
Definition instance_token_re (s : string) : bool :=
  forallb hex_lower (chars s) && (16 <=? slen s) && (slen s <=? 32).

Record TrustedRunInstance := MkInstance {
  i_task_id : string; i_token : string; i_fingerprint : string; i_template_fingerprint : string }.

Section Trusted.
(** The document in the template file of the repository, and the fingerprint
    the code pins it to ([TRUSTED_TASK_FINGERPRINT]; a variable, since the text
    of the document has code points the strings of the model do not). *)
Context (template_file : pyval) (pinned : string).

Definition trusted_status_template_spec : result TaskSpec.t :=
  spec ← TaskSpec.from_dict template_file;
  fp ← (if String.eqb (TaskSpec.task_id spec) TRUSTED_TASK_ID
        then TaskSpec.fingerprint spec else raise ValueError "trusted_status_template_changed");
  reject_if (negb (String.eqb fp pinned)) ValueError
    "trusted_status_template_changed";;
  Ok spec.

Definition _instance_token (task_id : string) : result string :=
  reject_if (negb (startswith task_id TRUSTED_RUN_ID_PREFIX)) ValueError
    "trusted_run_instance_id_required";;
  let token := drop_s (length (chars TRUSTED_RUN_ID_PREFIX)) task_id in
  reject_if (negb (instance_token_re token)) ValueError "invalid_trusted_run_instance_token";;
  Ok token.

(** [payload["task_id"] = i] on a definition's document *)
Definition with_task_id (i : string) (s : TaskSpec.t) : pyval :=
  match TaskSpec.to_dict s with VDict d => VDict (dict_set "task_id" (VStr i) d) | v => v end.

Definition build_trusted_status_run_spec (token : pyval) : result TaskSpec.t :=
  match token with
  | VStr t =>
      reject_if (negb (instance_token_re t)) ValueError "invalid_trusted_run_instance_token";;
      template ← trusted_status_template_spec;
      TaskSpec.from_dict (with_task_id (TRUSTED_RUN_ID_PREFIX ++ t) template)
  | _ => raise ValueError "invalid_trusted_run_instance_token"
  end.

Definition validate_trusted_status_run_spec (spec : TaskSpec.t) : result TrustedRunInstance :=
  candidate ← TaskSpec.from_dict (TaskSpec.to_dict spec);
  token ← _instance_token (TaskSpec.task_id candidate);
  template ← trusted_status_template_spec;
  canonical ← TaskSpec.from_dict (with_task_id TRUSTED_TASK_ID candidate);
  reject_if (negb (py_eqb (TaskSpec.to_dict canonical) (TaskSpec.to_dict template))) ValueError
    "trusted_run_instance_scope_mismatch";;
  fp ← TaskSpec.fingerprint canonical;
  reject_if (negb (String.eqb fp pinned)) ValueError
    "trusted_run_instance_template_fingerprint_mismatch";;
  own ← TaskSpec.fingerprint candidate;
  Ok (MkInstance (TaskSpec.task_id candidate) token own fp).

Definition is_trusted_status_run_spec (spec : TaskSpec.t) : result bool :=
  match validate_trusted_status_run_spec spec with
  | Ok _ => Ok true
  | Err e => if isinstance e KeyError || isinstance e TypeError || isinstance e ValueError
             then Ok false else Err e
  end.

(** ** trusted_run_enqueue.py *)
Definition _assert_pristine (record : HostedCheckpointRecord.t) (spec : TaskSpec.t) :
    result HostedCheckpointRecord.t :=
  let st := HostedCheckpointRecord.state record in
  reject_if (negb (String.eqb (HostedCheckpointRecord.task_id record) (TaskSpec.task_id spec))
             || negb (py_eqb (TaskSpec.to_dict (HostedCheckpointRecord.spec record))
                        (TaskSpec.to_dict spec)))
    TrustedRunAlreadyUsed "trusted_run_instance_identity_mismatch";;
  reject_if (negb (String.eqb (HostedCheckpointRecord.idempotency_key record) (TaskSpec.task_id spec)))
    TrustedRunAlreadyUsed "trusted_run_instance_idempotency_mismatch";;
  reject_if (negb (String.eqb (HostedCheckpointRecord.status record) "queued")
             || negb (HostedCheckpointRecord.revision record =? 0)
             || negb (py_eqb (TaskState.status st) (VStr "pending")))
    TrustedRunAlreadyUsed
    ("trusted_run_instance_already_used:" ++ HostedCheckpointRecord.status record)%string;;
  reject_if (negb (bool_decide (TaskState.attempts st = ∅))
             || negb (bool_decide (TaskState.completed_steps st = [])))
    TrustedRunAlreadyUsed "trusted_run_instance_has_prior_progress";;
  Ok record.

Section Enqueue.
Context {W : Type} (transport : string → pydict → eff W pyval) (utc_now : eff W string).

(** The record, and whether this call created it. *)
Definition ensure_queued (spec : TaskSpec.t) : eff W (HostedCheckpointRecord.t * bool) :=
  spec ← lift (TaskSpec.from_dict (TaskSpec.to_dict spec));
  lift (validate_trusted_status_run_spec spec);;
  let read := get_checkpoint transport utc_now spec in
  existing ← attempt read;
  match existing with
  | Ok record => r ← lift (_assert_pristine record spec); mret (r, false)
  | Err e =>
      if isinstance e HostedCheckpointNotFound then
        created ← attempt (create transport utc_now spec None (VStr (TaskSpec.task_id spec)));
        match created with
        | Ok record => r ← lift (_assert_pristine record spec); mret (r, true)
        | Err e =>
            if isinstance e HostedCheckpointConflict then
              again ← attempt read;
              match again with
              | Ok record => r ← lift (_assert_pristine record spec); mret (r, false)
              | Err e =>
                  if isinstance e HostedCheckpointNotFound
                  then lift (raise TrustedRunAlreadyUsed "another_trusted_run_instance_is_active")
                  else throw e
              end
            else throw e
        end
      else throw e
  end.
End Enqueue.
End Trusted.
