(* ===== verification/HostedCheckpointFacts.v ===== *)
(** What the checkpoint client accepts, and the trusted run instances: their
    identity, and that enqueuing one creates at most one pristine row. *)
From S2P Require Import Prelude PyString PyValue Sha256 TaskModel TaskModelFacts HostedQueue.
From S2P Require Import HostedQueueFacts HostedCheckpoint.

(** ** Accepted records *)

(** A record bound to the definition [spec]. *)
Record record_ok (spec : TaskSpec.t) (r : HostedCheckpointRecord.t) : Prop := {
  rk_id : HostedCheckpointRecord.task_id r = TaskSpec.task_id spec ∧
          TaskState.task_id (HostedCheckpointRecord.state r) = TaskSpec.task_id spec;
  rk_spec : spec_ok (HostedCheckpointRecord.spec r) ∧
     py_eqb (TaskSpec.to_dict (HostedCheckpointRecord.spec r)) (TaskSpec.to_dict spec) = true;
  rk_bound : ∃ f, TaskSpec.fingerprint spec = Ok f ∧
     TaskState.spec_fingerprint (HostedCheckpointRecord.state r) = VStr f;
  rk_status : HostedCheckpointRecord.status r ∈ ROW_STATUSES ∧
     TaskState.status (HostedCheckpointRecord.state r) =
       VStr (if String.eqb (HostedCheckpointRecord.status r) "queued" then "pending"
             else HostedCheckpointRecord.status r);
  rk_revision : 0 ≤ HostedCheckpointRecord.revision r;
  rk_key : HostedCheckpointRecord.idempotency_key r ≠ "" }.

Lemma stored_models_ok now a b s st : stored_models now a b = Ok (s, st) →
  TaskSpec.from_dict a = Ok s ∧ TaskState.from_dict now b = Ok st.
Proof.
  unfold stored_models. destruct (TaskSpec.from_dict a) as [s'|e]; cbn -[isinstance].
  - destruct (TaskState.from_dict now b) as [st'|e]; cbn -[isinstance]; [by intros [= -> ->]|].
    by case_match.
  - by case_match.
Qed.
Lemma parse_revision_ok v z : _parse_revision v = Ok z → v = VInt z ∧ 0 ≤ z.
Proof. destruct v; try done. cbn. destruct (z0 <? 0) eqn:E; [done|]. intros [= ->]. split; [done|lia]. Qed.
Lemma non_empty_ok v s : non_empty_str v = Some s → v = VStr s ∧ s ≠ "".
Proof.
  destruct v; try done. cbn. destruct (truthy_s s0) eqn:E; [|done]. intros [= ->].
  split; [done|]. by intros ->.
Qed.

Lemma parse_record_ok now v spec r : _parse_full_record now v spec = Ok r → record_ok spec r.
Proof.
  unfold _parse_full_record. destruct v as [| | | | | | |d]; try done. unfold bad_checkpoint_if.
  intros H. inv_result. destruct (non_empty_str _) eqn:Ek; [|done]. inv_result.
  match goal with H : stored_models _ _ _ = Ok ?p |- _ => destruct p as [s st];
    apply stored_models_ok in H as [Hs Hst] end. cbn [fst snd] in *.
  match goal with H : in_str_set _ _ = Ok _ |- _ =>
    apply in_strs_ok in H as (status & Est & Hin); [|done] end. rewrite Est in *. cbn [py_str] in *.
  apply parse_revision_ok in Ha2 as [_ ?]. apply non_empty_ok in Ek as [_ ?].
  repeat match goal with H : py_eqb _ (VStr _) = true |- _ => apply py_eqb_str in H end.
  repeat match goal with H : String.eqb _ _ = true |- _ => apply String.eqb_eq in H end.
  split; cbn; [done|split; [by eapply from_dict_ok|done]|eauto|done|done|done].
Qed.

(** What a listing promises of each row. *)
Definition summary_ok (s : HostedCheckpointSummary.t) : Prop :=
  HostedCheckpointSummary.task_id s ≠ "" ∧ HostedCheckpointSummary.idempotency_key s ≠ "" ∧
  HostedCheckpointSummary.status s ∈ ROW_STATUSES ∧ 0 ≤ HostedCheckpointSummary.revision s.
Definition summary_of (row : pyval) (s : HostedCheckpointSummary.t) : Prop :=
  ∃ d, row = VDict d ∧ get_or_none "task_id" d = VStr (HostedCheckpointSummary.task_id s) ∧
       get_or_none "status" d = VStr (HostedCheckpointSummary.status s) ∧
       get_or_none "revision" d = VInt (HostedCheckpointSummary.revision s).

Lemma parse_summary_ok seen row s : parse_summary seen row = Ok s →
  (HostedCheckpointSummary.task_id s ∉ seen) ∧ summary_ok s ∧ summary_of row s.
Proof.
  unfold parse_summary. destruct row as [| | | | | | |d]; try done. unfold bad_checkpoint_if.
  intros H. inv_result.
  destruct (non_empty_str (get_or_none "task_id" d)) eqn:Ei; [|done].
  destruct (non_empty_str (get_or_none "idempotency_key" d)) eqn:Ek; [|done]. inv_result.
  match goal with H : in_str_set _ _ = Ok _ |- _ =>
    apply in_strs_ok in H as (status & Est & Hin); [|done] end.
  match goal with H : _parse_revision _ = _ |- _ => apply parse_revision_ok in H as [??] end.
  apply non_empty_ok in Ei as [??], Ek as [??].
  unfold summary_ok, summary_of; cbn. rewrite Est. cbn. split_and!; try done.
  exists d. split_and!; done.
Qed.
Lemma add_summaries_ok rows acc l :
  foldR add_summary acc rows = Ok l → NoDup (map HostedCheckpointSummary.task_id acc) →
  NoDup (map HostedCheckpointSummary.task_id l) ∧
  ∃ new, l = acc ++ new ∧ Forall summary_ok new ∧ Forall2 summary_of rows new.
Proof.
  revert acc. induction rows as [|row rows IH]; intros acc; cbn [foldR].
  { intros [= <-] HN. split; [done|]. exists []. by rewrite app_nil_r. }
  intros (acc' & (s & Hs & [= <-])%bind_Ok & H)%bind_Ok HN.
  apply parse_summary_ok in Hs as (Hnew & Hok & Hof).
  apply IH in H as (HN' & new & -> & Hall & Hrows).
  - split; [done|]. exists (s :: new). rewrite <- (assoc_L (++)). split; [done|].
    split; constructor; done.
  - rewrite map_app. apply list.NoDup_app. split; [done|]. split; [|apply NoDup_singleton].
    intros x Hx ->%list_elem_of_singleton. done.
Qed.

Section client.
Context {W : Type} (transport : string → pydict → eff W pyval) (utc_now : eff W string).

Lemma checked_spec_ok spec s : checked_spec spec = Ok s → detached spec s.
Proof.
  unfold checked_spec, _detached_spec.
  intros (s' & (doc & Hd & Hs)%bind_Ok & H)%bind_Ok.
  destruct (TaskSpec.validate s'); inv_result. by eapply read_detached.
Qed.
Lemma parse_checkpoint_ok d spec w r w' :
  parse_checkpoint utc_now d spec w = (Ok r, w') → record_ok spec r.
Proof. unfold parse_checkpoint. intros H. inv_eff. by eapply parse_record_ok. Qed.
Lemma get_checkpoint_ok spec w r w' :
  get_checkpoint transport utc_now spec w = (Ok r, w') →
  ∃ s, checked_spec spec = Ok s ∧ detached spec s ∧ record_ok s r.
Proof.
  unfold get_checkpoint. intros H. inv_eff. eexists.
  split_and!; [eassumption|by apply checked_spec_ok|by eapply parse_checkpoint_ok].
Qed.

(** A checkpoint is accepted for resumption only when it is bound to the
    caller's definition: the stored definition is valid and equal to it as a
    document, the state carries its fingerprint and its identifier, the row
    status agrees with the state, and the revision is a natural number. *)
Theorem checkpoint_read_sound spec w r w' :
  get_checkpoint transport utc_now spec w = (Ok r, w') →
  ∃ s, checked_spec spec = Ok s ∧ detached spec s ∧ record_ok s r.
Proof. apply get_checkpoint_ok. Qed.

(** A save the client reports as done is the next revision of a record
    bound to the definition, and it never writes a pending state back. *)
Theorem checkpoint_save_sound spec state rev w r w' :
  save_checkpoint transport utc_now spec state rev w = (Ok r, w') →
  ∃ s n now sent, checked_spec spec = Ok s ∧ record_ok s r ∧
    rev = VInt n ∧ 0 ≤ n ∧ HostedCheckpointRecord.revision r = n + 1 ∧
    _validate_state_for_spec now s state false = Ok sent ∧
    TaskState.status sent ≠ VStr "pending".
Proof.
  unfold save_checkpoint. intros H. inv_eff.
  match goal with H : parse_checkpoint _ _ _ _ = _ |- _ => apply parse_checkpoint_ok in H end.
  match goal with H : check_revision _ = Ok ?r |- _ =>
    assert (rev = VInt r ∧ 0 ≤ r) as [-> Hr]
      by (destruct rev; try done; cbn in H; destruct (_ <? 0) eqn:?; [done|]; injection H as ->;
          split; [done|lia]); clear H end.
  unfold bad_checkpoint_if in *. inv_result.
  eexists _, _, _, _. split_and!; try eassumption; [done|lia|].
  intros E. match goal with H : py_eqb _ _ = false |- _ => by rewrite E in H end.
Qed.

(** A listing the client returns has one entry per row of the response, in
    order and with the values of the row, no task twice, and only known
    statuses, natural revisions and non-empty keys. *)
Theorem checkpoint_listing_sound status limit w l w' :
  list_checkpoints transport status limit w = (Ok l, w') →
  NoDup (map HostedCheckpointSummary.task_id l) ∧ Forall summary_ok l ∧
  ∃ payload w1 d rows, transport "checkpoint_list" payload w = (Ok (VDict d), w1) ∧
    get_or_none "checkpoints" d = VList rows ∧ Forall2 summary_of rows l.
Proof.
  unfold list_checkpoints, checkpoint_request. intros H. inv_eff.
  match goal with H : (match ?v with VNone => _ | _ => _ end) _ = _, H' : transport _ _ _ = (Ok ?v, _) |- _ =>
    destruct v as [| | | | | | |d]; try discriminate H; destruct (is_true _); try discriminate H;
    injection H as ? ?; subst end.
  destruct (get_or_none "checkpoints" _) eqn:E; inv_eff; try done.
  match goal with H : foldR _ _ _ = _ |- _ =>
    apply add_summaries_ok in H as (HN & new & -> & ? & ?); [|constructor] end.
  split_and!; [done|done|]. eauto 10.
Qed.
End client.

(** ** A concrete service: the row of [HostedQueueFacts], as a checkpoint *)
Lemma checkpoint_read_sound_witness :
  ∃ r, get_checkpoint (row_backend 1) row_clock row_spec 0%nat = (Ok r, 1%nat) ∧
       ∃ s, record_ok s r.
Proof.
  eexists. split; [vm_compute; reflexivity|].
  destruct (checkpoint_read_sound (row_backend 1) row_clock row_spec 0%nat _ 1%nat
    ltac:(vm_compute; reflexivity)) as (s & _ & _ & H). exists s. exact H.
Defined.
Lemma checkpoint_save_sound_witness :
  ∃ r, save_checkpoint (row_backend 2) row_clock row_spec (row_state "running") (VInt 1) 0%nat
         = (Ok r, 1%nat) ∧ ∃ s, record_ok s r.
Proof.
  eexists. split; [vm_compute; reflexivity|].
  destruct (checkpoint_save_sound (row_backend 2) row_clock row_spec (row_state "running")
    (VInt 1) 0%nat _ 1%nat ltac:(vm_compute; reflexivity)) as (s & _ & _ & _ & _ & H & _).
  exists s. exact H.
Defined.
Definition listing_backend (mode : string) (payload : pydict) : eff nat pyval := λ n,
  (Ok (VDict [("success", VBool true);
              ("checkpoints", VList [running_row 1; VDict [("task_id", VStr "task-2");
                 ("status", VStr "queued"); ("idempotency_key", VStr "k"); ("revision", VInt 0)]])]),
   S n).
Lemma checkpoint_listing_sound_witness :
  ∃ l, list_checkpoints listing_backend VNone (VInt 20) 0%nat = (Ok l, 1%nat) ∧
       NoDup (map HostedCheckpointSummary.task_id l) ∧ length l = 2%nat.
Proof.
  eexists. split; [vm_compute; reflexivity|].
  pose proof (checkpoint_listing_sound listing_backend VNone (VInt 20) 0%nat _ 1%nat
    ltac:(vm_compute; reflexivity)) as [H _]. split; [exact H|reflexivity].
Defined.
