(* ===== verification/TrustedRunFacts.v ===== *)
(** Trusted run instances: their identity, and that enqueuing one creates at
    most one pristine row. *)
From S2P Require Import Prelude PyString PyValue Sha256 TaskModel TaskModelFacts HostedQueue.
From S2P Require Import HostedQueueFacts HostedCheckpoint HostedCheckpointFacts Recorder.

(** ** Identity *)
Lemma is_prefix_app t l : is_prefix t (t ++ l) = true.
Proof. induction t as [|c t IH]; cbn; [done|]. by rewrite Ascii.eqb_refl. Qed.
Lemma is_prefix_split t l : is_prefix t l = true → l = t ++ skipn (length t) l.
Proof.
  revert l. induction t as [|c t IH]; intros l; cbn; [done|]. destruct l as [|d l]; [done|].
  intros [E%Ascii.eqb_eq H]%andb_true_iff. subst. cbn. f_equal. by apply IH.
Qed.
Lemma startswith_split s t : startswith s t = true ↔ s = (t ++ drop_s (length (chars t)) s)%string.
Proof.
  unfold startswith, drop_s. split.
  - intros H%is_prefix_split. apply chars_inj. by rewrite chars_app, chars_of_chars.
  - intros E. rewrite E, chars_app. apply is_prefix_app.
Qed.
Lemma drop_prefix t s : drop_s (length (chars t)) (t ++ s)%string = s.
Proof. unfold drop_s. rewrite chars_app, skipn_app, Nat.sub_diag, skipn_all. apply of_chars_chars. Qed.

(** A name is that of an instance exactly when it is the prefix and a token. *)
Lemma instance_token_iff i t :
  _instance_token i = Ok t ↔ i = (TRUSTED_RUN_ID_PREFIX ++ t)%string ∧ instance_token_re t = true.
Proof.
  unfold _instance_token. split.
  - intros H. inv_result. match goal with H : startswith _ _ = true |- _ => apply startswith_split in H end.
    by split.
  - intros [-> Ht]. rewrite (proj2 (startswith_split _ _)) by (by rewrite drop_prefix).
    cbn -[TRUSTED_RUN_ID_PREFIX drop_s instance_token_re]. rewrite drop_prefix, Ht. done.
Qed.

(** A definition under another identifier. *)
Definition set_id (i : string) (s : TaskSpec.t) : TaskSpec.t :=
  TaskSpec.mk i (TaskSpec.title s) (TaskSpec.goal s) (TaskSpec.allowed_actions s)
    (TaskSpec.steps s) (TaskSpec.inputs s) (TaskSpec.completion_conditions s)
    (TaskSpec.schema_version s).
Lemma with_task_id_eq i s : with_task_id i s = TaskSpec.to_dict (set_id i s).
Proof. done. Qed.
Lemma read_with_id i s :
  TaskSpec.from_dict (with_task_id i s) = (TaskSpec.validate (set_id i s);; Ok (set_id i s)).
Proof. rewrite with_task_id_eq. apply spec_from_to_dict. Qed.
Lemma validate_set_id i s : spec_ok s → blank i = false → TaskSpec.validate (set_id i s) = Ok tt.
Proof. intros [] Hi. by apply spec_validate_iff. Qed.
Lemma validate_ok s : spec_ok s → TaskSpec.validate s = Ok tt.
Proof. apply spec_validate_iff. Qed.

Lemma dumps_set_id i s :
  is_ok (json_dumps (TaskSpec.to_dict (set_id i s))) = is_ok (json_dumps (TaskSpec.to_dict s)).
Proof. unfold TaskSpec.to_dict. by rewrite !dumps_dict_ok. Qed.
Lemma fingerprint_ok s : is_ok (TaskSpec.fingerprint s) = is_ok (json_dumps (TaskSpec.to_dict s)).
Proof. unfold TaskSpec.fingerprint. by destruct (json_dumps _). Qed.
Lemma prefix_not_blank t : blank (TRUSTED_RUN_ID_PREFIX ++ t) = false.
Proof. by apply not_blank_cons. Qed.

Section trusted.
Context (template_file : pyval) (pinned : string).

Lemma template_ok tpl : trusted_status_template_spec template_file pinned = Ok tpl →
  spec_ok tpl ∧ TaskSpec.task_id tpl = TRUSTED_TASK_ID ∧ TaskSpec.fingerprint tpl = Ok pinned.
Proof.
  unfold trusted_status_template_spec. intros H. inv_result.
  match goal with H : TaskSpec.from_dict _ = _ |- _ => apply from_dict_ok in H end.
  destruct (String.eqb_spec (TaskSpec.task_id tpl) TRUSTED_TASK_ID); [|done].
  repeat match goal with H : String.eqb _ _ = true |- _ => apply String.eqb_eq in H end.
  by subst.
Qed.

(** Building and validating an instance are inverse: for every token of 16
    to 32 hexadecimal digits the definition built from the pinned template
    validates, under its own name and fingerprint, to that token. *)
Theorem trusted_instance_round_trip tpl tok :
  trusted_status_template_spec template_file pinned = Ok tpl →
  unique_keys (TaskSpec.to_dict tpl) = true →
  instance_token_re tok = true →
  ∃ spec f, build_trusted_status_run_spec template_file pinned (VStr tok) = Ok spec ∧
    TaskSpec.fingerprint spec = Ok f ∧
    validate_trusted_status_run_spec template_file pinned spec =
      Ok (MkInstance (TRUSTED_RUN_ID_PREFIX ++ tok) tok f pinned).
Proof.
  intros Ht Hu Htok. destruct (template_ok _ Ht) as (Hok & Hid & Hf).
  set (spec := set_id (TRUSTED_RUN_ID_PREFIX ++ tok) tpl).
  assert (TaskSpec.validate spec = Ok tt) as Hv by (apply validate_set_id, prefix_not_blank; done).
  assert (is_ok (TaskSpec.fingerprint spec) = true) as Hfp.
  { unfold spec. by rewrite fingerprint_ok, dumps_set_id, <- fingerprint_ok, Hf. }
  destruct (TaskSpec.fingerprint spec) as [f|] eqn:Ef; [|done].
  assert (set_id TRUSTED_TASK_ID spec = tpl) as Eback.
  { unfold spec, set_id. destruct tpl. cbn in *. by rewrite Hid. }
  exists spec, f. split_and!; [|done|].
  - unfold build_trusted_status_run_spec. rewrite Htok, Ht. cbn -[TRUSTED_RUN_ID_PREFIX with_task_id].
    rewrite read_with_id. fold spec. by rewrite Hv.
  - unfold validate_trusted_status_run_spec. rewrite spec_from_to_dict, Hv.
    cbn -[TRUSTED_RUN_ID_PREFIX with_task_id TaskSpec.to_dict TaskSpec.fingerprint _instance_token py_eqb].
    rewrite (proj2 (instance_token_iff _ tok)) by done.
    cbn -[TRUSTED_RUN_ID_PREFIX with_task_id TaskSpec.to_dict TaskSpec.fingerprint py_eqb].
    rewrite Ht. cbn -[TRUSTED_RUN_ID_PREFIX with_task_id TaskSpec.to_dict TaskSpec.fingerprint py_eqb].
    rewrite read_with_id, Eback, (validate_ok _ Hok).
    cbn -[TRUSTED_RUN_ID_PREFIX TaskSpec.to_dict TaskSpec.fingerprint py_eqb].
    rewrite py_eqb_refl; [|done|by rewrite <- fingerprint_ok, Hf].
    cbn -[TRUSTED_RUN_ID_PREFIX TaskSpec.to_dict TaskSpec.fingerprint].
    rewrite Hf. cbn -[TRUSTED_RUN_ID_PREFIX TaskSpec.to_dict TaskSpec.fingerprint].
    rewrite String.eqb_refl. cbn -[TRUSTED_RUN_ID_PREFIX TaskSpec.to_dict TaskSpec.fingerprint].
    by rewrite Ef.
Qed.

(** What validation accepts is the pinned template and nothing else: the
    definition is valid, its name is the prefix followed by a token of 16 to 32
    hexadecimal digits, and under the template's name it equals the template as
    a document, with the template's fingerprint. *)
Theorem trusted_instance_scope spec inst :
  validate_trusted_status_run_spec template_file pinned spec = Ok inst →
  ∃ tpl tok, trusted_status_template_spec template_file pinned = Ok tpl ∧ spec_ok spec ∧
    TaskSpec.task_id spec = (TRUSTED_RUN_ID_PREFIX ++ tok)%string ∧ instance_token_re tok = true ∧
    py_eqb (TaskSpec.to_dict (set_id TRUSTED_TASK_ID spec)) (TaskSpec.to_dict tpl) = true ∧
    TaskSpec.fingerprint (set_id TRUSTED_TASK_ID spec) = Ok pinned ∧
    i_task_id inst = TaskSpec.task_id spec ∧ i_token inst = tok ∧
    TaskSpec.fingerprint spec = Ok (i_fingerprint inst) ∧ i_template_fingerprint inst = pinned.
Proof.
  unfold validate_trusted_status_run_spec. rewrite spec_from_to_dict. intros H. inv_result.
  match goal with H : TaskSpec.validate _ = Ok tt |- _ => rename H into Hv end.
  match goal with H : _instance_token _ = Ok _ |- _ => apply instance_token_iff in H as [Hid Htok] end.
  match goal with H : TaskSpec.from_dict (with_task_id _ _) = Ok _ |- _ =>
    rewrite read_with_id in H; inv_result end.
  match goal with H : String.eqb _ _ = true |- _ => apply String.eqb_eq in H; subst end.
  eexists _, _. split_and!; try eassumption; try done. by apply spec_validate_iff.
Qed.
End trusted.

(** ** Enqueuing *)

Section recorded.
Context {W : Type} (transport : string → pydict → eff W pyval) (utc_now : eff W string).
Abbreviation recorded := (recorded transport).
Abbreviation recorded_clock := (quietly (L:=string) utc_now).

Lemma asks_request mode p : asks (checkpoint_request recorded mode p) [mode].
Proof.
  apply asks_then; [apply asks_logged|]. intros v.
  destruct v as [| | | | | | |d]; try apply asks_lift. destruct (is_true _); apply asks_lift.
Qed.
Lemma asks_parse d spec : asks (parse_checkpoint recorded_clock d spec) [].
Proof. apply asks_quiet; [apply asks_quietly|]. intros. apply asks_lift. Qed.
Lemma asks_get spec : asks (get_checkpoint recorded recorded_clock spec) ["checkpoint_get"].
Proof.
  apply asks_quiet; [apply asks_lift|]. intros s.
  apply asks_then; [apply asks_request|]. intros. apply asks_parse.
Qed.
Lemma asks_create spec st key :
  asks (create recorded recorded_clock spec st key) ["checkpoint_create"].
Proof.
  repeat first [apply asks_quiet; [apply asks_lift || apply asks_quietly|]; intros ?].
  apply asks_then; [apply asks_request|]. intros. apply asks_parse.
Qed.

(** A creation that succeeds has been asked for last, and returns a record bound
    to the definition. *)
Lemma create_ok spec st key s r s' :
  create recorded recorded_clock spec st key s = (Ok r, s') → list.last s'.2 = Some "checkpoint_create".
Proof.
  unfold create, checkpoint_request, parse_checkpoint. intros H. inv_eff.
  repeat match goal with
  | H : recorded_clock ?s = (_, _) |- _ =>
      unfold quietly in H; destruct (utc_now s.1); injection H as ? ?; subst
  | H : recorded ?m ?p ?s = (_, _) |- _ =>
      unfold Recorder.recorded in H; destruct (transport m p s.1); injection H as ? ?; subst
  | H : (match ?v with VNone => _ | _ => _ end) _ = (Ok _, _) |- _ =>
      destruct v as [| | | | | | |d]; try discriminate H; destruct (is_true _); try discriminate H;
      injection H as ? ?; subst
  end. cbn [snd]. by rewrite last_snoc.
Qed.
End recorded.

(** A row nobody has worked on. *)
Definition pristine (spec : TaskSpec.t) (r : HostedCheckpointRecord.t) : Prop :=
  HostedCheckpointRecord.task_id r = TaskSpec.task_id spec ∧
  py_eqb (TaskSpec.to_dict (HostedCheckpointRecord.spec r)) (TaskSpec.to_dict spec) = true ∧
  HostedCheckpointRecord.idempotency_key r = TaskSpec.task_id spec ∧
  HostedCheckpointRecord.status r = "queued" ∧ HostedCheckpointRecord.revision r = 0 ∧
  TaskState.status (HostedCheckpointRecord.state r) = VStr "pending" ∧
  TaskState.attempts (HostedCheckpointRecord.state r) = ∅ ∧
  TaskState.completed_steps (HostedCheckpointRecord.state r) = [].

Lemma assert_pristine_ok r spec r' : _assert_pristine r spec = Ok r' → r' = r ∧ pristine spec r.
Proof.
  unfold _assert_pristine, pristine. intros H. inv_result.
  repeat match goal with
  | H : String.eqb _ _ = true |- _ => apply String.eqb_eq in H
  | H : py_eqb _ (VStr _) = true |- _ => apply py_eqb_str in H
  | H : (_ =? _) = true |- _ => apply Z.eqb_eq in H
  | H : bool_decide _ = true |- _ => apply bool_decide_eq_true in H
  end. done.
Qed.

(** Enqueuing asks the service for at most a read, one creation and a
    second read, in that order and nothing else; when it returns, the row is
    bound to the definition and nobody has worked on it, and it reports a
    creation only when the creation was its last request. *)
Theorem ensure_queued_once {W} template_file pinned (transport : string → pydict → eff W pyval)
    (utc_now : eff W string) spec w :
  let '(out, (_, log)) := ensure_queued template_file pinned (recorded transport)
                            (quietly utc_now) spec (w, []) in
  log `sublist_of` ["checkpoint_get"; "checkpoint_create"; "checkpoint_get"] ∧
  match out with
  | Ok (r, created) => pristine spec r ∧ (created = true → list.last log = Some "checkpoint_create")
  | Err _ => True
  end.
Proof.
  destruct (ensure_queued _ _ _ _ _ _) as [out [w' log]] eqn:E. split.
  - assert (asks (ensure_queued template_file pinned (recorded transport) (quietly utc_now) spec)
      ["checkpoint_get"; "checkpoint_create"; "checkpoint_get"]) as Ha.
    { unfold ensure_queued. apply asks_quiet; [apply asks_lift|]. intros s.
      apply asks_quiet; [apply asks_lift|]. intros ?.
      apply (asks_bind _ _ ["checkpoint_get"]); [apply asks_attempt, asks_get|]. intros [r|e].
      { apply asks_nil, asks_quiet; intros; apply asks_lift. }
      destruct (isinstance e _); [|apply asks_nil, asks_lift].
      apply (asks_bind _ _ ["checkpoint_create"]); [apply asks_attempt, asks_create|]. intros [r|e'].
      { apply asks_nil, asks_quiet; intros; apply asks_lift. }
      destruct (isinstance e' _); [|apply asks_nil, asks_lift].
      apply asks_then; [apply asks_attempt, asks_get|]. intros [r|e2].
      - apply asks_quiet; intros; apply asks_lift.
      - destruct (isinstance e2 _); apply asks_lift. }
    destruct (Ha (w, [])) as (new & Hnew & Hsub). rewrite E in Hnew. cbn in Hnew. by subst.
  - destruct out as [[r created]|e]; [|done]. unfold ensure_queued in E. inv_eff.
    match goal with H : TaskSpec.from_dict (TaskSpec.to_dict _) = _ |- _ =>
      rewrite spec_from_to_dict in H; inv_result end.
    repeat match goal with
    | H : attempt ?m ?s = (Ok _, _) |- _ => unfold attempt in H; destruct (m s) eqn:?; injection H as ? ?; subst
    | H : (match ?o with Ok _ => _ | Err _ => _ end) _ = (Ok _, _) |- _ => destruct o; inv_eff
    | H : (if isinstance ?e ?c then _ else _) _ = _ |- _ => destruct (isinstance e c); inv_eff; try done
    | H : (_, _) = (_, _) |- _ => injection H as ? ?; subst
    | H : _assert_pristine _ _ = Ok _ |- _ => apply assert_pristine_ok in H as [-> ?]
    | H : create (recorded _) _ _ _ _ _ = (Ok _, _) |- _ => apply create_ok in H
    end; done.
Qed.

(** ** A concrete template *)
Definition sample_template : TaskSpec.t := set_id TRUSTED_TASK_ID row_spec.
Definition sample_pin : string :=
  match TaskSpec.fingerprint sample_template with Ok f => f | Err _ => "" end.
Lemma trusted_instance_round_trip_witness :
  ∃ spec inst, build_trusted_status_run_spec (TaskSpec.to_dict sample_template) sample_pin
                 (VStr "0123456789abcdef") = Ok spec ∧
    validate_trusted_status_run_spec (TaskSpec.to_dict sample_template) sample_pin spec = Ok inst.
Proof.
  destruct (trusted_instance_round_trip (TaskSpec.to_dict sample_template) sample_pin
    sample_template "0123456789abcdef" ltac:(vm_compute; reflexivity)
    ltac:(vm_compute; reflexivity) ltac:(vm_compute; reflexivity)) as (spec & f & Hb & _ & Hv).
  exists spec. eexists. split; [exact Hb|exact Hv].
Defined.
Lemma trusted_instance_scope_witness :
  ∃ inst, validate_trusted_status_run_spec (TaskSpec.to_dict sample_template) sample_pin
    (set_id (TRUSTED_RUN_ID_PREFIX ++ "0123456789abcdef") row_spec) = Ok inst ∧
    i_template_fingerprint inst = sample_pin.
Proof.
  eexists. split; [vm_compute; reflexivity|].
  destruct (trusted_instance_scope (TaskSpec.to_dict sample_template) sample_pin
    (set_id (TRUSTED_RUN_ID_PREFIX ++ "0123456789abcdef") row_spec) _
    ltac:(vm_compute; reflexivity)) as (tpl & tok & _ & _ & _ & _ & _ & _ & _ & _ & _ & H).
  exact H.
Defined.
