(* ===== verification/QueuePlanner.v ===== *)
(** agent_core/queue_planner.py: the pure planner that proposes which queued
    tasks a worker may try to claim.

    The fields of an entry are unchecked values, as the host supplies them; a
    [datetime] is the instant it denotes (in microseconds) when it carries a
    time zone, and a value without one otherwise. *)
From S2P Require Import Prelude PyString PyValue.

Inductive moment := Aware (instant : Z) | NotAware.

Definition _aware (value : moment) : result unit :=
  match value with
  | Aware _ => Ok tt
  | NotAware => raise ValueError "timezone_aware_timestamp_required"
  end.
(** The order of two aware instants; comparing with a naive one is an error
    the validation excludes. *)
Definition after (a b : moment) : bool :=
  match a, b with Aware x, Aware y => y <? x | _, _ => false end.

Module QueueEntry.
Record t := mk {
  owner_id : pyval; task_id : pyval; idempotency_key : pyval; revision : pyval;
  status : pyval; created_at : moment; not_before : moment;
  attempts : pyval; max_attempts : pyval; lease_expires_at : option moment }.

Definition STATUSES : list string := ["queued"; "running"; "blocked"; "completed"; "failed"].
Definition identity (v : pyval) : result unit :=
  match v with
  | VStr s => reject_if (blank s) ValueError "queue_identity_required"
  | _ => raise ValueError "queue_identity_required"
  end.
Definition counter (v : pyval) : result Z :=
  match v with
  | VInt z => if z <? 0 then raise ValueError "invalid_queue_counter" else Ok z
  | _ => raise ValueError "invalid_queue_counter"
  end.

Definition validate (e : t) : result unit :=
  identity (owner_id e);;
  identity (task_id e);;
  identity (idempotency_key e);;
  known ← in_str_set (status e) STATUSES;
  reject_if (negb known) ValueError "invalid_queue_status";;
  counter (revision e);;
  attempts ← counter (attempts e);
  max_attempts ← counter (max_attempts e);
  reject_if ((max_attempts <? 1) || (max_attempts <? attempts)) ValueError "invalid_attempt_budget";;
  _aware (created_at e);;
  _aware (not_before e);;
  match lease_expires_at e with
  | None => Ok tt
  | Some lease =>
      _aware lease;;
      reject_if (negb (py_eqb (status e) (VStr "running"))) ValueError
        "lease_requires_running_status"
  end.
End QueueEntry.

Module QueueDecision.
Record t := mk {
  owner_id : pyval; task_id : pyval; expected_revision : pyval;
  disposition : string; reason : string }.
End QueueDecision.

(** The invariants of a plan: [execution_enabled] and [persistence_enabled]. *)
Module QueuePlan.
Record t := mk { decisions : list QueueDecision.t }.
Definition execution_enabled (_ : t) : bool := false.
Definition persistence_enabled (_ : t) : bool := false.
End QueuePlan.

(** One turn of the validation loop, with the identifiers and keys seen. *)
Definition check_row (owner : string) (seen : list pyval * list pyval) (row : QueueEntry.t) :
    result (list pyval * list pyval) :=
  QueueEntry.validate row;;
  reject_if (negb (py_eqb (QueueEntry.owner_id row) (VStr owner))) ValueError
    "queue_owner_scope_mismatch";;
  reject_if (in_list (QueueEntry.task_id row) seen.1 || in_list (QueueEntry.idempotency_key row) seen.2)
    ValueError "duplicate_queue_identity";;
  Ok (QueueEntry.task_id row :: seen.1, QueueEntry.idempotency_key row :: seen.2).

(** [sorted(rows, key=lambda item: (item.created_at, item.task_id))] *)
Definition before_eq (a b : QueueEntry.t) : bool :=
  match QueueEntry.created_at a, QueueEntry.created_at b with
  | Aware x, Aware y => (x <? y) || ((x =? y) && str_le (py_str (QueueEntry.task_id a)) (py_str (QueueEntry.task_id b)))
  | _, _ => false
  end.
Fixpoint insert_row (x : QueueEntry.t) (l : list QueueEntry.t) : list QueueEntry.t :=
  match l with
  | [] => [x]
  | y :: l' => if before_eq y x then y :: insert_row x l' else x :: l
  end.
Definition in_fifo_order (rows : list QueueEntry.t) : list QueueEntry.t :=
  fold_left (λ acc x, insert_row x acc) rows [].

Definition is_running (row : QueueEntry.t) : bool := py_eqb (QueueEntry.status row) (VStr "running").
Definition int_of (v : pyval) : Z := match v with VInt z => z | _ => 0 end.

(** The disposition of a row, its reason, and the slots left. *)
Definition decide_row (now : moment) (slots : Z) (row : QueueEntry.t) : string * string * Z :=
  if in_strs (QueueEntry.status row) ["completed"; "blocked"; "failed"] then
    ("skip", "terminal_state", slots)
  else if is_running row then
    match QueueEntry.lease_expires_at row with
    | None => ("reconcile", "running_outcome_unknown", slots)
    | Some lease => if negb (after lease now) then ("reconcile", "running_outcome_unknown", slots)
                    else ("wait", "active_lease", slots)
    end
  else if int_of (QueueEntry.max_attempts row) <=? int_of (QueueEntry.attempts row) then
    ("reconcile", "attempt_budget_exhausted", slots)
  else if after (QueueEntry.created_at row) now || after (QueueEntry.not_before row) now then
    ("wait", "not_due", slots)
  else if slots =? 0 then ("wait", "capacity_exhausted", slots)
  else ("propose_claim", "requires_atomic_claim_and_preflight", slots - 1).

Fixpoint decide_rows (owner : string) (now : moment) (slots : Z) (rows : list QueueEntry.t) :
    list QueueDecision.t :=
  match rows with
  | [] => []
  | row :: rows' =>
      let '(disposition, reason, slots') := decide_row now slots row in
      QueueDecision.mk (VStr owner) (QueueEntry.task_id row) (QueueEntry.revision row)
        disposition reason :: decide_rows owner now slots' rows'
  end.

Definition running_count (rows : list QueueEntry.t) : Z := Z.of_nat (length (List.filter is_running rows)).

Definition plan_queue (entries : list QueueEntry.t) (owner_id : pyval) (now : moment)
    (capacity : pyval) : result QueuePlan.t :=
  _aware now;;
  owner ← match owner_id with
          | VStr s => reject_if (blank s) ValueError "owner_scope_required";; Ok s
          | _ => raise ValueError "owner_scope_required"
          end;
  capacity ← match capacity with
             | VInt z => if z <? 1 then raise ValueError "positive_capacity_required" else Ok z
             | _ => raise ValueError "positive_capacity_required"
             end;
  foldR (check_row owner) ([], []) entries;;
  let slots := Z.max 0 (capacity - running_count entries) in
  Ok (QueuePlan.mk (decide_rows owner now slots (in_fifo_order entries))).
