(* ===== verification/QueuePlannerFacts.v ===== *)
(** The planner: first in, first out among the due rows, within the capacity,
    whatever the order in which the rows were supplied. *)
From stdpp Require Import sorting.
From S2P Require Import Prelude PyString PyValue QueuePlanner.

(** ** Validation *)
Definition row_ok (owner : string) (row : QueueEntry.t) : Prop :=
  QueueEntry.validate row = Ok tt ∧ QueueEntry.owner_id row = VStr owner.

Lemma entry_identity_ok v : QueueEntry.identity v = Ok tt → ∃ s, v = VStr s ∧ blank s = false.
Proof. destruct v; try done. cbn. intros H. inv_result. eauto. Qed.
Lemma aware_ok m : _aware m = Ok tt → ∃ z, m = Aware z.
Proof. destruct m; [eauto|done]. Qed.
Lemma row_facts owner row : row_ok owner row →
  (∃ i, QueueEntry.task_id row = VStr i) ∧ (∃ k, QueueEntry.idempotency_key row = VStr k) ∧
  (∃ z, QueueEntry.created_at row = Aware z).
Proof.
  intros [H _]. unfold QueueEntry.validate in H. inv_result.
  repeat match goal with
  | H : QueueEntry.identity _ = Ok tt |- _ => apply entry_identity_ok in H as (? & ? & _)
  | H : _aware _ = Ok tt |- _ => apply aware_ok in H as [??] end. split_and!; eauto.
Qed.

Lemma check_row_iff owner seen row seen' :
  check_row owner seen row = Ok seen' ↔
  row_ok owner row ∧ (QueueEntry.task_id row ∉ seen.1) ∧ (QueueEntry.idempotency_key row ∉ seen.2) ∧
  seen' = (QueueEntry.task_id row :: seen.1, QueueEntry.idempotency_key row :: seen.2).
Proof.
  unfold check_row. split.
  - intros H. inv_result.
    match goal with H : py_eqb _ _ = true |- _ => apply py_eqb_str in H; rename H into Ho end.
    assert (row_ok owner row) as Hok by done.
    destruct (row_facts _ _ Hok) as ([i Ei] & [k Ek] & _). rewrite Ei, Ek in *.
    repeat match goal with H : in_list _ _ = false |- _ => apply in_list_str_false in H end. done.
  - intros (Hok & H1 & H2 & ->). destruct (row_facts _ _ Hok) as ([i Ei] & [k Ek] & _).
    destruct Hok as [-> ->]. rewrite Ei, Ek in *. apply in_list_str_false in H1, H2.
    cbn -[in_list]. by rewrite String.eqb_refl, H1, H2.
Qed.

(** The loop accepts exactly the valid rows of one owner without duplicates. *)
Lemma check_rows_iff owner seen rows :
  is_ok (foldR (check_row owner) seen rows) = true ↔
  Forall (row_ok owner) rows ∧ NoDup (map QueueEntry.task_id rows) ∧
  NoDup (map QueueEntry.idempotency_key rows) ∧
  ∀ row, row ∈ rows → (QueueEntry.task_id row ∉ seen.1) ∧ QueueEntry.idempotency_key row ∉ seen.2.
Proof.
  revert seen. induction rows as [|row rows IH]; intros seen; cbn [foldR map].
  { split; [|done]. intros _. split_and!; [constructor..|]. by intros row ?%not_elem_of_nil. }
  assert (is_ok (seen' ← check_row owner seen row; foldR (check_row owner) seen' rows) = true ↔
    row_ok owner row ∧ (QueueEntry.task_id row ∉ seen.1) ∧ (QueueEntry.idempotency_key row ∉ seen.2) ∧
    is_ok (foldR (check_row owner) (QueueEntry.task_id row :: seen.1,
             QueueEntry.idempotency_key row :: seen.2) rows) = true) as ->.
  { destruct (check_row owner seen row) as [seen'|e] eqn:E; cbn [mbind result_bind].
    - apply check_row_iff in E as (? & ? & ? & ->). tauto.
    - split; [done|]. intros (? & ? & ? & _). exfalso.
      assert (check_row owner seen row = Ok (QueueEntry.task_id row :: seen.1,
        QueueEntry.idempotency_key row :: seen.2)) as E' by (by apply check_row_iff). congruence. }
  rewrite IH. cbn [fst snd]. rewrite list.Forall_cons, !list.NoDup_cons.
  assert (∀ f : QueueEntry.t → pyval, (f row ∉ map f rows) ↔ ∀ r, r ∈ rows → f r ≠ f row) as Hmap.
  { intros f. rewrite list_elem_of_fmap. split.
    - intros H r Hr E. apply H. eauto.
    - intros H (r & E & Hr). by apply (H r). }
  rewrite !Hmap. setoid_rewrite not_elem_of_cons. setoid_rewrite elem_of_cons.
  split.
  - intros (Hok & H1 & H2 & Hall & HN1 & HN2 & H). split_and!; try done.
    + intros r Hr. by apply H.
    + intros r Hr. by apply H.
    + intros r [-> | Hr]; [done|]. split; by apply H.
  - intros ([Hok Hall] & [Ha HN1] & [Hb HN2] & H). destruct (H row (or_introl eq_refl)).
    split_and!; try done. intros r Hr. split_and!; [by apply Ha|by apply H; right|by apply Hb|by apply H; right].
Qed.

(** ** The FIFO order *)
Lemma insert_row_perm x l : insert_row x l ≡ₚ x :: l.
Proof.
  induction l as [|y l IH]; cbn; [done|]. destruct (before_eq y x); [|done].
  rewrite IH. apply Permutation.perm_swap.
Qed.
Lemma fifo_perm_acc l acc : fold_left (λ acc x, insert_row x acc) l acc ≡ₚ l ++ acc.
Proof.
  revert acc. induction l as [|x l IH]; intros acc; cbn; [done|].
  rewrite IH, insert_row_perm. by rewrite <- Permutation.Permutation_middle.
Qed.
Lemma in_fifo_order_perm l : in_fifo_order l ≡ₚ l.
Proof. unfold in_fifo_order. by rewrite fifo_perm_acc, app_nil_r. Qed.

Definition fifo (a b : QueueEntry.t) : Prop := before_eq a b = true.
Definition dated (row : QueueEntry.t) : Prop := ∃ z, QueueEntry.created_at row = Aware z.

Lemma fifo_total a b : dated a → dated b → fifo a b ∨ fifo b a.
Proof.
  intros [x Hx] [y Hy]. unfold fifo, before_eq. rewrite Hx, Hy.
  destruct (str_le_total (py_str (QueueEntry.task_id a)) (py_str (QueueEntry.task_id b))) as [-> | ->];
    rewrite !andb_true_r; destruct (Z.lt_total x y) as [?|[?|?]]; [left|left|right|left|right|right]; lia.
Qed.
Lemma fifo_trans a b c : fifo a b → fifo b c → fifo a c.
Proof.
  unfold fifo, before_eq. destruct (QueueEntry.created_at a), (QueueEntry.created_at b),
    (QueueEntry.created_at c); try done.
  rewrite !orb_true_iff, !andb_true_iff, !Z.ltb_lt, !Z.eqb_eq.
  intros [?|[-> ?]] [?|[-> ?]]; try (left; lia). right. split; [done|]. by eapply str_le_trans.
Qed.
Lemma insert_row_sorted x l : dated x → Forall dated l → StronglySorted fifo l →
  StronglySorted fifo (insert_row x l).
Proof.
  intros Hx Hl. induction 1 as [|y l Hs IH Hy]; cbn.
  { repeat constructor. }
  apply list.Forall_cons in Hl as [Hdy Hl].
  destruct (before_eq y x) eqn:E.
  - constructor; [by apply IH|]. rewrite insert_row_perm. by constructor.
  - destruct (fifo_total x y) as [Hf|Hf]; [done|done| |unfold fifo in Hf; congruence].
    constructor; [by constructor|]. constructor; [done|].
    eapply List.Forall_impl; [|exact Hy]. intros z Hz. by eapply fifo_trans.
Qed.
Lemma in_fifo_order_sorted l : Forall dated l → StronglySorted fifo (in_fifo_order l).
Proof.
  unfold in_fifo_order. intros Hl.
  enough (∀ acc, Forall dated acc → StronglySorted fifo acc →
    StronglySorted fifo (fold_left (λ acc x, insert_row x acc) l acc)) as H.
  { apply H; constructor. }
  induction Hl as [|x l Hx Hl IH]; cbn; [done|]. intros acc Ha Hs. apply IH.
  - rewrite insert_row_perm. by constructor.
  - by apply insert_row_sorted.
Qed.

(** Rows that share an instant and an identifier are one row of the queue. *)
Lemma fifo_antisym owner rows a b : Forall (row_ok owner) rows →
  NoDup (map QueueEntry.task_id rows) → a ∈ rows → b ∈ rows → fifo a b → fifo b a → a = b.
Proof.
  intros Hok HN Ha Hb. rewrite list.Forall_forall in Hok.
  destruct (row_facts owner a (Hok _ Ha)) as ([i Ei] & _ & [x Ex]).
  destruct (row_facts owner b (Hok _ Hb)) as ([j Ej] & _ & [y Ey]).
  unfold fifo, before_eq. rewrite Ei, Ej, Ex, Ey. cbn [py_str].
  rewrite !orb_true_iff, !andb_true_iff, !Z.ltb_lt, !Z.eqb_eq.
  intros [?|[E1 H1]] [?|[E2 H2]]; try lia.
  apply (String.leb_antisym _ _ H1) in H2. subst j.
  apply list_elem_of_lookup in Ha as [m Hm]. apply list_elem_of_lookup in Hb as [n Hn].
  assert (m = n) as ->; [|congruence].
  eapply (list.NoDup_lookup (map QueueEntry.task_id rows)); [done|..];
    rewrite list_lookup_fmap, ?Hm, ?Hn; cbn; by rewrite ?Ei, ?Ej.
Qed.

(** ** The decisions *)

(** A queued row with budget left whose time has come. *)
Definition due (now : moment) (row : QueueEntry.t) : bool :=
  negb (in_strs (QueueEntry.status row) ["completed"; "blocked"; "failed"]) &&
  negb (is_running row) &&
  (int_of (QueueEntry.attempts row) <? int_of (QueueEntry.max_attempts row)) &&
  negb (after (QueueEntry.created_at row) now) && negb (after (QueueEntry.not_before row) now).
Definition due_count (now : moment) (rows : list QueueEntry.t) : Z :=
  Z.of_nat (length (List.filter (due now) rows)).

Lemma decide_row_spec now slots row : 0 ≤ slots →
  ∃ disp why, decide_row now slots row =
    (disp, why, slots - (if due now row && (0 <? slots) then 1 else 0)) ∧
  (disp = "propose_claim" ↔ due now row = true ∧ 0 < slots).
Proof.
  intros Hs. unfold decide_row, due.
  repeat match goal with
  | |- context [if in_strs ?a ?b then _ else _] => destruct (in_strs a b)
  | |- context [if is_running ?a then _ else _] => destruct (is_running a)
  | |- context [match QueueEntry.lease_expires_at ?a with _ => _ end] =>
      destruct (QueueEntry.lease_expires_at a)
  | |- context [after ?a ?b] => destruct (after a b)
  end; cbn [negb andb orb];
  try (eexists _, _; rewrite ?andb_false_r, ?Z.sub_0_r; split; [reflexivity|]; split; [done|intros [??]; done]);
  rewrite ?andb_true_r, ?andb_false_r, ?Z.ltb_antisym;
  destruct (int_of (QueueEntry.max_attempts row) <=? int_of (QueueEntry.attempts row)); cbn [negb andb];
  try (eexists _, _; rewrite ?Z.sub_0_r; split; [reflexivity|]; split; [done|intros [??]; done]).
  destruct (slots =? 0) eqn:E.
  - replace (slots <=? 0) with true by lia. cbn. eexists _, _. rewrite Z.sub_0_r.
    split; [reflexivity|]. split; [done|]. lia.
  - replace (slots <=? 0) with false by lia. cbn. eexists _, _. split; [reflexivity|].
    split; [|done]. split; [done|lia].
Qed.

Lemma filter_length_perm {A} (f : A → bool) l l' :
  l ≡ₚ l' → length (List.filter f l) = length (List.filter f l').
Proof. induction 1; cbn; repeat case_match; cbn; congruence. Qed.
Lemma due_count_cons now row rows :
  due_count now (row :: rows) = (if due now row then 1 else 0) + due_count now rows.
Proof. unfold due_count. cbn. destruct (due now row); cbn; lia. Qed.
Lemma due_count_nonneg now rows : 0 ≤ due_count now rows.
Proof. unfold due_count. lia. Qed.

(** Row [i] is proposed exactly when it is due and a slot is left for it. *)
Lemma decide_rows_spec owner now rows : ∀ slots, 0 ≤ slots →
  length (decide_rows owner now slots rows) = length rows ∧
  ∀ (i : nat) row, rows !! i = Some row → ∃ d, decide_rows owner now slots rows !! i = Some d ∧
    QueueDecision.owner_id d = VStr owner ∧
    QueueDecision.task_id d = QueueEntry.task_id row ∧
    QueueDecision.expected_revision d = QueueEntry.revision row ∧
    (QueueDecision.disposition d = "propose_claim" ↔
       due now row = true ∧ due_count now (take i rows) < slots).
Proof.
  induction rows as [|r rows IH]; intros slots Hs; [done|]. cbn [decide_rows].
  destruct (decide_row_spec now slots r Hs) as (disp & why & -> & Hd).
  set (slots' := slots - _). assert (0 ≤ slots') as Hs'.
  { subst slots'. destruct (due now r && (0 <? slots)) eqn:E; [|lia].
    apply andb_true_iff in E as [_ ?%Z.ltb_lt]. lia. }
  destruct (IH slots' Hs') as [Hlen Hat]. split; [cbn; by rewrite Hlen|].
  intros [|i] row Hrow; cbn in Hrow.
  - injection Hrow as ->. eexists. split; [reflexivity|]. split_and!; try done.
  - destruct (Hat i row Hrow) as (d & Hd1 & ? & ? & ? & Hiff). exists d. do 4 (split; [done|]).
    rewrite Hiff. cbn [take]. rewrite due_count_cons. subst slots'.
    pose proof (due_count_nonneg now (take i rows)).
    destruct (due now r); cbn [andb]; [|by rewrite Z.sub_0_r].
    destruct (0 <? slots) eqn:E; split; intros []; split; done || lia.
Qed.

Definition proposals (ds : list QueueDecision.t) : Z :=
  Z.of_nat (length (List.filter (λ d, String.eqb (QueueDecision.disposition d) "propose_claim") ds)).

Lemma proposals_count owner now rows : ∀ slots, 0 ≤ slots →
  proposals (decide_rows owner now slots rows) = Z.min slots (due_count now rows).
Proof.
  unfold proposals. induction rows as [|r rows IH]; intros slots Hs; cbn [decide_rows].
  { unfold due_count. cbn. lia. }
  destruct (decide_row_spec now slots r Hs) as (disp & why & -> & Hd). rewrite due_count_cons.
  cbn [List.filter QueueDecision.disposition].
  pose proof (due_count_nonneg now rows) as Hn.
  destruct (due now r) eqn:Er; cbn [andb].
  - destruct (0 <? slots) eqn:E.
    + assert (disp = "propose_claim") as -> by (apply Hd; split; [done|lia]).
      cbn [length]. rewrite String.eqb_refl. cbn [length].
      specialize (IH (slots - 1) ltac:(lia)). lia.
    + destruct (String.eqb_spec disp "propose_claim") as [->|].
      { destruct (proj1 Hd eq_refl). lia. }
      rewrite IH by lia. lia.
  - destruct (String.eqb_spec disp "propose_claim") as [->|].
    { by destruct (proj1 Hd eq_refl). }
    rewrite IH by lia. lia.
Qed.

(** What an accepted request for a plan looks like. *)
Lemma plan_queue_ok entries o now cap p : plan_queue entries o now cap = Ok p ↔
  ∃ owner z c, o = VStr owner ∧ blank owner = false ∧ now = Aware z ∧ cap = VInt c ∧ 1 ≤ c ∧
    is_ok (foldR (check_row owner) ([], []) entries) = true ∧
    p = QueuePlan.mk (decide_rows owner now (Z.max 0 (c - running_count entries))
                        (in_fifo_order entries)).
Proof.
  unfold plan_queue. split.
  - intros H. destruct now as [z|]; [|done]. destruct o as [| | | |owner| | |]; try done.
    destruct cap as [| |c| | | | |]; cbn -[foldR decide_rows in_fifo_order blank] in H;
      destruct (blank owner) eqn:Eb; try discriminate H.
    cbn -[foldR decide_rows in_fifo_order] in H. destruct (c <? 1) eqn:Ec; [done|].
    cbn -[foldR decide_rows in_fifo_order] in H. destruct (foldR _ _ _) eqn:Ef; [|done].
    injection H as <-. exists owner, z, c. split_and!; try done; [lia|]. by rewrite Ef.
  - intros (owner & z & c & -> & Eb & -> & -> & Hc & Hf & ->).
    cbn -[foldR decide_rows in_fifo_order blank]. rewrite Eb.
    cbn -[foldR decide_rows in_fifo_order]. replace (c <? 1) with false by lia.
    cbn -[foldR decide_rows in_fifo_order]. by destruct (foldR _ _ _).
Qed.

Lemma due_queued owner now row : row_ok owner row → due now row = true →
  QueueEntry.status row = VStr "queued".
Proof.
  intros [Hv _] Hd. unfold QueueEntry.validate in Hv. inv_result.
  match goal with H : in_str_set _ _ = Ok _ |- _ => apply in_strs_ok in H as (s & Es & Hin); [|done] end.
  unfold due, is_running in Hd. rewrite Es in *. clear -Hin Hd.
  unfold QueueEntry.STATUSES in Hin.
  repeat (apply elem_of_cons in Hin as [->|Hin]; [done|]). by apply not_elem_of_nil in Hin.
Qed.

(** C14: the plan decides every row once, in FIFO order (creation, then task
    identifier); a row is proposed for claiming exactly when it is due and
    fewer due rows precede it than there are free slots, so no due row is
    overtaken, and only a queued row, with budget left, is ever proposed: a
    running row, its lease expired or not, never is. *)
Theorem plan_fifo entries o now cap p : plan_queue entries o now cap = Ok p →
  ∃ rows c, rows ≡ₚ entries ∧ StronglySorted fifo rows ∧ cap = VInt c ∧ 1 ≤ c ∧
    length (QueuePlan.decisions p) = length rows ∧
    ∀ (i : nat) row, rows !! i = Some row → ∃ d, QueuePlan.decisions p !! i = Some d ∧
      QueueDecision.task_id d = QueueEntry.task_id row ∧
      QueueDecision.expected_revision d = QueueEntry.revision row ∧
      (QueueDecision.disposition d = "propose_claim" ↔
         due now row = true ∧
         due_count now (take i rows) < Z.max 0 (c - running_count entries)) ∧
      (QueueDecision.disposition d = "propose_claim" → QueueEntry.status row = VStr "queued").
Proof.
  intros (owner & z & c & _ & _ & _ & -> & Hc & Hf & ->)%plan_queue_ok.
  apply check_rows_iff in Hf as (Hok & _).
  exists (in_fifo_order entries), c.
  destruct (decide_rows_spec owner now (in_fifo_order entries)
    (Z.max 0 (c - running_count entries)) ltac:(lia)) as [Hlen Hat].
  split_and!; [apply in_fifo_order_perm| |done|done|done|].
  - apply in_fifo_order_sorted. eapply List.Forall_impl; [|exact Hok].
    intros row Hrow. by apply (row_facts owner).
  - intros i row Hrow. destruct (Hat i row Hrow) as (d & ? & _ & ? & ? & Hiff).
    exists d. split_and!; try done. intros [Hdue _]%Hiff. eapply due_queued; [|done].
    rewrite list.Forall_forall in Hok. apply Hok. rewrite <- in_fifo_order_perm.
    by eapply list_elem_of_lookup_2.
Qed.

(** The proposals are exactly as many as capacity and demand allow: the
    free slots (the capacity less the running rows) or the due rows, whichever
    is fewer; running and proposed rows together never exceed the capacity
    unless the running rows alone do. *)
Theorem plan_capacity entries o now c p : plan_queue entries o now (VInt c) = Ok p →
  proposals (QueuePlan.decisions p) =
    Z.min (Z.max 0 (c - running_count entries)) (due_count now entries) ∧
  proposals (QueuePlan.decisions p) + running_count entries ≤ Z.max c (running_count entries).
Proof.
  intros (owner & z & c' & _ & _ & _ & [= <-] & Hc & Hf & ->)%plan_queue_ok. cbn [QueuePlan.decisions].
  rewrite proposals_count by lia.
  assert (due_count now (in_fifo_order entries) = due_count now entries) as ->; [|lia].
  unfold due_count. by rewrite (filter_length_perm _ _ _ (in_fifo_order_perm entries)).
Qed.

(** The plan does not depend on the order in which the rows are supplied. *)
Theorem plan_order_irrelevant entries entries' o now cap p :
  entries ≡ₚ entries' → plan_queue entries o now cap = Ok p → plan_queue entries' o now cap = Ok p.
Proof.
  intros P (owner & z & c & Ho & Hb & Hn & Hcap & Hc & Hf & ->)%plan_queue_ok.
  apply plan_queue_ok. exists owner, z, c. split_and!; try done.
  - apply check_rows_iff. apply check_rows_iff in Hf as (H1 & H2 & H3 & H4). split_and!.
    + by rewrite <- P.
    + change (NoDup (QueueEntry.task_id <$> entries')). by rewrite <- P.
    + change (NoDup (QueueEntry.idempotency_key <$> entries')). by rewrite <- P.
    + intros row Hr. apply H4. by rewrite P.
  - apply check_rows_iff in Hf as (H1 & H2 & _). f_equal.
    assert (running_count entries = running_count entries') as ->.
    { unfold running_count. by rewrite (filter_length_perm _ _ _ P). }
    f_equal. assert (Forall dated entries) as Hd.
    { eapply List.Forall_impl; [|exact H1]. intros row Hrow. by apply (row_facts owner). }
    apply (StronglySorted_unique_strong fifo).
    + intros a b Ha Hb'. rewrite in_fifo_order_perm in Ha. rewrite in_fifo_order_perm, <- P in Hb'.
      by apply (fifo_antisym owner entries).
    + by apply in_fifo_order_sorted.
    + apply in_fifo_order_sorted. by rewrite <- P.
    + by rewrite !in_fifo_order_perm.
Qed.

(** ** A concrete queue: a running row, two due rows, a future one *)
Definition sample_row (id status : string) (created : Z) (lease : option moment) : QueueEntry.t :=
  QueueEntry.mk (VStr "owner") (VStr id) (VStr id) (VInt 1) (VStr status) (Aware created)
    (Aware created) (VInt 0) (VInt 2) lease.
Definition sample_queue : list QueueEntry.t :=
  [sample_row "later" "queued" 3 None; sample_row "first" "queued" 1 None;
   sample_row "busy" "running" 0 (Some (Aware 5)); sample_row "future" "queued" 99 None].
Definition sample_plan : QueuePlan.t :=
  match plan_queue sample_queue (VStr "owner") (Aware 10) (VInt 2) with
  | Ok p => p | Err _ => QueuePlan.mk [] end.
Lemma sample_plan_ok : plan_queue sample_queue (VStr "owner") (Aware 10) (VInt 2) = Ok sample_plan.
Proof. vm_compute. reflexivity. Qed.
Example sample_plan_is :
  map (λ d, (QueueDecision.task_id d, QueueDecision.disposition d)) (QueuePlan.decisions sample_plan) =
  [(VStr "busy", "reconcile"); (VStr "first", "propose_claim"); (VStr "later", "wait");
   (VStr "future", "wait")].
Proof. vm_compute. reflexivity. Qed.

Lemma plan_fifo_witness :
  plan_queue sample_queue (VStr "owner") (Aware 10) (VInt 2) = Ok sample_plan ∧
  length (QueuePlan.decisions sample_plan) = 4%nat.
Proof.
  split; [exact sample_plan_ok|].
  destruct (plan_fifo _ _ _ _ _ sample_plan_ok) as (rows & c & P & _ & _ & _ & H & _).
  rewrite H. exact (Permutation.Permutation_length P).
Defined.
Lemma plan_capacity_witness :
  plan_queue sample_queue (VStr "owner") (Aware 10) (VInt 2) = Ok sample_plan ∧
  proposals (QueuePlan.decisions sample_plan) = 1.
Proof.
  split; [exact sample_plan_ok|].
  rewrite (proj1 (plan_capacity _ _ _ _ _ sample_plan_ok)). reflexivity.
Defined.
Lemma plan_order_irrelevant_witness :
  plan_queue (rev sample_queue) (VStr "owner") (Aware 10) (VInt 2) = Ok sample_plan.
Proof.
  apply (plan_order_irrelevant sample_queue).
  - apply Permutation.Permutation_rev.
  - exact sample_plan_ok.
Defined.
