(* ===== verification/HostedActivity.v ===== *)
(** agent_core/hosted_activity.py: the client of the append-only activity
    ledger.  The transport is an operation on the world [W]. *)
From stdpp Require Import sorting.
From S2P Require Import Prelude PyString PyValue HostedQueue.

Module HostedActivityEvent.
Record t := mk {
  event_id : Z; task_id : string; event_type : string; step_id : option string;
  payload : pydict; created_at : string }.
End HostedActivityEvent.

(** The module's own scan: the same keys and the same code as the queue's. *)
Definition activity_secret_path (value : pyval) (path : string) : option string :=
  _forbidden_secret_path value path.

Definition task_char (c : Ascii.ascii) : bool := is_ascii_alnum c || one_of "._-" c.
Definition _valid_task_id (v : pyval) : bool :=
  match v with
  | VStr s => match chars s with
              | [] => false
              | c :: _ => (slen s <=? 128) && is_ascii_alnum c && forallb task_char (chars s)
              end
  | _ => false
  end.

Definition _validate_event_type (event_type : pyval) : result string :=
  match event_type with
  | VStr s => let value := strip s in
              reject_if (negb (truthy_s value) || (128 <? slen value)) ValueError
                "invalid_event_type";;
              Ok value
  | _ => raise ValueError "event_type_required"
  end.
Definition _validate_step_id (step_id : pyval) : result (option string) :=
  match step_id with
  | VNone => Ok None
  | VStr s => let value := strip s in
              reject_if (negb (truthy_s value) || (128 <? slen value)) ValueError
                "invalid_step_id";;
              Ok (Some value)
  | _ => raise ValueError "invalid_step_id"
  end.
Definition _validate_payload (payload : pyval) : result pydict :=
  match payload with
  | VDict d => match activity_secret_path payload "$" with
               | Some path => raise ValueError
                   ("event_payload_contains_forbidden_secret:" ++ path)%string
               | None => Ok d
               end
  | _ => raise ValueError "event_payload_must_be_object"
  end.

Definition bad_event {A} (msg : string) : result A := raise HostedActivityIntegrityError msg.
Definition bad_event_if (bad : bool) (msg : string) : result unit :=
  reject_if bad HostedActivityIntegrityError msg.

Definition event_text (v : pyval) : bool :=
  match v with VStr s => negb (blank s) && (slen s <=? 128) | _ => false end.

Definition _parse_event (value : pyval) (expected_task_id : pyval) :
    result HostedActivityEvent.t :=
  match value with
  | VDict d =>
      let f k := get_or_none k d in
      event_id ← match f "event_id" with
                 | VInt z => bad_event_if (z <=? 0) "invalid_activity_event_id";; Ok z
                 | _ => bad_event "invalid_activity_event_id"
                 end;
      bad_event_if (negb (_valid_task_id (f "task_id"))) "invalid_activity_task_id";;
      bad_event_if (negb (is_none expected_task_id) && negb (py_eqb (f "task_id") expected_task_id))
        "activity_task_id_mismatch";;
      bad_event_if (negb (event_text (f "event_type"))) "invalid_activity_event_type";;
      bad_event_if (negb (is_none (f "step_id")) && negb (event_text (f "step_id")))
        "invalid_activity_step_id";;
      payload ← match f "payload" with
                | VDict p => Ok p
                | _ => bad_event "invalid_activity_payload"
                end;
      bad_event_if (match activity_secret_path (VDict payload) "$" with
                    | Some _ => true | None => false end)
        "activity_payload_contains_forbidden_secret";;
      created_at ← match non_empty_str (f "created_at") with
                   | Some s => Ok s
                   | None => bad_event "invalid_activity_created_at"
                   end;
      Ok (HostedActivityEvent.mk event_id (py_str (f "task_id")) (strip (py_str (f "event_type")))
            (strip <$> as_str (f "step_id")) payload created_at)
  | _ => bad_event "activity_event_object_required"
  end.

Section Client.
Context {W : Type} (transport : string → pydict → eff W pyval).
Abbreviation E := (eff W).

Definition activity_request (mode : string) (payload : pydict) : E pydict :=
  response ← transport mode payload;
  match response with
  | VDict d =>
      if is_true (get_or_none "success" d) then mret d
      else lift (raise HostedActivityError
             (py_str (py_or (get_or_none "error" d) (VStr "hosted_activity_request_failed"))))
  | _ => lift (raise HostedActivityError "invalid_hosted_activity_response")
  end.

Definition append (task_id event_type step_id payload : pyval) : E HostedActivityEvent.t :=
  lift (reject_if (negb (_valid_task_id task_id)) ValueError "invalid_task_id");;
  kind ← lift (_validate_event_type event_type);
  step ← lift (_validate_step_id step_id);
  clean ← lift (_validate_payload (py_or payload (VDict [])));
  response ← activity_request "event_append"
    [("task_id", task_id); ("event_type", VStr kind);
     ("step_id", match step with Some s => VStr s | None => VNone end); ("payload", VDict clean)];
  lift (_parse_event (get_or_none "event" response) task_id).

Definition list_limit (limit : pyval) : bool :=
  match limit with VInt z => (1 <=? z) && (z <=? 200) | _ => false end.
Definition cursor_ok (after_event_id : pyval) : bool :=
  match after_event_id with VNone => true | VInt z => 0 <=? z | _ => false end.
(** [any(event_id <= after for event_id in ids)] when there is a cursor *)
Definition behind (after_event_id : pyval) (ids : list Z) : bool :=
  match after_event_id with
  | VInt after => existsb (λ i, i <=? after) ids
  | _ => false
  end.
(** [ids == sorted(ids)] and no duplicate *)
Definition ascending (ids : list Z) : bool :=
  bool_decide (ids = merge_sort Z.le ids) &&
  (length (remove_dups ids) =? length ids)%nat.

Definition parse_events (task_id after_event_id : pyval) (rows : list pyval) :
    result (list HostedActivityEvent.t) :=
  events ← mapR (λ row, _parse_event row task_id) rows;
  let ids := map HostedActivityEvent.event_id events in
  bad_event_if (negb (ascending ids)) "activity_event_order_or_duplicate_error";;
  bad_event_if (behind after_event_id ids) "activity_event_cursor_violation";;
  Ok events.

Definition list_events (task_id after_event_id limit : pyval) : E (list HostedActivityEvent.t) :=
  lift (reject_if (negb (_valid_task_id task_id)) ValueError "invalid_task_id");;
  lift (reject_if (negb (list_limit limit)) ValueError "activity_list_limit_out_of_range");;
  lift (reject_if (negb (cursor_ok after_event_id)) ValueError "invalid_after_event_id");;
  let request := [("task_id", task_id); ("limit", limit)] in
  response ← activity_request "event_list"
    (if is_none after_event_id then request else request ++ [("after_event_id", after_event_id)]);
  match get_or_none "events" response with
  | VList rows => lift (parse_events task_id after_event_id rows)
  | _ => lift (bad_event "activity_event_list_required")
  end.
End Client.
