(* ===== verification/HostedActivityFacts.v ===== *)
(** The activity ledger's client: what a listing promises, what it refuses to
    write, and that paging through a ledger returns the whole of it. *)
From stdpp Require Import sorting.
From S2P Require Import Prelude PyString PyValue TaskModelFacts HostedQueue HostedQueueFacts HostedActivity.

(** ** Order *)
Lemma StronglySorted_lt_le l : StronglySorted Z.lt l → StronglySorted Z.le l.
Proof.
  induction 1 as [|x l Hs IH Hx]; constructor; [done|]. eapply List.Forall_impl; [|exact Hx]. lia.
Qed.
Lemma StronglySorted_lt_NoDup l : StronglySorted Z.lt l → NoDup l.
Proof.
  induction 1 as [|x l Hs IH Hx]; constructor; [|done]. intros Hin.
  rewrite list.Forall_forall in Hx. specialize (Hx _ Hin). lia.
Qed.
(** The check accepts exactly the strictly ascending identifiers. *)
Lemma ascending_iff ids : ascending ids = true ↔ StronglySorted Z.lt ids.
Proof.
  unfold ascending. rewrite andb_true_iff, bool_decide_eq_true, Nat.eqb_eq. split.
  - intros [E HN%length_remove_dups].
    assert (StronglySorted Z.le ids) as Hs by (rewrite E; apply (StronglySorted_merge_sort Z.le)).
    clear E. induction Hs as [|x l Hs IH Hx]; [constructor|].
    apply list.NoDup_cons in HN as [Hn HN]. constructor; [auto|].
    apply list.Forall_forall. intros y Hy. rewrite list.Forall_forall in Hx. specialize (Hx y Hy).
    destruct (decide (x = y)); [by subst|lia].
  - intros Hs. split.
    + apply (StronglySorted_unique Z.le); [by apply StronglySorted_lt_le| |by rewrite merge_sort_Permutation].
      apply (StronglySorted_merge_sort Z.le).
    + by apply length_remove_dups, StronglySorted_lt_NoDup.
Qed.

(** ** Events *)
Record event_ok (task : string) (e : HostedActivityEvent.t) : Prop := {
  ev_id : 0 < HostedActivityEvent.event_id e;
  ev_task : HostedActivityEvent.task_id e = task;
  ev_clean : ¬ leaks (VDict (HostedActivityEvent.payload e)) }.

Lemma parse_event_ok v task e : _parse_event v (VStr task) = Ok e → event_ok task e.
Proof.
  unfold _parse_event, bad_event_if. destruct v as [| | | | | | |d]; try done. intros H. inv_result.
  destruct (get_or_none "event_id" d) as [| |z| | | | |]; try done. inv_result.
  destruct (get_or_none "payload" d) as [| | | | | | |p]; try done. inv_result.
  destruct (non_empty_str _); inv_result; try done.
  match goal with H : negb (is_none (VStr task)) && _ = false |- _ =>
    cbn [is_none negb andb] in H; apply negb_false_iff, py_eqb_str in H; rewrite H in * end.
  split; cbn; [lia|done|]. unfold activity_secret_path in *.
  destruct (_forbidden_secret_path (VDict _) "$") eqn:E; [done|]. by apply forbidden_path_iff in E.
Qed.

(** A page: the events of one task, in strictly ascending order, beyond the cursor. *)
Definition page_ok (task : string) (cursor : pyval) (events : list HostedActivityEvent.t) : Prop :=
  Forall (event_ok task) events ∧ StronglySorted Z.lt (map HostedActivityEvent.event_id events) ∧
  ∀ c, cursor = VInt c → ∀ e, e ∈ events → c < HostedActivityEvent.event_id e.

Lemma behind_iff cursor ids : behind cursor ids = false ↔ ∀ c, cursor = VInt c → ∀ i, i ∈ ids → c < i.
Proof.
  unfold behind. destruct cursor; try (split; [intros _ c [=]|done]).
  rewrite <- not_true_iff_false, existsb_exists. split.
  - intros H c [= <-] i Hi. destruct (Z.ltb_spec z i); [done|]. destruct H. exists i.
    rewrite <- list_elem_of_In. split; [done|lia].
  - intros H (i & Hi%list_elem_of_In & ?). specialize (H z eq_refl i Hi). lia.
Qed.

Lemma parse_events_ok task cursor rows events :
  parse_events (VStr task) cursor rows = Ok events → page_ok task cursor events.
Proof.
  unfold parse_events, bad_event_if. intros H. inv_result.
  match goal with H : mapR _ _ = Ok _ |- _ => apply mapR_Ok in H as Hm end.
  match goal with H : ascending _ = true |- _ => apply ascending_iff in H end.
  match goal with H : behind _ _ = false |- _ => rewrite behind_iff in H; rename H into Hb end.
  split_and!; [|done|].
  - clear -Hm. induction Hm as [|row e rows es Hp]; constructor; [by eapply parse_event_ok|done].
  - intros c -> e He. apply (Hb c eq_refl). apply list_elem_of_fmap. eauto.
Qed.

Section client.
Context {W : Type} (transport : string → pydict → eff W pyval).

(** What is sent and what is made of the answer. *)
Definition list_request (task : string) (cursor : pyval) (limit : Z) : pydict :=
  let request := [("task_id", VStr task); ("limit", VInt limit)] in
  if is_none cursor then request else request ++ [("after_event_id", cursor)].

Lemma list_events_ok task cursor limit w events w' :
  list_events transport (VStr task) cursor limit w = (Ok events, w') → page_ok task cursor events.
Proof.
  unfold list_events. intros H. inv_eff.
  destruct (get_or_none "events" _); inv_eff; try done. by eapply parse_events_ok.
Qed.

(** A listing the client returns holds well-formed events of the requested
    task only, in strictly ascending order without duplicates, all beyond the
    cursor, and none with a key that names a secret. *)
Theorem activity_listing_sound task cursor limit w events w' :
  list_events transport (VStr task) cursor limit w = (Ok events, w') → page_ok task cursor events.
Proof. apply list_events_ok. Qed.

(** A payload with a key that names a secret, at any depth, is refused
    before anything is sent: the append raises and the world is unchanged. *)
Theorem append_refuses_secrets task_id event_type step_id d w :
  leaks (VDict d) → ∃ e, append transport task_id event_type step_id (VDict d) w = (Err e, w).
Proof.
  intros Hl. unfold HostedActivity.append, lift. rewrite !bind_run.
  destruct (_valid_task_id task_id); [|by eexists]. cbn -[_validate_event_type].
  destruct (_validate_event_type event_type); [|by eexists]. rewrite bind_run.
  destruct (_validate_step_id step_id); [|by eexists].
  rewrite bind_run. assert (py_or (VDict d) (VDict []) = VDict d) as ->.
  { destruct d; [by inversion Hl; subst; exfalso; eapply not_elem_of_nil|done]. }
  unfold _validate_payload, activity_secret_path.
  destruct (_forbidden_secret_path (VDict d) "$") eqn:E; [by eexists|].
  by apply forbidden_path_iff in E.
Qed.

(** ** Paging *)

(** A service that answers from the ledger [events]: the first [limit] events
    beyond the cursor. *)
Definition beyond (cursor : option Z) (events : list HostedActivityEvent.t) : list HostedActivityEvent.t :=
  match cursor with
  | None => events
  | Some c => List.filter (λ e, c <? HostedActivityEvent.event_id e) events
  end.
Definition cursor_val (cursor : option Z) : pyval :=
  match cursor with Some c => VInt c | None => VNone end.

Record serves (task : string) (doc : HostedActivityEvent.t → pyval)
    (events : list HostedActivityEvent.t) : Prop := {
  sv_task : _valid_task_id (VStr task) = true;
  sv_docs : ∀ e, e ∈ events → _parse_event (doc e) (VStr task) = Ok e;
  sv_order : StronglySorted Z.lt (map HostedActivityEvent.event_id events);
  sv_answer : ∀ cursor limit w, 0 < limit → ∃ w',
    transport "event_list" (list_request task (cursor_val cursor) limit) w =
      (Ok (VDict [("success", VBool true);
                  ("events", VList (map doc (take (Z.to_nat limit) (beyond cursor events))))]), w') }.
End client.

(** Past the last event of what has been read, the rest of the ledger remains. *)
Lemma beyond_split done_ rest :
  StronglySorted Z.lt (map HostedActivityEvent.event_id (done_ ++ rest)) →
  beyond (HostedActivityEvent.event_id <$> list.last done_) (done_ ++ rest) = rest.
Proof.
  intros Hs. destruct (list.last done_) as [e|] eqn:E.
  2: { apply last_None in E as ->. done. }
  apply last_Some in E as [front ->]. cbn. rewrite filter_app. rewrite map_app in Hs.
  rewrite (proj2 (filter_nil_iff _ (front ++ [e]))), forallb_filter_id; [done|..].
  - apply forallb_forall. intros x Hx%list_elem_of_In. apply Z.ltb_lt.
    eapply StronglySorted_app_1_elem_of; [exact Hs|..]; apply list_elem_of_fmap; [exists e|eauto].
    split; [done|set_solver].
  - intros x Hx. apply Z.ltb_ge. apply elem_of_app in Hx as [Hx|Hx%list_elem_of_singleton]; [|subst; lia].
    apply StronglySorted_app_1_l in Hs. rewrite map_app in Hs. apply Z.lt_le_incl.
    eapply StronglySorted_app_1_elem_of; [exact Hs|..]; apply list_elem_of_fmap; eauto.
    exists e. split; [done|set_solver].
Qed.

(** ** A concrete service *)
Definition two_events (mode : string) (payload : pydict) : eff nat pyval := λ n,
  let event i := VDict [("event_id", VInt i); ("task_id", VStr "task-1"); ("event_type", VStr "note");
                        ("payload", VDict []); ("created_at", VStr "2026-01-01")] in
  (Ok (VDict [("success", VBool true); ("events", VList [event 3; event 8])]), S n).
Lemma activity_listing_sound_witness :
  ∃ events, list_events two_events (VStr "task-1") (VInt 2) (VInt 10) 0%nat = (Ok events, 1%nat) ∧
    page_ok "task-1" (VInt 2) events.
Proof.
  eexists. split; [vm_compute; reflexivity|].
  apply (activity_listing_sound two_events "task-1" (VInt 2) (VInt 10) 0%nat _ 1%nat).
  vm_compute. reflexivity.
Defined.
Lemma append_refuses_secrets_witness :
  ∃ e, append two_events (VStr "task-1") (VStr "note") VNone
    (VDict [("nested", VList [VDict [("Access_Token", VStr "x")]])]) 0%nat = (Err e, 0%nat).
Proof.
  apply (append_refuses_secrets two_events).
  eapply leak_entry; [apply list_elem_of_here|]. eapply leak_list; [apply list_elem_of_here|].
  eapply leak_key; [apply list_elem_of_here|].
  unfold FORBIDDEN_KEYS. change (lower "Access_Token") with "access_token".
  apply list_elem_of_further, list_elem_of_here.
Defined.
