(* ===== verification/Activation.v ===== *)
(** agent_core/activation.py: the committed manifest of a hosted run, which pins the
    one task a host may be asked to run, and authorises nothing.

    An accepted activation manifest pins one task, which the orchestrator can run
    with the read-only GitHub tools alone. *)
From S2P Require Import Prelude PyString PyValue TaskModel TaskModelFacts StateStore TaskStore Runner Registry RegistryFacts HostedQueueFacts.

Definition ACTIVATION_SCHEMA_VERSION : string := "agent-host-activation-v1".
Definition TRUSTED_REPOSITORY : string := "bzlove178100/-keirin-ai-web".
Definition TRUSTED_TASK_FILE : string := "agent_core/examples/keirin_readonly_status_task.json".
Definition TRUSTED_TASK_ID : string := "keirin-readonly-status-check".
Definition TRUSTED_ACTIONS : list string := ["github.read_main"; "github.verify_ci"].
Definition TRUSTED_GITHUB_PERMISSIONS : list string := ["actions:read"; "contents:read"].

Module HostedActivationManifest.
Record t := mk {
  schema_version : string; activation_enabled : bool; mode : string; max_tasks : Z;
  scheduler_enabled : bool; recurrence_enabled : bool; allowed_access : list string;
  repository : string; task_file : string; task_id : string; task_fingerprint : string;
  actions : list string; github_permissions : list string; safety : pydict }.
(** A committed manifest is never an authorisation. *)
Definition live_execution_authorized (m : t) : bool := false.
End HostedActivationManifest.

Definition _bool (value : pyval) (name : string) : result bool :=
  match value with VBool b => Ok b | _ => raise ValueError (name ++ "_must_be_boolean") end.
Definition _string_tuple (value : pyval) (name : string) : result (list string) :=
  match value with
  | VList l =>
      strs ← mapR (λ v, match v with
                        | VStr s => if truthy_s s then Ok s else raise ValueError ("invalid_" ++ name)
                        | _ => raise ValueError ("invalid_" ++ name)
                        end) l;
      reject_if (negb (bool_decide (NoDup strs))) ValueError ("duplicate_" ++ name);;
      Ok strs
  | _ => raise ValueError ("invalid_" ++ name)
  end.

(** What a path of the repository leads to: outside of it, to no file, or to a file
    whose text is read and parsed, or fails to be. *)
Inductive repo_file := Outside | Missing | Document (json : result pyval).

Section activation.
(** The repository, and the fingerprint pinned in the code. *)
Context (repo : string → repo_file) (TRUSTED_TASK_FINGERPRINT : string).

Definition _trusted_task (task_file : string) : result TaskSpec.t :=
  reject_if (negb (String.eqb task_file TRUSTED_TASK_FILE)) ValueError "untrusted_task_file";;
  match repo task_file with
  | Outside => raise ValueError "task_file_outside_repository"
  | Missing => raise ValueError "trusted_task_file_missing"
  | Document json => payload ← json; TaskSpec.from_dict payload
  end.

Definition required_safety : pydict :=
  [("github_write_enabled", VBool false); ("production_prediction_enabled", VBool false);
   ("keirin_prediction_db_write_enabled", VBool false); ("external_keirin_auto_fetch_enabled", VBool false);
   ("provider_generation_enabled", VBool false); ("report_delivery_enabled", VBool false)].
(** [tuple(dict.fromkeys(...))] of the actions and verifiers of the steps: each once,
    at its first place *)
Fixpoint first_places (l : list string) : list string :=
  match l with [] => [] | x :: l' => x :: filter (λ y, y ≠ x) (first_places l') end.
Definition step_names (s : StepSpec.t) : list string :=
  filter (λ a, truthy_s a = true) (StepSpec.action s :: option_list (StepSpec.verify_action s)).
Definition used_names (spec : TaskSpec.t) : list string :=
  first_places (concat (map step_names (TaskSpec.steps spec))).

(** The checks of the manifest against the task it names. *)
Definition check_task (task_id task_fingerprint : string) (actions : list string) (repository : string)
    (spec : TaskSpec.t) : result unit :=
  reject_if (negb (String.eqb (TaskSpec.task_id spec) task_id)) ValueError
    "manifest_task_id_does_not_match_task";;
  fingerprint ← TaskSpec.fingerprint spec;
  reject_if (negb (String.eqb fingerprint task_fingerprint)
             || negb (String.eqb fingerprint TRUSTED_TASK_FINGERPRINT)) ValueError
    "manifest_task_fingerprint_does_not_match_task";;
  reject_if (negb (bool_decide (used_names spec = actions))
             || negb (bool_decide (TaskSpec.allowed_actions spec = actions))) ValueError
    "manifest_actions_do_not_match_task";;
  let input k := get_or_none k (TaskSpec.inputs spec) in
  reject_if (negb (py_eqb (input "repository") (VStr repository))) ValueError
    "manifest_repository_does_not_match_task";;
  foldR (λ _ k, reject_if (negb (is_false (input k))) ValueError
                  ("trusted_task_safety_input_not_false:" ++ k))
    tt ["production_prediction_enabled"; "db_write_enabled"; "external_fetch_enabled"].

(** A pinned text: [value != expected] is refused. *)
Definition pinned (value : pyval) (expected msg : string) : result string :=
  reject_if (negb (py_eqb value (VStr expected))) ValueError msg;; Ok expected.

Definition validate_hosted_activation_manifest (payload : pyval) : result HostedActivationManifest.t :=
  match payload with
  | VDict d =>
      let field k := get_or_none k d in
      version ← pinned (field "schema_version") ACTIVATION_SCHEMA_VERSION "activation_schema_mismatch";
      activation ← _bool (field "activation_enabled") "activation_enabled";
      scheduler ← _bool (field "scheduler_enabled") "scheduler_enabled";
      recurrence ← _bool (field "recurrence_enabled") "recurrence_enabled";
      reject_if activation ValueError "committed_activation_must_be_disabled";;
      reject_if (scheduler || recurrence) ValueError "scheduler_or_recurrence_forbidden";;
      mode ← pinned (field "mode") "single_run" "single_run_mode_required";
      reject_if (negb match field "max_tasks" with VInt n => n =? 1 | _ => false end) ValueError
        "max_tasks_must_equal_one";;
      access ← _string_tuple (field "allowed_access") "allowed_access";
      reject_if (negb (bool_decide (access = ["read"]))) ValueError "read_only_access_required";;
      repository ← pinned (field "repository") TRUSTED_REPOSITORY "repository_scope_mismatch";
      task_file ← match field "task_file" with VStr s => Ok s | _ => raise ValueError "task_file_required" end;
      task_id ← pinned (field "task_id") TRUSTED_TASK_ID "task_id_scope_mismatch";
      fingerprint ← pinned (field "task_fingerprint") TRUSTED_TASK_FINGERPRINT
                      "task_fingerprint_scope_mismatch";
      actions ← _string_tuple (field "actions") "actions";
      reject_if (negb (bool_decide (actions = TRUSTED_ACTIONS))) ValueError "action_scope_mismatch";;
      permissions ← _string_tuple (field "github_permissions") "github_permissions";
      reject_if (negb (bool_decide (sorted permissions = TRUSTED_GITHUB_PERMISSIONS))) ValueError
        "github_permission_scope_mismatch";;
      safety ← match field "safety" with
               | VDict s => reject_if (negb (py_eqb (VDict s) (VDict required_safety))) ValueError
                              "activation_safety_contract_mismatch";; Ok s
               | _ => raise ValueError "activation_safety_contract_mismatch"
               end;
      spec ← _trusted_task task_file;
      check_task task_id fingerprint actions repository spec;;
      Ok (HostedActivationManifest.mk version activation "single_run" 1 scheduler recurrence access
            repository task_file task_id fingerprint actions (sorted permissions) safety)
  | _ => raise ValueError "activation_manifest_object_required"
  end.
End activation.

(** * What an accepted manifest gives *)
Import HostedActivationManifest.

Lemma elem_of_first_places x l : x ∈ first_places l ↔ x ∈ l.
Proof.
  induction l as [|y l IH]; cbn; [done|]. rewrite !elem_of_cons, list_elem_of_filter, IH.
  destruct (decide (x = y)); naive_solver.
Qed.
Lemma used_names_actions spec a : a ∈ used_actions spec ↔ a ∈ used_names spec.
Proof.
  unfold used_actions, used_names. rewrite elem_of_first_places, elem_of_list_to_set.
  assert (∀ s, a ∈ step_actions s ↔ a ∈ step_names s) as Hs.
  { intros s. unfold step_actions, step_names, TaskSpec.verifier_of.
    rewrite list_elem_of_filter, elem_of_app, elem_of_cons.
    destruct (truthy_s (StepSpec.action s)) eqn:E1, (StepSpec.verify_action s) as [v|]; cbn;
      [destruct (truthy_s v) eqn:E2| |destruct (truthy_s v) eqn:E2|];
      rewrite ?list_elem_of_singleton, ?list.elem_of_nil; naive_solver congruence. }
  induction (TaskSpec.steps spec) as [|s l IH]; cbn; [done|]. by rewrite !elem_of_app, Hs, IH.
Qed.

Section facts.
Context (repo : string → repo_file) (fp : string).

Lemma check_task_ok i f acts rp spec : check_task fp i f acts rp spec = Ok tt →
  TaskSpec.task_id spec = i ∧ TaskSpec.fingerprint spec = Ok fp ∧ used_names spec = acts.
Proof.
  unfold check_task. cbv zeta. intros H. inv_result.
  repeat match goal with H : (_ =? _)%string = true |- _ => apply String.eqb_eq in H; subst end.
  done.
Qed.
Lemma pinned_ok v e msg x : pinned v e msg = Ok x → x = e ∧ v = VStr e.
Proof. unfold pinned. intros H. inv_result. split; [done|]. by apply py_eqb_str. Qed.
Lemma trusted_task_ok file spec : _trusted_task repo file = Ok spec →
  file = TRUSTED_TASK_FILE ∧ ∃ payload, repo file = Document (Ok payload) ∧ TaskSpec.from_dict payload = Ok spec.
Proof.
  unfold _trusted_task. intros H. inv_result. split; [by apply String.eqb_eq|].
  destruct (repo file); inv_result. subst. eauto.
Qed.

Lemma github_registers {W} (file_reader : string → string → string → eff W pyval)
    (ci_reader : string → string → eff W pyval) :
  ∃ r, ToolRegistry.register ToolRegistry.empty (GitHub.adapter file_reader ci_reader) = Ok r.
Proof.
  unfold ToolRegistry.register. cbv zeta. rewrite bool_decide_true.
  2: { apply collisions_nil. apply map_disjoint_empty_r. }
  rewrite bool_decide_true; [by eexists|]. unfold ToolRegistry.capability_map, GitHub.adapter.
  cbn [capabilities adapter_actions foldl cap_action]. rewrite !dom_insert_L, dom_empty_L. set_solver.
Qed.

(** The registry of the read-only GitHub tools runs any valid task whose actions are
    the two trusted ones. *)
Lemma trusted_actions_ready {W} (file_reader : string → string → string → eff W pyval)
    (ci_reader : string → string → eff W pyval) spec :
  spec_ok spec → used_names spec = TRUSTED_ACTIONS →
  ∃ r report, ToolRegistry.register ToolRegistry.empty (GitHub.adapter file_reader ci_reader) = Ok r ∧
    preflight r spec (Some ["read"]) = Ok report ∧ ready report = true.
Proof.
  intros Hs Hu. destruct (github_registers file_reader ci_reader) as [r E].
  pose proof (register_keeps_ok _ _ _ empty_ok E) as Hr.
  destruct (preflight_spec r spec (Some ["read"]) Hr Hs) as (report & Hp & Hiff).
  exists r, report. split_and!; [done|done|].
  assert (missing_actions report = [] ∧ forbidden_actions report = []) as [Hm Hf].
  { apply Hiff. intros a Ha%used_names_actions. rewrite Hu in Ha. apply register_ok in E as (_ & _ & ->).
    unfold ToolRegistry.capability. cbn.
    apply elem_of_cons in Ha as [-> | ->%list_elem_of_singleton]; eexists; (split; [reflexivity|]);
      intros l [= <-]; apply list_elem_of_here. }
  unfold preflight in Hp. inv_result. cbn in *. by rewrite !bool_decide_true.
Qed.

(** An accepted manifest authorises nothing; the task it names is the pinned one, a
    valid definition that the orchestrator finds ready with the read-only GitHub
    tools and read access alone. *)
Theorem activation_scope payload m :
  validate_hosted_activation_manifest repo fp payload = Ok m →
  live_execution_authorized m = false ∧ activation_enabled m = false ∧ scheduler_enabled m = false ∧
  recurrence_enabled m = false ∧ max_tasks m = 1 ∧ allowed_access m = ["read"] ∧
  ∃ spec, _trusted_task repo (task_file m) = Ok spec ∧ TaskSpec.task_id spec = TRUSTED_TASK_ID ∧
    TaskSpec.fingerprint spec = Ok fp ∧
    ∀ W (file_reader : string → string → string → eff W pyval) ci_reader,
      ∃ r report, ToolRegistry.register ToolRegistry.empty (GitHub.adapter file_reader ci_reader) = Ok r ∧
        preflight r spec (Some (allowed_access m)) = Ok report ∧ ready report = true.
Proof.
  unfold validate_hosted_activation_manifest. destruct payload as [| | | | | | |d]; try done. cbv zeta.
  intros H. inv_result. cbn [live_execution_authorized activation_enabled scheduler_enabled
    recurrence_enabled max_tasks allowed_access task_file].
  match goal with H : _trusted_task _ _ = Ok ?s |- _ => rename s into spec; rename H into Ht end.
  match goal with H : check_task _ _ _ _ _ _ = Ok _ |- _ => apply check_task_ok in H as (Hi & Hf & Hu) end.
  repeat match goal with H : pinned _ _ _ = Ok _ |- _ => apply pinned_ok in H as [-> _] end.
  split_and!; try done. exists spec. split_and!; [done|done|done|].
  apply trusted_task_ok in Ht as (_ & payload & _ & Hs%from_dict_ok).
  subst. intros W file_reader ci_reader. by apply trusted_actions_ready.
Qed.
End facts.

(** A repository with an English version of the trusted task. *)
Definition example_task : pyval :=
  VDict [("schema_version", VStr TASK_SCHEMA_VERSION); ("task_id", VStr TRUSTED_TASK_ID);
         ("title", VStr "Status check"); ("goal", VStr "Read the current state");
         ("allowed_actions", VList (map VStr TRUSTED_ACTIONS));
         ("inputs", VDict [("repository", VStr TRUSTED_REPOSITORY);
                           ("production_prediction_enabled", VBool false); ("db_write_enabled", VBool false);
                           ("external_fetch_enabled", VBool false)]);
         ("steps", VList [VDict [("step_id", VStr "read-current-state"); ("action", VStr "github.read_main");
                                 ("verify_action", VStr "github.verify_ci"); ("retry_safe", VBool true);
                                 ("max_attempts", VInt 2)]])].
Definition example_repo (path : string) : repo_file :=
  if String.eqb path TRUSTED_TASK_FILE then Document (Ok example_task) else Missing.
Definition example_fingerprint : string :=
  match TaskSpec.from_dict example_task ≫= TaskSpec.fingerprint with Ok f => f | Err _ => "" end.
Definition example_activation (max_tasks : Z) : pyval :=
  VDict [("schema_version", VStr ACTIVATION_SCHEMA_VERSION); ("activation_enabled", VBool false);
         ("scheduler_enabled", VBool false); ("recurrence_enabled", VBool false); ("mode", VStr "single_run");
         ("max_tasks", VInt max_tasks); ("allowed_access", VList [VStr "read"]);
         ("repository", VStr TRUSTED_REPOSITORY); ("task_file", VStr TRUSTED_TASK_FILE);
         ("task_id", VStr TRUSTED_TASK_ID); ("task_fingerprint", VStr example_fingerprint);
         ("actions", VList (map VStr TRUSTED_ACTIONS));
         ("github_permissions", VList (map VStr TRUSTED_GITHUB_PERMISSIONS));
         ("safety", VDict required_safety)].
Lemma activation_scope_witness : ∃ m,
  validate_hosted_activation_manifest example_repo example_fingerprint (example_activation 1) = Ok m ∧
  live_execution_authorized m = false.
Proof.
  destruct (validate_hosted_activation_manifest example_repo example_fingerprint (example_activation 1))
    as [m|e] eqn:E; [|by vm_compute in E].
  exists m. split; [done|]. exact (proj1 (activation_scope _ _ _ m E)).
Defined.
Example two_tasks_refused :
  validate_hosted_activation_manifest example_repo example_fingerprint (example_activation 2) =
  raise ValueError "max_tasks_must_equal_one".
Proof. vm_compute. reflexivity. Qed.
