(* ===== verification/HostedWorker.v ===== *)
(** agent_core/hosted_worker.py and agent_core/hosted_readonly_worker.py: the
    workers that compose the hosted queue, the activity ledger, the tool registry
    and, for the read-only worker, the runner over a leased row.

    [W] is the outside world: the two services behind their transports, the clock
    and the providers behind the registered actions. *)
From S2P Require Import Prelude PyString PyValue TaskModel Diagnostics TaskStore Runner Registry.
From S2P Require Import HostedQueue HostedActivity.
Import HostedQueueLease (status, lease_owner).

(** ** What the two workers share *)
Section shared.
Context {W : Type} (queue activity : string → pydict → eff W pyval) (utc_now : eff W string).
Context (registry : ToolRegistry.t W).
Abbreviation E := (eff W).

(** [_preflight]: the unregistered actions, and the registered ones whose access
    is not allowed. *)
Definition _preflight (spec : TaskSpec.t) (allowed_access : list string) :
    result (list string * list string) :=
  TaskSpec.validate spec;;
  let used := used_actions spec in
  let registered : gset string := dom (ToolRegistry.actions registry) in
  Ok (sorted (elements (used ∖ registered)),
      List.filter (forbidden registry allowed_access) (sorted (elements (used ∩ registered)))).

(** [_blocked_state(lease, reason)] *)
Definition _blocked_state (lease : HostedQueueLease.t) (reason : string) : E TaskState.t :=
  t ← utc_now;
  state ← lift (TaskState.from_dict t (TaskState.to_dict (HostedQueueLease.state lease)));
  t ← utc_now;
  mret (TaskState.touch t (TaskState.set_last_error VNone
          (TaskState.set_blocked_reason (VStr reason) (TaskState.set_status "blocked" state)))).

Definition save_lease (lease : HostedQueueLease.t) (state : TaskState.t)
    (worker_id lease_seconds : pyval) : E HostedQueueLease.t :=
  HostedQueue.save queue utc_now (HostedQueueLease.spec lease) state
    (VInt (HostedQueueLease.revision lease)) worker_id
    (VInt (HostedQueueLease.lease_generation lease)) lease_seconds.

(** [activity.append(task_id=lease.task_id, ...)], its result dropped *)
Definition note (lease : HostedQueueLease.t) (event_type : string) (payload : pydict) : E unit :=
  HostedActivity.append activity (VStr (HostedQueueLease.task_id lease)) (VStr event_type) VNone
    (VDict payload);;
  mret tt.

(** The identity every worker event carries. *)
Definition lease_payload (worker_id : pyval) (lease : HostedQueueLease.t) : pydict :=
  [("worker_id", worker_id); ("revision", VInt (HostedQueueLease.revision lease));
   ("lease_generation", VInt (HostedQueueLease.lease_generation lease))].

(** [released.status != "blocked" or released.lease_owner is not None] *)
Definition not_released (l : HostedQueueLease.t) : bool :=
  negb (String.eqb (status l) "blocked") || HostedQueueLease.is_some (lease_owner l).
End shared.

(** ** HostedWorkerCoordinator *)
Module HostedWorkerDecision.
Record t := mk {
  claimed : bool; task_id : option string; revision : option Z; lease_generation : option Z;
  ready : bool; execution_enabled : bool; missing_actions : list string;
  forbidden_actions : list string; blocked_reason : option string }.
End HostedWorkerDecision.

Definition EXECUTION_BLOCK_REASON : string := "hosted_task_execution_not_activated".

Section Coordinator.
Context {W : Type} (queue activity : string → pydict → eff W pyval) (utc_now : eff W string).
Context (registry : ToolRegistry.t W).

Definition block_reason (missing barred : list string) : string :=
  if negb (bool_decide (missing = [])) then ("preflight_missing_actions:" ++ join "," missing)%string
  else if negb (bool_decide (barred = []))
  then ("preflight_forbidden_actions:" ++ join "," barred)%string
  else EXECUTION_BLOCK_REASON.

Definition inspect_next (worker_id lease_seconds : pyval) (allowed_access : list string) :
    eff W HostedWorkerDecision.t :=
  claimed ← HostedQueue.claim queue utc_now worker_id lease_seconds;
  match claimed with
  | None => mret (HostedWorkerDecision.mk false None None None false false [] []
                    (Some "queue_empty"))
  | Some lease =>
      note activity lease "worker_preflight_started" (lease_payload worker_id lease);;
      found ← lift (_preflight registry (HostedQueueLease.spec lease) allowed_access);
      let '(missing, barred) := found in
      let reason := block_reason missing barred in
      blocked_state ← _blocked_state utc_now lease reason;
      released ← save_lease queue utc_now lease blocked_state worker_id lease_seconds;
      lift (reject_if (not_released released) RuntimeError
        "worker_preflight_failed_to_release_lease");;
      note activity lease "worker_preflight_blocked"
        (lease_payload worker_id released ++
         [("reason", VStr reason); ("missing_actions", VList (map VStr missing));
          ("forbidden_actions", VList (map VStr barred)); ("execution_enabled", VBool false)]);;
      mret (HostedWorkerDecision.mk true (Some (HostedQueueLease.task_id lease))
              (Some (HostedQueueLease.revision released))
              (Some (HostedQueueLease.lease_generation released))
              (bool_decide (missing = []) && bool_decide (barred = [])) false missing barred
              (Some reason))
  end.
End Coordinator.

(** ** HostedLeaseStateStore

    The lease the store holds, next to the outside world. *)
Record leased (W : Type) := Leased { lease : HostedQueueLease.t; remote : W }.
Arguments Leased {W}. Arguments lease {W}. Arguments remote {W}.

Module HostedLeaseStateStore.
Section Store.
Context {W : Type} (queue activity : string → pydict → eff W pyval) (utc_now : eff W string).
Context (worker_id lease_seconds : pyval).
Abbreviation E := (eff (leased W)).

Definition on_remote {A} (m : eff W A) : E A := λ h,
  let '(r, w) := m (remote h) in (r, Leased (lease h) w).
(** [if task_id != self.lease.task_id: raise ValueError(msg)] *)
Definition same_task (task_id msg : string) : E unit :=
  l ← gets lease;
  lift (reject_if (negb (String.eqb task_id (HostedQueueLease.task_id l))) ValueError msg).

(** [state_path(task_id).exists()] *)
Definition state_path_exists (task_id : string) : E bool :=
  same_task task_id "task_state_id_mismatch";; mret true.
Definition task_lock {A} (task_id : string) (body : E A) : E A :=
  same_task task_id "task_state_id_mismatch";; body.
Definition load_state (task_id : string) : E TaskState.t :=
  same_task task_id "task_state_id_mismatch";;
  l ← gets lease;
  t ← on_remote utc_now;
  lift (TaskState.from_dict t (TaskState.to_dict (HostedQueueLease.state l))).
Definition save_state (state : TaskState.t) : E TaskState.t :=
  same_task (TaskState.task_id state) "task_state_id_mismatch";;
  t ← on_remote utc_now;
  let state := TaskState.touch t state in
  l ← gets lease;
  l ← on_remote (save_lease queue utc_now l state worker_id lease_seconds);
  modify (λ h, Leased l (remote h));;
  mret state.
(** The event the service returns is not used by the runner. *)
Definition append_event (task_id event_type message : string) (step_id : option string)
    (data : pydict) : E pyval :=
  same_task task_id "activity_task_id_mismatch";;
  on_remote (HostedActivity.append activity (VStr task_id) (VStr event_type) (opt_str step_id)
    (VDict [("message", VStr message); ("data", VDict data)]));;
  mret VNone.

Definition store : TaskStore (leased W) W := {|
  ts_exists := state_path_exists; ts_load := load_state; ts_save := save_state;
  ts_append := append_event; ts_lock := @task_lock; ts_world := @on_remote |}.
End Store.
End HostedLeaseStateStore.

(** ** HostedReadOnlyWorker *)
Module HostedReadOnlyWorkerResult.
Record t := mk {
  claimed : bool; task_id : option string; execution_enabled : bool;
  outcome : option RunOutcome.t; blocked_reason : pyval }.
End HostedReadOnlyWorkerResult.

(** The write flags of an artifact update an action returned. *)
Definition update_flags (u : ArtifactUpdate.t) : list pyval :=
  [ArtifactUpdate.created u; ArtifactUpdate.persistent_saved u; ArtifactUpdate.device_saved u;
   ArtifactUpdate.ui_loaded u].
Definition write_flags : list string := ["created"; "persistent_saved"; "device_saved"; "ui_loaded"].
Definition item_flags (i : artifact_item) : result (list pyval) :=
  match i with
  | ItemUpdate u => Ok (update_flags u)
  | ItemValue (VDict d) => Ok (map (λ name, get_or_none name d) write_flags)
  | ItemValue _ => raise_safe "read_only_action_returned_invalid_artifact_update"
  end.
Definition _artifact_updates (v : action_value) : list artifact_item :=
  match v with
  | RetResult r => map ItemUpdate (ActionResult.artifacts r)
  | RetDict arts _ => default [] arts
  | _ => []
  end.
Fixpoint check_items (items : list artifact_item) : result unit :=
  match items with
  | [] => Ok tt
  | i :: items' =>
      flags ← item_flags i;
      if existsb is_true flags then raise_safe "read_only_action_reported_write_artifact"
      else check_items items'
  end.
Definition _assert_read_only_result (v : action_value) : result action_value :=
  check_items (_artifact_updates v);; Ok v.

Section Worker.
Context {W : Type} (queue activity : string → pydict → eff W pyval) (utc_now : eff W string).
Context (registry : ToolRegistry.t W) (execution_authorized : pyval).
(** [type(e).__name__], and the hook a subclass may override; here it is None. *)
Context (type_name : exn → string) (_scope_failure : HostedQueueLease.t → option string).

Definition guard (implementation : Action W) : Action W := λ args context,
  v ← implementation args context; lift (_assert_read_only_result v).
Definition is_read (action : string) : bool :=
  match ToolRegistry.capability registry action with
  | Some c => String.eqb (access c) "read"
  | None => false
  end.
(** [HostedReadOnlyWorker._preflight]: the unregistered actions, and the registered
    ones that are not read actions. *)
Definition _preflight_read_only (spec : TaskSpec.t) : result (list string * list string) :=
  TaskSpec.validate spec;;
  let used := used_actions spec in
  let registered : gset string := dom (ToolRegistry.actions registry) in
  Ok (sorted (elements (used ∖ registered)),
      List.filter (λ action, negb (is_read action)) (sorted (elements (used ∩ registered)))).
Definition _guarded_actions : gmap string (Action W) :=
  map_imap (λ action implementation, if is_read action then Some (guard implementation) else None)
    (ToolRegistry.actions registry).

Definition _release_blocked (l : HostedQueueLease.t) (worker_id lease_seconds : pyval)
    (reason : string) : eff W HostedQueueLease.t :=
  state ← _blocked_state utc_now l reason;
  released ← save_lease queue utc_now l state worker_id lease_seconds;
  lift (reject_if (not_released released) RuntimeError "read_only_worker_failed_to_release_lease");;
  note activity l "readonly_worker_blocked" (lease_payload worker_id released ++ [("reason", VStr reason)]);;
  mret released.

(** Release the lease and return the reason. *)
Definition refuse (l : HostedQueueLease.t) (worker_id lease_seconds : pyval) (reason : string) :
    eff W HostedReadOnlyWorkerResult.t :=
  _release_blocked l worker_id lease_seconds reason;;
  mret (HostedReadOnlyWorkerResult.mk true (Some (HostedQueueLease.task_id l)) true None (VStr reason)).

(** [AgentRunner(store, self._guarded_actions(store)).run(lease.spec)] *)
Definition run_leased (l : HostedQueueLease.t) (worker_id lease_seconds : pyval) :
    eff W RunOutcome.t := λ w,
  let store := HostedLeaseStateStore.store queue activity utc_now worker_id lease_seconds in
  let '(r, h) := run (TS:=store) _guarded_actions None type_name (HostedQueueLease.spec l) []
                   (Leased l w) in
  (r, remote h).

Definition run_next (worker_id lease_seconds : pyval) : eff W HostedReadOnlyWorkerResult.t :=
  lift (reject_if (negb (is_true execution_authorized)) HostedExecutionNotAuthorized
    "hosted_readonly_execution_not_authorized");;
  claimed ← HostedQueue.claim queue utc_now worker_id lease_seconds;
  match claimed with
  | None => mret (HostedReadOnlyWorkerResult.mk false None true None (VStr "queue_empty"))
  | Some l =>
      note activity l "readonly_worker_claimed" (lease_payload worker_id l);;
      let scope_failure := default "" (_scope_failure l) in
      if truthy_s scope_failure then refuse l worker_id lease_seconds scope_failure
      else
        found ← lift (_preflight_read_only (HostedQueueLease.spec l));
        let '(missing, non_read) := found in
        if negb (bool_decide (missing = [])) then
          refuse l worker_id lease_seconds ("preflight_missing_actions:" ++ join "," missing)%string
        else if negb (bool_decide (non_read = [])) then
          refuse l worker_id lease_seconds
            ("readonly_worker_forbidden_actions:" ++ join "," non_read)%string
        else
          outcome ← run_leased l worker_id lease_seconds;
          mret (HostedReadOnlyWorkerResult.mk true (Some (HostedQueueLease.task_id l)) true
                  (Some outcome) (RunOutcome.blocked_reason outcome))
  end.
End Worker.
