(* ===== verification/HostedWorkerFacts.v ===== *)
(** The hosted workers: what they release, what they ask of the services, which
    implementations they may call, and the fencing of every save of a run. *)
From S2P Require Import Prelude PyString PyValue TaskModel TaskModelFacts Diagnostics TaskStore.
From S2P Require Import Runner RunnerFacts Registry RegistryFacts Recorder.
From S2P Require Import HostedQueue HostedQueueFacts HostedActivity HostedWorker.

(** ** Registries that differ only in what may not be called *)
Section registries.
Context {W : Type}.
Implicit Types r : ToolRegistry.t W.

(** The same actions under the same capabilities. *)
Definition same_tools r r' : Prop :=
  ToolRegistry._capabilities r = ToolRegistry._capabilities r' ∧
  dom (ToolRegistry.actions r) = dom (ToolRegistry.actions r').
(** ... and the same implementations of the actions whose access is "read". *)
Definition same_reads r r' : Prop :=
  same_tools r r' ∧
  ∀ a, is_read r a = true → ToolRegistry.actions r !! a = ToolRegistry.actions r' !! a.

Lemma forbidden_same r r' al : same_tools r r' → forbidden r al = forbidden r' al.
Proof. intros [Hc _]. unfold forbidden, ToolRegistry.capability. by rewrite Hc. Qed.
Lemma preflight_same r r' spec al : same_tools r r' → _preflight r spec al = _preflight r' spec al.
Proof.
  intros Hs. unfold _preflight. rewrite (forbidden_same r r' al Hs). destruct Hs as [_ Hd].
  by rewrite Hd.
Qed.
Lemma is_read_same r r' a : same_tools r r' → is_read r a = is_read r' a.
Proof. intros [Hc _]. unfold is_read, ToolRegistry.capability. by rewrite Hc. Qed.
Lemma guarded_same r r' : same_reads r r' → _guarded_actions r = _guarded_actions r'.
Proof.
  intros [Ht Hr]. apply map_eq. intros a. unfold _guarded_actions. rewrite !map_lookup_imap.
  rewrite <- (is_read_same r r' a Ht). destruct (is_read r a) eqn:E.
  - by rewrite (Hr a E).
  - destruct (ToolRegistry.actions r !! a), (ToolRegistry.actions r' !! a); done.
Qed.

(** The preflight of the read-only worker is that of the coordinator for "read". *)
Lemma preflight_read_only_eq r spec : _preflight_read_only r spec = _preflight r spec ["read"].
Proof.
  unfold _preflight_read_only, _preflight. destruct (TaskSpec.validate spec); [|done]. cbn.
  do 2 f_equal. apply List.filter_ext. intros k. unfold is_read, forbidden.
  destruct (ToolRegistry.capability r _) as [c|]; [|done].
  destruct (String.eqb_spec (access c) "read") as [->|N]; [done|].
  cbn. symmetry. apply bool_decide_eq_true_2. set_solver.
Qed.

Lemma preflight_nil r spec al missing barred : registry_ok r →
  _preflight r spec al = Ok (missing, barred) →
  spec_ok spec ∧ (missing = [] ∧ barred = [] ↔ permitted r (Some al) spec).
Proof.
  intros Hr H. unfold _preflight in H. inv_result.
  match goal with H : TaskSpec.validate _ = Ok _ |- _ => apply spec_validate_iff in H end.
  split; [done|]. by apply preflight_lists.
Qed.
End registries.

(** ** The coordinator *)
Section coordinator.
Context {W : Type} (queue activity : string → pydict → eff W pyval) (utc_now : eff W string).
Context (r : ToolRegistry.t W).

(** No action implementation is ever called: the inspection does not depend on
    them. *)
Lemma inspection_ignores_actions r' wid secs al w :
  same_tools r r' →
  inspect_next queue activity utc_now r wid secs al w =
  inspect_next queue activity utc_now r' wid secs al w.
Proof.
  intros Hs. unfold inspect_next. apply bind_ext; [done|]. intros [l|] w1; [|done].
  apply bind_ext; [done|]. intros _ w2. by rewrite (preflight_same r r' _ _ Hs).
Qed.

(** An inspection of the hosted queue never enables execution.  When it
    reports a claimed task, that task was leased to the worker, the durable row
    it leaves is the next revision of the same lease generation with no owner,
    and the task is reported ready exactly when every action it uses is
    registered with an allowed access. *)
Theorem inspection_sound wid secs al w d w' :
  registry_ok r →
  inspect_next queue activity utc_now r wid secs al w = (Ok d, w') →
  HostedWorkerDecision.execution_enabled d = false ∧
  (HostedWorkerDecision.claimed d = true →
   ∃ l, held_by wid l ∧ HostedWorkerDecision.task_id d = Some (HostedQueueLease.task_id l) ∧
     HostedWorkerDecision.revision d = Some (HostedQueueLease.revision l + 1) ∧
     HostedWorkerDecision.lease_generation d = Some (HostedQueueLease.lease_generation l) ∧
     (HostedWorkerDecision.ready d = true ↔ permitted r (Some al) (HostedQueueLease.spec l))) ∧
  (HostedWorkerDecision.claimed d = false → HostedWorkerDecision.blocked_reason d = Some "queue_empty").
Proof.
  intros Hr H. unfold inspect_next in H. inv_eff.
  match goal with H : claim _ _ _ _ _ = (Ok ?o, _) |- _ => destruct o as [l|] end; inv_eff; [|done].
  match goal with H : claim _ _ _ _ _ = _ |- _ => apply claim_sound in H as (Hh & _) end.
  match goal with H : _preflight _ _ _ = Ok ?p |- _ =>
    destruct p as [missing barred]; apply preflight_nil in H as [_ Hp]; [|done] end.
  inv_eff. cbn. split_and!; [done| |done]. intros _. exists l.
  match goal with H : save_lease _ _ _ _ _ _ _ = _ |- _ =>
    apply save_returned in H as (rv & g & [= <-] & [= <-] & _ & _ & _ & Hrev & Hg & _) end.
  split_and!; [done|done|by rewrite Hrev|by rewrite Hg|].
  rewrite andb_true_iff, !bool_decide_eq_true. exact Hp.
Qed.
End coordinator.

(** ** The fencing of a leased run

    [saves] are the payloads of the [queue_save] requests of a log. *)
Definition saves (log : list (string * pydict)) : list pydict :=
  omap (λ mp, if String.eqb mp.1 "queue_save" then Some mp.2 else None) log.
#[local] Arguments saves : simpl never.
Lemma saves_app l l' : saves (l ++ l') = saves l ++ saves l'.
Proof. apply omap_app. Qed.

(** The payload of a save of the revision after [rev], by a worker. *)
Record fenced_save (wid : pyval) (id : string) (gen rev : Z) (p : pydict) : Prop := {
  fs_task : dict_get "task_id" p = Some (VStr id);
  fs_revision : dict_get "expected_revision" p = Some (VInt rev);
  fs_worker : dict_get "worker_id" p = Some wid;
  fs_generation : dict_get "lease_generation" p = Some (VInt gen) }.
(** The saves of consecutive revisions, the first one from [rev]. *)
Definition consecutive wid id gen rev (ps : list pydict) : Prop :=
  ∀ i p, ps !! i = Some p → fenced_save wid id gen (rev + Z.of_nat i) p.

Lemma consecutive_snoc wid id gen rev ps p :
  consecutive wid id gen rev ps → fenced_save wid id gen (rev + Z.of_nat (length ps)) p →
  consecutive wid id gen rev (ps ++ [p]).
Proof.
  intros Hc Hp i q. rewrite lookup_app_Some. intros [H|[Hl H]]; [by apply Hc|].
  apply list_lookup_singleton_Some in H as [Hi <-].
  by replace i with (length ps) by lia.
Qed.

(** Documents of definitions that are equal name the same task. *)
Lemma same_document_id s s' :
  py_eqb (TaskSpec.to_dict s) (TaskSpec.to_dict s') = true → TaskSpec.task_id s = TaskSpec.task_id s'.
Proof.
  unfold TaskSpec.to_dict. rewrite py_eqb_dict. cbn [eq_entries length].
  intros [_ H]%andb_true_iff. cbn in H. rewrite !andb_true_iff in H.
  destruct H as (_ & H & _). by apply String.eqb_eq.
Qed.

Section fencing.
Context {W : Type} (queue activity : string → pydict → eff W pyval) (utc_now : eff W string).
Abbreviation log := (list (string * pydict)).
Abbreviation tq := (traced queue).
Abbreviation ta := (traced activity).
Abbreviation clock := (quietly (L:=string * pydict) utc_now).

(** Operations that make no save. *)
Abbreviation saveless := (adds (λ new : log, saves new = [])).
Lemma saveless_bind {A B} (m : eff (W * log) A) (f : A → eff (W * log) B) :
  saveless m → (∀ a, saveless (f a)) → saveless (m ≫= f).
Proof.
  intros Hm Hf. eapply adds_bind; [exact Hm|exact Hf|done|]. intros l l' Hl Hl'.
  by rewrite saves_app, Hl, Hl'.
Qed.
Lemma saveless_request mode p : mode ≠ "queue_save" →
  saveless (HostedQueue._request tq mode p) ∧ saveless (HostedActivity.activity_request ta mode p).
Proof.
  intros Hm. split.
  - apply saveless_bind; [apply adds_logged; unfold saves; cbn|intros []; try by apply adds_lift].
    + by rewrite (proj2 (String.eqb_neq _ _) Hm).
    + case_match; [by apply (adds_lift _ (Ok _))|by apply (adds_lift _ (Err _))].
  - apply saveless_bind; [apply adds_logged; unfold saves; cbn|intros []; try by apply adds_lift].
    + by rewrite (proj2 (String.eqb_neq _ _) Hm).
    + case_match; [by apply (adds_lift _ (Ok _))|by apply adds_lift].
Qed.
Ltac saveless_tac :=
  repeat first
    [ by apply (saveless_request _ _) | apply saveless_bind; [|intros ?] | by apply adds_lift
    | by apply adds_quietly | by apply (adds_lift _ (Ok _)) | case_match ].
Lemma claim_saveless wid secs : saveless (HostedQueue.claim tq clock wid secs).
Proof. unfold HostedQueue.claim, HostedQueue.parse_field. saveless_tac. Qed.
Lemma append_saveless id ty s p : saveless (HostedActivity.append ta id ty s p).
Proof. unfold HostedActivity.append. saveless_tac. Qed.
Lemma note_saveless l ty p : saveless (note ta l ty p).
Proof. unfold note. apply saveless_bind; [apply append_saveless|intros; saveless_tac]. Qed.

(** An operation raises before its only save, or makes that save. *)
Definition one_save {A} (P : pydict → Prop) (m : eff (W * log) A) : Prop := ∀ s,
  ((m s).2.2 = s.2 ∧ is_ok (m s).1 = false) ∨
  (∃ p new, P p ∧ (m s).2.2 = s.2 ++ ("queue_save", p) :: new ∧ saves new = []).
Lemma one_save_lift {A B} P (r : result A) (f : A → eff (W * log) B) :
  (∀ a, r = Ok a → one_save P (f a)) → one_save P (lift r ≫= f).
Proof.
  intros Hf s. rewrite bind_run. unfold lift. destruct r as [a|e]; [by apply Hf|by left].
Qed.
Lemma one_save_quietly {A B} P (m : eff W A) (f : A → eff (W * log) B) :
  (∀ a, one_save P (f a)) → one_save P (quietly m ≫= f).
Proof.
  intros Hf s. rewrite bind_run. unfold quietly. destruct (m s.1) as [[a|e] w]; [|by left].
  destruct (Hf a (w, s.2)) as [H|H]; [by left|by right].
Qed.
Lemma one_save_request {B} (P : pydict → Prop) p (f : pydict → eff (W * log) B) :
  P p → (∀ d, saveless (f d)) → one_save P (HostedQueue._request tq "queue_save" p ≫= f).
Proof.
  intros Hp Hf s. right. exists p. rewrite bind_run. unfold HostedQueue._request.
  rewrite bind_run. unfold logged. destruct (queue "queue_save" p s.1) as [[v|e] w].
  2: by exists [].
  destruct v as [| | | | | | |d]; try by exists [].
  cbn -[is_true get_or_none]. destruct (is_true (get_or_none "success" d)); [|by exists []].
  unfold mret, eff_ret. destruct (Hf d (w, s.2 ++ [("queue_save", p)])) as (new & -> & Hn).
  exists new. split_and!; [done| |done]. cbn [snd]. by rewrite <- (assoc_L (++)).
Qed.
(** The same without the outcome. *)
Definition up_to_one (P : pydict → Prop) (new : log) : Prop :=
  saves new = [] ∨ ∃ p, P p ∧ saves new = [p].
Lemma one_save_adds {A} P (m : eff (W * log) A) : one_save P m → adds (up_to_one P) m.
Proof.
  intros Hm s. destruct (Hm s) as [[E _]|(p & new & Hp & E & Hn)].
  - exists []. rewrite app_nil_r. split; [done|by left].
  - exists (("queue_save", p) :: new). split; [done|]. right. exists p. split; [done|].
    change (p :: saves new = [p]). by rewrite Hn.
Qed.
Lemma one_then {A B} P (m : eff (W * log) A) (f : A → eff (W * log) B) :
  adds (up_to_one P) m → (∀ a, saveless (f a)) → adds (up_to_one P) (m ≫= f).
Proof.
  intros Hm Hf. eapply adds_bind; [exact Hm|exact Hf|done|]. intros l l' Hl Hl'.
  unfold up_to_one. by rewrite saves_app, Hl', app_nil_r.
Qed.
Lemma then_one {A B} P (m : eff (W * log) A) (f : A → eff (W * log) B) :
  saveless m → (∀ a, adds (up_to_one P) (f a)) → adds (up_to_one P) (m ≫= f).
Proof.
  intros Hm Hf. eapply adds_bind; [exact Hm|exact Hf|by left|]. intros l l' Hl Hl'.
  unfold up_to_one. by rewrite saves_app, Hl.
Qed.

Lemma save_lease_traced l st wid secs :
  one_save (fenced_save wid (TaskSpec.task_id (HostedQueueLease.spec l))
              (HostedQueueLease.lease_generation l) (HostedQueueLease.revision l))
    (save_lease tq clock l st wid secs).
Proof.
  unfold save_lease, HostedQueue.save. apply one_save_lift. intros spec [-> _]%detached_spec_eq.
  apply one_save_quietly. intros now. do 7 (apply one_save_lift; intros ? _).
  apply one_save_request; [by split|]. intros d. unfold parse_field. saveless_tac.
Qed.

(** ** The runner over a leased row *)
Section leased_run.
Context (wid secs : pyval) (id : string) (gen rev : Z).
Abbreviation store := (HostedLeaseStateStore.store tq ta clock wid secs).
Abbreviation H := (leased (W * log)).

(** After every operation that returns, the lease is the row of the last save. *)
Record current (h : H) : Prop := {
  cu_ok : lease_ok (lease h);
  cu_id : TaskSpec.task_id (HostedQueueLease.spec (lease h)) = id;
  cu_gen : HostedQueueLease.lease_generation (lease h) = gen;
  cu_rev : HostedQueueLease.revision (lease h) = rev + Z.of_nat (length (saves (remote h).2));
  cu_saves : consecutive wid id gen rev (saves (remote h).2) }.
Definition fenced_log (h : H) : Prop := consecutive wid id gen rev (saves (remote h).2).

Lemma current_fenced h : current h → fenced_log h.
Proof. by intros []. Qed.
Lemma keeps_on_remote {A} (m : eff (W * log) A) :
  saveless m → keeps current current (HostedLeaseStateStore.on_remote m).
Proof.
  intros Hm h [H1 H2 H3 H4 H5]. unfold HostedLeaseStateStore.on_remote.
  destruct (Hm (remote h)) as (new & E & Hn).
  destruct (m (remote h)) as [[a|e] w]; cbn in E |- *;
    (split; cbn; [done..| |]; rewrite E, saves_app, Hn, app_nil_r; done).
Qed.
Lemma keeps_same_task t msg : keeps current fenced_log (HostedLeaseStateStore.same_task t msg).
Proof.
  apply keeps_bind; [apply keeps_gets|intros l]. apply keeps_lift, current_fenced.
Qed.
Lemma keeps_weaken {A} (m : eff H A) : keeps current current m → keeps current fenced_log m.
Proof.
  intros Hm h Hh. specialize (Hm h Hh). destruct (m h) as [[a|e] h']; [done|by apply current_fenced].
Qed.

Lemma keeps_save st : keeps current fenced_log (ts_save (TaskStore:=store) st).
Proof.
  apply keeps_bind; [apply keeps_same_task|intros _].
  apply keeps_bind; [apply keeps_weaken, keeps_on_remote; by apply adds_quietly|intros t].
  intros h [H1 H2 H3 H4 H5]. eff_eval. unfold HostedLeaseStateStore.on_remote.
  destruct (save_lease_traced (lease h) (TaskState.touch t st) wid secs (remote h)) as [[El Er]|(p & new & Hp & El & Hn)].
  - destruct (save_lease _ _ _ _ _ _ _) as [[l|e] w]; [done|]. cbn in El |- *.
    unfold fenced_log. cbn. by rewrite El.
  - rewrite H2, H3, H4 in Hp. pose proof (consecutive_snoc _ _ _ _ _ _ H5 Hp) as Hc.
    assert (saves (save_lease tq clock (lease h) (TaskState.touch t st) wid secs (remote h)).2.2 =
            saves (remote h).2 ++ [p]) as El'.
    { rewrite El, saves_app. change (saves (remote h).2 ++ p :: saves new = saves (remote h).2 ++ [p]).
      by rewrite Hn. }
    clear El. rename El' into El.
    destruct (save_lease _ _ _ _ _ _ _) as [[l|e] w] eqn:Es; cbn -[saves] in El |- *.
    2: { unfold fenced_log. cbn. by rewrite El. }
    apply save_returned in Es as (r & g & [= <-] & [= <-] & _ & _ & Hl & Hr & Hg & Hs & _).
    split; cbn; [done|by rewrite (same_document_id _ _ Hs)|by rewrite Hg|rewrite Hr, H4, El|by rewrite El].
    rewrite length_app. cbn. lia.
Qed.
Lemma keeps_append i ty msg sid d : keeps current fenced_log (ts_append (TaskStore:=store) i ty msg sid d).
Proof.
  apply keeps_bind; [apply keeps_same_task|intros _].
  apply keeps_bind; [apply keeps_weaken, keeps_on_remote, append_saveless|intros _]. apply keeps_ret.
Qed.
Lemma keeps_load i : keeps current fenced_log (ts_load (TaskStore:=store) i).
Proof.
  apply keeps_bind; [apply keeps_same_task|intros _]. apply keeps_bind; [apply keeps_gets|intros l].
  apply keeps_bind; [apply keeps_weaken, keeps_on_remote; by apply adds_quietly|intros t].
  apply keeps_lift, current_fenced.
Qed.
Lemma keeps_exists i : keeps current fenced_log (ts_exists (TaskStore:=store) i).
Proof. apply keeps_bind; [apply keeps_same_task|intros _]. apply keeps_ret. Qed.

(** A run whose actions do not speak to the queue themselves. *)
Lemma leased_run_fenced actions type_name spec ctx :
  (∀ name act args c, action_named actions name = Some act → saveless (act args c)) →
  keeps current fenced_log (run (TS:=store) actions None type_name spec ctx).
Proof.
  intros Ha. apply (keeps_run actions None type_name current fenced_log current_fenced
    keeps_save keeps_append keeps_load keeps_exists (λ A m, saveless m)).
  - intros A m Hm. by apply keeps_on_remote.
  - exact Ha.
  - done.
  - intros m i Hm. apply keeps_bind; [apply keeps_same_task|intros _; exact Hm].
Qed.
End leased_run.
End fencing.

(** ** The read-only worker *)
Section worker.
Context {W : Type} (queue activity : string → pydict → eff W pyval) (utc_now : eff W string).
Context (auth : pyval) (type_name : exn → string) (scope : HostedQueueLease.t → option string).
Abbreviation log := (list (string * pydict)).

(** The providers behind a registry, in a world where the requests to the two
    services are logged. *)
Definition beside_log (r : ToolRegistry.t W) : ToolRegistry.t (W * log) :=
  ToolRegistry.mk ((λ (a : Action W) args ctx, quietly (a args ctx)) <$> ToolRegistry.actions r)
    (ToolRegistry._capabilities r) (ToolRegistry.adapter_for_action r).
Abbreviation logged_claim := (HostedQueue.claim (traced queue) (quietly (L:=string * pydict) utc_now)).
Abbreviation logged_run r :=
  (run_next (traced queue) (traced activity) (quietly utc_now) (beside_log r) auth type_name scope).

Lemma guarded_saveless r name act args c :
  action_named (_guarded_actions (beside_log r)) name = Some act →
  adds (λ new : log, saves new = []) (act args c).
Proof.
  unfold action_named, _guarded_actions. rewrite map_lookup_imap. cbn. rewrite lookup_fmap.
  destruct (ToolRegistry.actions r !! name) as [a|]; cbn; [|done].
  destruct (is_read _ name); [|done]. intros [= <-].
  apply saveless_bind; [by apply adds_quietly|intros v; by apply adds_lift].
Qed.

Lemma refuse_one_save l wid secs reason :
  adds (up_to_one (fenced_save wid (TaskSpec.task_id (HostedQueueLease.spec l))
                     (HostedQueueLease.lease_generation l) (HostedQueueLease.revision l)))
    (refuse (traced queue) (traced activity) (quietly utc_now) l wid secs reason).
Proof.
  unfold refuse, _release_blocked. apply one_then; [|intros; by apply (adds_lift _ (Ok _))].
  apply then_one.
  - unfold _blocked_state. do 3 (apply saveless_bind; [first [by apply adds_quietly|by apply adds_lift]|intros ?]).
    by apply (adds_lift _ (Ok _)).
  - intros st. apply one_then; [apply one_save_adds, save_lease_traced|intros l'].
    apply saveless_bind; [by apply adds_lift|intros _].
    apply saveless_bind; [apply (note_saveless queue activity)|intros _]. by apply (adds_lift _ (Ok _)).
Qed.
Lemma up_to_one_consecutive wid id gen rev new :
  up_to_one (fenced_save wid id gen rev) new → consecutive wid id gen rev (saves new).
Proof.
  intros [->|(p & Hp & ->)] i q; [done|]. intros [-> <-]%list_lookup_singleton_Some.
  by rewrite Z.add_0_r.
Qed.
Lemma run_leased_fenced r l wid secs s :
  lease_ok l → saves s.2 = [] →
  consecutive wid (TaskSpec.task_id (HostedQueueLease.spec l)) (HostedQueueLease.lease_generation l)
    (HostedQueueLease.revision l)
    (saves (run_leased (traced queue) (traced activity) (quietly utc_now) (beside_log r) type_name
              l wid secs s).2.2).
Proof.
  intros Hl H2. unfold run_leased.
  pose proof (leased_run_fenced queue activity utc_now wid secs
    (TaskSpec.task_id (HostedQueueLease.spec l)) (HostedQueueLease.lease_generation l)
    (HostedQueueLease.revision l) (_guarded_actions (beside_log r)) type_name
    (HostedQueueLease.spec l) [] (guarded_saveless r) (Leased l s)) as Hrun.
  assert (current wid (TaskSpec.task_id (HostedQueueLease.spec l))
    (HostedQueueLease.lease_generation l) (HostedQueueLease.revision l) (Leased l s)) as Hcur.
  { split; cbn; [done|done|done|rewrite H2; cbn; lia|rewrite H2; by intros i q]. }
  specialize (Hrun Hcur). destruct (run _ _ _ _ _ (Leased l s)) as [[o|e] h]; [|exact Hrun].
  by destruct Hrun.
Qed.

(** C17: the saves of a hosted run are fenced.  Whatever the services answer and
    whatever the providers do, when a worker obtains a lease, the saves it sends
    are those of consecutive revisions of that lease, from the revision it was
    claimed at, each under the worker's name and the generation of the claim; and
    a worker that obtains none saves nothing. *)
Theorem hosted_saves_fenced r wid secs w :
  let '(_, (_, log)) := logged_run r wid secs (w, []) in
  match (logged_claim wid secs (w, [])).1 with
  | Ok (Some l) =>
      consecutive wid (TaskSpec.task_id (HostedQueueLease.spec l))
        (HostedQueueLease.lease_generation l) (HostedQueueLease.revision l) (saves log)
  | _ => saves log = []
  end.
Proof.
  unfold run_next. rewrite bind_run. unfold lift at 1. destruct (reject_if _ _ _) as [[]|e].
  2: { destruct (logged_claim wid secs (w, [])).1 as [[l|]|?]; done. }
  rewrite bind_run. destruct (claim_saveless queue activity utc_now wid secs (w, [])) as (new & El & Hn).
  destruct (logged_claim wid secs (w, [])) as [[[l|]|e] s1] eqn:Ec; cbn [fst snd app] in *;
    [|by destruct s1; cbn in El; subst..].
  assert (saves s1.2 = []) as H1 by by rewrite El.
  apply claim_sound in Ec as (Hh & _). clear El Hn new.
  rewrite bind_run. destruct (note_saveless queue activity l "readonly_worker_claimed"
    (lease_payload wid l) s1) as (new & El & Hn).
  destruct (note _ _ _ _ s1) as [[[]|e] s2]; cbn [snd] in El.
  2: { destruct s2 as [w2 l2]; cbn in El. rewrite El, saves_app, H1, Hn. by intros i q. }
  assert (saves s2.2 = []) as H2 by by rewrite El, saves_app, H1, Hn.
  clear El Hn new H1 s1. cbv zeta.
  assert (∀ reason, let '(_, (_, log)) :=
    refuse (traced queue) (traced activity) (quietly utc_now) l wid secs reason s2 in
    consecutive wid (TaskSpec.task_id (HostedQueueLease.spec l))
      (HostedQueueLease.lease_generation l) (HostedQueueLease.revision l) (saves log)) as Hrefuse.
  { intros reason. destruct (refuse_one_save l wid secs reason s2) as (new & El & Hn).
    destruct (refuse _ _ _ _ _ _ _ s2) as [x [w3 l3]]; cbn in El. rewrite El, saves_app, H2.
    by apply up_to_one_consecutive. }
  destruct (truthy_s _); [apply Hrefuse|]. rewrite bind_run. unfold lift.
  destruct (_preflight_read_only _ _) as [[missing barred]|e].
  2: { destruct s2 as [w2 l2]; cbn in H2. rewrite H2. by intros i q. }
  destruct (negb (bool_decide (missing = []))); [apply Hrefuse|].
  destruct (negb (bool_decide (barred = []))); [apply Hrefuse|]. clear Hrefuse.
  rewrite bind_run.
  pose proof (run_leased_fenced r l wid secs s2 ltac:(by destruct Hh) H2) as Hrun.
  by destruct (run_leased _ _ _ _ _ _ _ _ s2) as [[o|e] [w3 l3]].
Qed.

(** C18: the read-only worker never calls an action whose access is not "read".
    Two registries with the same actions and capabilities that agree on the
    implementations of the read actions give the same run, in every respect. *)
Theorem only_reads_called r r' wid secs w :
  same_reads r r' →
  run_next queue activity utc_now r auth type_name scope wid secs w =
  run_next queue activity utc_now r' auth type_name scope wid secs w.
Proof.
  intros Hs. unfold run_next. apply bind_ext; [done|]. intros _ w1.
  apply bind_ext; [done|]. intros [l|] w2; [|done]. apply bind_ext; [done|]. intros _ w3.
  cbv zeta. case_match; [done|].
  rewrite !preflight_read_only_eq, (preflight_same r r') by apply Hs.
  apply bind_ext; [done|]. intros [missing barred] w4. case_match; [done|]. case_match; [done|].
  apply bind_ext; [|done]. intros w5. unfold run_leased. by rewrite (guarded_same r r' Hs).
Qed.

Lemma refuse_outcome l wid secs reason w res w' :
  refuse queue activity utc_now l wid secs reason w = (Ok res, w') →
  HostedReadOnlyWorkerResult.outcome res = None.
Proof. unfold refuse. intros H. inv_eff. by subst. Qed.

(** The gate of the read-only worker.  Unless execution was authorised with
    the value True it raises before anything happens.  A run it reports as
    executed was authorised, of a valid definition leased to the worker, and every
    action and verifier of that definition is registered with access "read". *)
Theorem read_only_gate r wid secs w :
  registry_ok r →
  (auth ≠ VBool true → run_next queue activity utc_now r auth type_name scope wid secs w =
     (raise HostedExecutionNotAuthorized "hosted_readonly_execution_not_authorized", w)) ∧
  (∀ res out w', run_next queue activity utc_now r auth type_name scope wid secs w = (Ok res, w') →
     HostedReadOnlyWorkerResult.outcome res = Some out →
     auth = VBool true ∧ ∃ l, held_by wid l ∧ spec_ok (HostedQueueLease.spec l) ∧
       HostedReadOnlyWorkerResult.task_id res = Some (HostedQueueLease.task_id l) ∧
       permitted r (Some ["read"]) (HostedQueueLease.spec l)).
Proof.
  intros Hr. split.
  - intros Ha. unfold run_next. destruct auth as [|[]| | | | | |]; done.
  - intros res out w' H Ho. unfold run_next in H. inv_eff.
    split; [by destruct auth as [|[]| | | | | |]|].
    match goal with H : claim _ _ _ _ _ = (Ok ?o, _) |- _ => destruct o as [l|] end; inv_eff; [|done].
    match goal with H : claim _ _ _ _ _ = _ |- _ => apply claim_sound in H as (Hh & _) end.
    exists l. split; [done|]. cbv zeta in H.
    destruct (truthy_s _); [apply refuse_outcome in H; congruence|].
    rewrite preflight_read_only_eq in H. inv_eff.
    match goal with H : _preflight _ _ _ = Ok ?p |- _ =>
      destruct p as [missing barred]; apply preflight_nil in H as [Hs Hp]; [|done] end.
    destruct (bool_decide (missing = [])) eqn:Em; cbn [negb] in H; [|apply refuse_outcome in H; congruence].
    destruct (bool_decide (barred = [])) eqn:Eb; cbn [negb] in H; [|apply refuse_outcome in H; congruence].
    inv_eff. split_and!; [done|done|]. by apply Hp.
Qed.
End worker.

(** ** The guard on the results of read actions *)

(** The write flags of an item, when it has any. *)
Definition flags_of (i : artifact_item) : option (list pyval) :=
  match i with
  | ItemUpdate u => Some (update_flags u)
  | ItemValue (VDict d) => Some (map (λ name, get_or_none name d) write_flags)
  | ItemValue _ => None
  end.
Definition no_true (i : artifact_item) : Prop := ∃ fs, flags_of i = Some fs ∧ VBool true ∉ fs.

Lemma is_true_iff v : is_true v = true ↔ v = VBool true.
Proof. destruct v as [|[]| | | | | |]; done. Qed.
Lemma check_items_iff items : check_items items = Ok tt ↔ Forall no_true items.
Proof.
  induction items as [|i items IH]; cbn; [by split|]. rewrite list.Forall_cons, <- IH.
  assert (item_flags i = match flags_of i with Some fs => Ok fs
    | None => raise_safe "read_only_action_returned_invalid_artifact_update" end) as ->
    by by destruct i as [u|[]].
  destruct (flags_of i) as [fs|] eqn:Ef; cbn.
  2: { split; [done|]. intros [(fs & ? & _) _]. congruence. }
  assert (existsb is_true fs = true ↔ VBool true ∈ fs) as He.
  { rewrite existsb_exists. split.
    - intros (v & Hv & ->%is_true_iff). by apply list_elem_of_In.
    - intros Hv. exists (VBool true). split; [by apply list_elem_of_In|done]. }
  unfold no_true. rewrite Ef. destruct (existsb is_true fs).
  - split; [done|]. intros [(? & [= <-] & H) _]. destruct H. by apply He.
  - split; [|by intros [_ ?]]. intros Hc. split; [|done]. exists fs. split; [done|].
    intros Hin. by apply He in Hin.
Qed.

Lemma assert_read_only_iff v v' : _assert_read_only_result v = Ok v' ↔
  v' = v ∧ Forall no_true (_artifact_updates v).
Proof.
  unfold _assert_read_only_result. rewrite bind_Ok, <- (check_items_iff (_artifact_updates v)). split.
  - by intros ([] & ? & [= ->]).
  - intros [-> ?]. by exists tt.
Qed.

(** An item whose write flags are booleans or absent. *)
Definition plain_flags (u : ArtifactUpdate.t) : Prop :=
  Forall (λ v, v = VNone ∨ ∃ b, v = VBool b) (update_flags u).

(** The guard passes the value of a read action unchanged exactly when it
    reports no write: every artifact update it carries is a well-formed item
    without a write flag that is True.  Merging an update it passed, whose flags
    are booleans or absent, never sets a write flag of an artifact. *)
Theorem read_only_guard v v' :
  (_assert_read_only_result v = Ok v' ↔ v' = v ∧ Forall no_true (_artifact_updates v)) ∧
  (_assert_read_only_result v = Ok v' →
   ∀ u a a', ItemUpdate u ∈ _artifact_updates v → plain_flags u →
     ArtifactState.merge a u = Ok a' →
     (ArtifactState.created a' = VBool true → ArtifactState.created a = VBool true) ∧
     (ArtifactState.persistent_saved a' = VBool true → ArtifactState.persistent_saved a = VBool true) ∧
     (ArtifactState.device_saved a' = VBool true → ArtifactState.device_saved a = VBool true) ∧
     (ArtifactState.ui_loaded a' = VBool true → ArtifactState.ui_loaded a = VBool true)).
Proof.
  split; [apply assert_read_only_iff|].
  intros [_ Hf]%assert_read_only_iff u a a' Hu Hp Hm. rewrite list.Forall_forall in Hf.
  destruct (Hf _ Hu) as (fs & [= <-] & Hno). unfold ArtifactState.merge in Hm. inv_result. cbn.
  unfold plain_flags in Hp. rewrite list.Forall_forall in Hp.
  assert (∀ old new, new ∈ update_flags u → ArtifactState.flag old new = VBool true → old = VBool true)
    as Hflag.
  { intros old new Hin. destruct (Hp _ Hin) as [->|[[] ->]]; [done| |done]. by intros _. }
  split_and!; apply Hflag; unfold update_flags; set_solver.
Qed.

(** A read-only result that reports the flag 1. *)
Definition sly_value : action_value :=
  RetDict (Some [ItemValue (VDict [("artifact_id", VStr "draft"); ("kind", VStr "note");
                                   ("persistent_saved", VInt 1)])]) [].
(** The guard tests a flag with [is True], the merge takes its truth value: a
    flag that is true without being True passes the guard and is recorded. *)
Theorem truthy_flag_passes_guard :
  _assert_read_only_result sly_value = Ok sly_value ∧
  ∃ r u a, _normalise_action_result sly_value = Ok r ∧ ActionResult.artifacts r = [u] ∧
    ArtifactState.merge (ArtifactState.fresh (ArtifactUpdate.artifact_id u) (ArtifactUpdate.kind u)) u
      = Ok a ∧ ArtifactState.persistent_saved a = VBool true.
Proof. split; [reflexivity|]. eexists _, _, _. split_and!; reflexivity. Qed.

(** ** Concrete services

    A queue that hands out one row and stores what it is sent, and a ledger that
    echoes its events; both count their requests. *)
Definition saved_row (payload : pydict) : pyval :=
  let status := get_or_none "status" payload in
  let running := py_eqb status (VStr "running") in
  let revision := match get_or_none "expected_revision" payload with VInt z => z + 1 | _ => 0 end in
  VDict [("task_id", VStr "task-1"); ("status", status); ("revision", VInt revision);
         ("idempotency_key", VStr "task-1"); ("spec", TaskSpec.to_dict row_spec);
         ("state", get_or_none "state" payload);
         ("spec_fingerprint", VStr row_fingerprint); ("attempt_count", VInt 1);
         ("max_attempts", VInt 3);
         ("lease_owner", if running then VStr "worker-1" else VNone); ("lease_generation", VInt 1);
         ("lease_expires_at", if running then VStr "2026-01-01T00:00:00Z" else VNone);
         ("not_before", VStr "2026-01-01")].
Definition echo_queue (mode : string) (payload : pydict) : eff nat pyval := λ n,
  (Ok (VDict [("success", VBool true); ("claimed", VBool true);
              ("lease", if String.eqb mode "queue_save" then saved_row payload else running_row 1)]),
   S n).
Definition echo_ledger (mode : string) (payload : pydict) : eff nat pyval := λ n,
  (Ok (VDict [("success", VBool true);
              ("event", VDict (dict_set "event_id" (VInt 1) (dict_set "created_at" (VStr "t") payload)))]),
   S n).

(** "download" reads, "publish" writes and is implemented by [a]. *)
Definition tools (a : Action nat) : ToolRegistry.t nat :=
  ToolRegistry.mk {[ "download" := calm; "publish" := a ]}
    {[ "download" := MkCapability "download" "read" [] true "";
       "publish" := MkCapability "publish" "write" [] false "" ]}
    {[ "download" := "demo"; "publish" := "demo" ]}.
Lemma tools_ok a : registry_ok (tools a).
Proof.
  split; [reflexivity|reflexivity|]. intros k c Hk. cbn in Hk. apply lookup_insert_Some in Hk as [[<- <-]|[_ Hk]]; [done|].
  by apply lookup_singleton_Some in Hk as [<- <-].
Qed.
Definition idle_scope (l : HostedQueueLease.t) : option string := None.

Definition demo_inspection : result HostedWorkerDecision.t * nat :=
  inspect_next echo_queue echo_ledger row_clock (tools calm) (VStr "worker-1") (VInt 120) ["read"] 0%nat.
Definition demo_run (a : Action nat) : result HostedReadOnlyWorkerResult.t * nat :=
  run_next echo_queue echo_ledger row_clock (tools a) (VBool true) (λ _, "Error") idle_scope
    (VStr "worker-1") (VInt 120) 0%nat.
(** The task runs to its end. *)
Example demo_run_completes :
  match demo_run calm with
  | (Ok res, _) => RunOutcome.status <$> HostedReadOnlyWorkerResult.outcome res = Some (VStr "completed")
  | _ => False
  end.
Proof. vm_compute. reflexivity. Qed.

Lemma inspection_sound_witness :
  ∃ d n, demo_inspection = (Ok d, n) ∧ HostedWorkerDecision.revision d = Some 2 ∧
    HostedWorkerDecision.execution_enabled d = false.
Proof.
  eexists _, _. split; [vm_compute; reflexivity|]. split; [reflexivity|].
  refine (proj1 (inspection_sound echo_queue echo_ledger row_clock (tools calm) (VStr "worker-1")
    (VInt 120) ["read"] 0%nat _ _ (tools_ok calm) _)).
  vm_compute. reflexivity.
Defined.
Lemma only_reads_called_witness : demo_run calm = demo_run (noisy "published").
Proof.
  apply (only_reads_called echo_queue echo_ledger row_clock (VBool true) (λ _, "Error") idle_scope
    (tools calm) (tools (noisy "published")) (VStr "worker-1") (VInt 120) 0%nat).
  split; [by split|]. intros a. destruct (decide (a = "publish")) as [->|N]; [done|].
  intros _. cbn. destruct (decide (a = "download")) as [->|M]; [done|].
  rewrite !lookup_insert_ne by congruence. by rewrite !lookup_singleton_ne by congruence.
Defined.
Lemma read_only_gate_witness :
  run_next echo_queue echo_ledger row_clock (tools calm) (VStr "yes") (λ _, "Error") idle_scope
    (VStr "worker-1") (VInt 120) 0%nat =
  (raise HostedExecutionNotAuthorized "hosted_readonly_execution_not_authorized", 0%nat).
Proof.
  refine (proj1 (read_only_gate echo_queue echo_ledger row_clock (VStr "yes") (λ _, "Error") idle_scope
    (tools calm) (VStr "worker-1") (VInt 120) 0%nat (tools_ok calm)) _).
  discriminate.
Defined.
