(* ===== verification/HostedRecovery.v ===== *)
(** agent_core/hosted_recovery.py: read-only inspection of an interrupted run,
    and the recommendation drawn from it.

    The two transports and the two clocks are operations on the world [W];
    [fromisoformat] is [datetime.fromisoformat]: nothing below depends on the
    spellings it accepts. *)
From S2P Require Import Prelude PyString PyValue TaskModel HostedQueue HostedActivity QueuePlanner.

Module Report.
Record t := mk {
  task_id : string; checkpoint_status : string; revision : Z; attempt_count : Z;
  max_attempts : Z; lease_generation : Z; lease_owner : option string;
  lease_expires_at : option string; lease_expired : option bool;
  observation_events : Z; verification_events : Z;
  latest_observation_event_id : option Z; latest_verification_event_id : option Z;
  verified : option bool; classification : string;
  may_reconcile_expired_to_blocked : bool; reexecution_allowed : bool }.
End Report.

Module Proposal.
Record t := mk {
  task_id : string; classification : string; proposed_action : string;
  expected_revision : Z; lease_generation : Z; reason : string;
  automatic_execution_allowed : bool; blocked_state : option pyval }.
End Proposal.

Definition bad_recovery {A} (msg : string) : result A := raise HostedRecoveryIntegrityError msg.
Definition bad_recovery_if (bad : bool) (msg : string) : result unit :=
  reject_if bad HostedRecoveryIntegrityError msg.

(** [value.replace("Z", "+00:00")] *)
Fixpoint utc_suffix (l : list Ascii.ascii) : string :=
  match l with
  | [] => ""
  | c :: l' => if Ascii.eqb c (chr 90) then "+00:00" ++ utc_suffix l' else String c (utc_suffix l')
  end.

(** [v >= lo] for a true integer, and the checks of one piece of evidence. *)
Definition int_at_least (lo : Z) (v : pyval) (msg : string) : result Z :=
  match v with
  | VInt z => bad_recovery_if (z <? lo) msg;; Ok z
  | _ => bad_recovery msg
  end.

Module Evidence.
Record t := mk { observations : list HostedActivityEvent.t; verifications : list HostedActivityEvent.t }.
End Evidence.

Definition EVIDENCE_TYPES : list string := ["github_observation"; "github_verification"].

(** One turn of the loop over the events. *)
Definition add_evidence (fingerprint : string) (lease : HostedQueueLease.t) (acc : Evidence.t)
    (event : HostedActivityEvent.t) : result Evidence.t :=
  if bool_decide (HostedActivityEvent.event_type event ∉ EVIDENCE_TYPES) then Ok acc
  else
    let f k := get_or_none k (HostedActivityEvent.payload event) in
    bad_recovery_if (negb (py_eqb (f "spec_fingerprint") (VStr fingerprint)))
      "evidence_spec_fingerprint_mismatch";;
    generation ← int_at_least 1 (f "lease_generation") "invalid_evidence_lease_generation";
    bad_recovery_if (HostedQueueLease.lease_generation lease <? generation)
      "evidence_from_future_lease_generation";;
    revision ← int_at_least 0 (f "revision") "invalid_evidence_revision";
    bad_recovery_if (HostedQueueLease.revision lease <? revision)
      "evidence_revision_ahead_of_checkpoint";;
    match f "evidence" with
    | VDict evidence =>
        if negb (generation =? HostedQueueLease.lease_generation lease) then Ok acc
        else if String.eqb (HostedActivityEvent.event_type event) "github_observation" then
          Ok (Evidence.mk (Evidence.observations acc ++ [event]) (Evidence.verifications acc))
        else
          match get_or_none "verified" evidence with
          | VBool _ => Ok (Evidence.mk (Evidence.observations acc) (Evidence.verifications acc ++ [event]))
          | _ => bad_recovery "verification_evidence_missing_boolean_result"
          end
    | _ => bad_recovery "evidence_payload_object_required"
    end.

Definition _current_generation_evidence (lease : HostedQueueLease.t)
    (events : list HostedActivityEvent.t) : result Evidence.t :=
  fingerprint ← TaskSpec.fingerprint (HostedQueueLease.spec lease);
  foldR (add_evidence fingerprint lease) (Evidence.mk [] []) events.

(** [bool(latest.payload["evidence"]["verified"])] *)
Definition verified_of (event : HostedActivityEvent.t) : result bool :=
  evidence ← getitem (VDict (HostedActivityEvent.payload event)) "evidence";
  v ← getitem evidence "verified";
  Ok (truthy v).

(** Classification, [may_reconcile] and [reexecution_allowed]. *)
Definition classify (lease : HostedQueueLease.t) (ev : Evidence.t) (lease_expired verified : option bool) :
    result (string * bool * bool) :=
  let status := HostedQueueLease.status lease in
  let verified_true := bool_decide (verified = Some true) in
  let some_verification := negb (bool_decide (length (Evidence.verifications ev) = 0%nat)) in
  let some_observation := negb (bool_decide (length (Evidence.observations ev) = 0%nat)) in
  if String.eqb status "queued" then
    Ok (if HostedQueueLease.attempt_count lease =? 0 then "queued_unstarted"
        else "queued_with_prior_attempt_requires_review", false,
        (HostedQueueLease.attempt_count lease =? 0) && negb some_observation && negb some_verification)
  else if String.eqb status "running" && bool_decide (lease_expired = Some false) then
    Ok ("running_active_do_not_touch", false, false)
  else if String.eqb status "running" then
    Ok (if verified_true then "running_expired_with_verified_evidence"
        else if some_verification then "running_expired_with_negative_verification"
        else if some_observation then "running_expired_with_observation_only"
        else "running_expired_without_provider_evidence", true, false)
  else if String.eqb status "completed" then
    Ok (if verified_true then "completed_verified_no_reexecution"
        else if some_verification then "completed_with_negative_verification_integrity_review"
        else "completed_without_verification_evidence_review", false, false)
  else if String.eqb status "blocked" then
    Ok ("blocked_requires_explicit_reconciliation", false, false)
  else if String.eqb status "failed" then
    Ok ("failed_requires_explicit_reconciliation", false, false)
  else bad_recovery "unsupported_checkpoint_status".

(** [_snapshot_identity] *)
Definition _snapshot_identity (lease : HostedQueueLease.t) (report : Report.t) :=
  (HostedQueueLease.task_id lease, HostedQueueLease.status lease, HostedQueueLease.revision lease,
   HostedQueueLease.attempt_count lease, HostedQueueLease.max_attempts lease,
   HostedQueueLease.lease_generation lease, HostedQueueLease.lease_owner lease,
   HostedQueueLease.lease_expires_at lease, Report.classification report,
   Report.observation_events report, Report.verification_events report,
   Report.latest_observation_event_id report, Report.latest_verification_event_id report,
   Report.verified report).

Section Inspector.
Context {W : Type} (queue activity : string → pydict → eff W pyval).
Context (utc_now : eff W string) (utcnow : eff W moment) (fromisoformat : string → result moment).
Abbreviation E := (eff W).

Definition _parse_timestamp (value : string) : result Z :=
  match fromisoformat (utc_suffix (chars value)) with
  | Ok (Aware instant) => Ok instant
  | Ok NotAware => bad_recovery "lease_expiry_must_be_timezone_aware"
  | Err e => if isinstance e ValueError then bad_recovery "invalid_lease_expiry" else Err e
  end.

(** The loop over the pages, [fuel] turns of it at most. *)
Fixpoint _all_events (fuel : nat) (task_id : string) (cursor : option Z)
    (events : list HostedActivityEvent.t) : E (list HostedActivityEvent.t) :=
  match fuel with
  | O => throw (Exn OutOfFuel "activity pages")
  | S fuel' =>
      batch ← list_events activity (VStr task_id)
                (match cursor with Some c => VInt c | None => VNone end) (VInt 200);
      let events := events ++ batch in
      if Z.of_nat (length batch) <? 200 then mret events
      else
        match list.last batch with
        | None => mret events
        | Some e =>
            let next_cursor := HostedActivityEvent.event_id e in
            lift (bad_recovery_if (match cursor with Some c => next_cursor <=? c | None => false end)
                    "activity_cursor_did_not_advance");;
            _all_events fuel' task_id (Some next_cursor) events
        end
  end.

(** The lease as the queue reports it; its integrity errors become ours. *)
Definition read_lease (spec : TaskSpec.t) : E HostedQueueLease.t :=
  try_with (inspect queue utc_now spec)
    (λ e, if isinstance e HostedQueueIntegrityError
          then lift (bad_recovery (exn_msg e)) else throw e).

Definition read_expired (lease : HostedQueueLease.t) : E (option bool) :=
  if String.eqb (HostedQueueLease.status lease) "running" then
    match HostedQueueLease.lease_expires_at lease with
    | None => lift (bad_recovery "running_checkpoint_missing_lease_expiry")
    | Some expires =>
        now ← utcnow;
        match now with
        | NotAware => lift (bad_recovery "recovery_clock_must_be_timezone_aware")
        | Aware now => at_ ← lift (_parse_timestamp expires); mret (Some (at_ <=? now))
        end
    end
  else mret None.

Definition _inspect_snapshot (fuel : nat) (spec : TaskSpec.t) : E (HostedQueueLease.t * Report.t) :=
  spec ← lift (detached_spec spec);
  lease ← read_lease spec;
  events ← _all_events fuel (TaskSpec.task_id spec) None [];
  ev ← lift (_current_generation_evidence lease events);
  verified ← lift (match list.last (Evidence.verifications ev) with
                   | None => Ok None
                   | Some e => b ← verified_of e; Ok (Some b)
                   end);
  lease_expired ← read_expired lease;
  c ← lift (classify lease ev lease_expired verified);
  let '(classification, may_reconcile, reexecution_allowed) := c in
  mret (lease, Report.mk (HostedQueueLease.task_id lease) (HostedQueueLease.status lease)
    (HostedQueueLease.revision lease) (HostedQueueLease.attempt_count lease)
    (HostedQueueLease.max_attempts lease) (HostedQueueLease.lease_generation lease)
    (HostedQueueLease.lease_owner lease) (HostedQueueLease.lease_expires_at lease) lease_expired
    (Z.of_nat (length (Evidence.observations ev))) (Z.of_nat (length (Evidence.verifications ev)))
    (HostedActivityEvent.event_id <$> list.last (Evidence.observations ev))
    (HostedActivityEvent.event_id <$> list.last (Evidence.verifications ev))
    verified classification may_reconcile reexecution_allowed).

Definition inspect_recovery (fuel : nat) (spec : TaskSpec.t) : E Report.t :=
  r ← _inspect_snapshot fuel spec; mret r.2.

(** The state an expired run would be left in. *)
Definition blocked_copy (lease : HostedQueueLease.t) : E TaskState.t :=
  now ← utc_now;
  blocked ← lift (TaskState.from_dict now (TaskState.to_dict (HostedQueueLease.state lease)));
  let blocked := TaskState.set_blocked_reason (VStr "expired_lease_requires_reconciliation")
                   (TaskState.set_status "blocked" blocked) in
  let blocked := TaskState.set_last_error
    (py_or (TaskState.last_error blocked) (VStr "hosted_run_interrupted_or_expired")) blocked in
  now ← utc_now;
  mret (TaskState.touch now blocked).

(** The recommendation for a report that does not call for reconciliation. *)
Definition advise (report : Report.t) : string * string :=
  if String.eqb (Report.classification report) "queued_unstarted" then
    ("eligible_for_first_execution",
     "no prior attempt or provider evidence was observed; separate execution authorization is still required")
  else if String.eqb (Report.classification report) "running_active_do_not_touch" then
    ("do_not_touch", "active lease is still owned; do not reconcile or replay")
  else if String.eqb (Report.checkpoint_status report) "completed" then
    ("no_reexecution", "completed checkpoint is not a retry signal regardless of evidence completeness")
  else if bool_decide (Report.checkpoint_status report ∈ ["blocked"; "failed"])
          || String.eqb (Report.classification report) "queued_with_prior_attempt_requires_review" then
    ("manual_reconciliation_required",
     "durable prior-attempt state requires an explicit reconciliation decision")
  else ("manual_review", "no automatic recovery action is permitted for this durable state").

Definition propose (fuel : nat) (spec : TaskSpec.t) : E Proposal.t :=
  first ← _inspect_snapshot fuel spec;
  second ← _inspect_snapshot fuel spec;
  lift (bad_recovery_if (negb (bool_decide
    (_snapshot_identity first.1 first.2 = _snapshot_identity second.1 second.2)))
    "recovery_snapshot_changed");;
  let lease := second.1 in let report := second.2 in
  if Report.may_reconcile_expired_to_blocked report then
    blocked ← blocked_copy lease;
    mret (Proposal.mk (Report.task_id report) (Report.classification report)
      "reconcile_expired_to_blocked" (HostedQueueLease.revision lease)
      (HostedQueueLease.lease_generation lease)
      "expired running lease must be converted to blocked before any later decision" false
      (Some (TaskState.to_dict blocked)))
  else
    let '(action, reason) := advise report in
    mret (Proposal.mk (Report.task_id report) (Report.classification report) action
      (HostedQueueLease.revision lease) (HostedQueueLease.lease_generation lease) reason false None).
End Inspector.
