(* ===== verification/HostedRecoveryFacts.v ===== *)
(** Recovery inspection: it reads the whole ledger, only reads, allows a
    re-execution only for a run nobody started, and never authorises one. *)
From stdpp Require Import sorting.
From S2P Require Import Prelude PyString PyValue TaskModel TaskModelFacts HostedQueue HostedQueueFacts.
From S2P Require Import HostedActivity HostedActivityFacts QueuePlanner Recorder HostedRecovery.

(** ** The ledger is read to its end *)
Section paging.
Context {W : Type} (activity : string → pydict → eff W pyval).
Context (task : string) (doc : HostedActivityEvent.t → pyval) (events : list HostedActivityEvent.t).
Hypothesis Hserves : serves activity task doc events.

(** The identifier of the last event read, below the identifiers still to come. *)
Abbreviation cursor_after done_ := (HostedActivityEvent.event_id <$> list.last done_).

Lemma cursor_positive done_ rest c :
  events = done_ ++ rest → cursor_after done_ = Some c → 0 ≤ c.
Proof.
  intros E Hc. destruct (list.last done_) as [e|] eqn:El; [|done]. injection Hc as <-.
  apply last_Some in El as [front ->]. assert (event_ok task e) as [? _ _]; [|lia].
  apply (parse_event_ok (doc e)), (sv_docs _ _ _ _ Hserves). rewrite E. set_solver.
Qed.
Lemma cursor_below done_ rest c e :
  events = done_ ++ rest → cursor_after done_ = Some c → e ∈ rest → c < HostedActivityEvent.event_id e.
Proof.
  intros E Hc He. destruct (list.last done_) as [e0|] eqn:El; [|done]. injection Hc as <-.
  apply last_Some in El as [front ->]. pose proof (sv_order _ _ _ _ Hserves) as Hs.
  rewrite E, map_app in Hs. eapply StronglySorted_app_1_elem_of; [exact Hs|..];
    apply list_elem_of_fmap; [exists e0|exists e]; set_solver.
Qed.

Lemma parse_page done_ page more :
  events = done_ ++ page ++ more →
  parse_events (VStr task) (cursor_val (cursor_after done_)) (map doc page) = Ok page.
Proof.
  intros E. unfold parse_events. rewrite (mapR_map_Ok _ _ id), map_id.
  2: { intros e He. apply (sv_docs _ _ _ _ Hserves). rewrite E. set_solver. }
  cbn -[ascending behind].
  assert (ascending (map HostedActivityEvent.event_id page) = true) as ->.
  { apply ascending_iff. pose proof (sv_order _ _ _ _ Hserves) as Hs. rewrite E, !map_app in Hs.
    eapply StronglySorted_app_1_l, StronglySorted_app_1_r, Hs. }
  assert (behind (cursor_val (cursor_after done_)) (map HostedActivityEvent.event_id page) = false) as ->.
  { apply behind_iff. intros c Hc i (e & -> & He)%list_elem_of_fmap.
    destruct (cursor_after done_) as [c'|] eqn:Ec; [|done]. injection Hc as <-.
    eapply cursor_below; [exact E|exact Ec|set_solver]. }
  done.
Qed.

Lemma served_page done_ rest w : events = done_ ++ rest → ∃ w',
  list_events activity (VStr task) (cursor_val (cursor_after done_)) (VInt 200) w =
  (Ok (take 200 rest), w').
Proof.
  intros E. destruct (sv_answer _ _ _ _ Hserves (cursor_after done_) 200 w eq_refl) as [w' Hw'].
  assert (beyond (cursor_after done_) events = rest) as Eb.
  { rewrite E. apply beyond_split. rewrite <- E. apply (sv_order _ _ _ _ Hserves). }
  rewrite Eb in Hw'. exists w'. unfold list_events, lift.
  rewrite (sv_task _ _ _ _ Hserves), !bind_run.
  assert (cursor_ok (cursor_val (cursor_after done_)) = true) as ->.
  { destruct (cursor_after done_) as [c|] eqn:Ec; [|done]. apply Z.leb_le.
    by eapply cursor_positive. }
  cbn -[activity_request cursor_val parse_events take].
  change (if is_none (cursor_val (cursor_after done_)) then _ else _)
    with (list_request task (cursor_val (cursor_after done_)) 200).
  unfold activity_request. rewrite !bind_run, Hw'. cbn -[parse_events take].
  f_equal. apply (parse_page done_ _ (drop 200 rest)). by rewrite take_drop.
Qed.

Lemma pages_from fuel : ∀ done_ rest w, events = done_ ++ rest →
  (Z.of_nat (length rest) < 200 * Z.of_nat fuel) →
  ∃ w', _all_events activity fuel task (cursor_after done_) done_ w = (Ok events, w').
Proof.
  induction fuel as [|fuel IH]; intros done_ rest w E Hf; [lia|].
  destruct (served_page done_ rest w E) as [w1 H1]. cbn [_all_events]. rewrite bind_run.
  change (match cursor_after done_ with Some c => VInt c | None => VNone end)
    with (cursor_val (cursor_after done_)).
  rewrite H1. destruct (Z.of_nat (length (take 200 rest)) <? 200) eqn:Elen.
  - exists w1. rewrite length_take in Elen. apply Z.ltb_lt in Elen. assert (length rest <= 200)%nat by lia. rewrite take_ge by done. by rewrite E.
  - rewrite length_take in Elen. apply Z.ltb_ge in Elen. destruct (list.last (take 200 rest)) as [e|] eqn:El.
    2: { apply last_None in El. apply (f_equal length) in El. rewrite length_take in El.
         change (length []) with 0%nat in El. lia. }
    assert (events = (done_ ++ take 200 rest) ++ drop 200 rest) as E'
      by (by rewrite <- (assoc_L (++)), take_drop).
    destruct (IH _ _ w1 E') as [w2 H2]; [rewrite length_drop; lia|].
    exists w2. rewrite <- H2. rewrite bind_run.
    assert ((match cursor_after done_ with Some c => HostedActivityEvent.event_id e <=? c
             | None => false end) = false) as ->.
    { destruct (cursor_after done_) as [c|] eqn:Ec; [|done]. apply Z.leb_gt.
      eapply cursor_below; [exact E|exact Ec|]. apply last_Some in El as [front El].
      rewrite <- (take_drop 200 rest), El. set_solver. }
    rewrite last_app, El. done.
Qed.
End paging.

(** C15: reading the activity ledger ends and is complete: from a service that
    answers a page request with the events beyond the cursor, the loop returns
    every event of the task, once and in order, for every fuel above a
    two-hundredth of their number. *)
Theorem all_events_complete {W} (activity : string → pydict → eff W pyval) task doc events fuel w :
  serves activity task doc events → Z.of_nat (length events) < 200 * Z.of_nat fuel →
  ∃ w', _all_events activity fuel task None [] w = (Ok events, w').
Proof. intros Hs Hf. by apply (pages_from activity task doc events Hs fuel [] events). Qed.

(** ** Reports *)
Section inspector.
Context {W : Type} (queue activity : string → pydict → eff W pyval).
Context (utc_now : eff W string) (utcnow : eff W moment) (fromisoformat : string → result moment).

Lemma read_lease_ok spec w l w' : read_lease queue utc_now spec w = (Ok l, w') → lease_ok l.
Proof.
  unfold read_lease, try_with. destruct (inspect queue utc_now spec w) as [[l0|e] w0] eqn:E.
  - intros [= <- <-]. unfold inspect in E. inv_eff. by eapply parse_field_ok.
  - destruct (isinstance e HostedQueueIntegrityError); done.
Qed.

(** The report in terms of the lease and the evidence of its generation. *)
Record report_of (lease : HostedQueueLease.t) (ev : Evidence.t) (r : Report.t) : Prop := {
  ro_status : Report.checkpoint_status r = HostedQueueLease.status lease;
  ro_task : Report.task_id r = HostedQueueLease.task_id lease;
  ro_attempts : Report.attempt_count r = HostedQueueLease.attempt_count lease;
  ro_events : Report.observation_events r = Z.of_nat (length (Evidence.observations ev)) ∧
              Report.verification_events r = Z.of_nat (length (Evidence.verifications ev));
  ro_expired : HostedQueueLease.status lease = "running" ↔ Report.lease_expired r ≠ None;
  ro_class : classify lease ev (Report.lease_expired r) (Report.verified r) =
    Ok (Report.classification r, Report.may_reconcile_expired_to_blocked r, Report.reexecution_allowed r) }.

Lemma inspect_snapshot_ok fuel spec w lease r w' :
  _inspect_snapshot queue activity utc_now utcnow fromisoformat fuel spec w = (Ok (lease, r), w') →
  lease_ok lease ∧ ∃ events ev, _current_generation_evidence lease events = Ok ev ∧ report_of lease ev r.
Proof.
  unfold _inspect_snapshot. intros H. inv_eff.
  match goal with H : read_lease _ _ _ _ = _ |- _ => apply read_lease_ok in H end.
  match goal with H : classify _ _ _ _ = Ok ?c |- _ => destruct c as [[cl may] re] end.
  injection H as <- <- <-. split; [done|].
  match goal with H : _current_generation_evidence _ ?es = Ok ?ev |- _ => exists es, ev end.
  split; [done|]. split; cbn; try done.
  match goal with H : read_expired _ _ _ _ = (Ok ?e, _) |- _ => rename H into He; unfold read_expired in He end.
  match type of He with (if String.eqb ?s _ then _ else _) _ = _ =>
    destruct (String.eqb_spec s "running") end.
  - destruct (HostedQueueLease.lease_expires_at _); [|done]. inv_eff.
    match goal with H : (match ?m with Aware _ => _ | NotAware => _ end) _ = _ |- _ => destruct m end; inv_eff; done.
  - inv_eff. done.
Qed.

Definition bool_iff (b : bool) (P : Prop) : Prop := b = true ↔ P.

Lemma classify_ok lease ev expired verified c may re :
  lease_ok lease → (HostedQueueLease.status lease = "running" ↔ expired ≠ None) →
  classify lease ev expired verified = Ok (c, may, re) →
  (re = true ↔ HostedQueueLease.status lease = "queued" ∧ HostedQueueLease.attempt_count lease = 0 ∧
     Evidence.observations ev = [] ∧ Evidence.verifications ev = []) ∧
  (may = true ↔ HostedQueueLease.status lease = "running" ∧ expired = Some true) ∧
  (c = "queued_unstarted" ↔ HostedQueueLease.status lease = "queued" ∧ HostedQueueLease.attempt_count lease = 0) ∧
  (c = "running_active_do_not_touch" ↔ HostedQueueLease.status lease = "running" ∧ expired = Some false).
Proof.
  intros Hl Hexp. pose proof (proj1 (lk_status _ Hl)) as Hin. unfold classify, ROW_STATUSES in *.
  repeat (apply elem_of_cons in Hin as [Hin|Hin]); [..|by apply not_elem_of_nil in Hin];
    rewrite Hin in *; cbn -[length].
  - destruct (Z.eqb_spec (HostedQueueLease.attempt_count lease) 0); cbn -[length];
      destruct ev as [[|o os] [|v vs]]; cbn; intros [= <- <- <-]; naive_solver.
  - destruct expired as [[|]|]; cbn -[length]; [| |by destruct (proj1 Hexp eq_refl)].
    + intros [= <- <- <-]. split_and!; split; try done; intros; destruct_and?; try done;
        repeat case_match; done.
    + intros [= <- <- <-]. split_and!; split; try done; intros; destruct_and?; done.
  - intros [= <- <- <-]. split_and!; split; try done; intros; destruct_and?; done.
  - intros [= <- <- <-]. split_and!; split; try done; intros; destruct_and?; try done;
      repeat case_match; done.
  - intros [= <- <- <-]. split_and!; split; try done; intros; destruct_and?; done.
Qed.

(** The report allows a re-execution exactly for a queued row with no
    attempt and no evidence in its generation, and a reconciliation exactly for
    a running row whose lease has expired; in every other state neither. *)
Theorem recovery_report_sound fuel spec w r w' :
  inspect_recovery queue activity utc_now utcnow fromisoformat fuel spec w = (Ok r, w') →
  (Report.reexecution_allowed r = true ↔
     Report.checkpoint_status r = "queued" ∧ Report.attempt_count r = 0 ∧
     Report.observation_events r = 0 ∧ Report.verification_events r = 0) ∧
  (Report.may_reconcile_expired_to_blocked r = true ↔
     Report.checkpoint_status r = "running" ∧ Report.lease_expired r = Some true).
Proof.
  unfold inspect_recovery. intros H. inv_eff.
  match goal with H : _inspect_snapshot _ _ _ _ _ _ _ _ = (Ok ?p, _) |- _ =>
    destruct p as [lease r']; apply inspect_snapshot_ok in H as (Hl & _ & ev & _ & []) end.
  cbn [snd]. destruct ro_events0 as [-> ->]. rewrite ro_status0, ro_attempts0.
  destruct (classify_ok _ _ _ _ _ _ _ Hl ro_expired0 ro_class0) as (-> & -> & _).
  split; [|done]. destruct ev as [[|o os] [|v vs]]; cbn; split; intros; destruct_and?; split_and!; try done; lia.
Qed.

(** ** Proposals *)
Definition doc_status (v : pyval) : pyval := match v with VDict d => get_or_none "status" d | _ => VNone end.

Lemma blocked_copy_status lease w st w' :
  blocked_copy utc_now lease w = (Ok st, w') → doc_status (TaskState.to_dict st) = VStr "blocked".
Proof. unfold blocked_copy. intros H. inv_eff. done. Qed.

(** A proposal never authorises execution; it names the revision and the
    lease generation of the well-formed row it is drawn from, and a blocked
    state exactly when that row is running with an expired lease; a live lease
    is not to be touched, a completed row is not re-executed, and first
    execution is proposed for queued rows without attempts only. *)
Theorem proposal_sound fuel spec w p w' :
  propose queue activity utc_now utcnow fromisoformat fuel spec w = (Ok p, w') →
  ∃ lease expired, lease_ok lease ∧
    Proposal.automatic_execution_allowed p = false ∧
    Proposal.task_id p = HostedQueueLease.task_id lease ∧
    Proposal.expected_revision p = HostedQueueLease.revision lease ∧
    Proposal.lease_generation p = HostedQueueLease.lease_generation lease ∧
    (HostedQueueLease.status lease = "running" ↔ expired ≠ None) ∧
    match Proposal.blocked_state p with
    | Some state => doc_status state = VStr "blocked" ∧ expired = Some true ∧
        Proposal.proposed_action p = "reconcile_expired_to_blocked"
    | None => expired ≠ Some true ∧
        Proposal.proposed_action p =
          (if String.eqb (HostedQueueLease.status lease) "queued" then
             if HostedQueueLease.attempt_count lease =? 0 then "eligible_for_first_execution"
             else "manual_reconciliation_required"
           else if String.eqb (HostedQueueLease.status lease) "running" then "do_not_touch"
           else if String.eqb (HostedQueueLease.status lease) "completed" then "no_reexecution"
           else "manual_reconciliation_required")
    end.
Proof.
  unfold propose. intros H. inv_eff.
  match goal with H : bad_recovery_if _ _ = _ |- _ => clear H end.
  match goal with H1 : _inspect_snapshot _ _ _ _ _ _ _ _ = _, H2 : _inspect_snapshot _ _ _ _ _ _ _ _ = (Ok ?p, _),
    H : (if Report.may_reconcile_expired_to_blocked ?p.2 then _ else _) _ = _ |- _ =>
    destruct p as [lease r]; apply inspect_snapshot_ok in H2 as (Hl & _ & ev & _ & []) end.
  cbn [fst snd] in *.
  destruct (classify_ok _ _ _ _ _ _ _ Hl ro_expired0 ro_class0) as (_ & Hmay & Hq & Hr).
  exists lease, (Report.lease_expired r).
  destruct (Report.may_reconcile_expired_to_blocked r) eqn:Em; inv_eff.
  - destruct (proj1 Hmay eq_refl) as [_ He].
    match goal with H : blocked_copy _ _ _ = _ |- _ => apply blocked_copy_status in H end.
    split_and!; done.
  - destruct (advise r) as [act why] eqn:Ea. inv_eff. cbn. split_and!; try done.
    + intros He. assert (HostedQueueLease.status lease = "running") by (by apply ro_expired0; rewrite He).
      by assert (false = true) by (by apply Hmay).
    + revert Ea. unfold advise. rewrite ro_status0.
      pose proof (proj1 (lk_status _ Hl)) as Hin. unfold ROW_STATUSES in Hin. unfold classify in ro_class0.
      repeat (apply elem_of_cons in Hin as [Hin|Hin]); [..|by apply not_elem_of_nil in Hin];
        rewrite Hin in *; cbn -[length] in ro_class0 |- *.
      * destruct (_ =? 0); injection ro_class0 as <- _; by intros [= <- <-].
      * destruct (Report.lease_expired r) as [[|]|]; cbn -[length] in ro_class0;
          [| |by destruct (proj1 ro_expired0 eq_refl)].
        -- discriminate ro_class0.
        -- injection ro_class0 as <- _. by intros [= <- <-].
      * injection ro_class0 as <- _. by intros [= <- <-].
      * injection ro_class0 as <- _. repeat case_match; try done; by intros [= <- <-].
      * injection ro_class0 as <- _. by intros [= <- <-].
Qed.
End inspector.

(** ** Inspection only reads *)
Definition READ_MODES : list string := ["checkpoint_get"; "event_list"].

Section read_only.
Context {W : Type} (queue activity : string → pydict → eff W pyval).
Context (utc_now : eff W string) (utcnow : eff W moment) (fromisoformat : string → result moment).

Lemma only_all_events fuel task : ∀ cursor acc,
  asks_only READ_MODES (_all_events (recorded activity) fuel task cursor acc).
Proof.
  induction fuel as [|fuel IH]; intros cursor acc; cbn [_all_events]; [apply only_throw|].
  unfold list_events, activity_request. modes_tac. apply IH.
Qed.
Lemma only_inspect_snapshot fuel spec : asks_only READ_MODES
  (_inspect_snapshot (recorded queue) (recorded activity) (quietly utc_now) (quietly utcnow)
     fromisoformat fuel spec).
Proof.
  unfold _inspect_snapshot, read_lease, inspect, _request, parse_field, read_expired.
  modes_tac. apply only_all_events.
Qed.

(** Inspection and proposal only read: whatever the services answer, every
    request made for a proposal is a checkpoint read or a ledger listing. *)
Theorem propose_read_only fuel spec w :
  let '(_, (_, log)) := propose (recorded queue) (recorded activity) (quietly utc_now)
      (quietly utcnow) fromisoformat fuel spec (w, []) in
  ∀ mode, mode ∈ log → mode = "checkpoint_get" ∨ mode = "event_list".
Proof.
  assert (asks_only READ_MODES (propose (recorded queue) (recorded activity) (quietly utc_now)
    (quietly utcnow) fromisoformat fuel spec)) as H.
  { unfold propose, blocked_copy.
    do 2 (apply only_bind; [apply only_inspect_snapshot|intros ?]). modes_tac. }
  destruct (H (w, [])) as (new & E & Hall). destruct (propose _ _ _ _ _ _ _ _) as [r [w' log]].
  cbn in E. subst log. intros mode Hm. rewrite list.Forall_forall in Hall. specialize (Hall _ Hm).
  unfold READ_MODES in Hall. set_solver.
Qed.
End read_only.

(** ** Concrete services *)
Definition fixed_answer (v : pyval) (mode : string) (payload : pydict) : eff nat pyval :=
  λ n, (Ok v, S n).
Definition utc_moment : eff nat moment := λ n, (Ok (Aware 100), n).
Definition any_timestamp (s : string) : result moment := Ok (Aware 50).

(** A row like [running_row], queued, with the given attempts and generation. *)
Definition queued_row (attempts generation : Z) : pyval :=
  VDict [("task_id", VStr "task-1"); ("status", VStr "queued"); ("revision", VInt 3);
         ("idempotency_key", VStr "task-1"); ("spec", TaskSpec.to_dict row_spec);
         ("state", TaskState.to_dict (row_state "pending"));
         ("spec_fingerprint", VStr row_fingerprint); ("attempt_count", VInt attempts);
         ("max_attempts", VInt 3); ("lease_generation", VInt generation);
         ("not_before", VStr "2026-01-01")].
Definition row_service (row : pyval) : string → pydict → eff nat pyval :=
  fixed_answer (VDict [("success", VBool true); ("checkpoint", row)]).
Definition event_doc (i : Z) (kind : string) (generation : Z) (evidence : pydict) : pyval :=
  VDict [("event_id", VInt i); ("task_id", VStr "task-1"); ("event_type", VStr kind);
         ("payload", VDict [("spec_fingerprint", VStr row_fingerprint);
            ("lease_generation", VInt generation); ("revision", VInt 1); ("evidence", VDict evidence)]);
         ("created_at", VStr "2026-01-01")].
Definition ledger_service (rows : list pyval) : string → pydict → eff nat pyval :=
  fixed_answer (VDict [("success", VBool true); ("events", VList rows)]).

Lemma recovery_report_sound_witness :
  ∃ r, inspect_recovery (row_service (queued_row 0 1)) (ledger_service []) row_clock utc_moment
         any_timestamp 5 row_spec 0%nat = (Ok r, 2%nat) ∧ Report.reexecution_allowed r = true.
Proof.
  eexists. split; [vm_compute; reflexivity|].
  apply (recovery_report_sound (row_service (queued_row 0 1)) (ledger_service []) row_clock utc_moment
    any_timestamp 5 row_spec 0%nat _ 2%nat); vm_compute; [reflexivity|split_and!; reflexivity].
Defined.
Lemma proposal_sound_witness :
  ∃ p, propose (row_service (running_row 3)) (ledger_service []) row_clock utc_moment
         any_timestamp 5 row_spec 0%nat = (Ok p, 4%nat) ∧
       Proposal.automatic_execution_allowed p = false.
Proof.
  eexists. split; [vm_compute; reflexivity|].
  destruct (proposal_sound (row_service (running_row 3)) (ledger_service []) row_clock utc_moment
    any_timestamp 5 row_spec 0%nat _ 4%nat ltac:(vm_compute; reflexivity)) as (l & x & _ & H & _).
  exact H.
Defined.

Definition ledger_task : HostedActivityEvent.t :=
  HostedActivityEvent.mk 1 "task-1" "note" None [] "2026-01-01".
Definition ledger_doc (e : HostedActivityEvent.t) : pyval :=
  VDict [("event_id", VInt (HostedActivityEvent.event_id e)); ("task_id", VStr "task-1");
         ("event_type", VStr "note"); ("payload", VDict []); ("created_at", VStr "2026-01-01")].
(** A service with one event, which it hides once the cursor is past it. *)
Definition one_event (mode : string) (payload : pydict) : eff nat pyval := λ n,
  (Ok (VDict [("success", VBool true);
     ("events", VList (match get_or_none "after_event_id" payload with
                       | VInt c => if c <? 1 then [ledger_doc ledger_task] else []
                       | _ => [ledger_doc ledger_task] end))]), S n).
Lemma one_event_serves : serves one_event "task-1" ledger_doc [ledger_task].
Proof.
  split.
  - reflexivity.
  - intros e ->%list_elem_of_singleton. vm_compute. reflexivity.
  - repeat constructor.
  - intros cursor limit n Hl. exists (S n). destruct (Z.to_nat limit) as [|m] eqn:E; [lia|].
    destruct cursor as [c|]; unfold one_event; cbn; [destruct (c <? 1)|]; cbn;
      by rewrite ?take_nil.
Qed.
Lemma all_events_complete_witness :
  ∃ w', _all_events one_event 1 "task-1" None [] 0%nat = (Ok [ledger_task], w').
Proof. apply (all_events_complete one_event "task-1" ledger_doc); [exact one_event_serves|reflexivity]. Defined.

(** For a queued row with no attempt but with evidence in its generation the
    report forbids re-execution, and yet the proposal is a first execution, on
    the ground that no provider evidence was observed. *)
Theorem first_execution_despite_evidence :
  let queue := row_service (queued_row 0 1) in
  let activity := ledger_service [event_doc 7 "github_observation" 1 []] in
  ∃ r p, inspect_recovery queue activity row_clock utc_moment any_timestamp 5 row_spec 0%nat
           = (Ok r, 2%nat) ∧
    propose queue activity row_clock utc_moment any_timestamp 5 row_spec 0%nat = (Ok p, 4%nat) ∧
    Report.observation_events r = 1 ∧ Report.reexecution_allowed r = false ∧
    Proposal.proposed_action p = "eligible_for_first_execution" ∧
    Proposal.reason p = "no prior attempt or provider evidence was observed; separate execution authorization is still required".
Proof.
  eexists _, _. split; [vm_compute; reflexivity|]. split; [vm_compute; reflexivity|].
  split_and!; reflexivity.
Qed.
