(* ===== verification/Bridge.v ===== *)
(** agent_core/runtime_bridge.py, provider_adapters.py and delivery.py: capabilities
    that a host serves through a bridge, and the delivery of reports through it.

    The bridge is an operation on the outside world [W]; what it answers is
    arbitrary.

    Capabilities served through a bridge: an adapter that is built always fits the
    registry, and what the bridge gives as a reason for blocking is never kept. *)
From S2P Require Import Prelude PyString PyValue TaskModel TaskStore StateStore Runner Registry RegistryFacts.

Module BridgeResponse.
Record t := mk {
  message : string; data : option pydict; artifacts : list ArtifactUpdate.t; blocked_reason : pyval }.
End BridgeResponse.
Module DeliveryResult.
Record t := mk { delivered : pyval; destination : pyval; message_id : pyval; detail : pyval }.
End DeliveryResult.

(** What the bridge may answer; the ["artifacts"] of a dictionary, whose items may
    be updates, are apart from its other entries. *)
Inductive bridge_value :=
  | BridgeNone
  | BridgeResult (r : ActionResult.t)
  | BridgeReply (r : BridgeResponse.t)
  | BridgeDelivery (r : DeliveryResult.t)
  | BridgeDict (artifacts : option (list artifact_item)) (rest : pydict)
  | BridgeOther.

Definition blocked {A} : result A := raise BlockedAction "runtime_bridge_blocked".
Definition _normalise_response (v : bridge_value) : result ActionResult.t :=
  match v with
  | BridgeResult r => Ok r
  | BridgeReply r =>
      if truthy (BridgeResponse.blocked_reason r) then blocked
      else Ok {| ActionResult.message := BridgeResponse.message r;
                 ActionResult.artifacts := BridgeResponse.artifacts r;
                 ActionResult.data := default [] (BridgeResponse.data r) |}
  | BridgeDict arts d =>
      if truthy (get_or_none "blocked_reason" d) then blocked
      else
        artifacts ← mapR item_update (default [] arts);
        data ← py_dict (py_or (get_or_none "data" d) (VDict []));
        Ok {| ActionResult.message := py_str (py_or (get_or_none "message" d) (VStr ""));
              ActionResult.artifacts := artifacts; ActionResult.data := data |}
  | BridgeNone => Ok ActionResult.empty
  | BridgeDelivery _ | BridgeOther => raise TypeError "unsupported_bridge_response"
  end.

Section bridge.
Context {W : Type} (invoke : Capability → pydict → pydict → eff W bridge_value).

Definition _build_action (c : Capability) : Action W := λ args context,
  response ← invoke c args context;
  r ← lift (_normalise_response response);
  mret (RetResult r).

(** ** BridgeToolAdapter *)

(** [BridgeToolAdapter(...)], with what [capabilities()] and [actions()] give *)
Definition BridgeToolAdapter (name : string) (caps : list Capability) : result (ToolAdapter W) :=
  reject_if (blank name) ValueError "adapter_name_required";;
  reject_if (bool_decide (caps = [])) ValueError "capabilities_required";;
  reject_if (negb (bool_decide (NoDup (map cap_action caps)))) ValueError "duplicate_adapter_capability";;
  Ok (MkAdapter name (sorted_on cap_action caps)
        (list_to_map (map (λ c, (cap_action c, _build_action c)) caps))).

Definition ReadOnlySupabaseStatusAdapter : result (ToolAdapter W) :=
  BridgeToolAdapter "supabase-readonly-status"
    [MkCapability "supabase.project_status" "read" ["supabase:project:read"] true
       "Read project health/status without changing configuration.";
     MkCapability "supabase.function_status" "read" ["supabase:functions:read"] true
       "Read deployed function metadata/status without deployment.";
     MkCapability "supabase.table_count" "read" ["supabase:database:read"] true
       "Read a table row count through an authorized read-only query path."].
Definition FileArtifactAdapter : result (ToolAdapter W) :=
  BridgeToolAdapter "file-artifacts"
    [MkCapability "files.read_artifact" "read" ["files:read"] true
       "Read an explicitly identified private artifact.";
     MkCapability "files.verify_artifact" "read" ["files:read"] true
       "Verify artifact existence/metadata without modifying it.";
     MkCapability "files.write_artifact" "write" ["files:write"] false
       "Persist a new artifact to an authorized destination."].

(** ** BridgeReportDelivery *)
Definition delivery_capability (action : string) : result Capability :=
  reject_if (blank action) ValueError "delivery_action_required";;
  Ok (MkCapability action "write" ["report:deliver"] false
        "Deliver a rendered report to a host-configured destination.").
Definition delivery_report (delivered destination message_id detail : pyval) : pydict :=
  [("delivered", delivered); ("destination", destination); ("message_id", message_id); ("detail", detail)].
Definition deliver (c : Capability) (report_text : string) (metadata : pydict) : eff W pydict :=
  lift (reject_if (blank report_text) ValueError "report_text_required");;
  response ← invoke c [("report_text", VStr report_text); ("metadata", VDict metadata)]
                      [("operation", VStr "report_delivery")];
  lift match response with
       | BridgeDelivery r => Ok (delivery_report (DeliveryResult.delivered r) (DeliveryResult.destination r)
                                   (DeliveryResult.message_id r) (DeliveryResult.detail r))
       | BridgeDict _ d =>
           let entry delivered detail :=
             delivery_report (VBool delivered) (get_or_none "destination" d)
               (get_or_none "message_id" d) (VStr (py_str detail)) in
           if is_true (get_or_none "delivered" d)
           then Ok (entry true (py_or (get_or_none "detail" d) (VStr "")))
           else Ok (entry false (py_or (py_or (get_or_none "detail" d) (get_or_none "error" d))
                                   (VStr "delivery not confirmed")))
       | _ => raise TypeError "unsupported_delivery_response"
       end.
End bridge.

(** * What a bridge may answer *)
Lemma capability_map_spec caps (m : gmap string Capability) : NoDup (map cap_action caps) →
  dom (foldl (λ m c, <[cap_action c := c]> m) m caps) = list_to_set (map cap_action caps) ∪ dom m ∧
  (∀ a, a ∉ map cap_action caps → foldl (λ m c, <[cap_action c := c]> m) m caps !! a = m !! a) ∧
  ∀ c, c ∈ caps → foldl (λ m c, <[cap_action c := c]> m) m caps !! cap_action c = Some c.
Proof.
  revert m. induction caps as [|d caps IH]; cbn; intros m Hn.
  { split_and!; [set_solver|done|]. by intros c ?%not_elem_of_nil. }
  apply list.NoDup_cons in Hn as [Hni Hn]. destruct (IH (<[cap_action d:=d]> m) Hn) as (Hd & H1 & H2).
  split_and!; [rewrite Hd; set_solver| |].
  - intros a [Hne Ha]%not_elem_of_cons. rewrite H1, lookup_insert_ne; auto.
  - intros c [->|Hc]%elem_of_cons; [|auto]. by rewrite H1, lookup_insert_eq.
Qed.

Lemma keyed_fst {B} (f : Capability → B) caps :
  (map (λ c, (cap_action c, f c)) caps).*1 = map cap_action caps.
Proof. induction caps as [|c caps IH]; cbn; [done|]. by f_equal. Qed.

Section facts.
Context {W : Type} (invoke : Capability → pydict → pydict → eff W bridge_value).

(** The maps an adapter over a bridge contributes. *)
Definition declared (caps : list Capability) : gmap string Capability :=
  list_to_map (map (λ c, (cap_action c, c)) caps).
Definition bridged (caps : list Capability) : gmap string (Action W) :=
  list_to_map (map (λ c, (cap_action c, _build_action invoke c)) caps).
Lemma dom_bridged caps : dom (bridged caps) = list_to_set (map cap_action caps).
Proof. unfold bridged. by rewrite dom_list_to_map_L, keyed_fst. Qed.

Lemma adapter_total name caps : blank name = false → caps ≠ [] → NoDup (map cap_action caps) →
  ∃ a, BridgeToolAdapter invoke name caps = Ok a ∧ adapter_actions a = bridged caps ∧
    capabilities a ≡ₚ caps.
Proof.
  intros Hb Hc Hn. unfold BridgeToolAdapter. rewrite Hb, (bool_decide_false (caps = [])) by done.
  rewrite (bool_decide_true (NoDup _)) by done. cbn. eexists. split; [done|]. split; [done|]. apply sorted_on_perm.
Qed.
Lemma capability_map_declared caps caps' : NoDup (map cap_action caps) → caps' ≡ₚ caps →
  ToolRegistry.capability_map caps' = declared caps.
Proof.
  intros Hn Hp. assert (NoDup (map cap_action caps')) as Hn' by by rewrite Hp.
  destruct (capability_map_spec caps' ∅ Hn') as (_ & H1 & H2). unfold ToolRegistry.capability_map, declared.
  apply map_eq. intros a. destruct (decide (a ∈ map cap_action caps')) as [Ha|Ha].
  - pose proof Ha as (c & -> & Hc)%list_elem_of_fmap. rewrite H2 by done. symmetry.
    apply elem_of_list_to_map; [by rewrite keyed_fst|]. rewrite Hp in Hc. apply list_elem_of_fmap. eauto.
  - rewrite H1, lookup_empty by done. symmetry. apply not_elem_of_list_to_map.
    rewrite keyed_fst. by rewrite Hp in Ha.
Qed.

(** An adapter over a bridge is accepted by every registry that has none of its
    actions; then each of its capabilities is registered and runs through the bridge. *)
Lemma bridge_adapter_registers name caps (r : ToolRegistry.t W) :
  blank name = false → caps ≠ [] → NoDup (map cap_action caps) →
  (∀ c, c ∈ caps → ToolRegistry.actions r !! cap_action c = None) →
  ∃ a r', BridgeToolAdapter invoke name caps = Ok a ∧ ToolRegistry.register r a = Ok r' ∧
    ToolRegistry._capabilities r' = declared caps ∪ ToolRegistry._capabilities r ∧
    ToolRegistry.actions r' = bridged caps ∪ ToolRegistry.actions r.
Proof.
  intros Hb Hc Hn Hnew. destruct (adapter_total name caps Hb Hc Hn) as (a & Ha & Hact & Hp).
  pose proof (capability_map_declared caps _ Hn Hp) as Hcm. exists a.
  unfold ToolRegistry.register. cbv zeta. rewrite Hcm, Hact.
  rewrite (bool_decide_true (dom _ = dom _)).
  2: { rewrite dom_bridged. unfold declared. by rewrite dom_list_to_map_L, keyed_fst. }
  rewrite bool_decide_true; [by eexists|]. apply collisions_nil. rewrite Hact.
  apply map_disjoint_dom. rewrite dom_bridged. intros x Hx Hr.
  apply elem_of_list_to_set, list_elem_of_fmap in Hx as (c & -> & Hx).
  apply elem_of_dom in Hr as [? Hr]. by rewrite Hnew in Hr.
Qed.
End facts.

(** A reply that says it is blocked leaves one fixed exception, whatever the reason. *)
Lemma blocked_reply_fixed v : match v with
    | BridgeReply r => truthy (BridgeResponse.blocked_reason r) = true
    | BridgeDict _ d => truthy (get_or_none "blocked_reason" d) = true
    | _ => False
    end → _normalise_response v = raise BlockedAction "runtime_bridge_blocked".
Proof. destruct v; cbn; try done; by intros ->. Qed.

(** A report counts as delivered only when the host says [True]. *)
Lemma delivered_confirmed {W : Type} (invoke : Capability → pydict → pydict → eff W bridge_value) c text md w d w' :
  deliver invoke c text md w = (Ok d, w') → dict_get "delivered" d = Some (VBool true) →
  blank text = false ∧ ∃ response w1,
    invoke c [("report_text", VStr text); ("metadata", VDict md)]
             [("operation", VStr "report_delivery")] w = (Ok response, w1) ∧
    match response with
    | BridgeDelivery r => DeliveryResult.delivered r = VBool true
    | BridgeDict _ d => get_or_none "delivered" d = VBool true
    | _ => False
    end.
Proof.
  unfold deliver. intros H Hd. inv_eff. split; [done|]. eexists _, _. split; [done|].
  match goal with H : match ?r with _ => _ end = Ok d |- _ => destruct r as [| | |r|arts e|]; try done end.
  - inv_result. by injection Hd.
  - destruct (is_true (get_or_none "delivered" e)) eqn:E; inv_result; [|done].
    by destruct (get_or_none "delivered" e) as [|[]| | | | | |].
Qed.
