(* ===== verification/Runtime.v ===== *)
(** agent_core/runtime.py: manifests that bind capabilities to a host's bridge
    without credentials, and the runtime built from one. *)
From S2P Require Import Prelude PyString Itertools PyValue TaskModel Diagnostics TaskStore StateStore.
From S2P Require Import Runner Registry Bridge.

Definition _FORBIDDEN_BINDING_KEYS : list string :=
  ["token"; "access_token"; "refresh_token"; "password"; "secret"; "service_role"; "api_key"; "apikey";
   "authorization"].
Definition _BINDING_KEYS : list string :=
  ["provider"; "action"; "access"; "required_permissions"; "supports_dry_run"; "description"].
Definition _MANIFEST_KEYS : list string := ["schema_version"; "bindings"].

(** [",".join(sorted(set))] of the strings of [l] that satisfy [f] *)
Definition listed (f : string → bool) (l : list string) : list string :=
  sorted (remove_dups (List.filter f l)).
(** The checks on the keys that open both [from_dict]. *)
Definition check_keys (what unknown_msg : string) (allowed : list string) (payload : pyval) : result unit :=
  items ← py_iter payload;
  let ks := map py_str items in
  let forbidden := listed (λ k, bool_decide (k ∈ _FORBIDDEN_BINDING_KEYS)) (map lower ks) in
  reject_if (negb (bool_decide (forbidden = []))) ValueError
    ("credentials_forbidden_in_" ++ what ++ ":" ++ join "," forbidden);;
  let unknown := listed (λ k, negb (bool_decide (k ∈ allowed))) ks in
  reject_if (negb (bool_decide (unknown = []))) ValueError (unknown_msg ++ ":" ++ join "," unknown).
(** [payload.get(k)], [None] when it is missing *)
Definition field (payload : pyval) (k : string) : result pyval :=
  v ← py_get payload k; Ok (default VNone v).
(** [str(payload.get(k) or "").strip()] *)
Definition text_field (payload : pyval) (k : string) : result string :=
  v ← field payload k; Ok (strip (py_str (py_or v (VStr "")))).

Module RuntimeBinding.
Record t := mk {
  provider : string; action : string; access : string; required_permissions : list string;
  supports_dry_run : bool; description : string }.
Definition from_dict (payload : pyval) : result t :=
  check_keys "binding" "unknown_runtime_binding_field" _BINDING_KEYS payload;;
  provider ← text_field payload "provider";
  action ← text_field payload "action";
  access ← text_field payload "access";
  reject_if (negb (truthy_s provider)) ValueError "binding_provider_required";;
  reject_if (negb (truthy_s action)) ValueError "binding_action_required";;
  reject_if (negb (bool_decide (access ∈ ["read"; "write"; "execute"]))) ValueError "binding_access_invalid";;
  values ← field payload "required_permissions";
  items ← py_iter (py_or values (VTuple []));
  let permissions := map (λ v, strip (py_str v)) items in
  reject_if (existsb (λ p, negb (truthy_s p)) permissions) ValueError "empty_required_permission";;
  dry_run ← py_get payload "supports_dry_run";
  description ← field payload "description";
  Ok (mk provider action access permissions (truthy (default (VBool false) dry_run))
        (py_str (py_or description (VStr "")))).
Definition capability (b : t) : Capability :=
  MkCapability (action b) (access b) (required_permissions b) (supports_dry_run b) (description b).
End RuntimeBinding.

Module RuntimeManifest.
Record t := mk { schema_version : string; bindings : list RuntimeBinding.t }.
(** The loop that looks for a second binding of an action. *)
Definition see (seen : gset string) (b : RuntimeBinding.t) : result (gset string) :=
  reject_if (bool_decide (RuntimeBinding.action b ∈ seen)) ValueError
    ("duplicate_runtime_binding:" ++ RuntimeBinding.action b);;
  Ok ({[RuntimeBinding.action b]} ∪ seen).
Definition from_dict (payload : pyval) : result t :=
  check_keys "manifest" "unknown_runtime_manifest_field" _MANIFEST_KEYS payload;;
  version ← field payload "schema_version";
  let schema := py_str (py_or version (VStr "")) in
  reject_if (negb (String.eqb schema "agent-runtime-bindings-v1")) ValueError
    "runtime_manifest_schema_mismatch";;
  raw ← field payload "bindings";
  bindings ← match py_or raw (VTuple []) with
             | VList l => mapR RuntimeBinding.from_dict l
             | _ => raise ValueError "runtime_bindings_must_be_list"
             end;
  reject_if (bool_decide (bindings = [])) ValueError "runtime_bindings_required";;
  foldR see ∅ bindings;;
  Ok (mk schema bindings).
End RuntimeManifest.

(** ** BoundRuntime *)
Section runtime.
Context {W : Type} (invoke : Capability → pydict → pydict → eff W bridge_value).

(** One adapter per provider, in the order of the providers' names. *)
Definition add_provider (r : ToolRegistry.t W) (group : string * list RuntimeBinding.t) :
    result (ToolRegistry.t W) :=
  adapter ← BridgeToolAdapter invoke ("bridge:" ++ group.1) (map RuntimeBinding.capability group.2);
  ToolRegistry.register r adapter.
Definition bound_registry (m : RuntimeManifest.t) : result (ToolRegistry.t W) :=
  foldR add_provider ToolRegistry.empty
    (sorted_on fst (group_on RuntimeBinding.provider (RuntimeManifest.bindings m))).

(** [preflight_task_file] and [run_task_file] on the document of the task file, the
    runtime being built from a manifest *)
Definition preflight_task_file (m : RuntimeManifest.t) (payload : pyval)
    (allowed_access : option (list string)) : result PreflightReport :=
  registry ← bound_registry m;
  spec ← TaskSpec.from_dict payload;
  preflight registry spec allowed_access.
Definition run_bound_task_file {H} `{TS : !TaskStore H W} (type_name : exn → string) (m : RuntimeManifest.t)
    (payload : pyval) (context : pydict) (allowed_access : option (list string)) : eff H RunOutcome.t :=
  registry ← lift (bound_registry m);
  run_task_file (TS:=TS) type_name registry payload context allowed_access.
End runtime.
