(* ===== verification/RuntimeFacts.v ===== *)
(** The runtime of every accepted manifest is built, and its registry is exactly the
    manifest. *)
From Stdlib Require Import Ascii.
From S2P Require Import Prelude PyString Itertools PyValue TaskModel TaskStore StateStore Runner Registry.
From S2P Require Import Bridge Runtime RegistryFacts.
Import RuntimeBinding RuntimeManifest.

(** ** Manifests *)
Lemma see_all bs seen seen' : foldR see seen bs = Ok seen' →
  NoDup (map action bs) ∧ ∀ a, a ∈ map action bs → a ∉ seen.
Proof.
  revert seen. induction bs as [|b bs IH]; intros seen; cbn.
  { intros _. split; [constructor|]. by intros a ?%not_elem_of_nil. }
  intros H. inv_result. apply IH in H as [Hn Hs].
  match goal with H : see seen b = Ok _ |- _ => unfold see in H end. inv_result. split.
  - apply list.NoDup_cons. split; [|done]. intros Hin%Hs. set_solver.
  - intros a [->|Ha]%elem_of_cons; [done|]. apply Hs in Ha. set_solver.
Qed.
Lemma binding_ok v b : RuntimeBinding.from_dict v = Ok b →
  provider b ≠ "" ∧ action b ≠ "" ∧ RuntimeBinding.access b ∈ ["read"; "write"; "execute"] ∧
  ∀ p, p ∈ RuntimeBinding.required_permissions b → p ≠ "".
Proof.
  intros H. unfold RuntimeBinding.from_dict in H. inv_result. cbn. unfold truthy_s in *. inv_result.
  split_and!; try by apply String.eqb_neq.
  - done.
  - intros p Hp ->. apply not_true_iff_false in Ha8. apply Ha8, existsb_exists.
    exists ""%string. split; [by apply list_elem_of_In|done].
Qed.
Lemma manifest_ok payload m : RuntimeManifest.from_dict payload = Ok m →
  NoDup (map action (bindings m)) ∧ bindings m ≠ [] ∧
  ∀ b, b ∈ bindings m → ∃ v, RuntimeBinding.from_dict v = Ok b.
Proof.
  intros H. unfold RuntimeManifest.from_dict in H. inv_result. cbn.
  match goal with H : foldR see ∅ _ = Ok _ |- _ => apply see_all in H as [Hn _] end.
  split_and!; [done|done|]. intros b Hb.
  match goal with H : match ?v with _ => _ end = Ok _ |- _ => destruct v as [| | | | |l| |]; try done end.
  match goal with H : mapR _ l = Ok _ |- _ => apply mapR_Ok in H as HF end.
  apply list_elem_of_lookup in Hb as [i Hi]. eapply Forall2_lookup_r in HF as (v & _ & Hv); [eauto|done].
Qed.

(** ** The registry of a manifest *)
Section runtime.
Context {W : Type} (invoke : Capability → pydict → pydict → eff W bridge_value).
Definition capabilities_of (bs : list RuntimeBinding.t) : list Capability := map RuntimeBinding.capability bs.

Lemma add_provider_ok (r : ToolRegistry.t W) g : g.2 ≠ [] → NoDup (map action g.2) →
  (∀ b, b ∈ g.2 → ToolRegistry.actions r !! action b = None) →
  ∃ r', add_provider invoke r g = Ok r' ∧ (registry_ok r → registry_ok r') ∧
    ToolRegistry._capabilities r' = declared (capabilities_of g.2) ∪ ToolRegistry._capabilities r ∧
    ToolRegistry.actions r' = bridged invoke (capabilities_of g.2) ∪ ToolRegistry.actions r.
Proof.
  intros Hne Hn Hnew.
  destruct (bridge_adapter_registers invoke ("bridge:" ++ g.1)%string (capabilities_of g.2) r)
    as (a & r' & Ha & Hr & Hc & Hact).
  - by apply not_blank_cons.
  - by destruct g.2.
  - unfold capabilities_of. by rewrite map_map.
  - intros c (b & -> & Hb)%list_elem_of_fmap. by apply Hnew.
  - exists r'. unfold add_provider. fold (capabilities_of g.2). rewrite Ha. split_and!; [done| |done|done].
    intros Hok. by eapply register_keeps_ok.
Qed.

Lemma keyed_app {B} (f : Capability → B) bs bs' : NoDup (map action (bs ++ bs')) →
  let keyed bs : gmap string B := list_to_map (map (λ c, (cap_action c, f c)) (capabilities_of bs)) in
  keyed (bs ++ bs') = keyed bs' ∪ keyed bs.
Proof.
  intros Hn keyed. unfold keyed, capabilities_of. rewrite !map_app, list_to_map_app. apply map_union_comm.
  apply map_disjoint_dom. rewrite !dom_list_to_map_L, !keyed_fst, !map_map.
  rewrite map_app in Hn. apply list.NoDup_app in Hn as (_ & Hd & _). set_solver.
Qed.

(** The registry built from groups whose actions are all different and new. *)
Lemma add_providers_ok gs (r : ToolRegistry.t W) : registry_ok r → Forall (λ g, g.2 ≠ []) gs →
  NoDup (map action (concat (map snd gs))) →
  (∀ b, b ∈ concat (map snd gs) → ToolRegistry.actions r !! action b = None) →
  ∃ r', foldR (add_provider invoke) r gs = Ok r' ∧ registry_ok r' ∧
    ToolRegistry._capabilities r' =
      declared (capabilities_of (concat (map snd gs))) ∪ ToolRegistry._capabilities r ∧
    ToolRegistry.actions r' =
      bridged invoke (capabilities_of (concat (map snd gs))) ∪ ToolRegistry.actions r.
Proof.
  intros Hok HF. revert r Hok. induction HF as [|g gs Hg _ IH]; intros r Hok Hn Hnew.
  { exists r. cbn. unfold declared, bridged. cbn. by rewrite !map_empty_union. }
  cbn [map concat] in *. rewrite map_app in Hn. apply list.NoDup_app in Hn as (Hn1 & Hd & Hn2).
  destruct (add_provider_ok r g Hg Hn1) as (r1 & E1 & Hok1 & Hc1 & Ha1).
  { intros b Hb. apply Hnew. set_solver. }
  destruct (IH r1) as (r' & E & Hok' & Hc & Ha); [by apply Hok1|done| |].
  { intros b Hb. rewrite Ha1. apply lookup_union_None. split; [|apply Hnew; set_solver].
    apply not_elem_of_dom. rewrite dom_bridged. unfold capabilities_of. rewrite map_map.
    intros Hin%elem_of_list_to_set. apply (Hd (action b)); [done|]. by apply list_elem_of_fmap_2. }
  exists r'. cbn [foldR]. rewrite E1. cbn. split_and!; [done|done| |].
  - rewrite Hc, Hc1, (assoc_L (∪)). f_equal. symmetry. apply keyed_app. by rewrite map_app, list.NoDup_app.
  - rewrite Ha, Ha1, (assoc_L (∪)). f_equal. symmetry. apply keyed_app. by rewrite map_app, list.NoDup_app.
Qed.

Lemma keyed_lookup {B} (f : Capability → B) bs a x : NoDup (map action bs) →
  (list_to_map (map (λ c, (cap_action c, f c)) (capabilities_of bs)) : gmap string B) !! a = Some x ↔
  ∃ b, b ∈ bs ∧ a = action b ∧ x = f (RuntimeBinding.capability b).
Proof.
  intros Hn. rewrite <- elem_of_list_to_map.
  2: { rewrite keyed_fst. unfold capabilities_of. by rewrite map_map. }
  unfold capabilities_of. rewrite map_map, list_elem_of_fmap. split.
  - intros (b & [= -> ->] & Hb). eauto.
  - intros (b & Hb & -> & ->). by exists b.
Qed.

(** C27: every manifest that is accepted gives a runtime: no adapter and no
    registration is refused, whatever the providers.  Its registry is well formed
    and holds exactly the manifest's bindings: each action with the access and the
    permissions declared for it, running through the bridge, and no other action. *)
Theorem bound_runtime_exact payload m : RuntimeManifest.from_dict payload = Ok m →
  ∃ r, bound_registry invoke m = Ok r ∧ registry_ok r ∧
    (∀ a c, ToolRegistry.capability r a = Some c ↔
       ∃ b, b ∈ bindings m ∧ a = action b ∧ c = RuntimeBinding.capability b) ∧
    (∀ a act, ToolRegistry.actions r !! a = Some act ↔
       ∃ b, b ∈ bindings m ∧ a = action b ∧ act = _build_action invoke (RuntimeBinding.capability b)).
Proof.
  intros (Hn & _ & _)%manifest_ok. unfold bound_registry.
  set (gs := group_on provider (bindings m)).
  pose proof (sorted_on_perm fst gs) as Hp.
  assert (concat (map snd (sorted_on fst gs)) ≡ₚ bindings m) as Hall.
  { rewrite <- (group_on_perm provider (bindings m)). fold gs. by rewrite Hp. }
  destruct (add_providers_ok (sorted_on fst gs) ToolRegistry.empty) as (r & E & Hok & Hc & Ha).
  - apply empty_ok.
  - rewrite Hp. apply list.Forall_forall. intros [i g] Hg.
    by apply (gr_group _ _ _ (group_on_ok provider (bindings m))) in Hg as [_ ?].
  - by rewrite Hall.
  - intros b _. apply lookup_empty.
  - exists r. assert (NoDup (map action (concat (map snd (sorted_on fst gs))))) as Hn' by by rewrite Hall.
    split_and!; [done|done| |].
    + intros a c. unfold ToolRegistry.capability. rewrite Hc. cbn. rewrite map_union_empty.
      unfold declared. rewrite keyed_lookup by done. by setoid_rewrite Hall.
    + intros a act. rewrite Ha. cbn. rewrite map_union_empty.
      unfold bridged. rewrite keyed_lookup by done. by setoid_rewrite Hall.
Qed.
End runtime.

(** A host that answers every call with [None]. *)
Definition quiet_host (c : Capability) (args context : pydict) : eff nat bridge_value :=
  λ calls, (Ok BridgeNone, S calls).
(** A manifest with two providers. *)
Definition binding_doc (provider action access : string) : pyval :=
  VDict [("provider", VStr provider); ("action", VStr action); ("access", VStr access)].
Definition example_manifest : pyval :=
  VDict [("schema_version", VStr "agent-runtime-bindings-v1");
         ("bindings", VList [binding_doc "supabase" "db.status" "read"; binding_doc "github" "ci.status" "read";
                             binding_doc "supabase" "db.write" "write"])].
Lemma bound_runtime_exact_witness : ∃ m r, RuntimeManifest.from_dict example_manifest = Ok m ∧
  bound_registry quiet_host m = Ok r ∧
  Registry.access <$> ToolRegistry.capability r "db.write" = Some "write".
Proof.
  destruct (RuntimeManifest.from_dict example_manifest) as [m|e] eqn:E; [|by vm_compute in E].
  destruct (bound_runtime_exact quiet_host _ m E) as (r & Hr & _ & Hc & _). exists m, r.
  split_and!; [done|done|].
  assert (ToolRegistry.capability r "db.write" = Some (MkCapability "db.write" "write" [] false "")) as ->; [|done].
  apply Hc. vm_compute in E. injection E as <-.
  exists (RuntimeBinding.mk "supabase" "db.write" "write" [] false ""). split_and!; [|done|done].
  apply list_elem_of_further, list_elem_of_further, list_elem_of_here.
Defined.
(** A binding that carries a credential is refused. *)
Example credentials_refused :
  RuntimeBinding.from_dict (VDict [("provider", VStr "p"); ("Token", VStr "x")]) =
  raise ValueError "credentials_forbidden_in_binding:token".
Proof. vm_compute. reflexivity. Qed.
