(* ===== verification/NoteDrafts.v ===== *)
(** agent_core/note_drafts.py: reading and updating existing private drafts through
    a browser host.

    The backend is a pair of operations on the outside world [W]; what it reads is
    arbitrary. *)
From Stdlib Require Import Ascii.
From S2P Require Import Prelude PyString PyValue Sha256 TaskModel TaskStore StateStore Runner Registry.

Definition content_digest (title body : string) : result string :=
  text ← json_dumps (VList [VStr title; VStr body]); Ok (sha256_hex text).

(** ** [urlsplit] *)
Record url_parts := UrlParts { scheme : string; netloc : string; path : string; query : string; fragment : string }.

(** The text before and after the first character in [cs], when there is one. *)
Fixpoint cut (cs : string) (l : list ascii) : list ascii * option (list ascii) :=
  match l with
  | [] => ([], None)
  | c :: l' => if one_of cs c then ([], Some l') else let '(a, b) := cut cs l' in (c :: a, b)
  end.
(** The longest prefix without a character in [cs], and the rest. *)
Fixpoint until (cs : string) (l : list ascii) : list ascii * list ascii :=
  match l with
  | [] => ([], [])
  | c :: l' => if one_of cs c then ([], l) else let '(a, b) := until cs l' in (c :: a, b)
  end.
Definition c0_or_space (c : ascii) : bool := code c <=? 32.
Fixpoint drop_while (f : ascii → bool) (l : list ascii) : list ascii :=
  match l with [] => [] | c :: l' => if f c then drop_while f l' else l end.
(** Tabs and line ends are removed anywhere, other controls in front. *)
Definition clean_url (s : string) : list ascii :=
  List.filter (λ c, negb ((code c =? 9) || (code c =? 10) || (code c =? 13)))
    (drop_while c0_or_space (chars s)).
Definition scheme_char (c : ascii) : bool := is_ascii_alnum c || one_of "+-." c.
Definition split_scheme (l : list ascii) : string * list ascii :=
  match cut ":" l with
  | (c :: s, Some rest) => if is_alpha c && forallb scheme_char (c :: s)
                           then (lower (of_chars (c :: s)), rest) else (""%string, l)
  | _ => (""%string, l)
  end.
Definition split_netloc (l : list ascii) : list ascii * list ascii :=
  if is_prefix (chars "//") l then until "/?#" (skipn 2 l) else ([], l).

Section note.
(** The error of [urlsplit] for a network location with brackets, if it is one. *)
Context (bracket_error : string → option string).

Definition urlsplit (s : string) : result url_parts :=
  let '(scheme, l) := split_scheme (clean_url s) in
  let '(host, l) := split_netloc l in
  (if existsb (one_of "[]") host then
     match bracket_error (of_chars host) with Some msg => raise ValueError msg | None => Ok tt end
   else Ok tt);;
  let '(l, fragment) := cut "#" l in
  let '(l, query) := cut "?" l in
  Ok (UrlParts scheme (of_chars host) (of_chars l) (of_chars (default [] query))
        (of_chars (default [] fragment))).

(** [re.fullmatch(r"/[A-Za-z0-9/_-]+", path)] *)
Definition draft_path (p : string) : bool :=
  match chars p with
  | c :: (_ :: _) as rest => one_of "/" c && forallb (λ c, is_ascii_alnum c || one_of "/_-" c) (skipn 1 rest)
  | _ => false
  end.
Definition _url (value : pyval) : result string :=
  match value with
  | VStr s =>
      parsed ← urlsplit s;
      reject_if (negb (String.eqb (scheme parsed) "https") || negb (String.eqb (netloc parsed) "editor.note.com")
                 || truthy_s (query parsed) || truthy_s (fragment parsed)
                 || bool_decide (path parsed ∈ ["/"; "/new"; "/new/"]) || negb (draft_path (path parsed)))
        BlockedAction "note_existing_draft_url_required";;
      Ok s
  | _ => raise BlockedAction "note_existing_draft_url_required"
  end.

(** ** NoteDraftAdapter *)
Context {W : Type}.
Record NoteDraftBackend := MkBackend {
  read_persisted_draft : string → eff W pyval;
  update_existing_draft : string → string → string → string → eff W unit }.
(** [except Exception: raise BlockedAction(msg)] *)
Definition or_blocked {A} (msg : string) (m : eff W A) : eff W A :=
  try_with m (λ e, if isinstance e Exception then lift (raise BlockedAction msg) else throw e).

Context (account_id : string) (backend : option NoteDraftBackend).

(** The checks of [_snapshot] on what was read. *)
Definition check_draft (url : string) (value : pyval) : result string :=
  match value with
  | VDict d =>
      reject_if (negb (py_eqb (get_or_none "account_id" d) (VStr account_id))) BlockedAction
        "note_account_unverified";;
      match get_or_none "title" d, get_or_none "body" d with
      | VStr title, VStr body =>
          reject_if (negb (py_eqb (get_or_none "url" d) (VStr url))
                     || negb (py_eqb (get_or_none "status" d) (VStr "draft"))
                     || negb (is_true (get_or_none "persisted" d))) BlockedAction
            "note_persisted_private_draft_unverified";;
          content_digest title body
      | _, _ => raise BlockedAction "note_persisted_private_draft_unverified"
      end
  | _ => raise BlockedAction "note_account_unverified"
  end.
Definition _snapshot (url : string) : eff W string :=
  match backend with
  | None => lift (raise BlockedAction "note_browser_backend_unbound")
  | Some b => value ← or_blocked "note_readback_unavailable" (read_persisted_draft b url);
              lift (check_draft url value)
  end.

(** [set(args) == names] *)
Definition has_exactly (names : list string) (args : pydict) : bool :=
  forallb (λ k, bool_decide (k ∈ names)) (keys args) && forallb (λ k, dict_has k args) names.
Definition read : Action W := λ args context,
  lift (reject_if (negb (has_exactly ["draft_url"] args)) BlockedAction "note_read_arguments_invalid");;
  url ← lift (_url (get_or_none "draft_url" args));
  digest ← _snapshot url;
  mret (RetResult {| ActionResult.message := ""; ActionResult.artifacts := [];
    ActionResult.data := [("draft_url", VStr url); ("status", VStr "draft"); ("content_sha256", VStr digest)] |}).

(** [re.fullmatch(r"[0-9a-f]{64}", s)] *)
Definition hex64 (s : string) : bool :=
  (length (chars s) =? 64)%nat && forallb (λ c, is_digit c || in_range 97 102 c) (chars s).
(** The writing part of [update], when the content is not the desired one. *)
Definition save_draft (url title body before desired : string) (expected : pyval) : eff W unit :=
  lift (reject_if (negb (py_eqb (VStr before) expected)) BlockedAction "note_draft_changed_since_read");;
  match backend with
  | None => lift (raise BlockedAction "note_save_outcome_unknown")
  | Some b => or_blocked "note_save_outcome_unknown" (update_existing_draft b url title body before)
  end;;
  after ← _snapshot url;
  lift (reject_if (negb (String.eqb after desired)) BlockedAction "note_saved_content_not_verified").
Definition verified_result (url desired : string) (written : bool) : ActionResult.t :=
  {| ActionResult.message := "private note draft content verified";
     ActionResult.data := [("verified", VBool true); ("write_performed", VBool written)];
     ActionResult.artifacts :=
       [{| ArtifactUpdate.artifact_id := VStr ("note-draft:" ++ url); ArtifactUpdate.kind := VStr "note-draft";
           ArtifactUpdate.locator := VStr url; ArtifactUpdate.created := VNone;
           ArtifactUpdate.verified := VBool true; ArtifactUpdate.persistent_saved := VBool true;
           ArtifactUpdate.device_saved := VNone; ArtifactUpdate.ui_loaded := VNone;
           ArtifactUpdate.metadata := VDict [("content_sha256", VStr desired)] |}] |}.
Definition update_arguments (args : pydict) : result (string * string) :=
  let invalid := raise BlockedAction "note_update_arguments_invalid" in
  if negb (has_exactly ["draft_url"; "title"; "body"; "expected_content_sha256"] args) then invalid
  else match get_or_none "title" args, get_or_none "body" args with
       | VStr title, VStr body =>
           if hex64 (py_str (get_or_none "expected_content_sha256" args)) then Ok (title, body) else invalid
       | _, _ => invalid
       end.
Definition update : Action W := λ args context,
  lift (reject_if (is_true (get_or_none "dry_run" context)) BlockedAction
          "note_write_not_available_in_dry_run");;
  texts ← lift (update_arguments args);
  let '(title, body) := texts in
  url ← lift (_url (get_or_none "draft_url" args));
  desired ← lift (content_digest title body);
  before ← _snapshot url;
  (if String.eqb before desired then mret tt
   else save_draft url title body before desired (get_or_none "expected_content_sha256" args));;
  mret (RetResult (verified_result url desired (negb (String.eqb before desired)))).

(** [NoteDraftAdapter(account_id=..., backend=...)] *)
Definition NoteDraftAdapter : result (ToolAdapter W) :=
  reject_if (blank account_id) ValueError "note_account_id_required";;
  Ok (MkAdapter "note-existing-drafts"
    [MkCapability "note.read_draft" "read" ["note:drafts:read"] true "";
     MkCapability "note.update_draft" "write" ["note:drafts:read"; "note:drafts:write"] false ""]
    {[ "note.read_draft" := read; "note.update_draft" := update ]}).
End note.
