(* ===== verification/NoteDraftsFacts.v ===== *)
(** The draft adapter: it writes at most once, only over the content the caller
    expects, and reports success only after the persisted draft was read back with
    the content asked for. *)
From S2P Require Import Prelude PyString PyValue TaskModel TaskStore StateStore Runner Registry.
From S2P Require Import NoteDrafts.

#[local] Arguments content_digest : simpl never.

(** ** A backend with a log of what happened to it *)
Inductive draft_event :=
  | Readback (url : string) (answer : result pyval)
  | Saved (url title body expected : string) (answer : result unit).
Definition is_save (e : draft_event) : bool := match e with Saved _ _ _ _ _ => true | _ => false end.

Section recording.
Context {W : Type}.
Definition noted {A} (entry : result A → draft_event) (m : eff W A) : eff (W * list draft_event) A := λ s,
  let '(r, w) := m s.1 in (r, (w, s.2 ++ [entry r])).
Definition recording (b : NoteDraftBackend (W:=W)) : NoteDraftBackend (W:=W * list draft_event) :=
  MkBackend (λ url, noted (Readback url) (read_persisted_draft b url))
    (λ url title body d, noted (Saved url title body d) (update_existing_draft b url title body d)).

Definition blocked_by (msg : string) (e : exn) : exn :=
  if isinstance e Exception then Exn BlockedAction msg else e.
Lemma noted_run {A} msg (entry : result A → draft_event) (m : eff W A) s :
  or_blocked msg (noted entry m) s =
  let '(r, w) := m s.1 in
  (match r with Ok a => Ok a | Err e => Err (blocked_by msg e) end, (w, s.2 ++ [entry r])).
Proof.
  unfold or_blocked, try_with, noted, blocked_by. destruct (m s.1) as [[a|e] w]; [done|].
  by destruct (isinstance e Exception).
Qed.
Lemma read_run msg b url s :
  or_blocked msg (read_persisted_draft (recording b) url) s =
  let '(r, w) := read_persisted_draft b url s.1 in
  (match r with Ok a => Ok a | Err e => Err (blocked_by msg e) end, (w, s.2 ++ [Readback url r])).
Proof. apply noted_run. Qed.
Lemma write_run msg b url title body d s :
  or_blocked msg (update_existing_draft (recording b) url title body d) s =
  let '(r, w) := update_existing_draft b url title body d s.1 in
  (match r with Ok a => Ok a | Err e => Err (blocked_by msg e) end,
   (w, s.2 ++ [Saved url title body d r])).
Proof. apply noted_run. Qed.
End recording.

Section facts.
Context (bracket_error : string → option string) {W : Type} (account : string).
Context (backend : option (NoteDraftBackend (W:=W))).
Notation log := (list draft_event).

(** A readback that shows the private draft [url] with the digest [d]. *)
Definition shows (url d : string) (e : draft_event) : Prop :=
  ∃ v, e = Readback url (Ok v) ∧ check_draft account url v = Ok d.
Abbreviation host := (option_map recording backend).

Lemma snapshot_run url (s : W * log) r s' : _snapshot account host url s = (r, s') →
  ∃ new, s'.2 = s.2 ++ new ∧ Forall (λ e, is_save e = false) new ∧
    ∀ d, r = Ok d → ∃ e, new = [e] ∧ shows url d e.
Proof.
  unfold _snapshot. destruct backend as [b|]; cbn [option_map].
  2: { intros [= <- <-]. exists []. rewrite app_nil_r. split_and!; [done|constructor|done]. }
  rewrite bind_run, read_run. destruct (read_persisted_draft b url s.1) as [[v|e] w]; cbn;
    intros [= <- <-].
  - exists [Readback url (Ok v)]. split_and!; [done|by repeat constructor|].
    intros d H. exists (Readback url (Ok v)). split; [done|]. by exists v.
  - exists [Readback url (Err e)]. split_and!; [done|by repeat constructor|done].
Qed.

(** A save is attempted once, over the expected content, and its outcome is only
    believed after a readback. *)
Lemma save_run url title body before desired expected (s : W * log) r s' :
  save_draft account host url title body before desired expected s = (r, s') →
  (s' = s ∧ ∃ e, r = Err e) ∨
  (expected = VStr before ∧ ∃ o new, s'.2 = s.2 ++ Saved url title body before o :: new ∧
     Forall (λ e, is_save e = false) new ∧
     ∀ a, r = Ok a → ∃ e, new = [e] ∧ shows url desired e).
Proof.
  unfold save_draft. rewrite bind_run. unfold lift at 1.
  destruct (py_eqb (VStr before) expected) eqn:E; cbn; [|intros [= <- <-]; left; eauto].
  apply py_eqb_str_l in E as ->. destruct backend as [b|] eqn:Eb; cbn [option_map].
  2: { cbn. intros [= <- <-]. left. eauto. }
  rewrite bind_run, write_run.
  destruct (update_existing_draft b url title body before s.1) as [[[]|e] w].
  - rewrite bind_run. destruct (_snapshot _ _ _ _) as [ra sa] eqn:Es.
    pose proof (snapshot_run url (w, s.2 ++ [Saved url title body before (Ok tt)]) ra sa) as Hs.
    rewrite Eb in Hs. destruct (Hs Es) as (new & Hlog & Hn & Hok). cbn in Hlog.
    rewrite <- (assoc_L (++)) in Hlog. intros H. right. split; [done|].
    exists (Ok tt), new. destruct ra as [after|e]; [|by injection H as <- <-].
    unfold lift in H. destruct (String.eqb_spec after desired) as [->|]; cbn in H; injection H as <- <-;
      (split_and!; [done|done|]); [|done]. intros [] _. by apply Hok.
  - intros [= <- <-]. right. split; [done|]. exists (Err e), []. split_and!; [done|constructor|done].
Qed.

Lemma url_is value u : _url bracket_error value = Ok u → value = VStr u.
Proof. unfold _url. destruct value; try done. intros H. by inv_result. Qed.
Lemma arguments_are args title body : update_arguments args = Ok (title, body) →
  get_or_none "title" args = VStr title ∧ get_or_none "body" args = VStr body.
Proof.
  unfold update_arguments. cbv zeta. destruct (negb _); [done|]. destruct (get_or_none "title" args); try done.
  destruct (get_or_none "body" args); try done. destruct (hex64 _); [|done]. by intros [= <- <-].
Qed.

(** What an update with outcome [r] may have asked of the host. *)
Definition guarded (args context : pydict) (r : result action_value) (new : log) : Prop :=
  (length (List.filter is_save new) ≤ 1)%nat ∧
  (∀ u t b d o, Saved u t b d o ∈ new →
     get_or_none "draft_url" args = VStr u ∧ get_or_none "title" args = VStr t ∧
     get_or_none "body" args = VStr b ∧ get_or_none "expected_content_sha256" args = VStr d ∧
     content_digest t b ≠ Ok d ∧ ∃ e rest, new = e :: rest ∧ shows u d e) ∧
  (∀ a, r = Ok a → ∃ u t b d e, get_or_none "draft_url" args = VStr u ∧
     get_or_none "title" args = VStr t ∧ get_or_none "body" args = VStr b ∧
     content_digest t b = Ok d ∧ list.last new = Some e ∧ shows u d e ∧
     a = RetResult (verified_result u d (existsb is_save new))) ∧
  (get_or_none "dry_run" context = VBool true → new = []).

Lemma lift_run {S A B} (m : result A) (f : A → eff S B) s :
  (lift m ≫= f) s = match m with Ok a => f a s | Err e => (Err e, s) end.
Proof. by destruct m. Qed.
Lemma guarded_nothing args context e : guarded args context (Err e) [].
Proof. split_and!; [cbn; lia|by intros ? ? ? ? ? ?%not_elem_of_nil|done|done]. Qed.
Lemma guarded_read args context e new : is_true (get_or_none "dry_run" context) = false →
  Forall (λ e, is_save e = false) new → guarded args context (Err e) new.
Proof.
  intros Hd Hn. split_and!.
  - assert (List.filter is_save new = []) as ->; [|cbn; lia].
    apply filter_nil_iff. by apply list.Forall_forall.
  - intros u t b d o Hin. rewrite list.Forall_forall in Hn. by apply Hn in Hin.
  - done.
  - intros E. by rewrite E in Hd.
Qed.

(** C26: whatever the browser host does, an update writes at most once, and only
    the title and body asked for over a draft that was just read back as the
    caller's private persisted draft with the digest the caller expects; it
    reports success only if the last thing it did was to read that draft back
    with the digest of the content asked for, and says truly whether it wrote;
    a dry run does nothing. *)
Theorem draft_update_guarded args context (s : W * log) :
  let '(r, s') := update bracket_error account host args context s in
  ∃ new, s'.2 = s.2 ++ new ∧ guarded args context r new.
Proof.
  destruct (update _ _ _ _ _ _) as [r s'] eqn:E. unfold update in E.
  assert (∀ e, (Err e, s) = (r, s') → ∃ new, s'.2 = s.2 ++ new ∧ guarded args context r new) as Hnone.
  { intros e [= <- <-]. exists []. rewrite app_nil_r. split; [done|]. apply guarded_nothing. }
  rewrite lift_run in E. destruct (is_true (get_or_none "dry_run" context)) eqn:Ed; [exact (Hnone _ E)|].
  cbn [reject_if] in E. rewrite lift_run in E.
  destruct (update_arguments args) as [[title body]|e] eqn:Ea; [|by eapply Hnone].
  apply arguments_are in Ea as [Et Eb]. rewrite lift_run in E.
  destruct (_url bracket_error _) as [url|e] eqn:Eu; [|by eapply Hnone].
  apply url_is in Eu. rewrite lift_run in E.
  destruct (content_digest title body) as [desired|e] eqn:Ec; [|by eapply Hnone]. clear Hnone.
  rewrite bind_run in E. destruct (_snapshot _ _ _ _) as [[before|e] s1] eqn:Es;
    apply snapshot_run in Es as (new & Hlog & Hn & Hok).
  2: { injection E as <- <-. exists new. split; [done|]. by apply guarded_read. }
  destruct (Hok before eq_refl) as (e & -> & He). clear Hok. rewrite bind_run in E.
  destruct (String.eqb_spec before desired) as [->|Hne].
  - injection E as <- <-. exists [e]. split; [done|].
    apply list.Forall_cons in Hn as [Hn _]. unfold guarded. cbn. rewrite Hn. split_and!.
    + cbn. lia.
    + intros u t b d o E%list_elem_of_singleton. by rewrite <- E in Hn.
    + intros a [= <-]. exists url, title, body, desired, e. split_and!; done.
    + intros E. by rewrite E in Ed.
  - destruct (save_draft _ _ _ _ _ _ _ _ _) as [r1 s2] eqn:Esave.
    destruct (save_run _ _ _ _ _ _ _ _ _ Esave) as [[-> [e1 ->]]|(Ex & o & new & Hlog2 & Hn2 & Hok2)].
    { injection E as <- <-. exists [e]. split; [done|]. by apply guarded_read. }
    exists (e :: Saved url title body before o :: new). split.
    { assert (s' = s2) as -> by (destruct r1; by injection E). by rewrite Hlog2, Hlog, <- (assoc_L (++)). }
    apply list.Forall_cons in Hn as [Hn _].
    assert (List.filter is_save new = []) as Hf by (apply filter_nil_iff; by apply list.Forall_forall).
    unfold guarded. cbn. rewrite Hn. cbn. rewrite Hf. split_and!.
    + done.
    + intros u t b d o' [E'|[Hin|Hin]%elem_of_cons]%elem_of_cons; [by rewrite <- E' in Hn| |].
      * injection Hin as -> -> -> -> ->. split_and!; [done..| |eauto]. congruence.
      * rewrite list.Forall_forall in Hn2. by apply Hn2 in Hin.
    + intros a Ha. destruct r1 as [[]|]; [|injection E; congruence]. injection E as <- <-.
      destruct (Hok2 tt eq_refl) as (e2 & -> & He2). injection Ha as <-.
      exists url, title, body, desired, e2. split_and!; done.
    + intros E'. by rewrite E' in Ed.
Qed.
End facts.

(** ** A browser host

    The world is the title and body of the one draft of [account-1]. *)
Definition draft_url : string := "https://editor.note.com/notes/n1/edit".
Definition browser : NoteDraftBackend (W:=string * string) :=
  MkBackend (λ url w, (Ok (VDict [("account_id", VStr "account-1"); ("url", VStr url); ("status", VStr "draft");
                                  ("persisted", VBool true); ("title", VStr w.1); ("body", VStr w.2)]), w))
    (λ url title body d w, (Ok tt, (title, body))).
Definition try_update (body expected : string) : result action_value * (string * string) :=
  update (λ _, None) "account-1" (Some browser)
    [("draft_url", VStr draft_url); ("title", VStr "T"); ("body", VStr body);
     ("expected_content_sha256", VStr expected)] [] ("T", "old").
Definition digest_of (body : string) : string :=
  match content_digest "T" body with Ok d => d | Err _ => "" end.
Example update_saves :
  try_update "new" (digest_of "old") =
  (Ok (RetResult (verified_result draft_url (digest_of "new") true)), ("T", "new")).
Proof. vm_compute. reflexivity. Qed.
Example update_stops_when_changed :
  try_update "new" (digest_of "other") = (raise BlockedAction "note_draft_changed_since_read", ("T", "old")).
Proof. vm_compute. reflexivity. Qed.
Example draft_urls :
  map (λ s, is_ok (_url (λ _, None) (VStr s)))
    [draft_url; "https://editor.note.com/new"; "https://editor.note.com/notes/n1?x=1"; "https://note.com/n1";
     "http://editor.note.com/n1"; "https://editor.note.com@evil.example/n1"] =
  [true; false; false; false; false; false].
Proof. vm_compute. reflexivity. Qed.
