(* ===== verification/Credentials.v ===== *)
(** agent_core/credential_provider.py: redacted credential snapshots and the
    static in-memory provider.

    Arguments the code checks dynamically are [pyval]s; a checked object has
    typed fields.  Secrets and safe metadata are separate fields of a snapshot. *)
From S2P Require Import Prelude PyString PyValue.

Definition _seconds (value : pyval) (error : string) : result Z :=
  match value with
  | VInt z => if z <? 0 then raise ValueError error else Ok z
  | _ => raise ValueError error
  end.

Definition non_blank_str (v : pyval) : bool :=
  match v with VStr s => negb (blank s) | _ => false end.
Definition str_of (v : pyval) : string := match v with VStr s => s | _ => "" end.

Definition _capabilities (values : pyval) : result (list string) :=
  match values with
  | VStr _ => raise ValueError "credential_capabilities_must_be_collection"
  | _ =>
      match py_iter values with
      | Err e => if isinstance e TypeError
                 then raise ValueError "credential_capabilities_must_be_collection" else Err e
      | Ok items =>
          reject_if (bool_decide (items = []) || negb (forallb non_blank_str items)) ValueError
            "credential_capabilities_required";;
          Ok (normal_strs (map str_of items))
      end
  end.

(** Secrets by name. *)
Abbreviation secret_map := (list (string * string)).

Definition _copy_secrets (secrets : pyval) : result secret_map :=
  match secrets with
  | VDict ((_ :: _) as d) =>
      reject_if (existsb (λ kv, blank kv.1 || negb (non_blank_str kv.2)) d) ValueError
        "non_empty_runtime_secrets_required";;
      Ok (map (λ kv, (kv.1, str_of kv.2)) d)
  | _ => raise ValueError "non_empty_runtime_secrets_required"
  end.

(** A time that may be [None]. *)
Definition opt_seconds (v : pyval) (error : string) : result (option Z) :=
  match v with VNone => Ok None | _ => z ← _seconds v error; Ok (Some z) end.

Definition _validate_times (issued_at expires_at : pyval) : result (option Z * option Z) :=
  i ← opt_seconds issued_at "credential_issue_time_invalid";
  e ← opt_seconds expires_at "credential_expiry_invalid";
  reject_if (match i, e with Some i, Some e => e <=? i | _, _ => false end) ValueError
    "credential_expiry_must_follow_issue_time";;
  Ok (i, e).

Definition opt_int (o : option Z) : pyval := match o with Some z => VInt z | None => VNone end.
Definition opt_str_val (o : option string) : pyval :=
  match o with Some s => VStr s | None => VNone end.
Definition str_tuple (l : list string) : pyval := VTuple (map VStr l).
Definition secrets_val (m : secret_map) : pyval := VDict (map (λ kv, (kv.1, VStr kv.2)) m).

Definition provider_id_of (v : pyval) : result string :=
  reject_if (negb (non_blank_str v)) ValueError "provider_id_required";; Ok (strip (str_of v)).
Definition label_of (v : pyval) : option string :=
  if non_blank_str v then Some (strip (str_of v)) else None.

Module CredentialSnapshot.
Record t := mk {
  provider_id : string; account_label : option string; capabilities : list string;
  issued_at : option Z; expires_at : option Z; refresh_capable : bool;
  secrets : secret_map; created_at : Z }.

(** [CredentialSnapshot(...)] *)
Definition make (provider_id_ account_label_ capabilities_ secrets_ issued_at_ expires_at_
    refresh_capable_ created_at_ : pyval) : result t :=
  pid ← provider_id_of provider_id_;
  caps ← _capabilities capabilities_;
  copied ← _copy_secrets secrets_;
  times ← _validate_times issued_at_ expires_at_;
  created ← _seconds created_at_ "credential_snapshot_time_invalid";
  Ok (mk pid (label_of account_label_) caps times.1 times.2 (truthy refresh_capable_)
        copied created).

Fixpoint find_secret (name : string) (m : secret_map) : option string :=
  match m with
  | [] => None
  | (k, v) :: m' => if String.eqb k name then Some v else find_secret name m'
  end.
Definition secret (s : t) (name : pyval) : result string :=
  match name with
  | VStr n =>
      match find_secret n (secrets s) with
      | Some v => Ok v
      | None => raise CredentialProviderError "credential_secret_not_available"
      end
  | _ => raise CredentialProviderError "credential_secret_not_available"
  end.
Definition secret_names (s : t) : list string := sorted (map fst (secrets s)).

Definition to_safe_dict (s : t) : pydict :=
  [("provider_id", VStr (provider_id s)); ("account_label", opt_str_val (account_label s));
   ("capabilities", VList (map VStr (capabilities s))); ("issued_at", opt_int (issued_at s));
   ("expires_at", opt_int (expires_at s));
   ("expires_in_seconds_at_snapshot",
      match expires_at s with Some e => VInt (e - created_at s) | None => VNone end);
   ("refresh_capable", VBool (refresh_capable s));
   ("secret_names", VList (map VStr (secret_names s)))].

Definition repr (s : t) : string :=
  ("CredentialSnapshot(provider_id=" ++ repr_str (provider_id s)
   ++ ", account_label=" ++ py_repr (opt_str_val (account_label s))
   ++ ", capabilities=" ++ py_repr (str_tuple (capabilities s))
   ++ ", expires_at=" ++ py_repr (opt_int (expires_at s))
   ++ ", refresh_capable=" ++ py_repr (VBool (refresh_capable s))
   ++ ", secrets='<redacted>')")%string.
End CredentialSnapshot.

Module Static.
Record t := mk {
  provider_id : string; account_label : option string; capabilities : list string;
  secrets : secret_map; issued_at : option Z; expires_at : option Z; revoked : bool }.

(** [StaticInMemoryCredentialProvider(...)] *)
Definition make (provider_id_ capabilities_ secrets_ account_label_ issued_at_ expires_at_ : pyval)
    : result t :=
  pid ← provider_id_of provider_id_;
  caps ← _capabilities capabilities_;
  copied ← _copy_secrets secrets_;
  times ← _validate_times issued_at_ expires_at_;
  Ok (mk pid (label_of account_label_) caps copied times.1 times.2 false).

Definition revoke (p : t) : t :=
  mk (provider_id p) (account_label p) (capabilities p) [] (issued_at p) (expires_at p) true.

(** [time_now] is the wall clock, read when [now_epoch] is [None]. *)
Definition snapshot (p : t) (time_now : Z) (required_capabilities minimum_ttl_seconds
    require_known_expiry now_epoch : pyval) : result CredentialSnapshot.t :=
  reject_if (revoked p) CredentialRevokedError "credential_provider_revoked";;
  ttl ← _seconds minimum_ttl_seconds "minimum_ttl_seconds_must_be_non_negative_integer";
  known ← match require_known_expiry with
          | VBool b => Ok b
          | _ => raise ValueError "require_known_expiry_must_be_boolean"
          end;
  required ← _capabilities required_capabilities;
  reject_if (existsb (λ v, negb (bool_decide (v ∈ capabilities p))) required)
    CredentialScopeError "credential_capability_mismatch";;
  now ← match now_epoch with
        | VNone => Ok time_now
        | v => _seconds v "credential_now_invalid"
        end;
  reject_if (match issued_at p with Some i => now <? i | None => false end)
    CredentialLifetimeError "credential_not_yet_valid";;
  match expires_at p with
  | None => reject_if known CredentialLifetimeError "credential_expiry_unknown"
  | Some e =>
      let remaining := e - now in
      reject_if (remaining <=? 0) CredentialLifetimeError "credential_expired";;
      reject_if (remaining <? ttl) CredentialLifetimeError "credential_ttl_below_minimum"
  end;;
  CredentialSnapshot.make (VStr (provider_id p)) (opt_str_val (account_label p))
    (str_tuple (capabilities p)) (secrets_val (secrets p)) (opt_int (issued_at p))
    (opt_int (expires_at p)) (VBool false) (VInt now).
End Static.

(** ** Lemmas on the normal forms *)
Lemma seconds_Ok v err z : _seconds v err = Ok z ↔ v = VInt z ∧ 0 ≤ z.
Proof.
  destruct v; cbn; try (split; [discriminate|intros [[=] _]]).
  destruct (z0 <? 0) eqn:E.
  - split; [discriminate|]. intros [[= <-] H]. lia.
  - split; [intros [= <-]; split; [done|lia]|]. by intros [[= <-] _].
Qed.
Lemma seconds_nonneg z err : 0 ≤ z → _seconds (VInt z) err = Ok z.
Proof. intros H. by apply seconds_Ok. Qed.

(** Capabilities are a non-empty set of stripped, non-blank names. *)
Record caps_ok (l : list string) : Prop := {
  co_nonempty : l ≠ [];
  co_each : ∀ s, s ∈ l → blank s = false ∧ strip s = s }.

Lemma blank_strip s : blank (strip s) = blank s.
Proof. unfold blank. by rewrite strip_strip. Qed.

Lemma capabilities_ok v l : _capabilities v = Ok l → caps_ok l.
Proof.
  unfold _capabilities. intros H.
  assert (∃ items, py_iter v = Ok items ∧
    (reject_if (bool_decide (items = []) || negb (forallb non_blank_str items)) ValueError
      "credential_capabilities_required";; Ok (normal_strs (map str_of items))) = Ok l)
    as (items & _ & H').
  { destruct v; cbn in *; try discriminate; eauto. }
  clear H. inv_result. rewrite forallb_forall in H0.
  assert (∀ x, x ∈ items → ∃ s, x = VStr s ∧ blank s = false) as Hall.
  { intros x Hx. rewrite list_elem_of_In in Hx. specialize (H0 x Hx).
    destruct x; cbn in H0; try done. exists s. split; [done|]. by apply negb_true_iff. }
  split.
  - destruct items as [|x items]; [done|]. intros E.
    assert (strip (str_of x) ∈ normal_strs (map str_of (x :: items))) as Hin.
    { apply elem_of_normal_strs. exists (str_of x). split; [apply list_elem_of_here|done]. }
    rewrite E in Hin. by apply not_elem_of_nil in Hin.
  - intros s (r & Hr & ->)%elem_of_normal_strs.
    apply list_elem_of_fmap in Hr as (x & -> & Hx). apply Hall in Hx as (r & -> & Hb).
    change (blank (strip r) = false ∧ strip (strip r) = strip r).
    by rewrite blank_strip, strip_strip.
Qed.

Lemma existsb_false {A} (f : A → bool) l : existsb f l = false ↔ ∀ x, x ∈ l → f x = false.
Proof.
  split.
  - intros H x Hx. destruct (f x) eqn:E; [|done].
    assert (existsb f l = true); [|congruence].
    apply existsb_exists. exists x. by rewrite <- list_elem_of_In.
  - intros H. destruct (existsb f l) eqn:E; [|done].
    apply existsb_exists in E as (x & Hx & E). rewrite <- list_elem_of_In in Hx.
    rewrite (H x Hx) in E. done.
Qed.

Lemma non_blank_map l : (∀ s, s ∈ l → blank s = false) → forallb non_blank_str (map VStr l) = true.
Proof.
  intros H. rewrite forallb_forall. intros x Hx. apply in_map_iff in Hx as (s & <- & Hs).
  cbn. rewrite H by by rewrite list_elem_of_In. done.
Qed.
Lemma str_of_map l : map str_of (map VStr l) = l.
Proof. rewrite map_map. apply map_id. Qed.

(** Normalising a normalised collection changes nothing. *)
Lemma capabilities_normal v l : _capabilities v = Ok l → normal_strs l = l.
Proof.
  unfold _capabilities. destruct v; cbn; try discriminate; intros H; inv_result;
    apply normal_strs_idem.
Qed.
Lemma capabilities_again v l : _capabilities v = Ok l → _capabilities (str_tuple l) = Ok l.
Proof.
  intros H. pose proof (capabilities_normal _ _ H) as Hn.
  destruct (capabilities_ok _ _ H) as [Hne Heach]. unfold _capabilities, str_tuple. cbn [py_iter].
  rewrite bool_decide_eq_false_2 by by destruct l.
  rewrite non_blank_map by apply Heach. cbn. by rewrite str_of_map, Hn.
Qed.

Lemma copy_secrets_ok v m :
  _copy_secrets v = Ok m → m ≠ [] ∧ ∀ k s, (k, s) ∈ m → blank k = false ∧ blank s = false.
Proof.
  destruct v as [| | | | | | |[|kv d]]; try discriminate. unfold _copy_secrets.
  intros H. inv_result. split; [done|]. intros k s Hin.
  rewrite existsb_false in Ha.
  change ((k, s) ∈ map (λ kv, (kv.1, str_of kv.2)) (kv :: d)) in Hin.
  apply list_elem_of_fmap in Hin as ([k' v'] & [= -> ->] & Hin). specialize (Ha _ Hin).
  cbn in Ha. apply orb_false_iff in Ha as [E1 E2]. split; [done|].
  destruct v'; try done. cbn in *. by apply negb_false_iff, negb_true_iff in E2.
Qed.

Lemma copy_secrets_again m :
  m ≠ [] → (∀ k s, (k, s) ∈ m → blank k = false ∧ blank s = false) →
  _copy_secrets (secrets_val m) = Ok m.
Proof.
  intros Hne H. unfold _copy_secrets, secrets_val.
  assert (∀ l, (∀ k s, (k, s) ∈ l → blank k = false ∧ blank s = false) →
    existsb (λ kv, blank kv.1 || negb (non_blank_str kv.2)) (map (λ kv, (kv.1, VStr kv.2)) l) = false)
    as Hb.
  { intros l Hl. apply existsb_false. intros x Hx. apply list_elem_of_fmap in Hx as ([k s] & -> & Hx).
    destruct (Hl _ _ Hx) as [E1 E2]. cbn. by rewrite E1, E2. }
  specialize (Hb m H). destruct m as [|kv m]; [done|]. cbn [map] in *. rewrite Hb. cbn.
  rewrite map_map. cbn. destruct kv. do 2 f_equal. rewrite <- (map_id m) at 2. apply map_ext.
  by intros [].
Qed.

Lemma opt_seconds_again o err : (∀ z, o = Some z → 0 ≤ z) → opt_seconds (opt_int o) err = Ok o.
Proof.
  destruct o as [z|]; [|done]. intros H. unfold opt_seconds, opt_int.
  by rewrite seconds_nonneg by auto.
Qed.
Lemma opt_seconds_ok v err o : opt_seconds v err = Ok o → ∀ z, o = Some z → 0 ≤ z.
Proof.
  unfold opt_seconds. intros H z ->. destruct v; inv_result; try discriminate;
    apply seconds_Ok in Ha as [_ Ha]; congruence.
Qed.

(** What a constructed provider satisfies. *)
Record static_ok (p : Static.t) : Prop := {
  st_id : blank (Static.provider_id p) = false ∧ strip (Static.provider_id p) = Static.provider_id p;
  st_label : ∀ l, Static.account_label p = Some l → blank l = false ∧ strip l = l;
  st_caps : _capabilities (str_tuple (Static.capabilities p)) = Ok (Static.capabilities p);
  st_secrets : Static.revoked p = false → _copy_secrets (secrets_val (Static.secrets p)) = Ok (Static.secrets p);
  st_times : _validate_times (opt_int (Static.issued_at p)) (opt_int (Static.expires_at p))
             = Ok (Static.issued_at p, Static.expires_at p) }.

Lemma non_blank_strip v : non_blank_str v = true →
  blank (strip (str_of v)) = false ∧ strip (strip (str_of v)) = strip (str_of v).
Proof.
  destruct v; try done. unfold non_blank_str, str_of. intros H%negb_true_iff.
  by rewrite blank_strip, strip_strip.
Qed.

Lemma validate_times_again i e i' e' :
  _validate_times i e = Ok (i', e') → _validate_times (opt_int i') (opt_int e') = Ok (i', e').
Proof.
  unfold _validate_times. intros H. inv_result.
  rewrite !opt_seconds_again by (eapply opt_seconds_ok; eassumption). cbn.
  by rewrite Ha1.
Qed.

Lemma static_make_ok a b c d e f p : Static.make a b c d e f = Ok p → static_ok p.
Proof.
  unfold Static.make, provider_id_of. intros H. inv_result.
  split; cbn.
  - by apply non_blank_strip.
  - intros l. unfold label_of. destruct (non_blank_str d) eqn:E; [|done].
    intros [= <-]. by apply non_blank_strip.
  - by eapply capabilities_again.
  - intros _. apply copy_secrets_again; by eapply copy_secrets_ok.
  - destruct a3. by eapply validate_times_again.
Qed.
Lemma static_revoke_ok p : static_ok p → static_ok (Static.revoke p).
Proof. intros []. by split. Qed.

(** When the static provider hands out its secrets. *)
Record admissible (p : Static.t) (required : list string) (ttl : Z) (known : bool) (now : Z) : Prop := {
  ad_live : Static.revoked p = false;
  ad_scope : ∀ c, c ∈ required → c ∈ Static.capabilities p;
  ad_issued : ∀ i, Static.issued_at p = Some i → i ≤ now;
  ad_known : known = true → Static.expires_at p ≠ None;
  ad_ttl : ∀ e, Static.expires_at p = Some e → 0 < e - now ∧ ttl ≤ e - now }.

Definition snapshot_of (p : Static.t) (now : Z) : CredentialSnapshot.t :=
  CredentialSnapshot.mk (Static.provider_id p) (Static.account_label p) (Static.capabilities p)
    (Static.issued_at p) (Static.expires_at p) false (Static.secrets p) now.

Lemma label_again o : (∀ l, o = Some l → blank l = false ∧ strip l = l) → label_of (opt_str_val o) = o.
Proof.
  destruct o as [l|]; [|done]. intros H. destruct (H l eq_refl) as [E1 E2].
  unfold label_of. cbn [opt_str_val non_blank_str str_of]. rewrite E1. cbn. by rewrite E2.
Qed.

Lemma snapshot_make p now :
  static_ok p → Static.revoked p = false → 0 ≤ now →
  CredentialSnapshot.make (VStr (Static.provider_id p)) (opt_str_val (Static.account_label p))
    (str_tuple (Static.capabilities p)) (secrets_val (Static.secrets p))
    (opt_int (Static.issued_at p)) (opt_int (Static.expires_at p)) (VBool false) (VInt now)
  = Ok (snapshot_of p now).
Proof.
  intros [[Hb Hs] Hl Hc Hsec Ht] Hr Hn. unfold CredentialSnapshot.make, provider_id_of.
  cbn [non_blank_str str_of]. rewrite Hb, Hs. cbn [negb reject_if]. eff_eval.
  rewrite Hc, (Hsec Hr), Ht, seconds_nonneg by done. cbn. by rewrite label_again.
Qed.

(** The static provider returns its credential exactly when it is not
    revoked, covers the required capabilities and its lifetime suffices, and
    then the snapshot carries what the provider was built with. *)
Theorem static_snapshot_spec a b c d e f p tn req required ttl known now s :
  Static.make a b c d e f = Ok p ∨ (∃ q, Static.make a b c d e f = Ok q ∧ p = Static.revoke q) →
  _capabilities req = Ok required → 0 ≤ ttl → 0 ≤ now →
  Static.snapshot p tn req (VInt ttl) (VBool known) (VInt now) = Ok s ↔
  admissible p required ttl known now ∧ s = snapshot_of p now.
Proof.
  intros Hmk Hreq Httl Hnow.
  assert (static_ok p) as Hp.
  { destruct Hmk as [H|(q & H & ->)]; [|apply static_revoke_ok]; by eapply static_make_ok. }
  unfold Static.snapshot. rewrite !seconds_nonneg, Hreq by done. split.
  - intros H. cbn in H. inv_result. rewrite snapshot_make in H by done. injection H as <-.
    split; [|done]. split; [done|..].
    + rewrite existsb_false in Ha0. intros x Hx. specialize (Ha0 x Hx). by inv_result.
    + intros i Hi. rewrite Hi in Ha1. lia.
    + intros -> Hn. rewrite Hn in Ha2. by apply reject_if_Ok in Ha2.
    + intros x Hx. rewrite Hx in Ha2. inv_result. lia.
  - intros [[Hr Hsc Hi Hk Ht] ->]. rewrite Hr. cbn.
    assert (existsb (λ v, negb (bool_decide (v ∈ Static.capabilities p))) required = false) as ->.
    { apply existsb_false. intros x Hx. rewrite bool_decide_eq_true_2 by auto. done. }
    cbn. assert (match Static.issued_at p with Some i => now <? i | None => false end = false) as ->.
    { destruct (Static.issued_at p) as [i|]; [|done]. specialize (Hi i eq_refl). lia. }
    cbn. destruct (Static.expires_at p) as [x|] eqn:Ex.
    + destruct (Ht x eq_refl). replace (x - now <=? 0) with false by (symmetry; lia).
      replace (x - now <? ttl) with false by (symmetry; lia). cbn.
      pose proof (snapshot_make p now Hp Hr Hnow) as M. by rewrite Ex in M.
    + destruct known; [by destruct (Hk eq_refl)|]. cbn. pose proof (snapshot_make p now Hp Hr Hnow) as M. by rewrite Ex in M.
Qed.

(** What a snapshot shows of itself does not depend on the values of its
    secrets: two snapshots that differ only there have the same safe metadata
    and the same [repr]. *)
Theorem safe_metadata_redacted s s' :
  map fst (CredentialSnapshot.secrets s) = map fst (CredentialSnapshot.secrets s') →
  s' = CredentialSnapshot.mk (CredentialSnapshot.provider_id s) (CredentialSnapshot.account_label s)
    (CredentialSnapshot.capabilities s) (CredentialSnapshot.issued_at s)
    (CredentialSnapshot.expires_at s) (CredentialSnapshot.refresh_capable s)
    (CredentialSnapshot.secrets s') (CredentialSnapshot.created_at s) →
  CredentialSnapshot.to_safe_dict s = CredentialSnapshot.to_safe_dict s' ∧
  CredentialSnapshot.repr s = CredentialSnapshot.repr s'.
Proof.
  destruct s, s'; cbn. intros H [= -> -> -> -> -> -> ->].
  unfold CredentialSnapshot.to_safe_dict, CredentialSnapshot.secret_names. cbn. by rewrite H.
Qed.

Definition sample_provider : result Static.t :=
  Static.make (VStr " github ") (VList [VStr "repo.read"; VStr " ci.read"])
    (VDict [("token", VStr "s3cret")]) (VStr "owner") VNone (VInt 1000).

Lemma static_snapshot_spec_witness :
  ∃ p s, sample_provider = Ok p ∧
    Static.snapshot p 0 (VList [VStr "ci.read"]) (VInt 300) (VBool true) (VInt 700) = Ok s ∧
    admissible p ["ci.read"] 300 true 700.
Proof.
  eexists _, _. split; [vm_compute; reflexivity|]. split; [vm_compute; reflexivity|].
  refine (proj1 (proj1 (static_snapshot_spec (VStr " github ") (VList [VStr "repo.read"; VStr " ci.read"])
    (VDict [("token", VStr "s3cret")]) (VStr "owner") VNone (VInt 1000) _ 0 (VList [VStr "ci.read"])
    ["ci.read"] 300 true 700 _ _ _ _ _) _));
    [left; vm_compute; reflexivity|reflexivity|lia|lia|vm_compute; reflexivity].
Defined.

Lemma safe_metadata_redacted_witness :
  let s v := CredentialSnapshot.mk "github" None ["ci.read"] None (Some 9) false [("token", v)] 3 in
  CredentialSnapshot.to_safe_dict (s "a") = CredentialSnapshot.to_safe_dict (s "b") ∧
  CredentialSnapshot.repr (s "a") = CredentialSnapshot.repr (s "b").
Proof. apply safe_metadata_redacted; reflexivity. Defined.
