(* ===== verification/Refresh.v ===== *)
(** agent_core/refresh_credentials.py: the access-only refresh boundary.

    The provider object is shared between threads.  Its lock makes each state
    change atomic, and clock readings and source calls happen outside the
    lock: after each of them another thread may have revoked the provider
    ([rival] says when).  Clock readings, source answers and exceptions are
    arbitrary functions of the outside world [W]. *)
From Stdlib Require Import SpecFloat.
From S2P Require Import Prelude PyString PyValue Credentials.

(** Construction of a binding: two exact identities and normalised capabilities. *)
Module CredentialBinding.
Record t := mk { provider_id : string; account_id : string; capabilities : list string }.

Definition identity (v : pyval) : result string :=
  match v with
  | VStr s => reject_if (blank s || negb (String.eqb s (strip s))) ValueError
                "credential_identity_required";; Ok s
  | _ => raise ValueError "credential_identity_required"
  end.
Definition make (provider_id_ account_id_ capabilities_ : pyval) : result t :=
  p ← identity provider_id_; a ← identity account_id_; c ← _capabilities capabilities_;
  Ok (mk p a c).
End CredentialBinding.

#[export] Instance binding_eq_dec : EqDecision CredentialBinding.t.
Proof. solve_decision. Defined.

(** What a source hands back, unchecked. *)
Module AccessCredentialGrant.
Record t := mk {
  provider_id : pyval; account_id : pyval; capabilities : pyval; access_token : pyval;
  issued_at : pyval; expires_at : pyval }.
End AccessCredentialGrant.
Abbreviation Grant := AccessCredentialGrant.t.

(** A checked grant: identity and capabilities are those of the binding. *)
Record access := Access { token : string; issued : Z; expires : Z }.
Definition grant_of (b : CredentialBinding.t) (g : access) : Grant :=
  AccessCredentialGrant.mk (VStr (CredentialBinding.provider_id b))
    (VStr (CredentialBinding.account_id b)) (str_tuple (CredentialBinding.capabilities b))
    (VStr (token g)) (VInt (issued g)) (VInt (expires g)).

(** The checks on a grant that the provider and the versioned source share:
    identity, scope, token and times. *)
Definition check_grant (b : CredentialBinding.t) (g : Grant) : result access :=
  reject_if (negb (py_eqb (AccessCredentialGrant.provider_id g) (VStr (CredentialBinding.provider_id b)))
             || negb (py_eqb (AccessCredentialGrant.account_id g) (VStr (CredentialBinding.account_id b))))
    ValueError "credential_identity_mismatch";;
  caps ← _capabilities (AccessCredentialGrant.capabilities g);
  reject_if (negb (bool_decide (caps = CredentialBinding.capabilities b))) ValueError
    "credential_scope_changed";;
  reject_if (negb (non_blank_str (AccessCredentialGrant.access_token g))) ValueError
    "invalid_access_token";;
  i ← _seconds (AccessCredentialGrant.issued_at g) "invalid_issue_time";
  e ← _seconds (AccessCredentialGrant.expires_at g) "invalid_expiry";
  _validate_times (VInt i) (VInt e);;
  Ok (Access (str_of (AccessCredentialGrant.access_token g)) i e).

Inductive pstate :=
  | unconfigured | refresh_required | refreshing | ready | ready_rotated | blocked_auth | revoked.
#[export] Instance pstate_eq_dec : EqDecision pstate.
Proof. solve_decision. Defined.
Definition state_name (s : pstate) : string :=
  match s with
  | unconfigured => "unconfigured" | refresh_required => "refresh_required"
  | refreshing => "refreshing" | ready => "ready" | ready_rotated => "ready_rotated"
  | blocked_auth => "blocked_auth" | revoked => "revoked"
  end.

(** A wall-clock reading with the monotonic reading it was taken at. *)
Abbreviation anchor := (Z * spec_float)%type.

Module Provider.
Record t := mk {
  binding : CredentialBinding.t; busy : bool; state : pstate; failure : option string;
  grant : option access; generation : Z; time_anchor : option anchor }.

(** [RefreshingCredentialProvider(binding, source)] *)
Definition make (b : CredentialBinding.t) (has_source : bool) : t :=
  mk b false (if has_source then refresh_required else unconfigured) None None 0 None.
Definition revoke (p : t) : t :=
  mk (binding p) (busy p) revoked (Some "credential_provider_revoked") None (generation p)
     (time_anchor p).
Definition set_busy (v : bool) (p : t) : t :=
  mk (binding p) v (state p) (failure p) (grant p) (generation p) (time_anchor p).
(** [_state], [_failure] set and [_grant] dropped *)
Definition close (s : pstate) (f : string) (p : t) : t :=
  mk (binding p) (busy p) s (Some f) None (generation p) (time_anchor p).
Definition start_refresh (p : t) : t :=
  mk (binding p) (busy p) refreshing (failure p) None (generation p) (time_anchor p).
Definition accept (g : access) (a : anchor) (refreshed : bool) (p : t) : t :=
  let n := if refreshed then generation p + 1 else generation p in
  mk (binding p) (busy p) (if 1 <? n then ready_rotated else ready) None (Some g) n (Some a).

Definition to_safe_dict (p : t) : pydict :=
  [("provider_id", VStr (CredentialBinding.provider_id (binding p)));
   ("account_id", VStr (CredentialBinding.account_id (binding p)));
   ("capabilities", VList (map VStr (CredentialBinding.capabilities (binding p))));
   ("state", VStr (state_name (state p))); ("refresh_capable", VBool true);
   ("generation", VInt (generation p)); ("failure", opt_str_val (failure p));
   ("expires_at", match grant p with Some g => VInt (expires g) | None => VNone end)].

Definition _assert_issuance_allowed (p : t) : result unit :=
  reject_if (bool_decide (state p = revoked)) CredentialRevokedError "credential_provider_revoked";;
  reject_if (bool_decide (state p = unconfigured) || bool_decide (state p = blocked_auth))
    CredentialAuthBlocked "credential_auth_unavailable";;
  reject_if (busy p) CredentialRefreshInProgress "credential_refresh_in_progress".

(** [grant] is [None] when the source returned something else. *)
Definition _validate_grant (p : t) (grant : option Grant) (now minimum : Z) : result access :=
  match grant with
  | None => raise ValueError "invalid_access_grant"
  | Some g =>
      a ← check_grant (binding p) g;
      reject_if ((now <? issued a) || (expires a <=? now) || (expires a - now <? minimum))
        ValueError "invalid_access_lifetime";;
      Ok a
  end.
End Provider.

Record sys (W : Type) := Sys { prov : Provider.t; world : W }.
Arguments Sys {W}. Arguments prov {W}. Arguments world {W}.

(** [HostCredentialSource] *)
Record Source (W : Type) := MkSource {
  assert_available : eff W pyval;
  refresh_access : CredentialBinding.t → Z → eff W (option Grant) }.
Arguments assert_available {W}. Arguments refresh_access {W}.

Section Snapshot.
Context {W : Type} (source : Source W) (clock : eff W pyval) (monotonic : eff W spec_float).
Context (rival : W → bool).
Abbreviation E := (eff (sys W)).

(** A call outside the lock. *)
Definition io {A} (m : eff W A) : E A := λ s,
  let '(r, w) := m (world s) in
  (r, Sys (if rival w then Provider.revoke (prov s) else prov s) w).
Definition on_prov (f : Provider.t → Provider.t) : E unit := modify (λ s, Sys (f (prov s)) (world s)).

(** [max(0, int(a - b))] *)
Definition elapsed (a b : spec_float) : result Z :=
  z ← py_int (VFloat (SFsub 53 1024 a b)); Ok (Z.max 0 z).

Definition current_time (now_epoch : option Z) (start_epoch : Z) (start_monotonic : spec_float)
    (a : anchor) : E (Z * anchor) :=
  m ← io monotonic;
  d ← lift (elapsed m a.2);
  let floor := a.1 + d in
  wall ← match now_epoch with
         | None => v ← io clock; lift (_seconds v "invalid_clock")
         | Some _ => d' ← lift (elapsed m start_monotonic); mret (start_epoch + d')
         end;
  mret (if floor <? wall then (wall, (wall, m)) else (floor, a)).

Definition source_available : E unit :=
  v ← io (assert_available source);
  lift (reject_if (negb (is_none v)) ValueError "invalid_source_availability").

(** The [try] block: the grant, the time it was checked at, whether it was
    fetched, and the new anchor. *)
Definition refresh_body (cached : option access) (now_epoch : option Z) (minimum : Z) :
    E (access * Z * bool * anchor) :=
  start_monotonic ← io monotonic;
  start_epoch ← match now_epoch with
                | None => v ← io clock; lift (_seconds v "invalid_clock")
                | Some n => mret n
                end;
  a ← gets (λ s, default (start_epoch, start_monotonic) (Provider.time_anchor (prov s)));
  na ← current_time now_epoch start_epoch start_monotonic a;
  source_available;;
  na' ← current_time now_epoch start_epoch start_monotonic na.2;
  let now := Z.max na.1 na'.1 in
  let fresh := match cached with
               | Some g => negb ((expires g <=? now) || (expires g - now <? minimum))
               | None => false
               end in
  b ← gets (λ s, Provider.binding (prov s));
  result ← match cached, fresh with
           | Some g, true => mret (Some (grant_of b g))
           | _, _ =>
               p ← gets prov;
               lift (reject_if (bool_decide (Provider.state p = revoked)) CredentialRevokedError
                 "credential_provider_revoked");;
               on_prov Provider.start_refresh;;
               io (refresh_access source b minimum)
           end;
  source_available;;
  na'' ← current_time now_epoch start_epoch start_monotonic na'.2;
  let now := Z.max now na''.1 in
  p ← gets prov;
  g ← lift (Provider._validate_grant p result now minimum);
  mret (g, now, negb fresh, na''.2).

(** The last locked section, on the outcome of the [try] block. *)
Definition finish (r : result (access * Z * bool * anchor)) : E CredentialSnapshot.t :=
  on_prov (Provider.set_busy false);;
  p ← gets prov;
  let source_revoked :=
    match r with Err e => isinstance e CredentialRevokedError | Ok _ => false end in
  if bool_decide (Provider.state p = revoked) || source_revoked then
    on_prov (Provider.close revoked "credential_source_revoked");;
    lift (raise CredentialRevokedError "credential_source_revoked")
  else
    match r with
    | Err e =>
        on_prov (Provider.close blocked_auth "credential_refresh_failed");;
        lift (if isinstance e KeyboardInterrupt
              then raise KeyboardInterrupt "credential_refresh_interrupted"
              else if isinstance e SystemExit
              then raise SystemExit "credential_refresh_interrupted"
              else raise CredentialAuthBlocked "credential_refresh_failed")
    | Ok (g, now, refreshed, a) =>
        on_prov (Provider.accept g a refreshed);;
        let b := Provider.binding p in
        lift (CredentialSnapshot.make (VStr (CredentialBinding.provider_id b))
          (VStr (CredentialBinding.account_id b)) (str_tuple (CredentialBinding.capabilities b))
          (VDict [("access_token", VStr (token g))]) (VInt (issued g)) (VInt (expires g))
          (VBool true) (VInt now))
    end.

(** The checks before the lock is taken. *)
Definition check_request (b : CredentialBinding.t) (required_capabilities minimum_ttl_seconds
    require_known_expiry now_epoch : pyval) : result (Z * option Z) :=
  required ← _capabilities required_capabilities;
  minimum ← _seconds minimum_ttl_seconds "invalid_minimum_ttl";
  reject_if (match require_known_expiry with VBool _ => false | _ => true end) ValueError
    "require_known_expiry_must_be_boolean";;
  now ← match now_epoch with
        | VNone => Ok None
        | v => n ← _seconds v "invalid_now_epoch"; Ok (Some n)
        end;
  reject_if (existsb (λ c, negb (bool_decide (c ∈ CredentialBinding.capabilities b))) required)
    CredentialScopeError "credential_capability_mismatch";;
  Ok (minimum, now).

Definition snapshot (required_capabilities minimum_ttl_seconds require_known_expiry
    now_epoch : pyval) : E CredentialSnapshot.t :=
  b ← gets (λ s, Provider.binding (prov s));
  req ← lift (check_request b required_capabilities minimum_ttl_seconds require_known_expiry
                now_epoch);
  p ← gets prov;
  lift (Provider._assert_issuance_allowed p);;
  on_prov (Provider.set_busy true);;
  r ← attempt (refresh_body (Provider.grant p) req.2 req.1);
  finish r.
End Snapshot.
