(* ===== verification/RefreshFacts.v ===== *)
(** The refreshing provider fails closed: what a snapshot promises, and the
    states every failure leaves behind. *)
From Stdlib Require Import SpecFloat.
From S2P Require Import Prelude PyString PyValue Credentials Refresh.

(** ** Checked grants *)
Record grant_ok (b : CredentialBinding.t) (g : Grant) (a : access) : Prop := {
  go_id : AccessCredentialGrant.provider_id g = VStr (CredentialBinding.provider_id b);
  go_account : AccessCredentialGrant.account_id g = VStr (CredentialBinding.account_id b);
  go_caps : _capabilities (AccessCredentialGrant.capabilities g) = Ok (CredentialBinding.capabilities b);
  go_token : AccessCredentialGrant.access_token g = VStr (token a) ∧ blank (token a) = false;
  go_issued : AccessCredentialGrant.issued_at g = VInt (issued a) ∧ 0 ≤ issued a;
  go_expires : AccessCredentialGrant.expires_at g = VInt (expires a) ∧ 0 ≤ expires a;
  go_order : issued a < expires a }.

Lemma check_grant_ok b g a : check_grant b g = Ok a → grant_ok b g a.
Proof.
  unfold check_grant. intros H. inv_result.
  repeat match goal with H : py_eqb _ (VStr _) = true |- _ => apply py_eqb_str in H end.
  apply seconds_Ok in Ha3 as [E3 ?], Ha4 as [E4 ?].
  unfold _validate_times, opt_seconds in Ha5.
  rewrite !seconds_nonneg in Ha5 by done. cbn in Ha5. inv_result.
  destruct (AccessCredentialGrant.access_token g) eqn:Et; try done.
  cbn in *. inv_result. split; cbn; try done. lia.
Qed.

(** ** Time *)
Definition anchor_ok (p : Provider.t) : Prop :=
  ∀ a, Provider.time_anchor p = Some a → 0 ≤ a.1.

Section facts.
Context {W : Type} (source : Source W) (clock : eff W pyval) (monotonic : eff W spec_float).
Context (rival : W → bool) (b : CredentialBinding.t).
Implicit Types s : sys W.

(** The provider of binding [b], with an anchored clock that is not negative. *)
Definition held s : Prop :=
  Provider.binding (prov s) = b ∧ anchor_ok (prov s).
Definition T (e : exn) : Prop := True.

Lemma io_held {A} (m : eff W A) (Q : A → sys W → Prop) s :
  held s → (∀ a s', held s' → Q a s') → wpi held T (io rival m) Q s.
Proof.
  intros Hs HQ. unfold wpi, wp, io. destruct (m (world s)) as [r w].
  set (s' := Sys _ w). assert (held s') as Hs'.
  { destruct Hs as [Hb Ha]. unfold s', held. cbn. by destruct (rival w). }
  split; [done|]. destruct r; [by apply HQ|done].
Qed.

Lemma lift_held {A} (r : result A) (Q : A → sys W → Prop) s :
  held s → (∀ a, r = Ok a → Q a s) → wpi held T (lift r) Q s.
Proof. intros Hs HQ. by apply wpi_lift. Qed.

Lemma on_prov_held f (Q : unit → sys W → Prop) s :
  held s → (∀ p, Provider.binding (f p) = Provider.binding p) →
  (∀ p, Provider.time_anchor (f p) = Provider.time_anchor p) →
  (∀ s', held s' → Q tt s') → wpi held T (on_prov f) Q s.
Proof.
  intros [Hb Ha] F1 F2 HQ. assert (held (Sys (f (prov s)) (world s))) as H.
  { split; cbn; [by rewrite F1|]. unfold anchor_ok. by rewrite F2. }
  by apply wpi_modify; [|apply HQ].
Qed.

Lemma gets_held {A} (f : sys W → A) (Q : A → sys W → Prop) s :
  held s → Q (f s) s → wpi held T (gets f) Q s.
Proof. by split. Qed.

Lemma elapsed_nonneg x y z : elapsed x y = Ok z → 0 ≤ z.
Proof. unfold elapsed. intros H. inv_result. lia. Qed.

Lemma current_time_ok now_epoch e m a (Q : Z * anchor → sys W → Prop) s :
  held s → 0 ≤ e → 0 ≤ a.1 →
  (∀ t a' s', held s' → 0 ≤ t → 0 ≤ a'.1 → Q (t, a') s') →
  wpi held T (current_time clock monotonic rival now_epoch e m a) Q s.
Proof.
  intros Hs He Ha HQ. unfold current_time. apply wpi_bind, io_held; [done|]. intros mt s1 H1.
  apply wpi_bind, lift_held; [done|]. intros d Hd%elapsed_nonneg.
  apply wpi_bind. eapply (wpi_mono _ _ _ (λ w s', 0 ≤ w)).
  - destruct now_epoch as [n|].
    + apply wpi_bind, lift_held; [done|]. intros d' Hd'%elapsed_nonneg. apply wpi_ret; [done|lia].
    + apply wpi_bind, io_held; [done|]. intros v s2 H2. apply lift_held; [done|].
      by intros z [_ ?]%seconds_Ok.
  - intros w s2 H2 Hw. apply wpi_ret; [done|]. case_match; apply HQ; cbn; try done; lia.
Qed.

Lemma source_available_ok (Q : unit → sys W → Prop) s :
  held s → (∀ s', held s' → Q tt s') → wpi held T (source_available source rival) Q s.
Proof.
  intros Hs HQ. apply wpi_bind, io_held; [done|]. intros v s1 H1.
  apply lift_held; [done|]. intros [] _. auto.
Qed.

(** A grant that is usable at a time for at least the minimum. *)
Record usable (g : access) (now minimum : Z) : Prop := {
  us_token : blank (token g) = false;
  us_issued : 0 ≤ issued g ≤ now;
  us_expires : now < expires g ∧ minimum ≤ expires g - now }.

Lemma validate_grant_usable p g now minimum a :
  Provider._validate_grant p g now minimum = Ok a → usable a now minimum.
Proof.
  unfold Provider._validate_grant. destruct g as [g|]; [|done]. intros H. inv_result.
  apply check_grant_ok in Ha as [_ _ _ [_ ?] [_ ?] [_ ?] _]. split; [done|lia|lia].
Qed.

(** The outcome of the [try] block when it succeeds. *)
Definition body_post (minimum : Z) (r : access * Z * bool * anchor) s : Prop :=
  let '(g, now, _, a) := r in usable g now minimum ∧ 0 ≤ a.1.

Lemma refresh_body_ok cached now_epoch minimum s :
  held s → (∀ n, now_epoch = Some n → 0 ≤ n) →
  wpi held T (refresh_body source clock monotonic rival cached now_epoch minimum)
    (body_post minimum) s.
Proof.
  intros Hs Hn. unfold refresh_body. apply wpi_bind, io_held; [done|]. intros m s1 H1.
  apply wpi_bind. eapply (wpi_mono _ _ _ (λ e s', 0 ≤ e)).
  { destruct now_epoch as [n|]; [apply wpi_ret; auto|].
    apply wpi_bind, io_held; [done|]. intros v s2 H2. apply lift_held; [done|].
    by intros z [_ ?]%seconds_Ok. }
  intros e s2 H2 He. apply wpi_bind, gets_held; [done|].
  assert (0 ≤ (default (e, m) (Provider.time_anchor (prov s2))).1) as Ha.
  { destruct H2 as [_ H2]. destruct (Provider.time_anchor (prov s2)) eqn:E; cbn; auto. }
  set (a := default (e, m) _) in *. clearbody a.
  apply wpi_bind, current_time_ok; [done..|]. intros t a1 s3 H3 Ht Ha1.
  apply wpi_bind, source_available_ok; [done|]. intros s4 H4.
  apply wpi_bind, current_time_ok; [done..|]. intros t' a2 s5 H5 Ht' Ha2.
  cbn [fst snd] in *. apply wpi_bind, gets_held; [done|].
  apply wpi_bind. eapply (wpi_mono _ _ _ (λ _ _, True)).
  { assert (wpi held T (p ← gets prov;
               lift (reject_if (bool_decide (Provider.state p = revoked)) CredentialRevokedError
                 "credential_provider_revoked");;
               on_prov Provider.start_refresh;;
               io rival (refresh_access source (Provider.binding (prov s5)) minimum))
              (λ _ _, True) s5) as Hfetch.
    { apply wpi_bind, gets_held; [done|]. apply wpi_bind, lift_held; [done|]. intros [] _.
      apply wpi_bind, on_prov_held; [done..|]. intros s6 H6. by apply io_held. }
    destruct cached as [g|]; [|done]. case_match; [by apply wpi_ret|done]. }
  intros r s6 H6 _. apply wpi_bind, source_available_ok; [done|]. intros s7 H7.
  apply wpi_bind, current_time_ok; [done..|]. intros t'' a3 s8 H8 Ht'' Ha3. cbn [fst snd] in *.
  apply wpi_bind, gets_held; [done|]. apply wpi_bind, lift_held; [done|].
  intros g Hg%validate_grant_usable. by apply wpi_ret.
Qed.

(** How a snapshot may fail once the request was accepted. *)
Definition closed_errors : list exn :=
  [Exn CredentialRevokedError "credential_source_revoked";
   Exn CredentialAuthBlocked "credential_refresh_failed";
   Exn KeyboardInterrupt "credential_refresh_interrupted";
   Exn SystemExit "credential_refresh_interrupted"].

Definition snapshot_post (minimum : Z) (r : result CredentialSnapshot.t) s : Prop :=
  Provider.busy (prov s) = false ∧ held s ∧
  match r with
  | Ok snap =>
      (Provider.state (prov s) = ready ∨ Provider.state (prov s) = ready_rotated) ∧
      ∃ g, Provider.grant (prov s) = Some g ∧ usable g (CredentialSnapshot.created_at snap) minimum ∧
        snap = CredentialSnapshot.mk (CredentialBinding.provider_id b)
                 (Some (CredentialBinding.account_id b)) (CredentialBinding.capabilities b)
                 (Some (issued g)) (Some (expires g)) true [("access_token", token g)]
                 (CredentialSnapshot.created_at snap)
  | Err e =>
      Provider.grant (prov s) = None ∧ e ∈ closed_errors ∧
      (Provider.state (prov s) = revoked ∨ Provider.state (prov s) = blocked_auth)
  end.

Definition binding_ok : Prop := ∃ x y z, CredentialBinding.make x y z = Ok b.

Lemma identity_ok v i : CredentialBinding.identity v = Ok i → blank i = false ∧ strip i = i.
Proof. destruct v; try done. cbn. intros H. inv_result. split; [done|]. by apply String.eqb_eq in H0. Qed.

Lemma access_snapshot g now minimum :
  binding_ok → usable g now minimum →
  CredentialSnapshot.make (VStr (CredentialBinding.provider_id b))
    (VStr (CredentialBinding.account_id b)) (str_tuple (CredentialBinding.capabilities b))
    (VDict [("access_token", VStr (token g))]) (VInt (issued g)) (VInt (expires g))
    (VBool true) (VInt now) =
  Ok (CredentialSnapshot.mk (CredentialBinding.provider_id b)
        (Some (CredentialBinding.account_id b)) (CredentialBinding.capabilities b)
        (Some (issued g)) (Some (expires g)) true [("access_token", token g)] now).
Proof.
  intros (x & y & z & H) [Ht Hi He]. unfold CredentialBinding.make in H. inv_result. cbn.
  apply identity_ok in Ha as [E1 E2], Ha0 as [E3 E4].
  unfold CredentialSnapshot.make, provider_id_of, label_of. cbn [non_blank_str str_of].
  rewrite E1, E2, E3, E4. cbn [negb reject_if]. eff_eval.
  rewrite (capabilities_again _ _ Ha1). cbn [_copy_secrets existsb fst snd non_blank_str].
  rewrite Ht. unfold _validate_times, opt_seconds. rewrite !seconds_nonneg by lia. eff_eval.
  cbn. replace (expires g <=? issued g) with false by (symmetry; lia). done.
Qed.

Lemma finish_ok r minimum s :
  held s → binding_ok → (∀ x, r = Ok x → body_post minimum x s) →
  wp (finish r) (snapshot_post minimum) s.
Proof.
  intros [Hb Ha] Hbind Hr. unfold finish, on_prov. wp_go. cbn [prov world].
  destruct (bool_decide _ || _) eqn:Erev.
  - wp_go. split; [done|]. split; [by split|]. split; [done|]. split; [|by left].
    apply list_elem_of_here.
  - destruct r as [[[[g now] refreshed] a]|e].
    + wp_go. cbn [prov world Provider.binding Provider.set_busy]. rewrite Hb.
      destruct (Hr _ eq_refl) as [Hu Hanch].
      rewrite (access_snapshot _ _ _ Hbind Hu). split; [done|]. split.
      * split; [done|]. by intros a' [= <-].
      * split; [|by eauto]. cbn. case_match; [by right|by left].
    + wp_go. unfold raise.
      destruct (isinstance e KeyboardInterrupt); [|destruct (isinstance e SystemExit)];
        (split; [done|]; split; [by split|]; split; [done|]; split; [unfold closed_errors; set_solver|by right]).
Qed.

(** C13: a snapshot of the refreshing provider either is refused before
    anything happened, or succeeds with an access token that was issued, has not
    expired and lives at least the requested minimum at its creation time, or
    fails closed: no grant is kept, the provider is blocked or revoked, and the
    exception is one of four fixed ones, whatever the source or the clocks did. *)
Theorem snapshot_fails_closed req ttl known now s :
  binding_ok → held s →
  let '(r, s') := snapshot source clock monotonic rival req ttl known now s in
  (∃ e, r = Err e ∧ s' = s) ∨ ∃ minimum, ttl = VInt minimum ∧ snapshot_post minimum r s'.
Proof.
  intros Hbind Hs. enough (wp (snapshot source clock monotonic rival req ttl known now)
    (λ r s', (∃ e, r = Err e ∧ s' = s) ∨ ∃ minimum, ttl = VInt minimum ∧ snapshot_post minimum r s') s)
    as H by exact H.
  unfold snapshot. apply wp_bind, wp_gets. apply wp_bind, wp_lift.
  destruct (check_request _ _ _ _ _) as [[minimum n]|e] eqn:Ec; [|by left; eauto].
  assert (ttl = VInt minimum ∧ ∀ m, n = Some m → 0 ≤ m) as [Ettl Hn].
  { unfold check_request in Ec. inv_result. apply seconds_Ok in Ha0 as [-> _]. split; [done|].
    intros m ->. destruct now; inv_result; try discriminate;
      match goal with H : _seconds _ _ = Ok m |- _ => by apply seconds_Ok in H as [_ ?] end. }
  apply wp_bind, wp_gets. apply wp_bind, wp_lift.
  destruct (Provider._assert_issuance_allowed _) as [[]|e] eqn:Ea; [|by left; eauto].
  apply wp_bind, wp_modify, wp_bind, wp_attempt.
  assert (held (Sys (Provider.set_busy true (prov s)) (world s))) as Hs1 by done.
  eapply wp_mono; [by eapply (refresh_body_ok (Provider.grant (prov s)) n minimum)|].
  intros r s' [Hs' Hr]. eapply wp_mono; [apply finish_ok; [done|done|]|].
  - intros x ->. exact Hr.
  - intros r' s'' H. right. eauto.
Qed.

(** ** Revocation *)
Definition dead s : Prop := Provider.state (prov s) = revoked.

Lemma preserves_dead_io {A} (m : eff W A) : preserves dead (io rival m).
Proof. intros s Hs. unfold io, dead in *. destruct (m (world s)). cbn. by destruct (rival w). Qed.
Lemma preserves_dead_time now_epoch e m a :
  preserves dead (current_time clock monotonic rival now_epoch e m a).
Proof.
  unfold current_time. apply preserves_bind; [apply preserves_dead_io|]. intros mt.
  apply preserves_bind; [apply preserves_lift|]. intros d. apply preserves_bind.
  - destruct now_epoch; (apply preserves_bind; [|intros]); auto using preserves_dead_io, preserves_lift, preserves_ret.
  - intros w. apply preserves_ret.
Qed.
Lemma preserves_dead_available : preserves dead (source_available source rival).
Proof. apply preserves_bind; [apply preserves_dead_io|]. intros v. apply preserves_lift. Qed.

(** Once the provider is revoked, the turn in flight returns nothing. *)
Lemma finish_dead r s : dead s →
  ∃ s', finish r s = (raise CredentialRevokedError "credential_source_revoked", s') ∧ dead s' ∧
        Provider.grant (prov s') = None.
Proof.
  unfold dead. intros Hs. unfold finish, on_prov. eff_eval. cbn [prov world].
  rewrite bool_decide_eq_true_2 by done. cbn [orb]. eauto.
Qed.

(** The part of the [try] block that fetches a new grant, when another thread
    revokes during the exchange. *)
Lemma fetch_dead minimum b0 s :
  (∀ b' m w, rival (refresh_access source b' m w).2 = true) →
  wp (p ← gets prov;
      lift (reject_if (bool_decide (Provider.state p = revoked)) CredentialRevokedError
        "credential_provider_revoked");;
      on_prov Provider.start_refresh;;
      io rival (refresh_access source b0 minimum)) (λ r s', is_ok r = true → dead s') s.
Proof.
  intros Hr. unfold on_prov. wp_go. destruct (reject_if _ _ _); [|done]. wp_go.
  unfold wp, io. specialize (Hr b0 minimum). cbn [world].
  specialize (Hr (world s)). destruct (refresh_access source b0 minimum (world s)) as [x w].
  cbn in Hr. by rewrite Hr.
Qed.

(** Steps of a body that is only asked about its successful outcomes. *)
Lemma wp_after {A B} (m : eff (sys W) A) (f : A → eff (sys W) B) (P : sys W → Prop) s :
  (∀ a s', wp (f a) (λ r s', is_ok r = true → P s') s') →
  wp (m ≫= f) (λ r s', is_ok r = true → P s') s.
Proof. intros H. apply wp_bind. unfold wp at 1. by destruct (m s) as [[a|e] s']; [apply H|]. Qed.
Lemma wp_keep {A B} (I : sys W → Prop) (m : eff (sys W) A) (f : A → eff (sys W) B) P s :
  (∀ a s', I s' → wp (f a) (λ r s', is_ok r = true → P s') s') →
  preserves I m → I s →
  wp (m ≫= f) (λ r s', is_ok r = true → P s') s.
Proof.
  intros H Hm Hs. specialize (Hm s Hs). apply wp_bind. unfold wp at 1.
  by destruct (m s) as [[a|e] s']; [apply H|].
Qed.

Lemma refresh_body_dead now_epoch minimum s :
  (∀ b' m w, rival (refresh_access source b' m w).2 = true) →
  wp (refresh_body source clock monotonic rival None now_epoch minimum)
    (λ r s', is_ok r = true → dead s') s.
Proof.
  intros Hr. unfold refresh_body. do 2 (apply wp_after; intros ??).
  apply wp_bind, wp_gets. do 3 (apply wp_after; intros ??).
  cbv zeta. apply wp_bind, wp_gets. apply wp_bind.
  eapply wp_mono; [by apply fetch_dead|]. intros [res|e'] s6 H6; [|done].
  specialize (H6 eq_refl). apply (wp_keep dead); [|apply preserves_dead_available|done].
  intros [] s7 H7. eapply (wp_keep dead); [|apply preserves_dead_time|done].
  intros na s8 H8.
  wp_go. destruct (Provider._validate_grant _ _ _ _); [|done]. by wp_go.
Qed.

(** Revocation wins a race against a refresh: when another thread revokes
    the provider while the refresh exchange is in flight, the snapshot in flight
    returns nothing, whatever the source answers. *)
Theorem revoke_wins req ttl known now s :
  (∀ b' m w, rival (refresh_access source b' m w).2 = true) →
  Provider.grant (prov s) = None →
  is_ok (snapshot source clock monotonic rival req ttl known now s).1 = false.
Proof.
  intros Hr Hg. enough (wp (snapshot source clock monotonic rival req ttl known now)
    (λ r _, is_ok r = false) s) as H.
  { unfold wp in H. by destruct (snapshot _ _ _ _ _ _ _ _ s). }
  unfold snapshot. wp_go. destruct (check_request _ _ _ _ _) as [[minimum n]|e]; [|done].
  apply wp_bind, wp_gets, wp_bind, wp_lift. destruct (Provider._assert_issuance_allowed _) as [[]|e]; [|done].
  apply wp_bind, wp_modify, wp_bind, wp_attempt.
  rewrite Hg. eapply wp_mono; [by apply refresh_body_dead|]. intros r s' Hs'. cbn [fst snd] in *.
  destruct r as [x|e].
  - destruct (finish_dead (Ok x) s' (Hs' eq_refl)) as (s'' & E & _). unfold wp. by rewrite E.
  - unfold finish, on_prov. wp_go. destruct (_ || _); wp_go; [done|].
    by destruct (isinstance e KeyboardInterrupt), (isinstance e SystemExit).
Qed.

(** A revoked, blocked or unconfigured provider, and one whose refresh is
    in progress, refuses at once: no source call, no clock reading, no change. *)
Theorem snapshot_refused req ttl known now s :
  Provider.state (prov s) ∈ [revoked; blocked_auth; unconfigured] ∨ Provider.busy (prov s) = true →
  ∃ e, snapshot source clock monotonic rival req ttl known now s = (Err e, s).
Proof.
  intros H. unfold snapshot. eff_eval.
  destruct (check_request _ _ _ _ _) as [[minimum n]|e]; [|eauto].
  destruct (Provider._assert_issuance_allowed (prov s)) as [[]|e] eqn:E; [|eauto].
  exfalso. unfold Provider._assert_issuance_allowed in E. inv_result.
  destruct H as [H|H]; [|congruence]. set_solver.
Qed.
End facts.

(** ** Concrete uses *)
Definition gh_binding : CredentialBinding.t :=
  CredentialBinding.mk "github" "owner" ["ci.read"].
Definition gh_grant : Grant := grant_of gh_binding (Access "tok" 100 1000).
(** A source that answers with one grant, and frozen clocks. *)
Definition gh_source : Source nat :=
  MkSource nat (λ w, (Ok VNone, w)) (λ _ _ w, (Ok (Some gh_grant), S w)).
Definition frozen : eff nat spec_float := λ w, (Ok (S754_zero false), w).
Definition wall (z : Z) : eff nat pyval := λ w, (Ok (VInt z), w).
Definition nobody (w : nat) : bool := false.
Definition gh_start : sys nat := Sys (Provider.make gh_binding true) 0%nat.

Example snapshot_refreshes_once :
  let '(r, s') := snapshot gh_source (wall 200) frozen nobody (VList [VStr "ci.read"]) (VInt 300)
                    (VBool true) VNone gh_start in
  let '(r', s'') := snapshot gh_source (wall 300) frozen nobody (VList [VStr "ci.read"]) (VInt 300)
                    (VBool true) VNone s' in
  is_ok r = true ∧ is_ok r' = true ∧ world s'' = 1%nat.
Proof. vm_compute. done. Qed.

Lemma gh_binding_ok : binding_ok gh_binding.
Proof. exists (VStr "github"), (VStr "owner"), (VList [VStr "ci.read"]). reflexivity. Defined.

Lemma snapshot_fails_closed_witness :
  let '(r, s') := snapshot gh_source (wall 200) frozen nobody (VList [VStr "ci.read"]) (VInt 300)
                    (VBool true) VNone gh_start in
  (∃ e, r = Err e ∧ s' = gh_start) ∨
  ∃ minimum, VInt 300 = VInt minimum ∧ snapshot_post gh_binding minimum r s'.
Proof.
  apply (snapshot_fails_closed gh_source (wall 200) frozen nobody gh_binding).
  - exact gh_binding_ok.
  - split; [reflexivity|]. intros a [=].
Defined.

Lemma revoke_wins_witness :
  is_ok (snapshot gh_source (wall 200) frozen (λ w, Nat.eqb w 1) (VList [VStr "ci.read"]) (VInt 300)
           (VBool true) VNone gh_start).1 = false ∧
  is_ok (snapshot gh_source (wall 200) frozen (λ w, negb (Nat.eqb w 0)) (VList [VStr "ci.read"])
           (VInt 300) (VBool true) VNone gh_start).1 = false.
Proof.
  split; [vm_compute; reflexivity|].
  apply (revoke_wins gh_source (wall 200) frozen (λ w, negb (Nat.eqb w 0))); reflexivity.
Defined.

Lemma snapshot_refused_witness :
  let s := Sys (Provider.revoke (prov gh_start)) 0%nat in
  ∃ e, snapshot gh_source (wall 200) frozen nobody (VList [VStr "ci.read"]) (VInt 300)
         (VBool true) VNone s = (Err e, s).
Proof. apply snapshot_refused. left. apply list_elem_of_here. Defined.
