(* ===== verification/SecretStore.v ===== *)
(** agent_core/versioned_secret_store.py: version-fenced refresh secrets.

    The store is an interface ([VersionedSecretStore]): the source that
    coordinates refreshes is written against it, over any world [W] that holds
    the store and the provider's side of the exchange.  The in-memory reference
    store is one implementation; DurableStore.v has the durable one. *)
From S2P Require Import Prelude PyString PyValue Credentials Refresh.

Definition attempt_head (c : Ascii.ascii) : bool := is_ascii_alnum c.
Definition attempt_tail (c : Ascii.ascii) : bool := is_ascii_alnum c || one_of "._:-" c.
(** [_ATTEMPT_ID_RE.fullmatch] *)
Definition attempt_id_re (s : string) : bool := fullmatch attempt_head attempt_tail 127 s.

Definition FAILURE_CODES : list string :=
  ["refresh_rejected"; "refresh_outcome_ambiguous"; "refresh_response_invalid_or_incomplete";
   "secret_store_commit_ambiguous"; "credential_source_revoked"].

Definition _safe_attempt_id (value : pyval) (error : string) : result string :=
  match value with
  | VStr s => reject_if (negb (attempt_id_re s)) ValueError error;; Ok s
  | _ => raise ValueError error
  end.

Module SecretState.
Inductive t := ready | refreshing | blocked_auth | blocked_ambiguous | revoked.
Definition name (s : t) : string :=
  match s with
  | ready => "ready" | refreshing => "refreshing" | blocked_auth => "blocked_auth"
  | blocked_ambiguous => "blocked_ambiguous" | revoked => "revoked"
  end.
Definition all : list t := [ready; refreshing; blocked_auth; blocked_ambiguous; revoked].
Fixpoint find (n : string) (l : list t) : option t :=
  match l with [] => None | s :: l' => if String.eqb (name s) n then Some s else find n l' end.
(** [state in {...}]: an unhashable value raises [TypeError]. *)
Definition of_val (v : pyval) : result t :=
  if hashable v then
    match v with
    | VStr n => match find n all with
                | Some s => Ok s
                | None => raise ValueError "secret_store_state_invalid"
                end
    | _ => raise ValueError "secret_store_state_invalid"
    end
  else raise TypeError "unhashable type".
End SecretState.
#[export] Instance secret_state_eq_dec : EqDecision SecretState.t.
Proof. solve_decision. Defined.

Module RefreshSecretRecord.
Record t := mk {
  binding : CredentialBinding.t; version : Z; state : SecretState.t;
  refresh_secret : option string; refresh_generation : Z;
  active_attempt_id : option string; last_attempt_id : option string; failure : option string }.

(** The checks of [__post_init__] on one field each, given the state. *)
Definition check_secret (s : SecretState.t) (secret_ : pyval) : result unit :=
  match s with
  | SecretState.revoked =>
      reject_if (negb (is_none secret_)) ValueError "revoked_secret_must_be_cleared"
  | _ => reject_if (negb (non_blank_str secret_)) ValueError "refresh_secret_required"
  end.
Definition check_active (s : SecretState.t) (active_ : pyval) : result unit :=
  match s with
  | SecretState.refreshing =>
      reject_if (is_none active_) ValueError "refresh_attempt_required";;
      _safe_attempt_id active_ "refresh_attempt_invalid";; Ok tt
  | _ => reject_if (negb (is_none active_)) ValueError "active_attempt_only_while_refreshing"
  end.
Definition check_last (last_ : pyval) : result unit :=
  match last_ with
  | VNone => Ok tt
  | _ => _safe_attempt_id last_ "last_attempt_invalid";; Ok tt
  end.
Definition check_failure (failure_ : pyval) : result unit :=
  match failure_ with
  | VNone => Ok tt
  | _ => known ← in_str_set failure_ FAILURE_CODES;
         reject_if (negb known) ValueError "secret_store_failure_invalid"
  end.

(** [RefreshSecretRecord(...)]: [__post_init__] on arbitrary field values. *)
Definition make (b : CredentialBinding.t) (version_ state_ secret_ generation_ active_ last_
    failure_ : pyval) : result t :=
  version ← _seconds version_ "secret_store_version_invalid";
  generation ← _seconds generation_ "refresh_generation_invalid";
  state ← SecretState.of_val state_;
  check_secret state secret_;;
  check_active state active_;;
  check_last last_;;
  check_failure failure_;;
  Ok (mk b version state (as_str secret_) generation (as_str active_) (as_str last_)
        (as_str failure_)).

(** [replace(current, ...)] checks the changed record again. *)
Definition checked (r : t) : result t :=
  make (binding r) (VInt (version r)) (VStr (SecretState.name (state r)))
    (opt_str_val (refresh_secret r)) (VInt (refresh_generation r))
    (opt_str_val (active_attempt_id r)) (opt_str_val (last_attempt_id r))
    (opt_str_val (failure r)).

Definition to_safe_dict (r : t) : pydict :=
  [("provider_id", VStr (CredentialBinding.provider_id (binding r)));
   ("account_id", VStr (CredentialBinding.account_id (binding r)));
   ("capabilities", VList (map VStr (CredentialBinding.capabilities (binding r))));
   ("version", VInt (version r)); ("state", VStr (SecretState.name (state r)));
   ("refresh_generation", VInt (refresh_generation r));
   ("active_attempt_id", opt_str_val (active_attempt_id r));
   ("last_attempt_id", opt_str_val (last_attempt_id r)); ("failure", opt_str_val (failure r));
   ("refresh_secret_present",
      VBool (match refresh_secret r with Some _ => true | None => false end))].
End RefreshSecretRecord.
Abbreviation record := RefreshSecretRecord.t.
#[export] Instance record_eq_dec : EqDecision record.
Proof. solve_decision. Defined.

(** ** The store *)

(** [VersionedSecretStore]: [None] is an object that is not a record. *)
Class VersionedSecretStore (W : Type) := {
  read_record : CredentialBinding.t → eff W (option record);
  compare_and_swap : CredentialBinding.t → Z → record → eff W (option record) }.

Module InMemory.
Abbreviation key := (string * string * list string)%type.
Definition _key (b : CredentialBinding.t) : key :=
  (CredentialBinding.provider_id b, CredentialBinding.account_id b,
   CredentialBinding.capabilities b).
Abbreviation t := (gmap key record).

Definition seed (b : CredentialBinding.t) (refresh_secret : pyval) : eff t record :=
  lift (reject_if (negb (non_blank_str refresh_secret)) ValueError "refresh_secret_required");;
  r ← lift (RefreshSecretRecord.make b (VInt 0) (VStr "ready") refresh_secret (VInt 0)
              VNone VNone VNone);
  m ← get;
  match m !! _key b with
  | Some _ => lift (raise SecretStoreConflict "secret_store_record_already_exists")
  | None => modify (λ m : t, <[_key b := r]> m);; mret r
  end.

Definition read (b : CredentialBinding.t) : eff t (option record) :=
  m ← get;
  match m !! _key b with
  | None => lift (raise CredentialAuthBlocked "credential_secret_unconfigured")
  | Some r => mret (Some r)
  end.

Definition compare_and_swap (b : CredentialBinding.t) (expected : Z) (replacement : record) :
    eff t (option record) :=
  lift (_seconds (VInt expected) "secret_store_expected_version_invalid");;
  lift (reject_if (negb (bool_decide (RefreshSecretRecord.binding replacement = b))) ValueError
    "secret_store_replacement_binding_mismatch");;
  lift (reject_if (negb (RefreshSecretRecord.version replacement =? expected + 1)) ValueError
    "secret_store_replacement_version_invalid");;
  m ← get;
  if match m !! _key b with
     | None => true
     | Some current => negb (RefreshSecretRecord.version current =? expected)
     end
  then lift (raise SecretStoreConflict "secret_store_version_conflict")
  else modify (λ m : t, <[_key b := replacement]> m);; mret (Some replacement).

#[global] Instance store : VersionedSecretStore t := {| read_record := read;
  SecretStore.compare_and_swap := compare_and_swap |}.
End InMemory.

(** ** The versioned source *)
Module RefreshExchangeResult.
Record t := mk { grant : option Grant; rotated_refresh_secret : pyval }.
End RefreshExchangeResult.

Module Source.
Section Source.
Context {W : Type} `{!VersionedSecretStore W}.
(** [RefreshExchange.exchange]: secret, attempt, minimum lifetime; [None] is a
    result of another type. *)
Context (exchange : CredentialBinding.t → string → string → Z →
                    eff W (option RefreshExchangeResult.t)).
Context (attempt_id_factory : eff W pyval).
(** [self._binding] *)
Context (binding : CredentialBinding.t).
Abbreviation E := (eff W).
Import RefreshSecretRecord.

Definition _read : E record :=
  r ← try_with (read_record binding)
        (λ e, if isinstance e SecretStoreError
              then lift (raise CredentialAuthBlocked "credential_secret_store_unavailable")
              else throw e);
  match r with
  | Some r => if bool_decide (RefreshSecretRecord.binding r = binding) then mret r
              else lift (raise CredentialAuthBlocked "credential_secret_store_integrity_error")
  | None => lift (raise CredentialAuthBlocked "credential_secret_store_integrity_error")
  end.

Definition _fixed_attempt (value : pyval) : result string :=
  match _safe_attempt_id value "credential_refresh_attempt_invalid" with
  | Err e => if isinstance e ValueError
             then raise CredentialAuthBlocked "credential_refresh_attempt_invalid" else Err e
  | r => r
  end.

Definition assert_available : E unit :=
  r ← _read;
  lift match state r with
       | SecretState.ready => Ok tt
       | SecretState.revoked => raise CredentialRevokedError "credential_source_revoked"
       | SecretState.refreshing => raise CredentialRefreshInProgress "credential_refresh_owned_elsewhere"
       | SecretState.blocked_ambiguous =>
           raise CredentialAuthBlocked "credential_refresh_outcome_ambiguous"
       | SecretState.blocked_auth => raise CredentialAuthBlocked "credential_auth_unavailable"
       end.

Definition _cas (current replacement : record) : E (option record) :=
  compare_and_swap binding (version current) replacement.

(** How a compare-and-swap ended: [except SecretStoreAmbiguousWrite],
    [except SecretStoreConflict], anything else propagates. *)
Inductive cas_outcome := Saved (r : record) | AmbiguousWrite | Conflict.
Definition try_cas (current replacement : record) : E cas_outcome :=
  o ← attempt (_cas current replacement);
  match o with
  | Ok (Some r) => mret (Saved r)
  | Ok None => lift (raise AssertionError "")
  | Err e => if isinstance e SecretStoreAmbiguousWrite then mret AmbiguousWrite
             else if isinstance e SecretStoreConflict then mret Conflict
             else throw e
  end.

(** The replacements built by [replace(current, ...)]. *)
Definition claim_of (current : record) (attempt_id : string) : record :=
  mk (RefreshSecretRecord.binding current) (version current + 1) SecretState.refreshing
     (refresh_secret current) (refresh_generation current) (Some attempt_id)
     (last_attempt_id current) None.
Definition block_of (current : record) (attempt_id : string) (s : SecretState.t)
    (failure : string) : record :=
  mk (RefreshSecretRecord.binding current) (version current + 1) s (refresh_secret current)
     (refresh_generation current) None (Some attempt_id) (Some failure).
Definition commit_of (current : record) (attempt_id rotated : string) : record :=
  mk (RefreshSecretRecord.binding current) (version current + 1) SecretState.ready (Some rotated)
     (refresh_generation current + 1) None (Some attempt_id) None.
Definition revoke_of (current : record) : record :=
  mk (RefreshSecretRecord.binding current) (version current + 1) SecretState.revoked None
     (refresh_generation current) None (last_attempt_id current)
     (Some "credential_source_revoked").
Definition not_applied_of (current : record) : record :=
  mk (RefreshSecretRecord.binding current) (version current + 1) SecretState.ready
     (refresh_secret current) (refresh_generation current) None (last_attempt_id current) None.
Definition rotated_of (current : record) (rotated : string) : record :=
  mk (RefreshSecretRecord.binding current) (version current + 1) SecretState.ready (Some rotated)
     (refresh_generation current + 1) None (last_attempt_id current) None.

Definition is_active (r : record) (attempt_id : string) : bool :=
  bool_decide (state r = SecretState.refreshing) &&
  bool_decide (active_attempt_id r = Some attempt_id).

Definition _claim (current : record) (attempt_id : string) : E record :=
  claimed ← lift (checked (claim_of current attempt_id));
  o ← try_cas current claimed;
  match o with
  | Conflict => lift (raise CredentialRefreshInProgress "credential_refresh_owned_elsewhere")
  | AmbiguousWrite =>
      observed ← _read;
      if is_active observed attempt_id && (version observed =? version claimed) then mret observed
      else lift (raise CredentialAuthBlocked "credential_refresh_claim_ambiguous")
  | Saved r => mret r
  end.

Definition _block (current : record) (attempt_id : string) (s : SecretState.t)
    (failure_ : string) : E record :=
  blocked ← lift (checked (block_of current attempt_id s failure_));
  o ← try_cas current blocked;
  match o with
  | Conflict | AmbiguousWrite =>
      observed ← _read;
      if bool_decide (state observed = s) && bool_decide (last_attempt_id observed = Some attempt_id)
         && bool_decide (failure observed = Some failure_) then mret observed
      else lift (raise CredentialAuthBlocked "credential_refresh_recovery_state_uncertain")
  | Saved r => mret r
  end.

(** The grant and the rotated secret of a valid exchange result. *)
Definition _validate_exchange_result (result_ : option RefreshExchangeResult.t) (minimum : Z) :
    result (Grant * string) :=
  match result_ with
  | None => raise ValueError "invalid_refresh_exchange_result"
  | Some res =>
      match RefreshExchangeResult.grant res with
      | None => raise ValueError "invalid_access_grant"
      | Some grant =>
          a ← check_grant binding grant;
          reject_if (expires a - issued a <? minimum) ValueError "invalid_access_lifetime";;
          reject_if (negb (non_blank_str (RefreshExchangeResult.rotated_refresh_secret res)))
            ValueError "rotated_refresh_secret_required";;
          Ok (grant, str_of (RefreshExchangeResult.rotated_refresh_secret res))
      end
  end.

Definition _commit_success (current : record) (attempt_id rotated : string) : E record :=
  committed ← lift (checked (commit_of current attempt_id rotated));
  o ← try_cas current committed;
  match o with
  | Saved r => mret r
  | AmbiguousWrite =>
      observed ← _read;
      if bool_decide (state observed = SecretState.ready) && (version observed =? version committed)
         && (refresh_generation observed =? refresh_generation committed)
         && bool_decide (last_attempt_id observed = Some attempt_id)
         && bool_decide (refresh_secret observed = Some rotated)
      then mret observed
      else
        (if is_active observed attempt_id
         then _block observed attempt_id SecretState.blocked_ambiguous
                "secret_store_commit_ambiguous";; mret tt
         else mret tt);;
        lift (raise CredentialAuthBlocked "credential_refresh_persistence_ambiguous")
  | Conflict =>
      observed ← _read;
      lift (if bool_decide (state observed = SecretState.revoked)
            then raise CredentialRevokedError "credential_source_revoked"
            else raise CredentialAuthBlocked "credential_refresh_persistence_conflict")
  end.

(** What follows the exchange: block, or commit and return the grant. *)
Definition settle (claimed : record) (attempt_id : string) (minimum : Z)
    (outcome : result (option RefreshExchangeResult.t)) : E Grant :=
  match outcome with
  | Err e =>
      if isinstance e RefreshExchangeRejected then
        _block claimed attempt_id SecretState.blocked_auth "refresh_rejected";;
        lift (raise CredentialAuthBlocked "credential_refresh_rejected")
      else
        _block claimed attempt_id SecretState.blocked_ambiguous "refresh_outcome_ambiguous";;
        lift (if isinstance e KeyboardInterrupt
              then raise KeyboardInterrupt "credential_refresh_interrupted"
              else if isinstance e SystemExit
              then raise SystemExit "credential_refresh_interrupted"
              else raise CredentialAuthBlocked "credential_refresh_outcome_ambiguous")
  | Ok result_ =>
      match _validate_exchange_result result_ minimum with
      | Err _ =>
          _block claimed attempt_id SecretState.blocked_ambiguous
            "refresh_response_invalid_or_incomplete";;
          lift (raise CredentialAuthBlocked "credential_refresh_outcome_ambiguous")
      | Ok (grant, rotated) =>
          _commit_success claimed attempt_id rotated;;
          mret grant
      end
  end.

Definition refresh_access (binding_ : CredentialBinding.t) (minimum_ttl_seconds : pyval) : E Grant :=
  lift (reject_if (negb (bool_decide (binding_ = binding))) CredentialAuthBlocked
    "credential_binding_mismatch");;
  minimum ← lift (_seconds minimum_ttl_seconds "invalid_minimum_ttl");
  current ← _read;
  lift match state current with
       | SecretState.revoked => raise CredentialRevokedError "credential_source_revoked"
       | SecretState.refreshing => raise CredentialRefreshInProgress "credential_refresh_owned_elsewhere"
       | SecretState.blocked_ambiguous =>
           raise CredentialAuthBlocked "credential_refresh_outcome_ambiguous"
       | SecretState.blocked_auth => raise CredentialAuthBlocked "credential_auth_unavailable"
       | SecretState.ready => Ok tt
       end;;
  v ← attempt_id_factory;
  attempt_id ← lift (_fixed_attempt v);
  claimed ← _claim current attempt_id;
  match refresh_secret claimed with
  | None => lift (raise AssertionError "")
  | Some secret =>
      outcome ← attempt (exchange binding secret attempt_id minimum);
      settle claimed attempt_id minimum outcome
  end.

Definition _recover_cas (current replacement : record) : E record :=
  o ← try_cas current replacement;
  match o with
  | Saved r => mret r
  | AmbiguousWrite => lift (raise CredentialAuthBlocked "credential_recovery_persistence_ambiguous")
  | Conflict => lift (raise SecretStoreConflict "secret_store_version_conflict")
  end.

(** The record both recoveries start from. *)
Definition recoverable (expected : Z) (attempt_id : string) : E record :=
  current ← _read;
  lift (reject_if (negb (version current =? expected)) SecretStoreConflict
    "secret_store_version_conflict");;
  lift (reject_if (negb (bool_decide (state current = SecretState.blocked_ambiguous))
                   || negb (bool_decide (last_attempt_id current = Some attempt_id)))
    CredentialAuthBlocked "ambiguous_recovery_precondition_failed");;
  mret current.

Definition recover_ambiguous_not_applied (expected_version attempt_id_ : pyval) : E record :=
  expected ← lift (_seconds expected_version "secret_store_expected_version_invalid");
  attempt_id ← lift (_fixed_attempt attempt_id_);
  current ← recoverable expected attempt_id;
  replacement ← lift (checked (not_applied_of current));
  _recover_cas current replacement.

Definition recover_ambiguous_with_rotated_secret (expected_version attempt_id_ rotated : pyval) :
    E record :=
  expected ← lift (_seconds expected_version "secret_store_expected_version_invalid");
  attempt_id ← lift (_fixed_attempt attempt_id_);
  lift (reject_if (negb (non_blank_str rotated)) ValueError "rotated_refresh_secret_required");;
  current ← recoverable expected attempt_id;
  replacement ← lift (checked (rotated_of current (str_of rotated)));
  _recover_cas current replacement.

Definition revoke : E record :=
  current ← _read;
  if bool_decide (state current = SecretState.revoked) then mret current
  else
    replacement ← lift (checked (revoke_of current));
    o ← try_cas current replacement;
    let uncertain msg : E record :=
      observed ← _read;
      if bool_decide (state observed = SecretState.revoked)
         && bool_decide (refresh_secret observed = None) then mret observed
      else lift (raise CredentialAuthBlocked msg) in
    match o with
    | Saved r => mret r
    | AmbiguousWrite => uncertain "credential_revoke_persistence_ambiguous"
    | Conflict => uncertain "credential_revoke_persistence_conflict"
    end.
End Source.
End Source.
