(* ===== verification/SecretFacts.v ===== *)
(** The versioned source over any lawful store: what it presents to the
    provider, what it leaves in the store, and the laws of the in-memory store. *)
From S2P Require Import Prelude PyString PyValue Credentials Refresh RefreshFacts SecretStore.
Import RefreshSecretRecord.

(** ** Records *)
Lemma of_val_name s : SecretState.of_val (VStr (SecretState.name s)) = Ok s.
Proof. by destruct s. Qed.
Lemma as_str_opt o : as_str (opt_str_val o) = o.
Proof. by destruct o. Qed.

(** What every record that passed the checks satisfies. *)
Definition secret_fits (s : SecretState.t) (o : option string) : Prop :=
  match o with
  | Some x => s ≠ SecretState.revoked ∧ blank x = false
  | None => s = SecretState.revoked
  end.
Definition active_fits (s : SecretState.t) (o : option string) : Prop :=
  match o with
  | Some a => s = SecretState.refreshing ∧ attempt_id_re a = true
  | None => s ≠ SecretState.refreshing
  end.
Record record_ok (r : record) : Prop := {
  ro_version : 0 ≤ version r;
  ro_generation : 0 ≤ refresh_generation r;
  ro_secret : secret_fits (state r) (refresh_secret r);
  ro_active : active_fits (state r) (active_attempt_id r);
  ro_last : ∀ a, last_attempt_id r = Some a → attempt_id_re a = true;
  ro_failure : ∀ f, failure r = Some f → f ∈ FAILURE_CODES }.

Lemma safe_attempt_Ok a err x :
  _safe_attempt_id (VStr a) err = Ok x ↔ x = a ∧ attempt_id_re a = true.
Proof.
  unfold _safe_attempt_id. destruct (attempt_id_re a); cbn; [|by split; [|intros [_ ?]]].
  split; [by intros [= ->]|]. by intros [-> _].
Qed.

Lemma check_secret_iff s o : check_secret s (opt_str_val o) = Ok tt ↔ secret_fits s o.
Proof.
  destruct s, o as [x|]; cbn; rewrite ?reject_if_Ok; try naive_solver;
    unfold reject_if; destruct (blank x); cbn; unfold raise; naive_solver.
Qed.
Lemma check_active_iff s o : check_active s (opt_str_val o) = Ok tt ↔ active_fits s o.
Proof.
  destruct s, o as [x|]; cbn; rewrite ?reject_if_Ok; try naive_solver.
  destruct (attempt_id_re x); cbn; unfold raise; naive_solver.
Qed.
Lemma check_last_iff o :
  check_last (opt_str_val o) = Ok tt ↔ ∀ a, o = Some a → attempt_id_re a = true.
Proof.
  destruct o as [x|]; cbn; [|naive_solver]. destruct (attempt_id_re x) eqn:E; cbn.
  - split; [|done]. by intros _ a [= <-].
  - split; [done|]. intros H. specialize (H x eq_refl). congruence.
Qed.
Lemma check_failure_iff o :
  check_failure (opt_str_val o) = Ok tt ↔ ∀ f, o = Some f → f ∈ FAILURE_CODES.
Proof.
  destruct o as [x|]; [|naive_solver]. unfold check_failure, opt_str_val, in_str_set.
  cbn [hashable]. unfold in_strs. destruct (bool_decide (x ∈ FAILURE_CODES)) eqn:E; cbn.
  - apply bool_decide_eq_true in E. naive_solver.
  - apply bool_decide_eq_false in E. naive_solver.
Qed.

Lemma checked_eq r r' : checked r = Ok r' → r' = r ∧ record_ok r.
Proof.
  unfold checked, make. rewrite of_val_name. intros H. inv_result.
  apply seconds_Ok in Ha as [[= <-] ?], Ha0 as [[= <-] ?].
  pose proof (proj1 (check_secret_iff _ _) Ha1). pose proof (proj1 (check_active_iff _ _) Ha2).
  pose proof (proj1 (check_last_iff _) Ha3). pose proof (proj1 (check_failure_iff _) Ha4).
  rewrite !as_str_opt. by destruct r.
Qed.

Lemma checked_ok r : record_ok r → checked r = Ok r.
Proof.
  intros [Hv Hg Hs Ha Hl Hf]. unfold checked, make.
  rewrite !seconds_nonneg, of_val_name by done. eff_eval.
  rewrite (proj2 (check_secret_iff _ _) Hs), (proj2 (check_active_iff _ _) Ha),
    (proj2 (check_last_iff _) Hl), (proj2 (check_failure_iff _) Hf), !as_str_opt.
  by destruct r.
Qed.

(** ** The contract of a store *)

(** [reg w] is the record the store holds for the binding [b].  A read may fail
    but returns only that record; a compare-and-swap either replaces it, from
    exactly the expected version, or raises; when it raises a conflict, nothing
    was written, and after any other exception the write may have happened. *)
Definition swapped {W} (reg : W → option record) (v : Z) (r : record) (w w' : W) : Prop :=
  (∃ cur, reg w = Some cur ∧ version cur = v) ∧ version r = v + 1 ∧ reg w' = Some r.

Class CasRegister (W : Type) `{!VersionedSecretStore W} (b : CredentialBinding.t) := {
  reg : W → option record;
  read_law w : let '(o, w') := read_record b w in
    reg w' = reg w ∧ ∀ r, o = Ok (Some r) → reg w = Some r;
  cas_law v r w : record_ok r →
    let '(o, w') := compare_and_swap b v r w in
    match o with
    | Ok x => x = Some r ∧ swapped reg v r w w'
    | Err e => reg w' = reg w ∨ (isinstance e SecretStoreConflict = false ∧ swapped reg v r w w')
    end }.

(** ** Exchanges are logged *)
Record entry := Entry {
  e_secret : string; e_attempt : string; e_minimum : Z;
  e_outcome : result (option RefreshExchangeResult.t) }.

(** A store and the log of the exchanges made so far. *)
Record hub (W : Type) := Hub { store : W; log : list entry }.
Arguments Hub {W}. Arguments store {W}. Arguments log {W}.

Section facts.
Context {W : Type} `{!VersionedSecretStore W}.
Context (binding : CredentialBinding.t) `{!CasRegister W binding}.
(** The provider answers by any function of the exchanges so far. *)
Context (provider : list entry → string → string → Z → result (option RefreshExchangeResult.t)).
Context (next_id : list entry → result pyval).

Definition on_store {A} (m : eff W A) : eff (hub W) A := λ h,
  let '(r, w) := m (store h) in (r, Hub w (log h)).
#[local] Instance hub_store : VersionedSecretStore (hub W) := {|
  read_record b := on_store (read_record b);
  compare_and_swap b v r := on_store (compare_and_swap b v r) |}.
Definition exchange_logged (b : CredentialBinding.t) (secret attempt : string) (minimum : Z) :
    eff (hub W) (option RefreshExchangeResult.t) := λ h,
  let o := provider (log h) secret attempt minimum in
  (o, Hub (store h) (log h ++ [Entry secret attempt minimum o])).
Definition factory : eff (hub W) pyval := λ h, (next_id (log h), h).

Abbreviation refresh_op := (Source.refresh_access exchange_logged factory binding).
Abbreviation held h := (reg (b:=binding) (store h)).

(** The secret the provider expects next: the rotated one after a valid
    exchange, none after any other outcome. *)
Definition rotated_by (e : entry) : option string :=
  match e_outcome e with
  | Ok o => match Source._validate_exchange_result binding o (e_minimum e) with
            | Ok (_, rotated) => Some rotated
            | Err _ => None
            end
  | Err _ => None
  end.
Fixpoint chain (cur : option string) (l : list entry) : Prop :=
  match l with
  | [] => True
  | e :: l' => cur = Some (e_secret e) ∧ chain (rotated_by e) l'
  end.
Fixpoint expected (cur : option string) (l : list entry) : option string :=
  match l with [] => cur | e :: l' => expected (rotated_by e) l' end.

Lemma chain_snoc cur l e : chain cur (l ++ [e]) ↔ chain cur l ∧ expected cur l = Some (e_secret e).
Proof. revert cur. induction l as [|x l IH]; intros cur; cbn; [tauto|]. rewrite IH. tauto. Qed.
Lemma expected_snoc cur l e : expected cur (l ++ [e]) = rotated_by e.
Proof. revert cur. induction l as [|x l IH]; intros cur; cbn; auto. Qed.

(** ** Specifications of the source's steps *)
Import Source.
Implicit Types h : hub W.

Lemma read_spec (Q : result record → hub W → Prop) h :
  (∀ h', log h' = log h → held h' = held h →
     (∀ r, held h = Some r → Q (Ok r) h') ∧ ∀ e, Q (Err e) h') →
  wp (_read binding) Q h.
Proof.
  intros HQ. unfold _read. apply wp_bind, wp_try.
  change (read_record binding) with (on_store (read_record (W:=W) binding)).
  unfold wp at 1, on_store.
  pose proof (read_law (b:=binding) (store h)) as H. destruct (read_record binding (store h)) as [o w].
  destruct H as [Hr Ho]. destruct (HQ (Hub w (log h))) as [HQo HQe]; [done|done|].
  destruct o as [[r|]|e]; cbv beta iota.
  - destruct (bool_decide _); [apply wp_ret, HQo; by apply Ho|apply wp_lift, HQe].
  - apply wp_lift, HQe.
  - destruct (isinstance e SecretStoreError); [apply wp_lift, HQe|apply wp_throw, HQe].
Qed.

Lemma try_cas_spec cur rep (Q : result cas_outcome → hub W → Prop) h :
  record_ok rep → held h = Some cur →
  (∀ h', log h' = log h → held h' = Some rep → version rep = version cur + 1 →
     Q (Ok (Saved rep)) h' ∧ Q (Ok AmbiguousWrite) h' ∧ ∀ e, Q (Err e) h') →
  (∀ h', log h' = log h → held h' = Some cur →
     Q (Ok AmbiguousWrite) h' ∧ Q (Ok Conflict) h' ∧ ∀ e, Q (Err e) h') →
  wp (try_cas binding cur rep) Q h.
Proof.
  intros Hrep Hc Hs Hf. unfold try_cas, _cas. apply wp_bind, wp_attempt.
  change (compare_and_swap binding (version cur) rep) with
    (on_store (compare_and_swap (W:=W) binding (version cur) rep)).
  unfold wp at 1, on_store.
  pose proof (cas_law (b:=binding) (version cur) rep (store h) Hrep) as H.
  destruct (compare_and_swap binding (version cur) rep (store h)) as [o w].
  destruct o as [x|e].
  - destruct H as (-> & _ & Hv & Hw). apply wp_ret. by apply (Hs (Hub w (log h))).
  - destruct H as [H|[Ha (_ & Hv & Hw)]].
    + destruct (Hf (Hub w (log h))) as (Q1 & Q2 & Q3); [done|by cbn; rewrite H|].
      case_match; [by apply wp_ret|]. case_match; [by apply wp_ret|]. by apply wp_throw.
    + destruct (Hs (Hub w (log h))) as (Q1 & Q2 & Q3); [done..|]. rewrite Ha.
      case_match; [by apply wp_ret|by apply wp_throw].
Qed.

(** A record checked before a swap is the record itself. *)
Lemma wp_checked {S A} (r : record) (k : record → eff S A) (Q : result A → S → Prop) s :
  (record_ok r → wp (k r) Q s) → (∀ e, Q (Err e) s) → wp (r' ← lift (checked r); k r') Q s.
Proof.
  intros Hk He. apply wp_bind, wp_lift. destruct (checked r) as [r'|e] eqn:E; [|done].
  apply checked_eq in E as [-> E]. by apply Hk.
Qed.

Lemma is_active_claim cur a : is_active (claim_of cur a) a = true.
Proof. unfold is_active. by rewrite !bool_decide_eq_true_2. Qed.

Lemma claim_spec cur a (Q : result record → hub W → Prop) h :
  held h = Some cur → state cur = SecretState.ready →
  (∀ h', log h' = log h → held h' = Some (claim_of cur a) →
     Q (Ok (claim_of cur a)) h' ∧ ∀ e, Q (Err e) h') →
  (∀ h' e, log h' = log h → held h' = Some cur → Q (Err e) h') →
  wp (_claim binding cur a) Q h.
Proof.
  intros Hc Hs Hok Herr. unfold _claim. apply wp_checked; [intros Hrep|by intros e; apply Herr].
  apply wp_bind, try_cas_spec; [done|done|..].
  - intros h' Hl Hr _. split_and!; [apply wp_ret; by apply Hok| |by apply Hok].
    + apply wp_bind, read_spec. intros h2 Hl2 Hr2. destruct (Hok h2) as [Q1 Q2]; [congruence|congruence|].
      split; [|done]. intros r. rewrite Hr. intros [= <-].
      rewrite is_active_claim, Z.eqb_refl. by apply wp_ret.
  - intros h' Hl Hr. split_and!.
    + apply wp_bind, read_spec. intros h2 Hl2 Hr2. split; [|intros e; apply Herr; congruence].
      intros r. rewrite Hr. intros [= <-]. unfold is_active. rewrite Hs. cbn.
      apply wp_lift, Herr; congruence.
    + apply wp_lift, Herr; congruence.
    + intros e. by apply Herr.
Qed.

Lemma block_spec cur a st f (Q : result record → hub W → Prop) h :
  held h = Some cur →
  (∀ h' r r', log h' = log h → held h' = Some r' →
     r' = cur ∨ r' = block_of cur a st f → (∀ x, r = Ok x → x = r') → Q r h') →
  wp (_block binding cur a st f) Q h.
Proof.
  intros Hc HQ. unfold _block. apply wp_checked; [intros Hrep|by intros e; eapply HQ; eauto].
  assert (∀ h' r', log h' = log h → held h' = Some r' → r' = cur ∨ r' = block_of cur a st f →
    wp (observed ← _read binding;
      if bool_decide (state observed = st) && bool_decide (last_attempt_id observed = Some a)
         && bool_decide (failure observed = Some f) then mret observed
      else lift (raise CredentialAuthBlocked "credential_refresh_recovery_state_uncertain")) Q h') as Hobs.
  { intros h' r' Hl Hr Hor. apply wp_bind, read_spec. intros h2 Hl2 Hr2. split.
    - intros r. rewrite Hr. intros [= <-].
      destruct (_ && _); [apply wp_ret|apply wp_lift]; apply (HQ _ _ r'); congruence || done.
    - intros e. apply (HQ _ _ r'); congruence || done. }
  apply wp_bind, try_cas_spec; [done|done|..].
  - intros h' Hl Hr _. split_and!; [|eapply Hobs; eauto|].
    + apply wp_ret. eapply HQ; eauto. by intros x [= <-].
    + intros e. eapply HQ; eauto. done.
  - intros h' Hl Hr. split_and!; [eapply Hobs; eauto..|]. intros e. eapply HQ; eauto. done.
Qed.

Lemma is_active_refreshing r a : is_active r a = true → state r = SecretState.refreshing.
Proof. unfold is_active. by intros [H%bool_decide_eq_true _]%andb_true_iff. Qed.

(** What a commit may leave behind: the new record, the old one, or a block. *)
Definition uncommitted (cur : record) (a : string) (r : record) : Prop :=
  r = cur ∨ r = block_of cur a SecretState.blocked_ambiguous "secret_store_commit_ambiguous".

Lemma commit_spec cur a rot (Q : result record → hub W → Prop) h :
  held h = Some cur → is_active cur a = true →
  (∀ h', log h' = log h → held h' = Some (commit_of cur a rot) →
     Q (Ok (commit_of cur a rot)) h' ∧ ∀ e, Q (Err e) h') →
  (∀ h' e r', log h' = log h → held h' = Some r' → uncommitted cur a r' → Q (Err e) h') →
  wp (_commit_success binding cur a rot) Q h.
Proof.
  intros Hc Hact Hok Herr. unfold _commit_success.
  apply wp_checked; [intros Hrep|by intros e; eapply Herr; eauto; left].
  apply wp_bind, try_cas_spec; [done|done|..].
  - intros h' Hl Hr _. destruct (Hok h') as [Q1 Q2]; [done..|]. split_and!; [by apply wp_ret| |done].
    apply wp_bind, read_spec. intros h2 Hl2 Hr2. destruct (Hok h2) as [Q3 Q4]; [congruence..|].
    split; [|done]. intros r. rewrite Hr. intros [= <-].
    rewrite !bool_decide_eq_true_2, !Z.eqb_refl by done. by apply wp_ret.
  - intros h' Hl Hr. assert (∀ e h2, log h2 = log h' → held h2 = held h' → Q (Err e) h2) as Hsame.
    { intros e h2 Hl2 Hr2. apply (Herr _ _ cur); [congruence|congruence|by left]. }
    split_and!.
    + apply wp_bind, read_spec. intros h2 Hl2 Hr2. split; [|by intros e; apply Hsame].
      intros r. rewrite Hr. intros [= <-].
      rewrite (bool_decide_eq_false_2 (state cur = SecretState.ready))
        by (rewrite (is_active_refreshing _ _ Hact); done).
      cbn [andb]. rewrite Hact. apply wp_bind, wp_bind, block_spec; [congruence|].
      intros h3 r r' Hl3 Hr3 Hor _. destruct r as [x|e].
      * apply wp_ret, wp_lift. apply (Herr _ _ r'); [congruence|done|done].
      * apply (Herr _ _ r'); [congruence|done|done].
    + apply wp_bind, read_spec. intros h2 Hl2 Hr2. split; [|by intros e; apply Hsame].
      intros r _. apply wp_lift. destruct (bool_decide _); by apply Hsame.
    + intros e. by apply Hsame.
Qed.

(** The records a settled exchange with outcome [o] may leave behind. *)
Inductive left_by (claimed : record) (a : string) (m : Z)
    (o : result (option RefreshExchangeResult.t)) : record → Prop :=
  | left_claimed : left_by claimed a m o claimed
  | left_blocked s f : s ≠ SecretState.ready → left_by claimed a m o (block_of claimed a s f)
  | left_committed x g rot : o = Ok x → _validate_exchange_result binding x m = Ok (g, rot) →
      left_by claimed a m o (commit_of claimed a rot).

Lemma settle_spec claimed a m o (Q : result Grant → hub W → Prop) h :
  held h = Some claimed → is_active claimed a = true →
  (∀ h' x g rot, log h' = log h → o = Ok x → _validate_exchange_result binding x m = Ok (g, rot) →
     held h' = Some (commit_of claimed a rot) → Q (Ok g) h') →
  (∀ h' e r', log h' = log h → held h' = Some r' → left_by claimed a m o r' → Q (Err e) h') →
  wp (settle binding claimed a m o) Q h.
Proof.
  intros Hc Hact Hok Herr. unfold settle.
  assert (∀ s f (k : eff (hub W) Grant), s ≠ SecretState.ready → (∀ h, ∃ e, k h = (Err e, h)) →
    wp (_block binding claimed a s f;; k) Q h) as Hblock.
  { intros s f k Hs Hk. apply wp_bind, block_spec; [done|]. intros h' r r' Hl Hr Hor _.
    assert (left_by claimed a m o r') as Hleft
      by (destruct Hor as [-> | ->]; [apply left_claimed|by apply left_blocked]).
    destruct r as [x|e]; [|by eapply Herr]. destruct (Hk h') as [e E].
    unfold wp. rewrite E. by eapply Herr. }
  destruct o as [x|e].
  - destruct (_validate_exchange_result binding x m) as [[g rot]|e] eqn:Ev.
    + apply wp_bind, commit_spec; [done|done|..].
      * intros h' Hl Hr. split; [apply wp_ret; by eapply Hok|]. intros e. eapply Herr; eauto.
        by eapply left_committed.
      * intros h' e r' Hl Hr [-> | ->]; eapply Herr; eauto; [apply left_claimed|by apply left_blocked].
    + apply Hblock; [done|]. intros h'. by eexists.
  - destruct (isinstance e RefreshExchangeRejected); (apply Hblock; [done|]); intros h'; [by eexists|].
    destruct (isinstance e KeyboardInterrupt); [|destruct (isinstance e SystemExit)]; by eexists.
Qed.

(** What one [refresh_access] may do, from the record [cur]: nothing; claim
    only; or claim, one exchange with the secret of [cur], and settle. *)
Inductive refreshed (cur : record) (h h' : hub W) : result Grant → Prop :=
  | refresh_nothing e : log h' = log h → held h' = Some cur → refreshed cur h h' (Err e)
  | refresh_claimed e a : log h' = log h → state cur = SecretState.ready →
      held h' = Some (claim_of cur a) → refreshed cur h h' (Err e)
  | refresh_granted a sec m o x g rot : state cur = SecretState.ready →
      refresh_secret cur = Some sec →
      log h' = log h ++ [Entry sec a m o] → o = Ok x →
      _validate_exchange_result binding x m = Ok (g, rot) →
      held h' = Some (commit_of (claim_of cur a) a rot) → refreshed cur h h' (Ok g)
  | refresh_failed a sec m o e r' : state cur = SecretState.ready →
      refresh_secret cur = Some sec →
      log h' = log h ++ [Entry sec a m o] →
      held h' = Some r' → left_by (claim_of cur a) a m o r' → refreshed cur h h' (Err e).

Lemma refresh_spec b ttl cur h :
  held h = Some cur → wp (refresh_op b ttl) (λ r h', refreshed cur h h' r) h.
Proof.
  intros Hc. unfold Source.refresh_access. apply wp_bind, wp_lift.
  destruct (reject_if _ _ _); [|by apply refresh_nothing].
  apply wp_bind, wp_lift. destruct (_seconds _ _) as [m|e]; [|by apply refresh_nothing].
  apply wp_bind, read_spec. intros h1 Hl1 Hr1. rewrite Hc in Hr1.
  split; [|by intros e; apply refresh_nothing]. intros r. rewrite Hc. intros [= <-].
  apply wp_bind, wp_lift. destruct (state cur) eqn:Es; try by apply refresh_nothing.
  apply wp_bind. unfold factory, wp at 1. destruct (next_id (log h1)) as [v|e];
    [|by apply refresh_nothing].
  apply wp_bind, wp_lift. destruct (_fixed_attempt v) as [att|e]; [|by apply refresh_nothing].
  apply wp_bind, claim_spec; [done|done| |].
  2:{ intros h2 e Hl2 Hr2. apply refresh_nothing; congruence. }
  intros h2 Hl2 Hr2. split; [|by intros e; eapply refresh_claimed; eauto; congruence].
  cbn [claim_of refresh_secret]. destruct (refresh_secret cur) as [sec|] eqn:Esec.
  2:{ apply wp_lift. eapply refresh_claimed; eauto; congruence. }
  apply wp_bind, wp_attempt. unfold exchange_logged, wp at 1.
  set (o := provider _ _ _ _). set (h3 := Hub _ _).
  apply settle_spec; [done|apply is_active_claim|..].
  - intros h4 x g rot Hl4 Ho Hv Hr4. eapply (refresh_granted _ _ _ att sec m o); eauto.
    rewrite Hl4. cbn. congruence.
  - intros h4 e r' Hl4 Hr4 Hleft. eapply (refresh_failed _ _ _ att sec m o); eauto.
    rewrite Hl4. cbn. congruence.
Qed.

Lemma revoke_spec cur (Q : result record → hub W → Prop) h :
  held h = Some cur →
  (∀ h' r, log h' = log h → held h' = Some r → state r = SecretState.revoked →
     r = cur ∨ r = revoke_of cur → Q (Ok r) h') →
  (∀ h' e r, log h' = log h → held h' = Some r → r = cur ∨ r = revoke_of cur → Q (Err e) h') →
  wp (Source.revoke binding) Q h.
Proof.
  intros Hc Hok Herr. unfold Source.revoke. apply wp_bind, read_spec. intros h1 Hl1 Hr1.
  rewrite Hc in *. split; [|intros e; eapply Herr; eauto]. intros r [= <-].
  destruct (bool_decide (state cur = SecretState.revoked)) eqn:Es.
  { apply bool_decide_eq_true in Es. apply wp_ret. eapply Hok; eauto. }
  apply wp_checked; [intros Hrep|by intros e; eapply Herr; eauto].
  assert (∀ h' r' msg, log h' = log h → held h' = Some r' → r' = cur ∨ r' = revoke_of cur →
    wp (observed ← _read binding;
      if bool_decide (state observed = SecretState.revoked)
         && bool_decide (refresh_secret observed = None) then mret observed
      else lift (raise CredentialAuthBlocked msg)) Q h') as Hobs.
  { intros h' r' msg Hl Hr Hor. apply wp_bind, read_spec. intros h2 Hl2 Hr2.
    split; [|intros e; apply (Herr _ _ r'); congruence || done].
    intros r. rewrite Hr. intros [= <-]. destruct (bool_decide (state r' = _)) eqn:E.
    - apply bool_decide_eq_true in E. destruct (bool_decide (refresh_secret r' = None)).
      + apply wp_ret. apply Hok; congruence || done.
      + apply wp_lift. apply (Herr _ _ r'); congruence || done.
    - apply wp_lift. apply (Herr _ _ r'); congruence || done. }
  apply wp_bind, try_cas_spec; [done|done|..].
  - intros h' Hl Hr _. split_and!; [apply wp_ret; apply Hok; auto; congruence| |].
    + eapply Hobs; eauto; congruence.
    + intros e. eapply Herr; eauto; congruence.
  - intros h' Hl Hr. split_and!; [eapply Hobs; eauto; congruence..|].
    intros e. apply (Herr _ _ cur); [congruence|done|by left].
Qed.

(** ** Sequences of operations *)
Inductive operation := Refresh (b : CredentialBinding.t) (ttl : pyval) | Revoke | Available.
Definition perform (o : operation) (h : hub W) : hub W :=
  match o with
  | Refresh b ttl => (refresh_op b ttl h).2
  | Revoke => (Source.revoke binding h).2
  | Available => (Source.assert_available binding h).2
  end.
Definition perform_all (ops : list operation) (h : hub W) : hub W :=
  fold_left (λ h o, perform o h) ops h.

(** The secret a record lets the source present: none unless it is ready. *)
Definition presentable (r : record) : option string :=
  if bool_decide (state r = SecretState.ready) then refresh_secret r else None.

Section chain.
Context (e0 : option string).
Definition chained h : Prop :=
  ∃ r, held h = Some r ∧ chain e0 (log h) ∧
       (state r = SecretState.ready → expected e0 (log h) = refresh_secret r).

Lemma chained_step h h' cur r :
  held h = Some cur → chained h → log h' = log h → held h' = Some r →
  (state r = SecretState.ready → r = cur) → chained h'.
Proof.
  intros Hc (r0 & Hr0 & Hch & He) Hl Hr Hrd. exists r. rewrite Hl. split_and!; [done|done|].
  intros H. assert (r0 = cur) as -> by congruence. rewrite (Hrd H) in H |- *. auto.
Qed.

Lemma chained_refresh cur h h' r :
  held h = Some cur → chained h → refreshed cur h h' r → chained h'.
Proof.
  intros Hc Hch Hr. destruct Hr as [e Hl Hr|e a Hl Hs Hr|a sec m o x g rot Hs Hsec Hl Ho Hv Hr
    |a sec m o e r' Hs Hsec Hl Hr Hleft].
  - by apply (chained_step h h' cur cur).
  - by apply (chained_step h h' cur (claim_of cur a)).
  - destruct Hch as (r0 & Hr0 & Hch & He). rewrite Hc in Hr0. injection Hr0 as <-.
    exists (commit_of (claim_of cur a) a rot). rewrite Hl. split; [done|]. split.
    + apply chain_snoc. split; [done|]. rewrite He by done. by rewrite Hsec.
    + intros _. rewrite expected_snoc. unfold rotated_by. cbn. subst o. by rewrite Hv.
  - destruct Hch as (r0 & Hr0 & Hch & He). rewrite Hc in Hr0. injection Hr0 as <-.
    exists r'. rewrite Hl. split; [done|]. split.
    + apply chain_snoc. split; [done|]. rewrite He by done. by rewrite Hsec.
    + rewrite expected_snoc. unfold rotated_by. cbn.
      destruct Hleft as [|s f Hn|x g rot -> Hv]; cbn; [done|done|]. by rewrite Hv.
Qed.

Lemma available_held cur h :
  held h = Some cur →
  log (Source.assert_available binding h).2 = log h ∧
  held (Source.assert_available binding h).2 = held h.
Proof.
  intros Hc. enough (wp (Source.assert_available binding) (λ _ h', log h' = log h ∧ held h' = held h) h) as H.
  { unfold wp in H. by destruct (Source.assert_available binding h). }
  apply wp_bind, read_spec. intros h' Hl Hr. split; [|done]. intros r _. by apply wp_lift.
Qed.

Lemma perform_chained o h : chained h → chained (perform o h).
Proof.
  intros Hch. destruct Hch as (cur & Hc & Hrest). pose proof (ex_intro _ cur (conj Hc Hrest) : chained h) as Hch.
  clear Hrest. destruct o as [b ttl| |]; cbn.
  - pose proof (refresh_spec b ttl cur h Hc) as H. unfold wp in H.
    destruct (refresh_op b ttl h) as [r h']. by eapply chained_refresh.
  - enough (wp (Source.revoke binding) (λ _ h', chained h') h) as H.
    { unfold wp in H. by destruct (Source.revoke binding h). }
    apply (revoke_spec cur); [done|..].
    + intros h' r Hl Hr Hs Hor. apply (chained_step h h' cur r); [done..|]. by rewrite Hs.
    + intros h' e r Hl Hr [-> | ->]; eapply (chained_step h h' cur); done.
  - destruct (available_held cur h Hc) as [Hl Hr]. apply (chained_step h _ cur cur); congruence.
Qed.
End chain.

Lemma perform_revoked o r h :
  held h = Some r → state r = SecretState.revoked →
  held (perform o h) = Some r ∧ log (perform o h) = log h.
Proof.
  intros Hr Hs. destruct o as [b ttl| |]; cbn.
  - pose proof (refresh_spec b ttl r h Hr) as H. unfold wp in H.
    destruct (refresh_op b ttl h) as [x h']. destruct H; congruence || done.
  - enough (wp (Source.revoke binding) (λ _ h', held h' = Some r ∧ log h' = log h) h) as H.
    { unfold wp in H. by destruct (Source.revoke binding h). }
    unfold Source.revoke. apply wp_bind, read_spec. intros h' Hl Hr'. rewrite Hr in *.
    split; [|done]. intros x [= <-]. rewrite bool_decide_eq_true_2 by done. by apply wp_ret.
  - destruct (available_held r h Hr) as [-> ->]. done.
Qed.

(** C3: over any sequence of refreshes and revocations of a source, whatever
    the provider answers and however the store fails, the exchanges form one
    chain: the first presents the stored secret, each next one the secret the
    previous exchange rotated to, and after an exchange that was rejected, was
    ambiguous or answered badly there is no further exchange. *)
Theorem exchanges_form_a_chain ops r0 h :
  held h = Some r0 → log h = [] → chain (presentable r0) (log (perform_all ops h)).
Proof.
  intros Hr Hl. assert (chained (presentable r0) h) as H.
  { exists r0. rewrite Hl. split_and!; [done|done|]. intros Hs. unfold presentable. cbn.
    by rewrite bool_decide_eq_true_2. }
  clear Hr Hl. unfold perform_all. revert h H.
  induction ops as [|o ops IH]; intros h H; cbn; [by destruct H as (? & _ & ? & _)|].
  by apply IH, perform_chained.
Qed.

(** C4: a refresh that returns access has first committed the rotated secret:
    the store then holds the ready record with that secret, two versions and one
    generation later, and exactly one exchange was made, with the old secret. *)
Theorem refresh_commits_before_return b ttl cur h g h' :
  held h = Some cur → refresh_op b ttl h = (Ok g, h') →
  ∃ a sec m x rot, refresh_secret cur = Some sec ∧
    log h' = log h ++ [Entry sec a m (Ok x)] ∧
    _validate_exchange_result binding x m = Ok (g, rot) ∧
    held h' = Some (mk (RefreshSecretRecord.binding cur) (version cur + 2) SecretState.ready
                      (Some rot) (refresh_generation cur + 1) None (Some a) None).
Proof.
  intros Hc E. pose proof (refresh_spec b ttl cur h Hc) as H. unfold wp in H. rewrite E in H.
  inversion H as [| |a sec m o x g' rot Hs Hsec Hl Ho Hv Hr|]; subst.
  exists a, sec, m, x, rot. split_and!; [done|done|done|].
  rewrite Hr. unfold commit_of, claim_of. cbn. do 2 f_equal. lia.
Qed.

(** A revocation that returns has cleared the secret in the store, and no
    later operation of the source brings the record back or reaches the provider. *)
Theorem revoked_for_good cur h r h' ops :
  held h = Some cur → record_ok cur → Source.revoke binding h = (Ok r, h') →
  state r = SecretState.revoked ∧ refresh_secret r = None ∧
  held (perform_all ops h') = Some r ∧ log (perform_all ops h') = log h.
Proof.
  intros Hc Hclean E.
  assert (held h' = Some r ∧ log h' = log h ∧ state r = SecretState.revoked ∧ refresh_secret r = None)
    as (Hr & Hl & Hs & Hn).
  { enough (wp (Source.revoke binding) (λ x h', ∀ r, x = Ok r → held h' = Some r ∧ log h' = log h ∧
      state r = SecretState.revoked ∧ refresh_secret r = None) h) as H.
    { unfold wp in H. rewrite E in H. by apply H. }
    apply (revoke_spec cur); [done|..]; [|done].
    intros h2 r2 Hl Hr Hs Hor x [= <-]. split_and!; [done..|].
    destruct Hor as [-> | ->]; [|done]. pose proof (ro_secret _ Hclean) as H.
    unfold secret_fits in H. destruct (refresh_secret cur); [by destruct H|done]. }
  rewrite <- Hl. split; [done|]. split; [done|]. clear E Hl Hc. revert h' Hr.
  induction ops as [|o ops IH]; intros h1 Hr; [done|]. unfold perform_all. cbn [fold_left].
  destruct (perform_revoked o r h1) as [Hr1 Hl1]; [done..|]. rewrite <- Hl1. by apply IH.
Qed.
End facts.
