(* ===== verification/SecretInstances.v ===== *)
(** Stores that keep the contract: the in-memory reference store, and any
    lawful store behind a layer that loses, doubts or refuses writes. *)
From S2P Require Import Prelude PyString PyValue Credentials Refresh RefreshFacts SecretStore.
From S2P Require Import SecretFacts.
Import RefreshSecretRecord.

(** The in-memory store is a compare-and-swap register: a write happens
    exactly from the expected version to the next one, and a refused write
    changes nothing. *)
Theorem in_memory_cas (b : CredentialBinding.t) (v : Z) (r : record) (m : InMemory.t) :
  let '(o, m') := InMemory.compare_and_swap b v r m in
  match o with
  | Ok x => x = Some r ∧ swapped (λ m : InMemory.t, m !! InMemory._key b) v r m m'
  | Err e => m' = m ∧
      (0 ≤ v → RefreshSecretRecord.binding r = b → version r = v + 1 →
       e = Exn SecretStoreConflict "secret_store_version_conflict" ∧
       ∀ cur, m !! InMemory._key b = Some cur → version cur ≠ v)
  end.
Proof.
  unfold InMemory.compare_and_swap. eff_eval.
  destruct (_seconds (VInt v) _) as [v'|e] eqn:E1.
  2:{ split; [done|]. intros H. by rewrite seconds_nonneg in E1. }
  destruct (bool_decide _) eqn:E2; cbn [negb].
  2:{ split; [done|]. by apply bool_decide_eq_false in E2. }
  destruct (version r =? v + 1) eqn:E3; cbn [negb].
  2:{ split; [done|]. lia. }
  destruct (m !! InMemory._key b) as [cur|] eqn:Em; [destruct (version cur =? v) eqn:E4|]; cbn [negb].
  - split; [done|]. unfold swapped. cbv beta. split_and!.
    + exists cur. split; [done|lia].
    + lia.
    + by rewrite lookup_insert_eq.
  - split; [done|]. intros _ _ _. split; [done|]. intros c [= <-]. lia.
  - split; [done|]. intros _ _ _. by split.
Qed.

#[export, refine] Instance in_memory_register b : CasRegister InMemory.t b := {|
  reg (m : InMemory.t) := m !! InMemory._key b |}.
Proof.
  - intros m. cbn. unfold InMemory.read. eff_eval.
    destruct (m !! InMemory._key b) eqn:E; [|done]. split; [done|]. congruence.
  - intros v r m _. cbn. unfold InMemory.compare_and_swap. eff_eval.
    destruct (_seconds (VInt v) _); [|by left].
    destruct (bool_decide _); [|by left]. cbn [negb].
    destruct (version r =? v + 1) eqn:E3; [|by left]. cbn [negb].
    destruct (m !! InMemory._key b) as [cur|] eqn:Em; [|by left].
    destruct (version cur =? v) eqn:E4; [|by left]. cbn [negb].
    split; [done|]. unfold swapped. cbv beta. split_and!; [exists cur; split; [done|lia]|lia|by rewrite lookup_insert_eq].
Defined.

(** ** Unreliable stores *)
Inductive fault := Refused | DoubtedLost | DoubtedApplied | Unavailable.

Section faulty.
Context {W : Type} `{!VersionedSecretStore W} (b : CredentialBinding.t) `{!CasRegister W b}.
(** The fault of the [n]-th operation. *)
Context (fault_at : nat → option fault).

Record faulty := Faulty { inner : W; ops : nat }.
Definition faulty_read (k : CredentialBinding.t) : eff faulty (option record) := λ f,
  match fault_at (ops f) with
  | Some Unavailable => (raise SecretStoreError "unavailable", Faulty (inner f) (S (ops f)))
  | _ => let '(o, w) := read_record k (inner f) in (o, Faulty w (S (ops f)))
  end.
Definition faulty_cas (k : CredentialBinding.t) (v : Z) (r : record) : eff faulty (option record) :=
  λ f,
  let n := S (ops f) in
  match fault_at (ops f) with
  | Some Unavailable => (raise SecretStoreError "unavailable", Faulty (inner f) n)
  | Some Refused => (raise SecretStoreConflict "secret_store_version_conflict", Faulty (inner f) n)
  | Some DoubtedLost => (raise SecretStoreAmbiguousWrite "unknown", Faulty (inner f) n)
  | Some DoubtedApplied =>
      let '(o, w) := compare_and_swap k v r (inner f) in
      (raise SecretStoreAmbiguousWrite "unknown", Faulty w n)
  | None => let '(o, w) := compare_and_swap k v r (inner f) in (o, Faulty w n)
  end.
#[export] Instance faulty_store : VersionedSecretStore faulty := {|
  read_record := faulty_read; compare_and_swap := faulty_cas |}.

#[export, refine] Instance faulty_register : CasRegister faulty b := {|
  reg f := reg (b:=b) (inner f) |}.
Proof.
  - intros f. cbn. unfold faulty_read. pose proof (read_law (b:=b) (inner f)) as H.
    destruct (fault_at (ops f)) as [[]|]; try done; by destruct (read_record b (inner f)).
  - intros v r f Hrec. cbn. unfold faulty_cas. pose proof (cas_law (b:=b) v r (inner f) Hrec) as H.
    destruct (fault_at (ops f)) as [[]|]; try (by left);
      destruct (compare_and_swap b v r (inner f)) as [o w]; [|done].
    destruct o as [x|e]; [right; by destruct H|]. destruct H as [H|[_ H]]; [by left|by right].
Defined.
End faulty.

(** ** A run with faults *)
Definition demo_binding : CredentialBinding.t := CredentialBinding.mk "github" "owner" ["ci.read"].
Definition demo_record : record :=
  mk demo_binding 0 SecretState.ready (Some "s0") 0 None None None.
Abbreviation shaky := (@faulty InMemory.t).
Definition demo_store : hub shaky :=
  Hub (Faulty {[InMemory._key demo_binding := demo_record]} 0) [].
(** The provider rotates to s1, then its answer is lost. *)
Definition demo_provider (l : list entry) (secret attempt : string) (m : Z) :
    result (option RefreshExchangeResult.t) :=
  match l with
  | [] => Ok (Some (RefreshExchangeResult.mk (Some (grant_of demo_binding (Access "t" 0 900))) (VStr "s1")))
  | _ => Err (Exn RefreshExchangeAmbiguous "timeout")
  end.
Definition demo_id (l : list entry) : result pyval :=
  Ok (VStr ("attempt-" ++ z_str (Z.of_nat (length l)))%string).
(** The first claim is doubted although it was applied. *)
Definition demo_faults (n : nat) : option fault :=
  if Nat.eqb n 1 then Some DoubtedApplied else None.
Definition demo_ops : list operation :=
  [Refresh demo_binding (VInt 300); Refresh demo_binding (VInt 300); Refresh demo_binding (VInt 300)].
Definition demo_run : hub shaky :=
  @perform_all shaky (faulty_store demo_faults) demo_binding demo_provider demo_id demo_ops demo_store.

Example demo_exchanges : map e_secret (log demo_run) = ["s0"; "s1"].
Proof. vm_compute. reflexivity. Qed.

Lemma exchanges_form_a_chain_witness :
  chain demo_binding (Some "s0") (log demo_run).
Proof.
  exact (@exchanges_form_a_chain shaky (faulty_store demo_faults) demo_binding (faulty_register demo_binding demo_faults) demo_provider demo_id demo_ops demo_record demo_store eq_refl eq_refl).
Defined.

(** One refresh, its first write doubted, commits and returns. *)
Definition demo_refresh : result Grant * hub shaky :=
  @Source.refresh_access (hub shaky) (@hub_store shaky (faulty_store demo_faults))
    (@exchange_logged shaky demo_provider) (@factory shaky demo_id) demo_binding demo_binding
    (VInt 300) demo_store.
Definition the_grant : Grant := grant_of demo_binding (Access "t" 0 900).

Lemma refresh_commits_before_return_witness :
  ∃ a rot, reg (CasRegister:=faulty_register demo_binding demo_faults) (SecretFacts.store demo_refresh.2) =
    Some (mk demo_binding 2 SecretState.ready (Some rot) 1 None (Some a) None).
Proof.
  destruct (@refresh_commits_before_return shaky (faulty_store demo_faults)
    demo_binding (faulty_register demo_binding demo_faults) demo_provider demo_id demo_binding (VInt 300)
    demo_record demo_store the_grant demo_refresh.2) as (a & sec & m & x & rot & _ & _ & _ & H).
  - reflexivity.
  - vm_compute. reflexivity.
  - exists a, rot. exact H.
Defined.

Lemma demo_record_ok : record_ok demo_record.
Proof. by split. Qed.

Definition demo_revoked : result record * hub shaky :=
  @Source.revoke (hub shaky) (@hub_store shaky (faulty_store demo_faults)) demo_binding demo_store.

Lemma revoked_for_good_witness :
  ∃ r, demo_revoked.1 = Ok r ∧ refresh_secret r = None ∧
    log (@perform_all shaky (faulty_store demo_faults) demo_binding demo_provider demo_id demo_ops
           demo_revoked.2) = [].
Proof.
  exists (Source.revoke_of demo_record). split; [vm_compute; reflexivity|].
  destruct (@revoked_for_good shaky (faulty_store demo_faults)
    demo_binding (faulty_register demo_binding demo_faults) demo_provider demo_id demo_record demo_store
    (Source.revoke_of demo_record) demo_revoked.2 demo_ops) as (_ & H1 & _ & H2).
  - reflexivity.
  - exact demo_record_ok.
  - vm_compute. reflexivity.
  - exact (conj H1 H2).
Defined.
