(* ===== verification/DurableStore.v ===== *)
(** agent_core/durable_secret_store.py and postgres_secret_backend.py: the
    durable store of refresh secrets and its PostgreSQL backend.

    [W] is the world of the backend; the PostgreSQL driver is a parameter. *)
From S2P Require Import Prelude PyString PyValue Sha256 Credentials Refresh SecretStore.
Import RefreshSecretRecord.

Definition SECRET_RECORD_SCHEMA_VERSION : string := "credential-refresh-secret-record-v1".

(** [isinstance(value, bool) or not isinstance(value, int) or value < 0] *)
Definition _nonnegative_int (value : pyval) (error : string) : result Z :=
  match value with
  | VInt z => if z <? 0 then raise ValueError error else Ok z
  | _ => raise ValueError error
  end.

Definition _binding_key (b : CredentialBinding.t) : result string :=
  canonical ← json_dumps (VDict
    [("provider_id", VStr (CredentialBinding.provider_id b));
     ("account_id", VStr (CredentialBinding.account_id b));
     ("capabilities", VList (map VStr (CredentialBinding.capabilities b)))]);
  Ok ("refresh-secret-v1:" ++ sha256_hex canonical)%string.

Definition _encode_record (r : record) : pydict :=
  [("schema_version", VStr SECRET_RECORD_SCHEMA_VERSION);
   ("provider_id", VStr (CredentialBinding.provider_id (binding r)));
   ("account_id", VStr (CredentialBinding.account_id (binding r)));
   ("capabilities", VList (map VStr (CredentialBinding.capabilities (binding r))));
   ("version", VInt (version r)); ("state", VStr (SecretState.name (state r)));
   ("refresh_secret", opt_str_val (refresh_secret r));
   ("refresh_generation", VInt (refresh_generation r));
   ("active_attempt_id", opt_str_val (active_attempt_id r));
   ("last_attempt_id", opt_str_val (last_attempt_id r)); ("failure", opt_str_val (failure r))].

(** [x is not None and not isinstance(x, str)] *)
Definition not_opt_str (v : pyval) : bool := negb (is_none v) && negb (is_str v).

Definition _decode_record (raw : pyval) (expected : CredentialBinding.t) : result record :=
  match raw with
  | VDict d =>
      let f k := get_or_none k d in
      reject_if (negb (py_eqb (f "schema_version") (VStr SECRET_RECORD_SCHEMA_VERSION)))
        ValueError "secret_store_record_schema_mismatch";;
      reject_if (negb (is_str (f "provider_id")) || negb (is_str (f "account_id"))) ValueError
        "secret_store_record_identity_invalid";;
      caps ← match f "capabilities" with
             | VList l => reject_if (negb (forallb is_str l)) ValueError
                            "secret_store_record_capabilities_invalid";; Ok l
             | _ => raise ValueError "secret_store_record_capabilities_invalid"
             end;
      b ← CredentialBinding.make (f "provider_id") (f "account_id") (VTuple caps);
      reject_if (negb (bool_decide (b = expected))) ValueError
        "secret_store_record_binding_mismatch";;
      version ← _nonnegative_int (f "version") "secret_store_record_version_invalid";
      generation ← _nonnegative_int (f "refresh_generation") "secret_store_record_generation_invalid";
      reject_if (negb (is_str (f "state"))) ValueError "secret_store_record_state_invalid";;
      reject_if (not_opt_str (f "refresh_secret")) ValueError "secret_store_record_secret_invalid";;
      reject_if (not_opt_str (f "active_attempt_id")) ValueError
        "secret_store_record_active_attempt_invalid";;
      reject_if (not_opt_str (f "last_attempt_id")) ValueError
        "secret_store_record_last_attempt_invalid";;
      reject_if (not_opt_str (f "failure")) ValueError "secret_store_record_failure_invalid";;
      RefreshSecretRecord.make b (VInt version) (f "state") (f "refresh_secret") (VInt generation)
        (f "active_attempt_id") (f "last_attempt_id") (f "failure")
  | _ => raise ValueError "secret_store_record_object_required"
  end.

(** [DurableSecretBackend]: documents by key, [VNone] for an absent one. *)
Class DurableSecretBackend (W : Type) := {
  b_read : string → eff W pyval;
  b_compare_and_swap : string → Z → pydict → eff W pyval }.

Module Durable.
Section Durable.
Context {W : Type} `{!DurableSecretBackend W}.

(** What leaves the adapter instead of an exception that has no class of its own. *)
Definition backend_failed (e : exn) : exn :=
  if isinstance e DurableSecretBackendUnavailable then
    Exn SecretStoreError "secret_store_backend_unavailable"
  else if isinstance e KeyboardInterrupt then
    Exn KeyboardInterrupt "secret_store_backend_interrupted"
  else if isinstance e SystemExit then Exn SystemExit "secret_store_backend_interrupted"
  else Exn SecretStoreError "secret_store_backend_unavailable".

(** [_decode_record] under [except (TypeError, ValueError)] *)
Definition decode_or (raw : pyval) (b : CredentialBinding.t) (msg : string) : result record :=
  match _decode_record raw b with
  | Err e => if isinstance e TypeError || isinstance e ValueError
             then raise SecretStoreError msg else Err e
  | r => r
  end.

Definition read (b : CredentialBinding.t) : eff W (option record) :=
  key ← lift (_binding_key b);
  raw ← try_with (b_read key) (λ e, throw (backend_failed e));
  match raw with
  | VNone => lift (raise CredentialAuthBlocked "credential_secret_unconfigured")
  | _ => r ← lift (decode_or raw b "secret_store_record_invalid"); mret (Some r)
  end.

(** The checks on the record the backend reports back. *)
Definition read_back (raw : pyval) (b : CredentialBinding.t) (replacement : record) :
    result (option record) :=
  match raw with
  | VNone => raise SecretStoreError "secret_store_cas_readback_missing"
  | _ =>
      stored ← decode_or raw b "secret_store_cas_readback_invalid";
      reject_if (negb (bool_decide (stored = replacement))) SecretStoreError
        "secret_store_cas_readback_mismatch";;
      Ok (Some stored)
  end.

Definition compare_and_swap (b : CredentialBinding.t) (expected_version : Z) (replacement : record) :
    eff W (option record) :=
  expected ← lift (_nonnegative_int (VInt expected_version) "secret_store_expected_version_invalid");
  lift (reject_if (negb (bool_decide (binding replacement = b))) ValueError
    "secret_store_replacement_binding_mismatch");;
  lift (reject_if (negb (version replacement =? expected + 1)) ValueError
    "secret_store_replacement_version_invalid");;
  key ← lift (_binding_key b);
  raw ← try_with (b_compare_and_swap key expected (_encode_record replacement))
          (λ e, throw (if isinstance e DurableSecretBackendConflict then
                         Exn SecretStoreConflict "secret_store_version_conflict"
                       else if isinstance e DurableSecretBackendAmbiguousWrite then
                         Exn SecretStoreAmbiguousWrite "secret_store_write_ambiguous"
                       else backend_failed e));
  lift (read_back raw b replacement).
End Durable.
#[global] Instance store {W} `{!DurableSecretBackend W} : VersionedSecretStore W := {|
  read_record := read; SecretStore.compare_and_swap := compare_and_swap |}.
End Durable.

(** ** The PostgreSQL backend *)
Definition MAX_BIGINT : Z := 2 ^ 63 - 1.
Definition FIELDS : list string :=
  ["schema_version"; "provider_id"; "account_id"; "capabilities"; "version"; "state";
   "refresh_secret"; "refresh_generation"; "active_attempt_id"; "last_attempt_id"; "failure"].
Definition READ : string := "SELECT agent_credential_private.read_binding(%s)".
Definition CAS : string := "SELECT agent_credential_private.cas_binding(%s, %s, %s::jsonb)".

Definition bigint (v : pyval) : bool :=
  match v with VInt z => (0 <=? z) && (z <=? MAX_BIGINT) | _ => false end.
Definition text_fields : list string :=
  ["schema_version"; "provider_id"; "account_id"; "state"; "refresh_secret";
   "active_attempt_id"; "last_attempt_id"; "failure"].

Definition _strict_record (raw : pyval) (b : CredentialBinding.t) : result pydict :=
  match raw with
  | VDict d =>
      let f k := get_or_none k d in
      reject_if (negb (forallb (λ k, dict_has k d) FIELDS)
                 || negb (forallb (λ k, bool_decide (k ∈ FIELDS)) (keys d))) ValueError
        "record_invalid";;
      reject_if (negb (bigint (f "version")) || negb (bigint (f "refresh_generation"))) ValueError
        "record_invalid";;
      reject_if (existsb (λ k, not_opt_str (f k)) text_fields) ValueError "record_invalid";;
      reject_if (match f "capabilities" with VList l => negb (forallb is_str l) | _ => true end)
        ValueError "record_invalid";;
      r ← _decode_record raw b;
      let canonical := _encode_record r in
      reject_if (negb (py_eqb (VDict canonical) raw)) ValueError "record_invalid";;
      Ok canonical
  | _ => raise ValueError "record_invalid"
  end.

Module Postgres.
Inductive phase := validate | execute | readback | commit.
#[global] Instance phase_eq_dec : EqDecision phase.
Proof. solve_decision. Defined.

(** The psycopg connection of one operation.  [conflict_error e] says that the
    error carries SQLSTATE P0002 and the primary message of the private
    function ([error.sqlstate], [error.diag.message_primary]); rows are tuples. *)
Class Driver (W : Type) := {
  d_connect : Z → string → eff W unit;
  d_autocommit : eff W pyval;
  d_cursor : eff W unit;
  d_execute : string → list pyval → eff W unit;
  d_fetchone : eff W pyval;
  d_commit : eff W unit;
  d_rollback : eff W unit;
  d_close_cursor : eff W unit;
  d_close : eff W unit;
  conflict_error : exn → bool }.

(** [PostgresSecretBackend(connection_factory, binding, ...)] *)
Record config := Config {
  binding_ : CredentialBinding.t; key_ : string; connect_timeout : Z; options : string }.
Definition timeout_ok (v : pyval) (maximum : Z) : bool :=
  match v with VInt z => (1 <=? z) && (z <=? maximum) | _ => false end.
Definition int_of (v : pyval) : Z := match v with VInt z => z | _ => 0 end.
Definition make (b : CredentialBinding.t) (connect_timeout_seconds statement_timeout_ms
    lock_timeout_ms : pyval) : result config :=
  reject_if (negb (timeout_ok connect_timeout_seconds 30)
             || negb (timeout_ok statement_timeout_ms 30000)
             || negb (timeout_ok lock_timeout_ms 30000)) ValueError
    "postgres_secret_timeout_invalid";;
  let c := int_of connect_timeout_seconds in
  let s := int_of statement_timeout_ms in
  let l := int_of lock_timeout_ms in
  reject_if ((c <? 2) || (s <? l)) ValueError "postgres_secret_timeout_invalid";;
  key ← _binding_key b;
  Ok (Config b key c ("-c statement_timeout=" ++ z_str s ++ " -c lock_timeout=" ++ z_str l
                      ++ " -c idle_in_transaction_session_timeout=" ++ z_str s)%string).

(** The local variables of [_operate] and the world. *)
Record op (W : Type) := Op {
  at_phase : phase; submitted : bool; committed : bool; connected : bool; cursored : bool;
  db : W }.
Arguments Op {W}. Arguments at_phase {W}. Arguments submitted {W}. Arguments committed {W}.
Arguments connected {W}. Arguments cursored {W}. Arguments db {W}.

Section Operate.
Context {W : Type} `{!Driver W} (c : config).
Abbreviation E := (eff (op W)).

Definition call {A} (m : eff W A) : E A := λ o,
  let '(r, w) := m (db o) in
  (r, Op (at_phase o) (submitted o) (committed o) (connected o) (cursored o) w).
Definition enter (p : phase) : E unit :=
  modify (λ o, Op p (submitted o) (committed o) (connected o) (cursored o) (db o)).
Definition submit (b : bool) : E unit :=
  modify (λ o, Op (at_phase o) b (committed o) (connected o) (cursored o) (db o)).
Definition set_connected : E unit :=
  modify (λ o, Op (at_phase o) (submitted o) (committed o) true (cursored o) (db o)).
Definition set_cursored : E unit :=
  modify (λ o, Op (at_phase o) (submitted o) (committed o) (connected o) true (db o)).
Definition set_committed : E unit :=
  modify (λ o, Op (at_phase o) (submitted o) true (connected o) (cursored o) (db o)).

(** The write part of the validation: the payload to store. *)
Definition check_write (expected replacement : pyval) : result (option (Z * pydict)) :=
  match expected with
  | VInt v =>
      reject_if (negb ((0 <=? v) && (v <? MAX_BIGINT))) ValueError "version_invalid";;
      payload ← _strict_record replacement (binding_ c);
      reject_if (negb (py_eqb (get_or_none "version" payload) (VInt (v + 1)))) ValueError
        "version_invalid";;
      Ok (Some (v, payload))
  | _ => raise ValueError "version_invalid"
  end.

Definition single_row (row next : pyval) : result pyval :=
  match row with
  | VTuple [x] => reject_if (negb (is_none next)) ValueError "row_invalid";; Ok x
  | _ => raise ValueError "row_invalid"
  end.

(** The [try] block of [_operate]; the document stands for its JSON text in the
    parameters of the statement. *)
Definition operate_body (key expected replacement : pyval) (write : bool) : E pydict :=
  lift (reject_if (negb (py_eqb key (VStr (key_ c)))) ValueError "binding_invalid");;
  payload ← lift (if write then check_write expected replacement else Ok None);
  call (d_connect (connect_timeout c) (options c));;
  set_connected;;
  auto ← call d_autocommit;
  lift (reject_if (negb (is_false auto)) ValueError "transaction_required");;
  call d_cursor;;
  set_cursored;;
  enter execute;;
  submit write;;
  call (d_execute (if write then CAS else READ)
          (match payload with
           | Some (v, p) => [VStr (key_ c); VInt v; VDict p]
           | None => [VStr (key_ c)]
           end));;
  enter readback;;
  row ← call d_fetchone;
  next ← match row with VTuple [_] => call d_fetchone | _ => mret VNone end;
  doc ← lift (single_row row next);
  result ← lift (_strict_record doc (binding_ c));
  lift (reject_if (match payload with
                   | Some (_, p) => negb (py_eqb (VDict result) (VDict p))
                   | None => false
                   end) ValueError "readback_mismatch");;
  enter commit;;
  call d_commit;;
  set_committed;;
  mret result.

(** The [finally] clause: roll back what was not committed, close both
    resources, ignore every failure.  Returns whether the rollback succeeded. *)
Definition cleanup : E bool :=
  o ← get;
  if connected o then
    rolled_back ← (if committed o then mret false
                   else r ← attempt (call d_rollback); mret (is_ok r));
    (if cursored o then attempt (call d_close_cursor);; mret tt else mret tt);;
    attempt (call d_close);;
    mret rolled_back
  else mret false.

(** The exception that leaves [_operate]. *)
Definition classify (e : exn) (conflict rolled_back submitted : bool) : exn :=
  if submitted then
    if conflict && rolled_back
    then Exn DurableSecretBackendConflict "postgres_secret_version_conflict"
    else Exn DurableSecretBackendAmbiguousWrite "postgres_secret_write_ambiguous"
  else if isinstance e KeyboardInterrupt then Exn KeyboardInterrupt "postgres_secret_interrupted"
  else if isinstance e SystemExit then Exn SystemExit "postgres_secret_interrupted"
  else Exn DurableSecretBackendUnavailable "postgres_secret_unavailable".

Definition operate (key expected replacement : pyval) (write : bool) : E pydict :=
  r ← attempt (operate_body key expected replacement write);
  o ← get;
  rolled_back ← cleanup;
  match r with
  | Ok result => mret result
  | Err e =>
      throw (classify e (write && bool_decide (at_phase o = execute) && conflict_error e)
               rolled_back (submitted o))
  end.

Definition fresh (w : W) : op W := Op validate false false false false w.
Definition _operate (key expected replacement : pyval) (write : bool) : eff W pydict := λ w,
  let '(r, o) := operate key expected replacement write (fresh w) in (r, db o).

Definition read (key : string) : eff W pyval :=
  d ← _operate (VStr key) VNone VNone false; mret (VDict d).
Definition compare_and_swap (key : string) (expected : Z) (replacement : pydict) : eff W pyval :=
  d ← _operate (VStr key) (VInt expected) (VDict replacement) true; mret (VDict d).
#[global] Instance backend : DurableSecretBackend W := {|
  b_read := read; b_compare_and_swap := compare_and_swap |}.
End Operate.
End Postgres.
