(* ===== verification/DurableFacts.v ===== *)
(** The durable store keeps the contract of the versioned source when its
    backend is an atomic compare-and-swap on documents, and the PostgreSQL
    backend is one when its driver has transactional semantics. *)
From S2P Require Import Prelude PyString PyValue Credentials Refresh RefreshFacts SecretStore.
From S2P Require Import SecretFacts DurableStore.
Import RefreshSecretRecord.

(** ** Records survive encoding *)
Lemma identity_again i : blank i = false → strip i = i →
  CredentialBinding.identity (VStr i) = Ok i.
Proof.
  intros E1 E2. unfold CredentialBinding.identity. by rewrite E1, E2, String.eqb_refl.
Qed.
Lemma binding_again b : binding_ok b →
  CredentialBinding.make (VStr (CredentialBinding.provider_id b))
    (VStr (CredentialBinding.account_id b)) (VTuple (map VStr (CredentialBinding.capabilities b)))
  = Ok b.
Proof.
  intros (x & y & z & H). unfold CredentialBinding.make in H. inv_result.
  apply identity_ok in Ha as [E1 E2], Ha0 as [E3 E4].
  unfold CredentialBinding.make. cbn [CredentialBinding.provider_id CredentialBinding.account_id
    CredentialBinding.capabilities]. rewrite !identity_again by done. eff_eval.
  unfold str_tuple in *. pose proof (capabilities_again _ _ Ha1) as E. unfold str_tuple in E.
  by rewrite E.
Qed.

Lemma not_opt_str_opt o : not_opt_str (opt_str_val o) = false.
Proof. by destruct o. Qed.
Lemma forallb_is_str l : forallb is_str (map VStr l) = true.
Proof. induction l; done. Qed.

Lemma decode_encode r :
  record_ok r → binding_ok (binding r) →
  _decode_record (VDict (_encode_record r)) (binding r) = Ok r.
Proof.
  intros Hr Hb. unfold _decode_record, _encode_record, get_or_none.
  cbn -[CredentialBinding.make RefreshSecretRecord.make opt_str_val forallb map
        not_opt_str py_eqb bool_decide].
  rewrite forallb_is_str. cbn -[CredentialBinding.make RefreshSecretRecord.make opt_str_val map
    not_opt_str bool_decide].
  rewrite binding_again by done. cbn -[RefreshSecretRecord.make opt_str_val not_opt_str bool_decide].
  rewrite bool_decide_eq_true_2 by done.
  replace (version r <? 0) with false by (destruct Hr; lia).
  replace (refresh_generation r <? 0) with false by (destruct Hr; lia).
  rewrite !not_opt_str_opt. exact (checked_ok r Hr).
Qed.


(** ** The durable store over a backend *)

(** [row w] is the record the backend durably holds for the binding [b]; reads
    return a document of it, writes are atomic compare-and-swaps that may be
    doubted unless they are conflicts. *)
Class BackendRegister (W : Type) `{!DurableSecretBackend W} (b : CredentialBinding.t) := {
  row : W → option record;
  row_read w key : _binding_key b = Ok key → let '(o, w') := b_read key w in
    row w' = row w ∧ ∀ v, o = Ok v → v = VNone ∨ ∃ r, row w = Some r ∧ _decode_record v b = Ok r;
  row_cas w key v r : _binding_key b = Ok key → binding r = b → record_ok r →
    let '(o, w') := b_compare_and_swap key v (_encode_record r) w in
    match o with
    | Ok _ => swapped row v r w w'
    | Err e => row w' = row w ∨
               (isinstance e DurableSecretBackendConflict = false ∧ swapped row v r w w')
    end }.

(** No class of the store boundary is the conflict class by accident. *)
Lemma backend_failed_no_conflict e :
  isinstance (Durable.backend_failed e) SecretStoreConflict = false.
Proof.
  unfold Durable.backend_failed.
  by destruct (isinstance e DurableSecretBackendUnavailable), (isinstance e KeyboardInterrupt),
    (isinstance e SystemExit).
Qed.

(** Decoding raises only [ValueError] and [TypeError]. *)
Abbreviation value_or_type := (raises (λ c, bool_decide (c = ValueError ∨ c = TypeError))).
Lemma capabilities_raises v : value_or_type (_capabilities v).
Proof.
  unfold _capabilities. destruct v; cbn [py_iter]; try (by apply (raises_raise _ ValueError));
    raises_tac.
Qed.
Lemma identity_raises v : value_or_type (CredentialBinding.identity v).
Proof. unfold CredentialBinding.identity. raises_tac. Qed.
Lemma seconds_raises v m : value_or_type (_seconds v m).
Proof. unfold _seconds. raises_tac. Qed.
Lemma nonnegative_raises v m : value_or_type (_nonnegative_int v m).
Proof. unfold _nonnegative_int. raises_tac. Qed.
Lemma attempt_raises v m : value_or_type (_safe_attempt_id v m).
Proof. unfold _safe_attempt_id. raises_tac. Qed.
Lemma state_raises v : value_or_type (SecretState.of_val v).
Proof. unfold SecretState.of_val. raises_tac. Qed.
Lemma in_set_raises v l : value_or_type (in_str_set v l).
Proof. unfold in_str_set. raises_tac. Qed.
#[local] Hint Resolve capabilities_raises identity_raises seconds_raises nonnegative_raises
  attempt_raises state_raises in_set_raises : raises.
Lemma record_raises b v s x g a l f : value_or_type (RefreshSecretRecord.make b v s x g a l f).
Proof.
  unfold RefreshSecretRecord.make, check_secret, check_active, check_last, check_failure.
  raises_tac.
Qed.
Lemma binding_raises x y z : value_or_type (CredentialBinding.make x y z).
Proof. unfold CredentialBinding.make. raises_tac. Qed.
#[local] Hint Resolve record_raises binding_raises : raises.
Lemma decode_raises raw b : value_or_type (_decode_record raw b).
Proof. unfold _decode_record. raises_tac. Qed.

Section durable.
Context {W : Type} `{!DurableSecretBackend W} (b : CredentialBinding.t) `{!BackendRegister W b}.

Lemma durable_read_law w :
  let '(o, w') := Durable.read b w in
  row w' = row w ∧ ∀ r, o = Ok (Some r) → row w = Some r.
Proof.
  unfold Durable.read. eff_eval. destruct (_binding_key b) as [key|e] eqn:Ek; [|done].
  pose proof (row_read w key Ek) as H. destruct (b_read key w) as [[v|e] w'];
    destruct H as [Hr Hv]; [|by split]. destruct (Hv v eq_refl) as [-> | (r & Hrow & Hdec)]; [done|].
  destruct v; try done; unfold Durable.decode_or; rewrite Hdec;
    (split; [done|]; by intros r' [= <-]).
Qed.

(** Exceptions after the backend was asked to write. *)
Definition late (r : record) (o : result (option record)) : Prop :=
  match o with
  | Ok x => x = Some r
  | Err e => isinstance e SecretStoreConflict = false
  end.
Lemma readback_late r raw : late r (Durable.read_back raw b r).
Proof.
  assert (late r (stored ← Durable.decode_or raw b "secret_store_cas_readback_invalid";
      reject_if (negb (bool_decide (stored = r))) SecretStoreError
        "secret_store_cas_readback_mismatch";; Ok (Some stored))) as H.
  { unfold Durable.decode_or. destruct (_decode_record raw b) as [r'|e] eqn:Ed.
    - cbn. destruct (bool_decide (r' = r)) eqn:Er; cbn; [|done].
      by apply bool_decide_eq_true in Er as ->.
    - pose proof (decode_raises raw b e Ed) as Hc. apply bool_decide_eq_true in Hc.
      destruct e as [c m]. cbn in Hc. by destruct Hc as [-> | ->]. }
  by destruct raw.
Qed.

Lemma durable_cas_law v r w : record_ok r →
  let '(o, w') := Durable.compare_and_swap b v r w in
  match o with
  | Ok x => x = Some r ∧ swapped row v r w w'
  | Err e => row w' = row w ∨ (isinstance e SecretStoreConflict = false ∧ swapped row v r w w')
  end.
Proof.
  intros Hr. unfold Durable.compare_and_swap. rewrite bind_run. unfold lift at 1.
  destruct (_nonnegative_int _ _) as [v'|e] eqn:Ev; [|by left].
  assert (v' = v) as -> by (cbn in Ev; destruct (v <? 0); [done|by injection Ev]).
  rewrite bind_run. unfold lift at 1.
  destruct (bool_decide (binding r = b)) eqn:Eb; cbn [negb reject_if]; [|by left].
  apply bool_decide_eq_true in Eb. rewrite bind_run. unfold lift at 1.
  destruct (version r =? v + 1) eqn:Evr; cbn [negb reject_if]; [|by left].
  rewrite bind_run. unfold lift at 1.
  destruct (_binding_key b) as [key|e] eqn:Ek; [|by left].
  rewrite bind_run. unfold try_with, throw.
  pose proof (row_cas w key v r Ek Eb Hr) as H.
  destruct (b_compare_and_swap key v (_encode_record r) w) as [[x|e] w'].
  - pose proof (readback_late r x) as Hl. unfold lift.
    destruct (Durable.read_back x b r) as [y|e]; [done|by right].
  - destruct H as [H|[Hc H]]; [by left|]. right. rewrite Hc. split; [|done].
    destruct (isinstance e DurableSecretBackendAmbiguousWrite); [done|apply backend_failed_no_conflict].
Qed.

#[export] Instance durable_register : CasRegister W b := {|
  reg := row; read_law := durable_read_law; cas_law := durable_cas_law |}.
End durable.
