(* ===== verification/PostgresFacts.v ===== *)
(** The PostgreSQL backend is an atomic, possibly doubtful compare-and-swap when
    the driver's connection is one transaction. *)
From S2P Require Import Prelude PyString PyValue Credentials Refresh RefreshFacts SecretStore.
From S2P Require Import SecretFacts DurableStore DurableFacts.
Import RefreshSecretRecord Postgres.

(** ** Every constructed record is valid *)
Lemma make_ok b v s x g a l f r : RefreshSecretRecord.make b v s x g a l f = Ok r →
  record_ok r ∧ binding r = b.
Proof.
  unfold RefreshSecretRecord.make. intros H. inv_result.
  apply seconds_Ok in Ha as [_ ?], Ha0 as [_ ?].
  repeat match goal with
  | H : check_secret _ _ = _ |- _ => unfold check_secret in H; rename H into Hsec
  | H : check_active _ _ = _ |- _ => unfold check_active in H; rename H into Hact
  | H : check_last _ = _ |- _ => unfold check_last in H; rename H into Hlast
  | H : check_failure _ = _ |- _ => rename H into Hfail
  end.
  split; [|done]. split; cbn; [done|done|..].
  - destruct a2, x as [| | | |x| | |]; cbn in *; inv_result; by try split.
  - destruct a2, a as [| | | |a| | |]; cbn in *; inv_result; try done;
      by destruct (attempt_id_re a).
  - intros y E. destruct l as [| | | |l| | |]; cbn in *; try done. injection E as <-.
    by destruct (attempt_id_re l).
  - intros y E. destruct f as [| | | |f| | |]; cbn in E; try done.
    by apply (proj1 (check_failure_iff (Some f)) Hfail).
Qed.
Lemma decode_ok raw b r : _decode_record raw b = Ok r → record_ok r ∧ binding r = b.
Proof.
  unfold _decode_record. destruct raw; try done. intros H. inv_result.
  apply make_ok in H as [? E]. split; congruence.
Qed.

Lemma strict_record_ok raw b d : binding_ok b → _strict_record raw b = Ok d →
  ∃ r, _decode_record raw b = Ok r ∧ d = _encode_record r ∧ _decode_record (VDict d) b = Ok r.
Proof.
  intros Hb. unfold _strict_record. destruct raw as [| | | | | | |e]; try done. intros H. inv_result.
  match goal with H : _decode_record _ _ = Ok ?x |- _ => exists x; split; [done|split; [done|]];
    apply decode_ok in H as [? <-] end.
  by apply decode_encode.
Qed.

(** ** A transactional driver *)

(** [row_of w] is the committed record of the binding, [pending w] the record an
    uncommitted statement of the open connection wrote. *)
Class TxDriver (W : Type) `{!Driver W} (b : CredentialBinding.t) (key : string) := {
  row_of : W → option record;
  pending : W → option record;
  tx_connect t o w : row_of (d_connect t o w).2 = row_of w ∧ pending (d_connect t o w).2 = None;
  tx_autocommit w : row_of (d_autocommit w).2 = row_of w ∧ pending (d_autocommit w).2 = pending w;
  tx_cursor w : row_of (d_cursor w).2 = row_of w ∧ pending (d_cursor w).2 = pending w;
  tx_close_cursor w : row_of (d_close_cursor w).2 = row_of w;
  tx_close w : row_of (d_close w).2 = row_of w;
  tx_rollback w : row_of (d_rollback w).2 = row_of w;
  (* statements take effect only when committed *)
  tx_execute s p w : row_of (d_execute s p w).2 = row_of w;
  tx_read w : pending (d_execute READ [VStr key] w).2 = pending w;
  tx_cas v r w : binding r = b → record_ok r → version r = v + 1 →
    (d_execute CAS [VStr key; VInt v; VDict (_encode_record r)] w).1 = Ok tt →
    pending (d_execute CAS [VStr key; VInt v; VDict (_encode_record r)] w).2 = Some r ∧
    ∃ cur, row_of w = Some cur ∧ version cur = v;
  (* a row fetched without a pending write is the committed record *)
  tx_fetch w : row_of (d_fetchone w).2 = row_of w ∧ pending (d_fetchone w).2 = pending w ∧
    ∀ x r, (d_fetchone w).1 = Ok (VTuple [x]) → pending w = None → _decode_record x b = Ok r →
           row_of w = Some r;
  (* a commit that fails may have committed *)
  tx_commit w :
    match (d_commit w).1 with
    | Ok _ => row_of (d_commit w).2 = match pending w with Some r => Some r | None => row_of w end
    | Err _ => row_of (d_commit w).2 = row_of w ∨
               ∃ r, pending w = Some r ∧ row_of (d_commit w).2 = Some r
    end }.

Section postgres.
Context {W : Type} `{!Driver W} (c : config) `{!TxDriver W (binding_ c) (key_ c)}.
Context (Hbind : binding_ok (binding_ c)).
Abbreviation row o := (row_of (b:=binding_ c) (key:=key_ c) (db o)).
Abbreviation pend o := (pending (b:=binding_ c) (key:=key_ c) (db o)).
Implicit Types o : op W.

Lemma wp_call {A} (m : eff W A) (Q : result A → op W → Prop) o :
  (∀ w', w' = (m (db o)).2 →
     Q (m (db o)).1 (Op (at_phase o) (submitted o) (committed o) (connected o) (cursored o) w')) →
  wp (call m) Q o.
Proof. unfold wp, call. destruct (m (db o)) as [r w]. intros H. by apply (H w). Qed.

Lemma preserves_call {A} (m : eff W A) (I : W → Prop) :
  (∀ w, I w → I (m w).2) → preserves (λ o, I (db o)) (call m).
Proof. intros H o Ho. unfold call. specialize (H (db o) Ho). by destruct (m (db o)). Qed.

Lemma preserves_cleanup x : preserves (λ o, row o = x) cleanup.
Proof.
  unfold cleanup. apply preserves_bind; [by intros o|]. intros o.
  assert (preserves (λ o, row o = x) (call d_rollback)) as Hr
    by (apply (preserves_call _ (λ w, row_of w = x)); intros w <-; apply tx_rollback).
  assert (preserves (λ o, row o = x) (call d_close_cursor)) as Hc
    by (apply (preserves_call _ (λ w, row_of w = x)); intros w <-; apply tx_close_cursor).
  assert (preserves (λ o, row o = x) (call d_close)) as Hd
    by (apply (preserves_call _ (λ w, row_of w = x)); intros w <-; apply tx_close).
  destruct (connected o); [|apply preserves_ret].
  apply preserves_bind; [destruct (committed o)|intros rb].
  - apply preserves_ret.
  - apply preserves_bind; [by apply preserves_attempt|intros r; apply preserves_ret].
  - apply preserves_bind; [destruct (cursored o)|intros _].
    + apply preserves_bind; [by apply preserves_attempt|intros r; apply preserves_ret].
    + apply preserves_ret.
    + apply preserves_bind; [by apply preserves_attempt|intros r; apply preserves_ret].
Qed.

(** What the [try] block of a write leaves behind. *)
Definition write_post (v : Z) (r : record) (w0 : W) (o : result pydict) (s : op W) : Prop :=
  match o with
  | Ok _ => swapped (row_of (b:=binding_ c) (key:=key_ c)) v r w0 (db s)
  | Err _ => row_of (db s) = row_of (b:=binding_ c) (key:=key_ c) w0 ∨
      (at_phase s ≠ execute ∧ submitted s = true ∧
       swapped (row_of (b:=binding_ c) (key:=key_ c)) v r w0 (db s))
  end.

(** Steps that leave the committed record alone. *)
Lemma wp_frame {A B} (m : eff W A) (f : A → eff (op W) B) o x y
    (Q : result B → op W → Prop) :
  (∀ w, row_of (b:=binding_ c) (key:=key_ c) (m w).2 = row_of (b:=binding_ c) (key:=key_ c) w ∧
        pending (b:=binding_ c) (key:=key_ c) (m w).2 = y (pending (b:=binding_ c) (key:=key_ c) w)) →
  row o = x →
  (∀ e s, row s = x → Q (Err e) s) →
  (∀ a s, row s = x → pend s = y (pend o) → at_phase s = at_phase o → submitted s = submitted o →
     wp (f a) Q s) →
  wp (call m ≫= f) Q o.
Proof.
  intros Hm Hx He Hf. apply wp_bind, wp_call. intros w' ->. destruct (Hm (db o)) as [H1 H2].
  destruct (m (db o)) as [[a|e] w]; cbn in *; [apply Hf|apply He]; cbn; congruence.
Qed.

(** The part of the [try] block up to the submission of the statement: nothing
    was written. *)
Lemma wp_until_execute {B} (k : eff (op W) B) x (Q : result B → op W → Prop) o :
  row o = x → (∀ e s, row s = x → at_phase s = at_phase o → submitted s = submitted o → Q (Err e) s) →
  (∀ s, row s = x → pend s = None → at_phase s = at_phase o → submitted s = submitted o → wp k Q s) →
  wp (call (d_connect (connect_timeout c) (options c));;
      set_connected;;
      auto ← call d_autocommit;
      lift (reject_if (negb (is_false auto)) ValueError "transaction_required");;
      call d_cursor;;
      set_cursored;;
      k) Q o.
Proof.
  intros Hx He Hk. apply wp_bind, wp_call. intros w1 ->.
  destruct (tx_connect (b:=binding_ c) (key:=key_ c) (connect_timeout c) (options c) (db o)) as [R1 P1].
  destruct (d_connect _ _ (db o)) as [[[]|e] w1]; cbn in *; [|apply He; cbn; congruence].
  apply wp_bind, wp_modify, wp_bind, wp_call. intros w2 ->. cbn [db].
  destruct (tx_autocommit (b:=binding_ c) (key:=key_ c) w1) as [R2 P2].
  destruct (d_autocommit w1) as [[a|e] w2]; cbn in *; [|apply He; cbn; congruence].
  apply wp_bind, wp_lift. destruct (is_false a); cbn; [|apply He; cbn; congruence].
  apply wp_bind, wp_call. intros w3 ->. cbn [db].
  destruct (tx_cursor (b:=binding_ c) (key:=key_ c) w2) as [R3 P3].
  destruct (d_cursor w2) as [[[]|e] w3]; cbn in *; [|apply He; cbn; congruence].
  apply wp_bind, wp_modify. apply Hk; cbn; congruence.
Qed.

(** Fetching the only row of the result. *)
Lemma wp_fetch_row {B} (k : pyval → eff (op W) B) x y (Q : result B → op W → Prop) o :
  row o = x → pend o = y → (∀ e s, row s = x → at_phase s = at_phase o → submitted s = submitted o → Q (Err e) s) →
  (∀ v s, row s = x → pend s = y → at_phase s = at_phase o → submitted s = submitted o →
     (y = None → ∀ r, _decode_record v (binding_ c) = Ok r → x = Some r) → wp (k v) Q s) →
  wp (row ← call d_fetchone;
      next ← match row with VTuple [_] => call d_fetchone | _ => mret VNone end;
      doc ← lift (single_row row next);
      k doc) Q o.
Proof.
  intros Hx Hy He Hk. apply wp_bind, wp_call. intros w1 ->.
  destruct (tx_fetch (b:=binding_ c) (key:=key_ c) (db o)) as (R1 & P1 & D1).
  destruct (d_fetchone (db o)) as [[v|e] w1]; cbn in *; [|apply He; cbn; congruence].
  assert (∀ next s, row s = x → pend s = y → at_phase s = at_phase o → submitted s = submitted o →
    wp (doc ← lift (single_row v next); k doc) Q s) as Hrest.
  { intros next s HR HP H1 H2. apply wp_bind, wp_lift.
    destruct v as [| | | | | |[|z [|? ?]]|]; cbn; try by apply He.
    destruct (is_none next); cbn; [|by apply He]. apply Hk; try done.
    intros Hn r Hd. rewrite <- Hx. apply (D1 z r); [done|congruence|done]. }
  destruct v as [| | | | | |[|z [|? ?]]|]; try (apply wp_bind, wp_ret, Hrest; cbn; congruence).
  apply wp_bind, wp_call. intros w2 ->. cbn [db].
  destruct (tx_fetch (b:=binding_ c) (key:=key_ c) w1) as (R2 & P2 & _).
  destruct (d_fetchone w1) as [[n|e] w2]; cbn in *; [apply Hrest|apply He]; cbn; congruence.
Qed.

Lemma write_body v r w0 :
  binding r = binding_ c → record_ok r →
  wp (operate_body c (VStr (key_ c)) (VInt v) (VDict (_encode_record r)) true)
    (write_post v r w0) (fresh w0).
Proof.
  intros Hb Hr. unfold operate_body. apply wp_bind, wp_lift.
  destruct (reject_if _ _ _) as [[]|]; [|by left]. apply wp_bind, wp_lift.
  destruct (check_write c _ _) as [payload|e] eqn:Ep; [|by left].
  assert (payload = Some (v, _encode_record r) ∧ version r = v + 1) as [-> Hv].
  { unfold check_write in Ep. inv_result.
    apply strict_record_ok in Ha0 as (r' & Hd & -> & _); [|done].
    rewrite <- Hb, decode_encode in Hd by (done || by rewrite Hb). injection Hd as <-.
    split; [done|]. cbn in *. lia. }
  clear Ep.
  apply (wp_until_execute _ (row_of w0)); [done|by left|]. intros s1 R1 P1 F1 S1.
  apply wp_bind, wp_modify. apply wp_bind, wp_modify. apply wp_bind, wp_call. intros w2 ->. cbn [db].
  pose proof (tx_execute (b:=binding_ c) (key:=key_ c) CAS
    [VStr (key_ c); VInt v; VDict (_encode_record r)] (db s1)) as R2.
  pose proof (tx_cas (b:=binding_ c) (key:=key_ c) v r (db s1) Hb Hr Hv) as C2.
  destruct (d_execute CAS _ (db s1)) as [[[]|e] w2]; cbn in *; [|left; cbn; congruence].
  destruct (C2 eq_refl) as (P2 & cur & Hcur & Hver).
  apply wp_bind, wp_modify.
  apply (wp_fetch_row _ (row_of w0) (Some r)); [cbn; congruence|done|by left|].
  intros x s3 R3 P3 F3 S3 _. apply wp_bind, wp_lift.
  destruct (_strict_record x _) as [d|e]; [|by left].
  apply wp_bind, wp_lift. destruct (reject_if _ _ _) as [[]|]; [|by left].
  apply wp_bind, wp_modify, wp_bind, wp_call. intros w4 ->. cbn [db].
  pose proof (tx_commit (b:=binding_ c) (key:=key_ c) (db s3)) as C4. rewrite P3 in C4.
  assert (∀ w, row_of (b:=binding_ c) (key:=key_ c) w = Some r →
    swapped (row_of (b:=binding_ c) (key:=key_ c)) v r w0 w) as Hsw.
  { intros w Hw. split; [exists cur; split; [congruence|done]|done]. }
  destruct (d_commit (db s3)) as [[[]|e] w4]; cbn in *.
  - apply wp_bind, wp_modify, wp_ret. cbn. auto.
  - destruct C4 as [C4|(r' & [= <-] & C4)]; [left; cbn; congruence|].
    right. cbn in *. split; [done|]. split; [congruence|]. auto.
Qed.

Lemma read_body w0 :
  wp (operate_body c (VStr (key_ c)) VNone VNone false)
    (λ (x : result pydict) (s : op W), row s = row_of (b:=binding_ c) (key:=key_ c) w0 ∧
       ∀ d, x = Ok d → ∃ r, row_of (b:=binding_ c) (key:=key_ c) w0 = Some r ∧
              _decode_record (VDict d) (binding_ c) = Ok r) (fresh w0).
Proof.
  unfold operate_body. apply wp_bind, wp_lift.
  destruct (reject_if _ _ _) as [[]|]; [|done]. apply wp_bind, wp_lift. cbn [mret].
  apply (wp_until_execute _ (row_of w0)); [done|by split|]. intros s1 R1 P1 F1 S1.
  apply wp_bind, wp_modify. apply wp_bind, wp_modify. apply wp_bind, wp_call. intros w2 ->. cbn [db].
  pose proof (tx_execute (b:=binding_ c) (key:=key_ c) READ [VStr (key_ c)] (db s1)) as R2.
  pose proof (tx_read (b:=binding_ c) (key:=key_ c) (db s1)) as P2.
  destruct (d_execute READ _ (db s1)) as [[[]|e] w2]; cbn in *; [|split; [cbn; congruence|done]].
  apply wp_bind, wp_modify.
  apply (wp_fetch_row _ (row_of w0) None); [cbn; congruence|cbn; congruence|by split|].
  intros x s3 R3 P3 F3 S3 Hx. specialize (Hx eq_refl). apply wp_bind, wp_lift.
  destruct (_strict_record x _) as [d|e] eqn:Ed; [|by split].
  apply strict_record_ok in Ed as (r & Hd & -> & Hd'); [|done].
  apply wp_bind, wp_lift. cbn. apply wp_bind, wp_modify, wp_bind, wp_call. intros w4 ->. cbn [db].
  pose proof (tx_commit (b:=binding_ c) (key:=key_ c) (db s3)) as C4. rewrite P3 in C4.
  destruct (d_commit (db s3)) as [[[]|e] w4]; cbn in *.
  - apply wp_bind, wp_modify, wp_ret. split; [cbn; congruence|]. intros d [= <-]. eauto.
  - split; [|done]. destruct C4 as [C4|(? & ? & _)]; [cbn; congruence|done].
Qed.

Definition ambiguous_write : exn :=
  Exn DurableSecretBackendAmbiguousWrite "postgres_secret_write_ambiguous".
(** The exceptions of a write that is known not to have happened. *)
Definition not_written : list exn :=
  [Exn DurableSecretBackendConflict "postgres_secret_version_conflict";
   Exn DurableSecretBackendUnavailable "postgres_secret_unavailable";
   Exn KeyboardInterrupt "postgres_secret_interrupted";
   Exn SystemExit "postgres_secret_interrupted"].

Lemma write_outcome v r w0 :
  binding r = binding_ c → record_ok r →
  let '(o, w) := Postgres.compare_and_swap c (key_ c) v (_encode_record r) w0 in
  match o with
  | Ok _ => swapped (row_of (b:=binding_ c) (key:=key_ c)) v r w0 w
  | Err e =>
      (e ∈ not_written ∧ row_of (b:=binding_ c) (key:=key_ c) w = row_of w0) ∨
      (e = ambiguous_write ∧
       (row_of (b:=binding_ c) (key:=key_ c) w = row_of w0 ∨
        swapped (row_of (b:=binding_ c) (key:=key_ c)) v r w0 w))
  end.
Proof.
  intros Hb Hr. unfold Postgres.compare_and_swap. rewrite bind_run. unfold _operate, operate.
  pose proof (write_body v r w0 Hb Hr) as H. unfold wp in H. rewrite bind_run. unfold attempt.
  destruct (operate_body _ _ _ _ _ (fresh w0)) as [x o]. rewrite bind_run. unfold get. rewrite bind_run.
  pose proof (preserves_cleanup (row o) o eq_refl) as Hc.
  destruct (cleanup o) as [[rb|e] o2] eqn:Ecl; cbn [snd] in Hc.
  2:{ exfalso. unfold cleanup in Ecl. revert Ecl. eff_eval.
      destruct (connected o); [|done]. destruct (committed o), (cursored o);
      repeat match goal with |- context [call ?m ?s] => destruct (call m s) as [? ?] end;
      try done; destruct (cursored _); repeat match goal with |- context [call ?m ?s] => destruct (call m s) as [? ?] end; done. }
  destruct x as [d|e]; unfold mret, eff_ret, throw.
  - destruct H as (H1 & H2 & H3). split; [done|]. split; [done|congruence].
  - unfold classify. destruct H as [H|(Hp & Hs & H)].
    + assert (row_of (b:=binding_ c) (key:=key_ c) (db o2) = row_of w0) as E by congruence.
      destruct (submitted o); [destruct (_ && rb)|destruct (isinstance e KeyboardInterrupt);
        [|destruct (isinstance e SystemExit)]];
        try (left; split; [unfold not_written; set_solver|done]).
      right. auto.
    + rewrite Hs, (bool_decide_eq_false_2 (at_phase o = execute)) by done.
      rewrite andb_false_r. cbn. right. split; [done|]. right.
      destruct H as (H1 & H2 & H3). split; [done|]. split; [done|congruence].
Qed.

Lemma read_outcome w0 :
  let '(o, w) := Postgres.read c (key_ c) w0 in
  row_of (b:=binding_ c) (key:=key_ c) w = row_of w0 ∧
  ∀ v, o = Ok v → ∃ r, row_of (b:=binding_ c) (key:=key_ c) w0 = Some r ∧
                       _decode_record v (binding_ c) = Ok r.
Proof.
  unfold Postgres.read. rewrite bind_run. unfold _operate, operate. rewrite bind_run. unfold attempt.
  pose proof (read_body w0) as H. unfold wp in H.
  destruct (operate_body _ _ _ _ _ (fresh w0)) as [x o]. rewrite bind_run. unfold get. rewrite bind_run.
  pose proof (preserves_cleanup (row o) o eq_refl) as Hc. destruct H as [H1 H2].
  destruct (cleanup o) as [[rb|e] o2]; cbn [snd] in Hc; [|split; [cbn; congruence|done]].
  destruct x as [d|e]; unfold mret, eff_ret, throw; (split; [congruence|]).
  - intros v [= <-]. by apply H2.
  - done.
Qed.

(** The backend of a configuration built by [make] is a register. *)
#[export, refine] Instance postgres_register (Hkey : _binding_key (binding_ c) = Ok (key_ c)) :
    @BackendRegister W (Postgres.backend c) (binding_ c) := {|
  DurableFacts.row := row_of (b:=binding_ c) (key:=key_ c) |}.
Proof.
  - intros w key Hk. assert (key = key_ c) as -> by congruence. pose proof (read_outcome w) as H.
    cbn. destruct (Postgres.read c (key_ c) w) as [o w']. destruct H as [H1 H2].
    split; [done|]. intros v Hv. right. auto.
  - intros w key v r Hk Hb Hr. assert (key = key_ c) as -> by congruence.
    pose proof (write_outcome v r w Hb Hr) as H. cbn.
    destruct (Postgres.compare_and_swap c (key_ c) v (_encode_record r) w) as [[x|e] w']; [done|].
    destruct H as [[_ H]|[-> [H|H]]]; [by left|by left|by right].
Defined.
End postgres.

(** A write of the PostgreSQL backend that returns has committed exactly the
    replacement over the expected version; when it raises, the record is
    unchanged, except under the one exception that says the outcome is unknown,
    where it is unchanged or committed.  No driver error, statement or commit
    failure, or cleanup failure leads to any other outcome. *)
Theorem postgres_write_outcome {W} `{!Driver W} (c : config) `{!TxDriver W (binding_ c) (key_ c)} v r w0 :
  binding_ok (binding_ c) → binding r = binding_ c → record_ok r →
  let '(o, w) := Postgres.compare_and_swap c (key_ c) v (_encode_record r) w0 in
  let row := row_of (b:=binding_ c) (key:=key_ c) in
  match o with
  | Ok _ => swapped row v r w0 w
  | Err e => (e ∈ not_written ∧ row w = row w0) ∨
             (e = ambiguous_write ∧ (row w = row w0 ∨ swapped row v r w0 w))
  end.
Proof. intros Hb Hrb Hr. exact (write_outcome c Hb v r w0 Hrb Hr). Qed.

(** C5: the durable store over the PostgreSQL backend keeps the contract the
    versioned source relies on: reads return the committed record, a swap that
    returns happened, a conflict means it did not. *)
Theorem durable_postgres_register {W} `{!Driver W} (c : config)
    `{!TxDriver W (binding_ c) (key_ c)} v r w0 :
  binding_ok (binding_ c) → _binding_key (binding_ c) = Ok (key_ c) → record_ok r →
  let row := row_of (b:=binding_ c) (key:=key_ c) in
  (let '(o, w) := @Durable.read W (Postgres.backend c) (binding_ c) w0 in
   row w = row w0 ∧ ∀ x, o = Ok (Some x) → row w0 = Some x) ∧
  (let '(o, w) := @Durable.compare_and_swap W (Postgres.backend c) (binding_ c) v r w0 in
   match o with
   | Ok x => x = Some r ∧ swapped row v r w0 w
   | Err e => row w = row w0 ∨ (isinstance e SecretStoreConflict = false ∧ swapped row v r w0 w)
   end).
Proof.
  intros Hb Hk Hr. pose (R := postgres_register c Hb Hk).
  split; [exact (@durable_read_law W (Postgres.backend c) (binding_ c) R w0)|].
  exact (@durable_cas_law W (Postgres.backend c) (binding_ c) R v r w0 Hr).
Qed.

(** The record a refresh secret is stored as reads back as itself, and only
    valid records of the expected binding are ever read. *)
Theorem record_round_trip r raw b x :
  record_ok r → binding_ok (binding r) → _decode_record raw b = Ok x →
  _decode_record (VDict (_encode_record r)) (binding r) = Ok r ∧ record_ok x ∧ binding x = b.
Proof. intros Hr Hb Hx. split; [by apply decode_encode|]. by eapply decode_ok. Qed.

(** ** A toy driver *)
Record toy := Toy { t_row : option record; t_pend : option record; t_fetched : bool;
                    t_commits : nat }.
Definition toy_binding : CredentialBinding.t := CredentialBinding.mk "github" "owner" ["ci.read"].
Definition toy_record (v : Z) : record :=
  mk toy_binding v SecretState.ready (Some "s0") 0 None None None.
Definition toy_doc (o : option record) : pyval :=
  match o with
  | Some r => if bool_decide (_decode_record (VDict (_encode_record r)) toy_binding = Ok r)
              then VTuple [VDict (_encode_record r)] else VNone
  | None => VNone
  end.
(** Commit number [n] fails after it was applied when [lost n]. *)
Definition toy_driver (lost : nat → bool) : Driver toy := {|
  d_connect _ _ w := (Ok tt, Toy (t_row w) None false (t_commits w));
  d_autocommit w := (Ok (VBool false), w);
  d_cursor w := (Ok tt, w);
  d_execute s p w :=
    match p with
    | [_; VInt v; VDict d] =>
        match t_row w, _decode_record (VDict d) toy_binding with
        | Some cur, Ok r =>
            if version cur =? v then (Ok tt, Toy (t_row w) (Some r) (t_fetched w) (t_commits w))
            else (raise RuntimeError "credential_version_conflict", w)
        | _, _ => (raise RuntimeError "missing", w)
        end
    | _ => (Ok tt, w)
    end;
  d_fetchone w :=
    (Ok (if t_fetched w then VNone
         else toy_doc (match t_pend w with Some r => Some r | None => t_row w end)),
     Toy (t_row w) (t_pend w) true (t_commits w));
  d_commit w :=
    (if lost (t_commits w) then raise RuntimeError "connection lost" else Ok tt,
     Toy (match t_pend w with Some r => Some r | None => t_row w end) None (t_fetched w)
       (S (t_commits w)));
  d_rollback w := (Ok tt, Toy (t_row w) None (t_fetched w) (t_commits w));
  d_close_cursor w := (Ok tt, w);
  d_close w := (Ok tt, w);
  conflict_error e := String.eqb (exn_msg e) "credential_version_conflict" |}.

Lemma toy_binding_ok : binding_ok toy_binding.
Proof. exists (VStr "github"), (VStr "owner"), (VList [VStr "ci.read"]). reflexivity. Defined.

#[refine] Instance toy_tx lost key : @TxDriver toy (toy_driver lost) toy_binding key := {|
  row_of := t_row; pending := t_pend |}.
Proof.
  all: try done.
  - intros s p w. cbn -[_decode_record].
    destruct p as [|? [|[] [|[] [|]]]]; cbn -[_decode_record]; try done.
    destruct (t_row w) as [cur|] eqn:E; [|by rewrite <- E].
    destruct (_decode_record _ _); [|by rewrite <- E].
    destruct (version cur =? z); by rewrite <- E.
  - intros v r w Hb Hr Hv. cbn -[_encode_record _decode_record].
    destruct (t_row w) as [cur|]; [|done]. rewrite <- Hb, decode_encode by (first [done | rewrite Hb; apply toy_binding_ok]).
    destruct (version cur =? v) eqn:E; [|done]. intros _. split; [done|]. exists cur. split; [done|lia].
  - intros w. split_and!; [done|done|]. intros x r. cbn -[_encode_record _decode_record toy_doc].
    destruct (t_fetched w); [done|]. intros [= H] Hn. rewrite Hn in H. unfold toy_doc in H.
    destruct (t_row w) as [cur|]; [|done]. case_bool_decide as Hd; [|done]. injection H as <-.
    congruence.
  - intros w. cbn. destruct (lost (t_commits w)); cbn; [|done].
    destruct (t_pend w) as [r|]; [right; eauto|by left].
Defined.
#[local] Existing Instance toy_tx.

Definition toy_config : config :=
  Config toy_binding
    (match _binding_key toy_binding with Ok k => k | Err _ => "" end) 5
    "-c statement_timeout=5000 -c lock_timeout=1000 -c idle_in_transaction_session_timeout=5000".

Example toy_config_made :
  Postgres.make toy_binding (VInt 5) (VInt 5000) (VInt 1000) = Ok toy_config.
Proof. vm_compute. reflexivity. Qed.

Definition toy_start : toy := Toy (Some (toy_record 0)) None false 0.
Definition toy_next : record := toy_record 1.
Lemma toy_next_ok : record_ok toy_next.
Proof. by split. Defined.

(** A commit whose acknowledgement is lost: ambiguous, and applied. *)
Example toy_lost_commit :
  let '(o, w) := @Postgres.compare_and_swap toy (toy_driver (λ _, true)) toy_config
                   (key_ toy_config) 0 (_encode_record toy_next) toy_start in
  o = Err ambiguous_write ∧ t_row w = Some toy_next.
Proof. vm_compute. by split. Qed.

Lemma postgres_write_outcome_witness :
  let '(o, w) := @Postgres.compare_and_swap toy (toy_driver (λ _, true)) toy_config
                   (key_ toy_config) 0 (_encode_record toy_next) toy_start in
  match o with
  | Ok _ => swapped t_row 0 toy_next toy_start w
  | Err e => (e ∈ not_written ∧ t_row w = t_row toy_start) ∨
             (e = ambiguous_write ∧ (t_row w = t_row toy_start ∨ swapped t_row 0 toy_next toy_start w))
  end.
Proof.
  exact (@postgres_write_outcome toy (toy_driver (λ _, true)) toy_config
    (toy_tx (λ _, true) (key_ toy_config)) 0 toy_next toy_start toy_binding_ok eq_refl toy_next_ok).
Defined.

Lemma toy_key : _binding_key (binding_ toy_config) = Ok (key_ toy_config).
Proof. vm_compute. reflexivity. Qed.

Lemma durable_postgres_register_witness :
  let '(o, w) := @Durable.compare_and_swap toy (@Postgres.backend toy (toy_driver (λ _, false)) toy_config)
                   toy_binding 0 toy_next toy_start in
  match o with
  | Ok x => x = Some toy_next ∧ swapped t_row 0 toy_next toy_start w
  | Err e => t_row w = t_row toy_start ∨
             (isinstance e SecretStoreConflict = false ∧ swapped t_row 0 toy_next toy_start w)
  end.
Proof.
  pose proof (@durable_postgres_register toy (toy_driver (λ _, false)) toy_config
    (toy_tx (λ _, false) (key_ toy_config)) 0 toy_next toy_start toy_binding_ok toy_key toy_next_ok)
    as H.
  destruct H as [_ H]. exact H.
Defined.

Lemma record_round_trip_witness :
  _decode_record (VDict (_encode_record toy_next)) toy_binding = Ok toy_next ∧ record_ok toy_next ∧
  binding toy_next = toy_binding.
Proof.
  apply (record_round_trip toy_next (VDict (_encode_record toy_next)) toy_binding toy_next).
  - exact toy_next_ok.
  - exact toy_binding_ok.
  - vm_compute. reflexivity.
Defined.
