(* ===== verification/CredentialAdapter.v ===== *)
(** agent_core/credential_adapter.py: actions gated behind a credential
    snapshot, with everything the provider returns or raises kept from the
    runner's ledger.

    A value an action returns is a tree of objects; none contains itself.
    Containers carry their identity ([id(value)]): two nodes with the same
    identity are the same object.  What the scan does not look into is in the
    tree as well: the other fields of an artifact update, byte strings, and the
    attributes of objects of any other class.  The credential provider and the
    wrapped actions are operations on the world [W]. *)
From S2P Require Import Prelude PyString PyValue Runner Registry Credentials.

Inductive container := KResult | KUpdate | KMap | KSeq.
#[warnings="-register-all"]
Inductive cvalue :=
  | CSnapshot
  | CStr (s : string)
  | CBytes (s : string)
  | CAtom (* [None], truth values and numbers *)
  | CObject (attributes : list cvalue)
  | CNode (k : container) (id : Z) (children unscanned : list cvalue).

(** The children in the order the scan visits them: the keys of a mapping come
    before their values.  Of an update it visits four of the nine fields. *)
Definition CResult (id : Z) (message artifacts data : cvalue) : cvalue :=
  CNode KResult id [message; artifacts; data] [].
Definition CUpdate (id : Z) (artifact_id kind locator metadata
    created verified persistent_saved device_saved ui_loaded : cvalue) : cvalue :=
  CNode KUpdate id [artifact_id; kind; locator; metadata]
    [created; verified; persistent_saved; device_saved; ui_loaded].
Definition CMap (id : Z) (entries : list (cvalue * cvalue)) : cvalue :=
  CNode KMap id (concat (map (λ kv, [kv.1; kv.2]) entries)) [].
Definition CSeq (id : Z) (items : list cvalue) : cvalue := CNode KSeq id items [].

Definition holds_secret (secret_values : list string) (s : string) : bool :=
  existsb (λ secret, truthy_s secret && contains secret s) secret_values.

(** The scan, with the identities already visited; it stops at the first find. *)
Fixpoint _contains_credential_material (secret_values : list string) (value : cvalue)
    (seen : gset Z) {struct value} : bool * gset Z :=
  match value with
  | CSnapshot => (true, seen)
  | CStr s => (holds_secret secret_values s, seen)
  | CBytes _ | CAtom | CObject _ => (false, seen)
  | CNode _ marker children _ =>
      if bool_decide (marker ∈ seen) then (false, seen)
      else
        (fix any (cs : list cvalue) (seen : gset Z) : bool * gset Z :=
           match cs with
           | [] => (false, seen)
           | c :: cs' =>
               let '(b, seen') := _contains_credential_material secret_values c seen in
               if b then (true, seen') else any cs' seen'
           end) children ({[ marker ]} ∪ seen)
  end.

Module CredentialRequirement.
Record t := mk {
  action : string; capabilities : list string; minimum_ttl_seconds : Z; require_known_expiry : bool }.

Definition make (action_ capabilities_ minimum_ttl_ known_ : pyval) : result t :=
  action ← match action_ with
           | VStr s => reject_if (blank s || negb (String.eqb s (strip s))) ValueError
                         "credential_requirement_action_invalid";; Ok s
           | _ => raise ValueError "credential_requirement_action_invalid"
           end;
  caps ← _capabilities capabilities_;
  ttl ← _seconds minimum_ttl_ "credential_requirement_ttl_invalid";
  match known_ with
  | VBool b => Ok (mk action caps ttl b)
  | _ => raise ValueError "credential_requirement_known_expiry_invalid"
  end.
End CredentialRequirement.

(** The context of a wrapped action: the caller's entries and, under the
    reserved key, the snapshot. *)
Record local_context := LocalContext { caller_context : pydict; injected : option CredentialSnapshot.t }.
Definition CREDENTIAL_CONTEXT_KEY : string := "_agent_credential_snapshot_v1".

Definition require_credential_snapshot (context : local_context) : result CredentialSnapshot.t :=
  match injected context with
  | Some s => Ok s
  | None => raise RuntimeError "credential_context_missing"
  end.

Definition _secret_values (s : CredentialSnapshot.t) : result (list string) :=
  mapR (λ name, CredentialSnapshot.secret s (VStr name)) (CredentialSnapshot.secret_names s).


Section Bound.
Context {W : Type}.
(** [self._provider.snapshot(capabilities, minimum_ttl_seconds=..., require_known_expiry=...)]:
    [None] stands for an answer that is not a snapshot. *)
Context (provider_snapshot : list string → Z → bool → eff W (option CredentialSnapshot.t)).
Abbreviation Impl := (pydict → local_context → eff W cvalue).

(** What leaves the wrapper for a failure of the provider or of the action. *)
Definition credential_failed (e : exn) : result cvalue :=
  if isinstance e CredentialProviderError then raise BlockedAction "credential_unavailable"
  else if isinstance e KeyboardInterrupt then raise KeyboardInterrupt "credential_provider_interrupted"
  else if isinstance e SystemExit then raise SystemExit "credential_provider_interrupted"
  else raise BlockedAction "credential_provider_failure".
Definition provider_failed (e : exn) : result cvalue :=
  if isinstance e BlockedAction then raise BlockedAction "credential_bound_provider_action_blocked"
  else if isinstance e KeyboardInterrupt then
    raise KeyboardInterrupt "credential_bound_provider_action_interrupted"
  else if isinstance e SystemExit then
    raise SystemExit "credential_bound_provider_action_interrupted"
  else raise_safe "credential_bound_provider_action_failed".

Definition invoke (requirement : CredentialRequirement.t) (implementation : Impl)
    (args context : pydict) : eff W cvalue :=
  got ← attempt (provider_snapshot (CredentialRequirement.capabilities requirement)
                   (CredentialRequirement.minimum_ttl_seconds requirement)
                   (CredentialRequirement.require_known_expiry requirement));
  match got with
  | Err e => lift (credential_failed e)
  | Ok None => lift (raise BlockedAction "credential_provider_invalid_snapshot")
  | Ok (Some snapshot) =>
      secret_values ← lift (_secret_values snapshot);
      out ← attempt (implementation args (LocalContext context (Some snapshot)));
      match out with
      | Err e => lift (provider_failed e)
      | Ok v =>
          if (_contains_credential_material secret_values v ∅).1
          then lift (raise_safe "credential_material_return_forbidden")
          else mret v
      end
  end.

(** ** CredentialBoundToolAdapter *)
Record InnerAdapter := MkInner {
  inner_name : string; inner_capabilities : list Capability; inner_actions : gmap string Impl }.
Record BoundAdapter := MkBound {
  bound_name : string; bound_capabilities : list Capability; bound_impls : gmap string Impl;
  requirements : gmap string CredentialRequirement.t }.

Definition add_requirement (m : gmap string CredentialRequirement.t) (r : CredentialRequirement.t) :
    result (gmap string CredentialRequirement.t) :=
  match m !! CredentialRequirement.action r with
  | Some _ => raise ValueError "duplicate_credential_requirement"
  | None => Ok (<[ CredentialRequirement.action r := r ]> m)
  end.

Definition bind_adapter (adapter : InnerAdapter) (reqs : list CredentialRequirement.t) :
    result BoundAdapter :=
  let names : gset string := list_to_set (map cap_action (inner_capabilities adapter)) in
  reject_if (negb (size names =? length (inner_capabilities adapter))%nat
             || negb (bool_decide (names = dom (inner_actions adapter)))) ValueError
    "credential_adapter_action_contract_mismatch";;
  m ← foldR add_requirement ∅ reqs;
  reject_if (negb (bool_decide (dom m = dom (inner_actions adapter)))) ValueError
    "credential_requirements_must_cover_all_actions";;
  Ok (MkBound ("credential-gated:" ++ inner_name adapter)%string (inner_capabilities adapter)
        (inner_actions adapter) m).

(** [actions()]: every implementation behind its own requirement. *)
Definition bound_actions (b : BoundAdapter) : gmap string (pydict → pydict → eff W cvalue) :=
  map_imap (λ name impl, (λ r, invoke r impl) <$> requirements b !! name) (bound_impls b).
End Bound.
