(* ===== verification/CredentialAdapterFacts.v ===== *)
(** The credential gate: its scan, which visits every shared object once, finds
    exactly what a full traversal would, and nothing the provider or the action
    says leaves the gate except a clean result. *)
From S2P Require Import Prelude PyString PyValue Diagnostics Runner Registry Credentials CredentialAdapter.

(** ** The scan against its reference *)

(** Credential material in what the scan looks into, at any depth. *)
Inductive holds (secret_values : list string) : cvalue → Prop :=
  | holds_snapshot : holds secret_values CSnapshot
  | holds_str s : holds_secret secret_values s = true → holds secret_values (CStr s)
  | holds_child k i cs us c : c ∈ cs → holds secret_values c → holds secret_values (CNode k i cs us).
(** Credential material anywhere in a value. *)
Inductive mentions (secret_values : list string) : cvalue → Prop :=
  | mentions_snapshot : mentions secret_values CSnapshot
  | mentions_str s : holds_secret secret_values s = true → mentions secret_values (CStr s)
  | mentions_bytes s : holds_secret secret_values s = true → mentions secret_values (CBytes s)
  | mentions_attribute cs c : c ∈ cs → mentions secret_values c → mentions secret_values (CObject cs)
  | mentions_child k i cs us c : c ∈ cs ∨ c ∈ us → mentions secret_values c → mentions secret_values (CNode k i cs us).
(** Credential material in a place the scan passes over: bytes, an attribute of another
    object, or one of the five fields of an update. *)
Inductive passed_over (secret_values : list string) : cvalue → Prop :=
  | over_bytes s : holds_secret secret_values s = true → passed_over secret_values (CBytes s)
  | over_attribute cs c : c ∈ cs → mentions secret_values c → passed_over secret_values (CObject cs)
  | over_field k i cs us c : c ∈ us → mentions secret_values c → passed_over secret_values (CNode k i cs us)
  | over_child k i cs us c : c ∈ cs → passed_over secret_values c → passed_over secret_values (CNode k i cs us).
Lemma mentions_split sv v : mentions sv v ↔ holds sv v ∨ passed_over sv v.
Proof.
  split.
  - induction 1 as [|s Hs|s Hs|cs c Hc Hm _|k i cs us c [Hc|Hc] Hm IH].
    + left. constructor.
    + left. by constructor.
    + right. by constructor.
    + right. by eapply over_attribute.
    + destruct IH; [left; by eapply holds_child|right; by eapply over_child].
    + right. by eapply over_field.
  - intros [Hh|Hp].
    + induction Hh; [constructor|by constructor|eapply mentions_child; [left|]; eassumption].
    + induction Hp; [by constructor|by eapply mentions_attribute|eapply mentions_child; [right|]; eassumption|
        eapply mentions_child; [left|]; eassumption].
Qed.

(** The number of nodes: a child is smaller than the container it is in. *)
Fixpoint weight (v : cvalue) : nat :=
  match v with
  | CNode _ _ cs _ => S (list_sum (map weight cs))
  | _ => 1
  end.
Lemma sum_cons n l : list_sum (n :: l) = (n + list_sum l)%nat.
Proof. done. Qed.
Lemma weight_child c cs : c ∈ cs → (weight c ≤ list_sum (map weight cs))%nat.
Proof.
  induction cs as [|c0 cs IH]; [by intros ?%not_elem_of_nil|].
  cbn [map]. rewrite sum_cons. intros [->|H]%elem_of_cons; [lia|]. specialize (IH H). lia.
Qed.

(** [heap] names every container of a value: one object per identity. *)
#[warnings="-register-all"]
Inductive well_shared (heap : Z → cvalue) : cvalue → Prop :=
  | ws_snapshot : well_shared heap CSnapshot
  | ws_str s : well_shared heap (CStr s)
  | ws_bytes s : well_shared heap (CBytes s)
  | ws_atom : well_shared heap CAtom
  | ws_object cs : well_shared heap (CObject cs)
  | ws_node k i cs us : heap i = CNode k i cs us → Forall (well_shared heap) cs →
      well_shared heap (CNode k i cs us).

Definition scan_all (sv : list string) : list cvalue → gset Z → bool * gset Z :=
  fix any cs seen :=
    match cs with
    | [] => (false, seen)
    | c :: cs' =>
        let '(b, seen') := _contains_credential_material sv c seen in
        if b then (true, seen') else any cs' seen'
    end.
Lemma scan_node sv k i cs us seen : _contains_credential_material sv (CNode k i cs us) seen =
  if bool_decide (i ∈ seen) then (false, seen) else scan_all sv cs ({[ i ]} ∪ seen).
Proof. done. Qed.

Section scan.
Context (sv : list string) (heap : Z → cvalue).

(** Objects seen before a value of weight [n]: clean, or containers of it. *)
Definition seen_ok (n : nat) (seen : gset Z) : Prop :=
  ∀ i, i ∈ seen → ¬ holds sv (heap i) ∨ (n < weight (heap i))%nat.
(** What a scan that found nothing adds: clean objects. *)
Definition adds_clean (seen seen' : gset Z) : Prop :=
  seen ⊆ seen' ∧ ∀ i, i ∈ seen' → i ∈ seen ∨ ¬ holds sv (heap i).

Definition scan_spec (v : cvalue) : Prop := ∀ seen n, (weight v ≤ n)%nat → well_shared heap v → seen_ok n seen →
  let '(b, seen') := _contains_credential_material sv v seen in
  if b then holds sv v else ¬ holds sv v ∧ adds_clean seen seen'.

Lemma adds_clean_trans a b c : adds_clean a b → adds_clean b c → adds_clean a c.
Proof. intros [? H1] [? H2]. split; [set_solver|]. intros i [Hi|?]%H2; auto. Qed.
Lemma adds_clean_ok a b n : adds_clean a b → seen_ok n a → seen_ok n b.
Proof. intros [_ H1] H2 i [Hi|?]%H1; auto. Qed.

Lemma scan_all_spec cs : (∀ c, c ∈ cs → scan_spec c) → ∀ seen n,
  (list_sum (map weight cs) ≤ n)%nat → Forall (well_shared heap) cs → seen_ok n seen →
  let '(b, seen') := scan_all sv cs seen in
  if b then ∃ c, c ∈ cs ∧ holds sv c
  else (∀ c, c ∈ cs → ¬ holds sv c) ∧ adds_clean seen seen'.
Proof.
  induction cs as [|c cs IH]; intros Hspec seen n Hn Hws Hseen; cbn [scan_all].
  { split; [by intros c ?%not_elem_of_nil|]. split; [done|auto]. }
  apply list.Forall_cons in Hws as [Hc Hws]. cbn [map] in Hn. rewrite sum_cons in Hn.
  assert (scan_spec c) as Hsc by (apply Hspec; set_solver).
  specialize (Hsc seen n ltac:(lia) Hc Hseen).
  destruct (_contains_credential_material sv c seen) as [[] seen1]; [set_solver|].
  destruct Hsc as [Hclean Hadd].
  specialize (IH ltac:(set_solver) seen1 n ltac:(lia) Hws (adds_clean_ok _ _ _ Hadd Hseen)).
  fold (scan_all sv). destruct (scan_all sv cs seen1) as [[] seen2]; [set_solver|].
  destruct IH as [Hcs Hadd']. split.
  - intros c' [->|?]%elem_of_cons; auto.
  - by eapply adds_clean_trans.
Qed.

Lemma scan_correct m : ∀ v, (weight v ≤ m)%nat → scan_spec v.
Proof.
  induction m as [|m IH]; intros v Hm; [destruct v; cbn in Hm; lia|].
  intros seen n Hn Hws Hseen. destruct v as [|s|s| |as_|k i cs us].
  - constructor.
  - cbn. destruct (holds_secret sv s) eqn:E; [by constructor|].
    split; [|split; [done|auto]]. inversion 1; congruence.
  - cbn. split; [|split; [done|auto]]. inversion 1.
  - cbn. split; [|split; [done|auto]]. inversion 1.
  - cbn. split; [|split; [done|auto]]. inversion 1.
  - inversion Hws as [| | | | |k' i' cs' us' Hheap Hcs]; subst. rewrite scan_node.
    destruct (decide (i ∈ seen)) as [Hi|Hi];
      [rewrite bool_decide_eq_true_2 by done|rewrite bool_decide_eq_false_2 by done].
    { split; [|split; [done|auto]]. destruct (Hseen i Hi) as [H|H]; rewrite Hheap in H; [done|lia]. }
    cbn [weight] in Hm, Hn.
    pose proof (scan_all_spec cs) as Hall. unfold scan_spec at 1 in Hall.
    specialize (Hall (λ c Hc, IH c ltac:(pose proof (weight_child c cs Hc); lia))
      ({[i]} ∪ seen) (list_sum (map weight cs)) (le_n _) Hcs).
    destruct (scan_all sv cs ({[i]} ∪ seen)) as [[] seen'].
    + destruct Hall as (c & Hc & Hh); [|by eapply holds_child].
      intros j [->%elem_of_singleton|Hj]%elem_of_union; [rewrite Hheap; right; cbn [weight]; lia|].
      destruct (Hseen j Hj); [by left|right; lia].
    + destruct Hall as [Hno [Hsub Hadd]].
      { intros j [->%elem_of_singleton|Hj]%elem_of_union; [rewrite Hheap; right; cbn [weight]; lia|].
        destruct (Hseen j Hj); [by left|right; lia]. }
      assert (¬ holds sv (CNode k i cs us)) as Hclean.
      { inversion 1; subst. by eapply Hno. }
      split; [done|]. split; [set_solver|]. intros j Hj. apply Hadd in Hj as [Hj|?]; [|auto].
      apply elem_of_union in Hj as [->%elem_of_singleton|?]; [|auto]. right. by rewrite Hheap.
Qed.

Lemma scan_iff v : well_shared heap v →
  (_contains_credential_material sv v ∅).1 = true ↔ holds sv v.
Proof.
  intros Hws. assert (seen_ok (weight v) ∅) as Hs by (intros i Hi; set_solver).
  pose proof (scan_correct (weight v) v (le_n _) ∅ (weight v) (le_n _) Hws Hs) as H.
  destruct (_contains_credential_material sv v ∅) as [[] seen]; cbn; [done|].
  split; [done|]. by destruct H.
Qed.
End scan.

(** The result scan, which skips every object it has met before and stops
    at the first find, reports credential material exactly when a traversal of
    all it can look into would: at any depth, in messages, artifacts, data, keys
    and values, however the objects are shared. *)
Theorem credential_scan_exact sv heap v : well_shared heap v →
  (_contains_credential_material sv v ∅).1 = true ↔ holds sv v.
Proof. apply scan_iff. Qed.

(** ** The gate *)

(** Everything that can leave a gated action besides a clean result. *)
Definition FIXED_FAILURES : list exn :=
  [Exn BlockedAction "credential_unavailable";
   Exn BlockedAction "credential_provider_failure";
   Exn BlockedAction "credential_provider_invalid_snapshot";
   Exn KeyboardInterrupt "credential_provider_interrupted";
   Exn SystemExit "credential_provider_interrupted";
   Exn BlockedAction "credential_bound_provider_action_blocked";
   Exn KeyboardInterrupt "credential_bound_provider_action_interrupted";
   Exn SystemExit "credential_bound_provider_action_interrupted";
   Exn SafeActionError "credential_bound_provider_action_failed";
   Exn SafeActionError "credential_material_return_forbidden"].

Lemma fixed_in e : existsb (λ x, bool_decide (x = e)) FIXED_FAILURES = true → e ∈ FIXED_FAILURES.
Proof.
  rewrite existsb_exists. intros (x & Hx & <-%bool_decide_eq_true). by apply list_elem_of_In.
Qed.
Lemma credential_failed_fixed e : ∃ e', credential_failed e = Err e' ∧ e' ∈ FIXED_FAILURES.
Proof.
  unfold credential_failed. repeat case_match; eexists; (split; [reflexivity|]);
    apply fixed_in; vm_compute; reflexivity.
Qed.
Lemma provider_failed_fixed e : ∃ e', provider_failed e = Err e' ∧ e' ∈ FIXED_FAILURES.
Proof.
  unfold provider_failed. repeat case_match; eexists; (split; [vm_compute; reflexivity|]);
    apply fixed_in; vm_compute; reflexivity.
Qed.

(** Every stored secret can be read back, so the scan knows them all. *)
Lemma find_secret_in n m : n ∈ map fst m → ∃ v, CredentialSnapshot.find_secret n m = Some v.
Proof.
  induction m as [|[k v] m IH]; cbn; [by intros ?%not_elem_of_nil|].
  intros [->|H]%elem_of_cons; [rewrite String.eqb_refl; eauto|].
  destruct (String.eqb k n); eauto.
Qed.
Lemma secret_values_total s : ∃ vals, _secret_values s = Ok vals.
Proof.
  apply mapR_total. intros n Hn. unfold CredentialSnapshot.secret_names in Hn.
  rewrite elem_of_sorted in Hn. destruct (find_secret_in _ _ Hn) as [v Hv].
  exists v. cbn. by rewrite Hv.
Qed.

Section gate.
Context {W : Type} (provider_snapshot : list string → Z → bool → eff W (option CredentialSnapshot.t)).

Definition FORBIDDEN : exn := Exn SafeActionError "credential_material_return_forbidden".
Lemma credential_failed_not e : credential_failed e ≠ Err FORBIDDEN.
Proof. unfold credential_failed. by repeat case_match. Qed.
Lemma provider_failed_not e : provider_failed e ≠ Err FORBIDDEN.
Proof. unfold provider_failed. by repeat case_match. Qed.

(** C6: whatever the credential provider and the action do, what leaves the gate is one of
    ten fixed exceptions, free of their text, or a value the action returned under an
    injected snapshot.  Such a value holds neither the snapshot nor a text with one of its
    secrets in anything the scan looks into, at any depth and however its objects are
    shared; so a secret in it can only be in bytes, in an attribute of an object of another
    class, or in one of the five fields of an artifact update that are not scanned.  The
    action never runs without a snapshot, and its value is refused as credential material
    only when it holds some. *)
Theorem gate_contains_secrets requirement implementation args context w :
  let '(out, w') := invoke provider_snapshot requirement implementation args context w in
  let ran s vals v := ∃ w1,
    provider_snapshot (CredentialRequirement.capabilities requirement)
      (CredentialRequirement.minimum_ttl_seconds requirement)
      (CredentialRequirement.require_known_expiry requirement) w = (Ok (Some s), w1) ∧
    implementation args (LocalContext context (Some s)) w1 = (Ok v, w') ∧ _secret_values s = Ok vals in
  match out with
  | Err e => e ∈ FIXED_FAILURES ∧
      (e = FORBIDDEN → ∃ s vals v, ran s vals v ∧ ∀ heap, well_shared heap v → holds vals v)
  | Ok v => ∃ s vals, ran s vals v ∧ ∀ heap, well_shared heap v →
      ¬ holds vals v ∧ (mentions vals v → passed_over vals v)
  end.
Proof.
  unfold invoke, attempt, lift. rewrite bind_run.
  destruct (provider_snapshot _ _ _ w) as [[[s|]|e] w1].
  - rewrite bind_run. destruct (secret_values_total s) as [vals Hvals]. rewrite Hvals, bind_run.
    destruct (implementation args _ w1) as [[v|e] w2] eqn:Ei.
    + destruct (_contains_credential_material vals v ∅).1 eqn:E; cbv iota beta zeta.
      * split; [apply fixed_in; vm_compute; reflexivity|]. intros _. exists s, vals, v. split; [by exists w1|].
        intros heap Hws. by apply (scan_iff vals heap v Hws).
      * cbn. exists s, vals. split; [by exists w1|]. intros heap Hws.
        assert (¬ holds vals v) as Hno by (intros Hh; apply (scan_iff vals heap v Hws) in Hh; congruence).
        split; [done|]. intros [?|?]%mentions_split; done.
    + pose proof (provider_failed_not e) as Hnot. destruct (provider_failed_fixed e) as (e' & E & ?). rewrite E in Hnot |- *.
      split; [done|]. by intros ->.
  - split; [apply fixed_in; vm_compute; reflexivity|done].
  - pose proof (credential_failed_not e) as Hnot. destruct (credential_failed_fixed e) as (e' & E & ?). rewrite E in Hnot |- *.
    split; [done|]. by intros ->.
Qed.

(** ** The adapter *)
Lemma add_requirements_ok reqs : ∀ m m', foldR add_requirement m reqs = Ok m' →
  (∀ a r, m !! a = Some r → CredentialRequirement.action r = a) →
  ∀ a r, m' !! a = Some r → CredentialRequirement.action r = a ∧ (m !! a = Some r ∨ r ∈ reqs).
Proof.
  induction reqs as [|q reqs IH]; intros m m' H Hm a r Ha; cbn in H.
  { injection H as <-. auto. }
  apply bind_Ok in H as (m1 & H1 & H). unfold add_requirement in H1.
  destruct (m !! CredentialRequirement.action q) eqn:E; [done|]. injection H1 as <-.
  destruct (IH _ _ H) with (a := a) (r := r) as [? [Hr|Hr]]; [|done| |].
  - intros a' r'. destruct (decide (a' = CredentialRequirement.action q)) as [->|N].
    + rewrite lookup_insert_eq. by intros [= <-].
    + rewrite lookup_insert_ne by done. apply Hm.
  - split; [done|]. destruct (decide (a = CredentialRequirement.action q)) as [->|N].
    + rewrite lookup_insert_eq in Hr. injection Hr as <-. right. apply list_elem_of_here.
    + rewrite lookup_insert_ne in Hr by done. by left.
  - split; [done|]. right. by apply list_elem_of_further.
Qed.

(** An adapter that could be bound offers the same actions as the one it
    wraps, no more and no fewer, and each only behind the gate, under the one
    requirement given for that very action. *)
Theorem bound_adapter_covers adapter reqs b :
  bind_adapter (W:=W) adapter reqs = Ok b →
  dom (bound_actions provider_snapshot b) = dom (inner_actions adapter) ∧
  bound_capabilities b = inner_capabilities adapter ∧
  ∀ name act, bound_actions provider_snapshot b !! name = Some act →
    ∃ impl r, inner_actions adapter !! name = Some impl ∧ r ∈ reqs ∧
      CredentialRequirement.action r = name ∧ act = invoke provider_snapshot r impl.
Proof.
  unfold bind_adapter. intros H. inv_result.
  match goal with H : foldR _ _ _ = Ok ?m |- _ => rename H into Hf; rename m into reqm end.
  match goal with H : dom reqm = _ |- _ => rename H into Hd end.
  assert (∀ name act, bound_actions provider_snapshot
    (MkBound ("credential-gated:" ++ inner_name adapter)%string (inner_capabilities adapter)
       (inner_actions adapter) reqm) !! name = Some act ↔
    ∃ impl r, inner_actions adapter !! name = Some impl ∧ reqm !! name = Some r ∧
      act = invoke provider_snapshot r impl) as Hat.
  { intros name act. unfold bound_actions. rewrite map_lookup_imap. cbn.
    destruct (inner_actions adapter !! name) as [impl|]; cbn; [|naive_solver].
    destruct (reqm !! name) as [r|]; cbn; naive_solver. }
  split_and!; [|done|].
  - apply set_eq. intros name. rewrite !elem_of_dom. split.
    + intros [act (impl & r & ? & _)%Hat]. eauto.
    + intros [impl Hi]. assert (name ∈ dom reqm) as [r Hr]%elem_of_dom
        by (rewrite Hd; apply elem_of_dom; eauto).
      exists (invoke provider_snapshot r impl). apply Hat. eauto.
  - intros name act (impl & r & Hi & Hr & ->)%Hat.
    destruct (add_requirements_ok _ _ _ Hf) with (a := name) (r := r) as [? [Hx|?]];
      [by intros ? ? ?%lookup_empty_Some|done|by apply lookup_empty_Some in Hx|].
    exists impl, r. done.
Qed.
End gate.

(** ** Concrete values *)

(** One data object shared by two artifacts, one of which names the token. *)
Definition plain_update (data : cvalue) : cvalue :=
  CUpdate 4 (CStr "id") (CStr "kind") CAtom data CAtom CAtom CAtom CAtom CAtom.
Definition shared_result (text : string) : cvalue :=
  let data := CMap 3 [(CStr "note", CStr text)] in
  CResult 1 (CStr "done") (CSeq 2 [data; plain_update data]) data.
Definition shared_heap (text : string) (i : Z) : cvalue :=
  let data := CMap 3 [(CStr "note", CStr text)] in
  if i =? 1 then shared_result text
  else if i =? 2 then CSeq 2 [data; plain_update data]
  else if i =? 3 then data else plain_update data.
Lemma credential_scan_exact_witness :
  holds ["s3cret"] (shared_result "token s3cret") ∧ ¬ holds ["s3cret"] (shared_result "nothing").
Proof.
  assert (∀ t, well_shared (shared_heap t) (shared_result t)) as Hws
    by (intros t; repeat (constructor; try reflexivity)).
  split.
  - apply (credential_scan_exact ["s3cret"] (shared_heap "token s3cret") _ (Hws _)). vm_compute. reflexivity.
  - intros H. apply (credential_scan_exact ["s3cret"] (shared_heap "nothing") _ (Hws _)) in H.
    vm_compute in H. discriminate H.
Defined.

Definition echo_adapter : InnerAdapter (W:=nat) :=
  MkInner "echo" [MkCapability "echo" "read" [] true ""] {[ "echo" := λ _ _, mret CAtom ]}.
Definition echo_requirement : CredentialRequirement.t :=
  CredentialRequirement.mk "echo" ["repo.read"] 300 true.
(** A secret in the field [created] of an update leaves the gate; in its locator it does not. *)
Definition one_snapshot : CredentialSnapshot.t :=
  CredentialSnapshot.mk "provider" None ["repo.read"] None None false [("token", "s3cret")] 0.
Definition gated (update : cvalue) : result cvalue :=
  (invoke (λ _ _ _, mret (Some one_snapshot)) echo_requirement (λ _ _, mret update) [] [] 0%nat).1.
Definition update_with (locator created : cvalue) : cvalue :=
  CUpdate 1 (CStr "id") (CStr "kind") locator (CMap 2 []) created CAtom CAtom CAtom CAtom.
Example unscanned_flag_leaves :
  gated (update_with CAtom (CStr "s3cret")) = Ok (update_with CAtom (CStr "s3cret")) ∧
  gated (update_with (CStr "s3cret") CAtom) = Err FORBIDDEN ∧
  mentions ["s3cret"] (update_with CAtom (CStr "s3cret")).
Proof.
  split; [vm_compute; reflexivity|]. split; [vm_compute; reflexivity|].
  eapply mentions_child; [right; left|by apply mentions_str].
Qed.
Lemma bound_adapter_covers_witness :
  ∃ b, bind_adapter echo_adapter [echo_requirement] = Ok b ∧
    dom (bound_actions (λ _ _ _, mret None) b) = {[ "echo" ]}.
Proof.
  eexists. split; [vm_compute; reflexivity|].
  rewrite (proj1 (bound_adapter_covers (λ _ _ _, mret None) echo_adapter [echo_requirement] _
    ltac:(vm_compute; reflexivity))).
  vm_compute. reflexivity.
Defined.
