(* ===== verification/Payouts.v ===== *)
(** ml/historical_payouts.py: normalisation of payout tables, with dead heats.

    Text is held as its UTF-8 bytes here, so the Japanese constants of the code
    are the literals below; they are only compared, hashed and used as keys.  A
    row of a table is what [csv.DictReader] yields: column names with text. *)
From Stdlib Require Import Ascii.
From stdpp Require Import sorting.
From S2P Require Import Prelude PyString PyValue PyText Sha256 Itertools.

Abbreviation row := (list (string * string)).
Definition row_value (r : row) : pyval := VDict (map (λ kv, (kv.1, VStr kv.2)) r).
(** [row[k]] *)
Fixpoint cell (k : string) (r : row) : result string :=
  match r with
  | [] => raise KeyError k
  | (k', v) :: r' => if String.eqb k' k then Ok v else cell k r'
  end.


Definition NONFINISH : list (string * string) :=
  [("欠場", "DNS"); ("落車", "DNF"); ("故障", "DNF"); ("失格", "DSQ")].
Definition WIDTHS : list (string * nat) := [("2車単", 2%nat); ("3連単", 3%nat)].
Definition nonfinish (status : string) : option string := snd <$> find (λ kv, String.eqb kv.1 status) NONFINISH.

(** [re.fullmatch(r"[1-9]", value)] *)
Definition one_to_nine (c : ascii) : bool := (49 <=? code c) && (code c <=? 57).
Definition _car (value : string) : result Z :=
  match chars value with
  | [c] => if one_to_nine c then Ok (code c - 48) else raise ValueError "invalid_car_or_rank"
  | _ => raise ValueError "invalid_car_or_rank"
  end.

(** ** Finish order *)
Record participant := Participant {
  car_number : Z; rider_id : string; finish_rank : option Z; finish_status : string }.
(** What the loop of [_result_groups] has gathered. *)
Record gathered := Gathered {
  cars : gset Z; ids : gset string; ranks : gmap Z (list Z);
  participants : list participant; changes : list pyval }.
Definition nothing_gathered : gathered := Gathered ∅ ∅ ∅ [] [].

Definition fault_change (car : Z) (sha : string) : pyval :=
  VDict [("field", VStr "Rank/Status"); ("original", VList [VStr "故"; VStr ""]);
         ("normalized", VList [VNone; VStr "DNF"]); ("car_number", VInt car);
         ("rule", VStr "explicit_fault_abbreviation"); ("source_row_sha256", VStr sha)].

(** The rank and the state of a row, in a table of [size] rows. *)
Definition finish_of (size : nat) (rank status : string) : result (option Z * string) :=
  if String.eqb status "" then
    place ← _car rank;
    reject_if (Z.of_nat size <? place) ValueError "rank_outside_roster";;
    Ok (Some place, "FINISHED")
  else
    match nonfinish status with
    | Some state =>
        if String.eqb rank "" then Ok (None, state)
        else raise ValueError "unknown_or_conflicting_finish_status"
    | None => raise ValueError "unknown_or_conflicting_finish_status"
    end.
(** [ranks[rank].append(car)] for a finisher *)
Definition place_car (place : option Z) (car : Z) (rs : gmap Z (list Z)) : gmap Z (list Z) :=
  match place with
  | Some k => <[k := default [] (rs !! k) ++ [car]]> rs
  | None => rs
  end.

(** The body of the loop. *)
Definition gather (size : nat) (g : gathered) (r : row) : result gathered :=
  text ← cell "Car" r;
  car ← _car text;
  identity ← cell "Player_ID" r;
  reject_if (negb (truthy_s identity && forallb is_digit (chars identity))) ValueError
    "player_identity_missing";;
  reject_if (bool_decide (car ∈ cars g) || bool_decide (identity ∈ ids g)) ValueError
    "duplicate_car_or_player_result";;
  rank ← cell "Rank" r;
  status ← cell "Status" r;
  let fault := String.eqb rank "故" && String.eqb status "" in
  change ← (if fault then sha ← digest (row_value r); Ok [fault_change car sha] else Ok []);
  found ← finish_of size (if fault then "" else rank) (if fault then "故障" else status);
  let '(place, state) := found in
  Ok (Gathered ({[car]} ∪ cars g) ({[identity]} ∪ ids g) (place_car place car (ranks g))
        (participants g ++ [Participant car ("keirindb:" ++ identity) place state])
        (changes g ++ change)).

(** [sorted(ranks.items())]: the keys are distinct. *)
Definition by_rank (a b : Z * list Z) : Prop := a.1 ≤ b.1.
#[export] Instance by_rank_dec a b : Decision (by_rank a b).
Proof. unfold by_rank. apply _. Defined.
(** The ranks must be those of a competition with ties: 1, then 1 + the number
    of cars placed before. *)
Fixpoint check_ranks (expected : Z) (l : list (Z * list Z)) : result (list (list Z)) :=
  match l with
  | [] => Ok []
  | (rank, group) :: l' =>
      reject_if (negb (rank =? expected)) ValueError "incomplete_or_invalid_competition_ranks";;
      groups ← check_ranks (expected + Z.of_nat (length group)) l';
      Ok (merge_sort Z.le group :: groups)
  end.

Definition by_car (a b : participant) : Prop := car_number a ≤ car_number b.
#[export] Instance by_car_dec a b : Decision (by_car a b).
Proof. unfold by_car. apply _. Defined.

Definition _result_groups (rows : list row) :
    result (list (list Z) * list participant * list pyval) :=
  let size := length rows in
  reject_if (negb ((3 <=? size)%nat && (size <=? 9)%nat)) ValueError "result_roster_size_invalid";;
  g ← foldR (gather size) nothing_gathered rows;
  groups ← check_ranks 1 (merge_sort by_rank (map_to_list (ranks g)));
  Ok (groups, merge_sort by_car (participants g), changes g).

(** ** Settled combinations *)

(** The loop of [_outcomes]: one list of arrangements per group that is needed. *)
Fixpoint choices (groups : list (list Z)) (remaining : nat) : list (list (list Z)) :=
  match groups, remaining with
  | [], _ | _, O => []
  | group :: groups', _ =>
      let take := Nat.min remaining (length group) in
      permutations take group :: choices groups' (remaining - take)
  end.
Definition _outcomes (groups : list (list Z)) (width : nat) : gset (list Z) :=
  if (length (concat groups) <? width)%nat then ∅
  else list_to_set (map (λ parts, concat parts) (product (choices groups width))).

(** ** Payout rows *)
Definition is_nine (c : ascii) : bool := one_to_nine c.
Definition digit_of (c : ascii) : Z := code c - 48.
(** The regular expressions of [_parse_ordered]: "a-b" or "a-b-c", and for two
    cars a month and a day, for three a date of the years 2001 to 2009. *)
Definition literal_cars (width : nat) (l : list ascii) : option (list Z) :=
  match width, l with
  | 2%nat, [a; "-"%char; b] =>
      if forallb is_nine [a; b] then Some (map digit_of [a; b]) else None
  | 3%nat, [a; "-"%char; b; "-"%char; c] =>
      if forallb is_nine [a; b; c] then Some (map digit_of [a; b; c]) else None
  | _, _ => None
  end.
(** What follows a literal prefix. *)
Definition after (p l : list ascii) : option (list ascii) :=
  if is_prefix p l then Some (skipn (length p) l) else None.
Definition month_day_cars (l : list ascii) : option (list Z) :=
  match l with
  | a :: l' =>
      match after (chars "月") l' with
      | Some (b :: l'') => if forallb is_nine [a; b] && bool_decide (l'' = chars "日")
                           then Some (map digit_of [a; b]) else None
      | _ => None
      end
  | [] => None
  end.
Definition date_cars (l : list ascii) : option (list Z) :=
  match after (chars "200") l with
  | Some [a; "/"%char; b; "/"%char; c] =>
      if forallb is_nine [a; b; c] then Some (map digit_of [a; b; c]) else None
  | _ => None
  end.
Definition _parse_ordered (raw : string) (width : nat) : result (list Z * string) :=
  let l := chars raw in
  found ← match literal_cars width l with
          | Some cars => Ok (cars, "literal_ordered_combination")
          | None =>
              match (if (width =? 2)%nat then month_day_cars l else None) with
              | Some cars => Ok (cars, "date_like_exacta_candidate")
              | None =>
                  match (if (width =? 3)%nat then date_cars l else None) with
                  | Some cars => Ok (cars, "date_like_trifecta_candidate")
                  | None => raise ValueError "unsupported_ordered_outcome_format"
                  end
              end
          end;
  reject_if (negb (length (remove_dups found.1) =? width)%nat) ValueError
    "duplicate_car_in_outcome";;
  Ok found.

(** The two alternatives of the pattern of [_money]: plain digits, or digits
    grouped by commas. *)
Fixpoint comma_groups (l : list ascii) : bool :=
  match l with
  | [] => true
  | ","%char :: a :: b :: c :: l' => forallb is_digit [a; b; c] && comma_groups l'
  | _ => false
  end.
Fixpoint grouped_money (lead : nat) (l : list ascii) : bool :=
  match l with
  | ","%char :: _ => comma_groups l
  | c :: l' => match lead with O => false | S n => is_digit c && grouped_money n l' end
  | [] => false
  end.
Definition money_pattern (l : list ascii) : bool :=
  match l with
  | c :: l' => one_to_nine c && (forallb is_digit l' || grouped_money 2 l')
  | [] => false
  end.
Definition number (l : list ascii) : Z := foldl (λ acc c, 10 * acc + digit_of c) 0 l.
(** [int] of decimal digits, which refuses more than 4300 of them *)
Definition int_of_digits (l : list ascii) : result Z :=
  reject_if (4300 <? length l)%nat ValueError
    ("Exceeds the limit (4300 digits) for integer string conversion: value has "
     ++ z_str (Z.of_nat (length l)) ++ " digits; use sys.set_int_max_str_digits() to increase the limit");;
  Ok (number l).
Definition _money (raw : string) : result Z :=
  reject_if (negb (money_pattern (chars raw))) ValueError "invalid_payout_amount";;
  int_of_digits (List.filter is_digit (chars raw)).

(** ** Settlement *)
Record outcome := Outcome { combination : list Z; payout_yen : Z }.
Record settlement := Settlement {
  settled_status : string; outcomes : list outcome; settlement_changes : list pyval }.
(** Tuples compare lexicographically. *)
Fixpoint tuple_le (a b : list Z) : bool :=
  match a, b with
  | [], _ => true
  | _ :: _, [] => false
  | x :: a', y :: b' => (x <? y) || ((x =? y) && tuple_le a' b')
  end.
Definition by_combination (a b : outcome) : Prop := tuple_le (combination a) (combination b) = true.
#[export] Instance by_combination_dec a b : Decision (by_combination a b).
Proof. unfold by_combination. apply _. Defined.

Definition date_change (raw : string) (cars : list Z) (rule sha : string) : pyval :=
  VDict [("field", VStr "Outcome"); ("original", VStr raw);
         ("normalized", VStr (join "-" (map z_str cars))); ("rule", VStr rule);
         ("source_row_sha256", VStr sha)].

(** The body of the loop of [_settlement]. *)
Definition settle_row (expected : gset (list Z)) (width : nat)
    (acc : gset (list Z) * list outcome * list pyval) (r : row) :
    result (gset (list Z) * list outcome * list pyval) :=
  let '(found, outs, chs) := acc in
  raw ← cell "Outcome" r;
  parsed ← _parse_ordered raw width;
  let '(cars, rule) := parsed in
  reject_if (negb (bool_decide (cars ∈ expected))) ValueError "payout_disagrees_with_finish_order";;
  reject_if (bool_decide (cars ∈ found)) ValueError "duplicate_payout_outcome";;
  text ← cell "Payout" r;
  amount ← _money text;
  change ← (if String.eqb rule "literal_ordered_combination" then Ok []
            else sha ← digest (row_value r); Ok [date_change raw cars rule sha]);
  Ok ({[cars]} ∪ found, outs ++ [Outcome cars amount], chs ++ change).

Definition full_refund (rows : list row) : result bool :=
  match rows with
  | [r] =>
      out ← cell "Outcome" r;
      pay ← cell "Payout" r;
      Ok (String.eqb out pay && String.eqb pay "全返還")
  | _ => Ok false
  end.

Definition _settlement (rows : list row) (groups : list (list Z)) (width : nat) : result settlement :=
  let expected := _outcomes groups width in
  reject_if (bool_decide (rows = [])) ValueError "ordered_payout_missing";;
  if bool_decide (expected = ∅) then
    refunded ← full_refund rows;
    if refunded : bool then Ok (Settlement "full_refund" [] [])
    else raise ValueError "insufficient_finishers_without_explicit_full_refund"
  else
    acc ← foldR (settle_row expected width) (∅, [], []) rows;
    let '(found, outs, chs) := acc in
    reject_if (negb (bool_decide (found = expected))) ValueError "missing_tied_payout_outcome";;
    Ok (Settlement (if (1 <? size expected)%nat then "dead_heat" else "ordinary")
          (merge_sort by_combination outs) chs).

(** ** Races *)
Definition participant_value (p : participant) : pyval :=
  VDict [("car_number", VInt (car_number p)); ("rider_id", VStr (rider_id p));
         ("finish_rank", match finish_rank p with Some z => VInt z | None => VNone end);
         ("status", VStr (finish_status p))].
Definition outcome_value (o : outcome) : pyval :=
  VDict [("combination", VList (map VInt (combination o))); ("payout_yen", VInt (payout_yen o))].
Definition settlement_value (s : settlement) : pyval :=
  VDict [("status", VStr (settled_status s)); ("outcomes", VList (map outcome_value (outcomes s)));
         ("changes", VList (settlement_changes s))].

Definition leap (y : Z) : bool :=
  ((y mod 4 =? 0) && negb (y mod 100 =? 0)) || (y mod 400 =? 0).
Definition month_days (y m : Z) : Z :=
  if m =? 2 then if leap y then 29 else 28
  else if (m =? 4) || (m =? 6) || (m =? 9) || (m =? 11) then 30 else 31.

Section normalize.
(** The text of the error of [datetime.strptime] for eight digits that are not
    a date. *)
Context (strptime_error : string → string).

(** [datetime.strptime(date, "%Y%m%d").date().isoformat()] after the check of the
    eight digits *)
Definition race_date (date : string) : result string :=
  let l := chars date in
  reject_if (negb ((length l =? 8)%nat && forallb is_digit l)) ValueError "invalid_race_date";;
  let '(y, m, d) := (firstn 4 l, firstn 2 (skipn 4 l), skipn 6 l) in
  if (1 <=? number y) && (1 <=? number m) && (number m <=? 12) && (1 <=? number d)
     && (number d <=? month_days (number y) (number m))
  then Ok (of_chars y ++ "-" ++ of_chars m ++ "-" ++ of_chars d)%string
  else raise ValueError (strptime_error date).
(** [re.fullmatch(r"[1-9]|1[0-2]", s)] and [int(s)] *)
Definition race_number (s : string) : result Z :=
  let l := chars s in
  match l with
  | [c] => if one_to_nine c then Ok (number l) else raise ValueError "invalid_race_number"
  | ["1"%char; c] => if (48 <=? code c) && (code c <=? 50) then Ok (number l)
                     else raise ValueError "invalid_race_number"
  | _ => raise ValueError "invalid_race_number"
  end.

Definition bets_of (rows : list row) (bet : string) : result (list row) :=
  mapR (λ r, b ← cell "Bet_Type" r; Ok (b, r)) rows ≫= λ l,
    Ok (map snd (List.filter (λ br, String.eqb br.1 bet) l)).
Definition settle_bet (payoffs : list row) (groups : list (list Z)) (bw : string * nat) :
    result (string * settlement) :=
  rows ← bets_of payoffs bw.1;
  s ← _settlement rows groups bw.2;
  Ok (bw.1, s).

(** What a consistent race adds to its record. *)
Record consistent := Consistent {
  c_date : string; c_venue : string; c_number : Z; c_participants : list participant;
  c_groups : list (list Z); c_settlements : list (string * settlement); c_changes : list pyval }.
(** The [try] block of [normalize]. *)
Definition check_race (key : string) (info results payoffs : list row) : result consistent :=
  match info with
  | [metadata] =>
      status ← cell "Race_Status" metadata;
      reject_if (negb (String.eqb status "held")) ValueError "held_race_required";;
      date ← cell "Date" metadata;
      iso ← race_date date;
      numeral ← cell "Race_Number" metadata;
      n ← race_number numeral;
      venue ← cell "Venue" metadata;
      reject_if (negb (String.eqb key (date ++ "_" ++ venue ++ numeral))) ValueError
        "race_identity_disagrees_with_metadata";;
      unit_ ← cell "Unit" metadata;
      roster ← _car unit_;
      reject_if (negb (roster =? Z.of_nat (length results))) ValueError "result_roster_incomplete";;
      grouped ← _result_groups results;
      let '(groups, participants, changes) := grouped in
      settlements ← mapR (settle_bet payoffs groups) WIDTHS;
      Ok (Consistent iso venue n participants groups settlements changes)
  | _ => raise ValueError "missing_or_conflicting_race_info"
  end.

Definition actual_starters (ps : list participant) : Z :=
  Z.of_nat (length (List.filter (λ p, negb (String.eqb (finish_status p) "DNS")) ps)).
Definition consistent_entries (c : consistent) : pydict :=
  [("race_date", VStr (c_date c)); ("venue", VStr (c_venue c)); ("race_number", VInt (c_number c));
   ("participants", VList (map participant_value (c_participants c)));
   ("finish_order_groups", VList (map (λ g, VList (map VInt g)) (c_groups c)));
   ("listed_result_roster_count", VInt (Z.of_nat (length (c_participants c))));
   ("actual_starters", VInt (actual_starters (c_participants c)));
   ("settlements", VDict (map (λ bs, (bs.1, settlement_value bs.2)) (c_settlements c)));
   ("result_status_changes", VList (c_changes c))].

(** The record of one race, and its settlements when it is consistent. *)
Definition normalize_race (key : string) (info results payoffs : list row) :
    result (option consistent * pyval) :=
  let raw := VDict [("info", VList (map row_value info)); ("results", VList (map row_value results));
                    ("payoffs", VList (map row_value payoffs))] in
  raw_sha ← digest raw;
  let item status reasons more :=
    [("race_id", VStr key); ("raw", raw); ("raw_sha256", VStr raw_sha);
     ("normalization_status", VStr status); ("reasons", VList (map VStr reasons));
     ("external_source_verified", VBool false); ("training_approved", VBool false);
     ("feature_as_of", VNone); ("result_available_at", VNone);
     ("pre_race_state_verified", VBool false); ("pre_race_features", VList []);
     ("prospective", VBool false)] ++ more in
  found ← match check_race key info results payoffs with
          | Ok c => Ok (Some c, item "internally_consistent_candidate" [] (consistent_entries c))
          | Err e => if isinstance e ValueError || isinstance e TypeError || isinstance e KeyError
                     then Ok (None, item "quarantined" [exn_text e] []) else Err e
          end;
  sha ← digest (VDict found.2);
  Ok (found.1, VDict (found.2 ++ [("candidate_sha256", VStr sha)])).

(** The loop over one table: the rows of each race without their identical
    repetitions, and the number of repetitions. *)
Record table := Table { seen : gset string; kept : list (string * row); repeated : Z }.
Definition add_row (t : table) (r : row) : result table :=
  match cell "Race_ID" r with
  | Ok id =>
      reject_if (negb (truthy_s (strip_text id))) ValueError "race_id_missing";;
      fingerprint ← digest (row_value r);
      if bool_decide (fingerprint ∈ seen t) then Ok (Table (seen t) (kept t) (repeated t + 1))
      else Ok (Table ({[fingerprint]} ∪ seen t) (kept t ++ [(id, r)]) (repeated t))
  | Err _ => raise ValueError "race_id_missing"
  end.
Definition read_table (rows : list row) : result table := foldR add_row (Table ∅ [] 0) rows.
Definition rows_of (t : table) (key : string) : list row :=
  map snd (List.filter (λ ir, String.eqb ir.1 key) (kept t)).

(** [dict(Counter(l))] *)
Definition counts (l : list string) : pydict :=
  foldl (λ d k, dict_set k (VInt (match get_or_none k d with VInt n => n + 1 | _ => 1 end)) d) [] l.
Definition repetitions (nt : string * table) : pydict :=
  if repeated nt.2 =? 0 then [] else [(nt.1, VInt (repeated nt.2))].
Definition trifecta_status (c : consistent) : list string :=
  match find (λ bs, String.eqb bs.1 "3連単") (c_settlements c) with
  | Some bs => [settled_status bs.2]
  | None => []
  end.

Definition normalize (info results payoffs : list row) : result (list (option consistent) * pyval) :=
  ti ← read_table info;
  tr ← read_table results;
  tp ← read_table payoffs;
  let keys_ := sorted (elements (list_to_set (map fst (kept ti ++ kept tr ++ kept tp)) : gset string)) in
  races ← mapR (λ key, normalize_race key (rows_of ti key) (rows_of tr key) (rows_of tp key)) keys_;
  let status c := match c with Some _ => "internally_consistent_candidate" | None => "quarantined" end in
  Ok (map fst races,
      VDict [("schema_version", VStr "historical-payout-candidates-v1");
             ("records", VList (map snd races));
             ("summary", VDict
               [("unique_races", VInt (Z.of_nat (length races)));
                ("normalization_status_counts", VDict (counts (map (λ r, status r.1) races)));
                ("identical_duplicate_rows_ignored",
                   VDict (concat (map repetitions [("info", ti); ("results", tr); ("payoffs", tp)])));
                ("trifecta_settlement_counts",
                   VDict (counts (concat (map trifecta_status (omap fst races)))));
                ("external_source_verified_races", VInt 0); ("training_eligible_races", VInt 0);
                ("training_runs", VInt 0)]);
             ("production_enabled", VBool false); ("automatic_collection_enabled", VBool false)]).
End normalize.
