(* ===== verification/PayoutsFacts.v ===== *)
(** Dead heats: the combinations a settlement must pay are exactly the beginnings
    of the finish orders the ranks allow, and a consistent race pays each once. *)
From stdpp Require Import sorting.
From S2P Require Import Prelude PyString PyValue Sha256 Itertools Payouts.

(** ** Finish orders

    The orders of the finishers in which the cars of a group are adjacent, in any
    order among themselves, and the groups follow each other. *)
Definition finish_order (groups : list (list Z)) (order : list Z) : Prop :=
  ∃ parts, Forall2 (≡ₚ) groups parts ∧ order = concat parts.

Lemma finish_order_cons g gs order : finish_order (g :: gs) order ↔
  ∃ p order', g ≡ₚ p ∧ finish_order gs order' ∧ order = p ++ order'.
Proof.
  split.
  - intros (parts & HF & ->). inversion HF as [|? p ? ps Hp Hps]; subst.
    exists p, (concat ps). split_and!; [done| |done]. by exists ps.
  - intros (p & order' & Hp & (ps & Hps & ->) & ->). exists (p :: ps). by split; [constructor|].
Qed.

Lemma choices_zero groups : choices groups 0 = [].
Proof. by destruct groups. Qed.

Lemma choices_spec groups w t : (w ≤ length (concat groups))%nat →
  (∃ parts, parts ∈ product (choices groups w) ∧ t = concat parts) ↔
  (∃ order, finish_order groups order ∧ t = take w order).
Proof.
  revert w t. induction groups as [|g gs IH]; intros w t Hw.
  { cbn in Hw. assert (w = 0%nat) as -> by lia. cbn. split.
    - intros (parts & ->%list_elem_of_singleton & ->). exists []. split; [by exists []|done].
    - intros (order & _ & ->). exists []. by split; [apply list_elem_of_singleton|]. }
  destruct (decide (w = 0%nat)) as [->|Hw0].
  { rewrite choices_zero. cbn [product]. split.
    - intros (parts & ->%list_elem_of_singleton & ->). exists (concat (g :: gs)).
      split; [|done]. exists (g :: gs). split; [|done]. reflexivity.
    - intros (order & _ & ->). exists []. by split; [apply list_elem_of_singleton|]. }
  assert (choices (g :: gs) w = permutations (w `min` length g) g :: choices gs (w - w `min` length g))
    as -> by by destruct w.
  cbn [concat] in Hw. rewrite length_app in Hw.
  assert (w - w `min` length g ≤ length (concat gs))%nat as Hw' by lia.
  setoid_rewrite product_spec. setoid_rewrite finish_order_cons. split.
  - intros (parts & HF & ->). inversion HF as [|p ? ps ? Hp Hps]; subst.
    apply permutations_spec in Hp as [Hl Hs].
    destruct (submseteq_Permutation _ _ Hs) as [rest Hrest].
    apply product_spec in Hps.
    destruct (proj1 (IH _ (concat ps) Hw')) as (order' & Ho & E); [by exists ps|].
    exists ((p ++ rest) ++ order'). split; [by eexists _, _|]. cbn [concat]. rewrite E.
    apply Permutation_length in Hrest. rewrite length_app in Hrest.
    rewrite <- (assoc_L (++)), take_app, Hl. rewrite (take_ge p) by lia. f_equal.
    destruct (decide (w ≤ length g)%nat) as [Hle|Hgt].
    + replace (w - w `min` length g)%nat with 0%nat by lia. done.
    + destruct rest; [done|]. cbn in Hrest. lia.
  - intros (order & (p & order' & Hp & Ho & ->) & ->).
    pose proof (Permutation_length Hp) as Hlen.
    destruct (proj2 (IH _ (take (w - w `min` length g) order') Hw')) as (ps & Hps & E); [eauto|].
    exists (take (w `min` length g) p :: ps). split.
    + constructor; [|by apply product_spec]. apply permutations_spec. rewrite length_take. split; [lia|].
      etrans; [apply sublist_submseteq, sublist_take|]. by rewrite <- Hp.
    + cbn [concat]. rewrite <- E, take_app, <- Hlen. f_equal; [|f_equal; lia].
      destruct (decide (w ≤ length g)%nat); [f_equal; lia|]. rewrite !take_ge by lia. done.
Qed.

Lemma outcomes_spec groups w t : t ∈ _outcomes groups w ↔
  (w ≤ length (concat groups))%nat ∧ ∃ order, finish_order groups order ∧ t = take w order.
Proof.
  unfold _outcomes. destruct (length (concat groups) <? w)%nat eqn:E.
  { apply Nat.ltb_lt in E. split; [by intros ?%elem_of_empty|]. intros [? _]. lia. }
  apply Nat.ltb_ge in E. rewrite elem_of_list_to_set, list_elem_of_fmap.
  rewrite <- (choices_spec groups w t E). split.
  - intros (parts & -> & H). eauto.
  - intros (_ & parts & H & ->). eauto.
Qed.

(** ** Arrangements by rank *)
Lemma StronglySorted_lookup_lt (l : list Z) i j x y : StronglySorted Z.lt l → (i < j)%nat →
  l !! i = Some x → l !! j = Some y → x < y.
Proof.
  intros Hs. revert i j. induction Hs as [|a l Hs IH Ha]; intros i j Hij Hi Hj; [done|].
  destruct j as [|j]; [lia|]. destruct i as [|i]; cbn in *.
  - injection Hi as ->. rewrite list.Forall_forall in Ha. apply Ha. by eapply list_elem_of_lookup_2.
  - apply (IH i j); [lia|done|done].
Qed.
Lemma StronglySorted_take {A} (R : A → A → Prop) n l : StronglySorted R l → StronglySorted R (take n l).
Proof.
  intros Hs. revert n. induction Hs as [|a l Hs IH Ha]; intros [|n]; cbn; try constructor; [done|].
  by apply Forall_take.
Qed.

Section ranking.
Context {A : Type} (rk : A → Z).
Definition rank_le (a b : A) : Prop := rk a ≤ rk b.
#[local] Instance rank_le_dec a b : Decision (rank_le a b).
Proof. unfold rank_le. apply _. Defined.
#[local] Instance rank_le_total : Total rank_le.
Proof. intros a b. unfold rank_le. lia. Qed.
#[local] Instance rank_le_trans : Transitive rank_le.
Proof. intros a b c. unfold rank_le. lia. Qed.
(** The elements of rank [k]. *)
Definition at_rank (k : Z) (l : list A) : list A := filter (λ a, rk a = k) l.
Definition runs (ks : list Z) (l : list A) : list A := concat (map (λ k, at_rank k l) ks).

Lemma at_rank_above k k' l : k < k' → at_rank k' (filter (λ a, rk a ≠ k) l) = at_rank k' l.
Proof.
  intros Hk. unfold at_rank. rewrite list_filter_filter. apply list_filter_iff. intros a. lia.
Qed.
Lemma runs_above k ks l : Forall (λ k', k < k') ks →
  runs ks (filter (λ a, rk a ≠ k) l) = runs ks l.
Proof.
  unfold runs. induction 1 as [|k' ks Hk _ IH]; cbn; [done|]. by rewrite at_rank_above, IH.
Qed.
Lemma no_rank_below k l : Forall (λ a, k < rk a) l → at_rank k l = [].
Proof.
  unfold at_rank. induction 1 as [|a l Ha _ IH]; [done|]. rewrite filter_cons.
  rewrite decide_False by lia. done.
Qed.
Lemma keep_others k l : Forall (λ a, k < rk a) l → filter (λ a, rk a ≠ k) l = l.
Proof.
  induction 1 as [|a l Ha _ IH]; [done|]. rewrite filter_cons, decide_True by lia. by f_equal.
Qed.
Lemma split_least k l : StronglySorted rank_le l → Forall (λ a, k ≤ rk a) l →
  l = at_rank k l ++ filter (λ a, rk a ≠ k) l.
Proof.
  induction 1 as [|a l Hs IH Hle]; intros Hk; [done|].
  apply list.Forall_cons in Hk as [Ha Hk]. destruct (decide (rk a = k)) as [E|N].
  - unfold at_rank. rewrite !filter_cons. rewrite decide_True by done.
    rewrite decide_False by naive_solver. cbn. f_equal. by apply IH.
  - assert (Forall (λ b, k < rk b) (a :: l)) as Hgt.
    { constructor; [lia|]. eapply list.Forall_impl; [exact Hle|]. intros b Hb. unfold rank_le in Hb. lia. }
    by rewrite no_rank_below, keep_others.
Qed.
Lemma StronglySorted_filter (P : A → Prop) `{∀ a, Decision (P a)} (R : A → A → Prop) l :
  StronglySorted R l → StronglySorted R (filter P l).
Proof.
  induction 1 as [|a l Hs IH Ha]; [constructor|]. rewrite filter_cons.
  case_decide; [|done]. constructor; [done|]. rewrite list.Forall_forall in *.
  intros b [_ Hb]%list_elem_of_filter. auto.
Qed.

(** A list in rank order is its runs. *)
Lemma sorted_runs ks l : StronglySorted Z.lt ks → StronglySorted rank_le l →
  (∀ a, a ∈ l → rk a ∈ ks) → runs ks l = l.
Proof.
  intros Hks. revert l. induction Hks as [|k ks Hks IH Hk]; intros l Hl Hin.
  { destruct l as [|a l]; [done|]. by specialize (Hin a ltac:(left)) as ?%not_elem_of_nil. }
  rewrite (split_least k l) at 2; [|done|].
  2: { apply list.Forall_forall. intros a [->|Ha]%Hin%elem_of_cons; [done|].
       rewrite list.Forall_forall in Hk. specialize (Hk _ Ha). lia. }
  unfold runs. cbn. f_equal. fold (runs ks l). rewrite <- (runs_above k ks l Hk).
  apply IH; [by apply StronglySorted_filter|].
  intros a [Hne [Hk'|Hk']%Hin%elem_of_cons]%list_elem_of_filter; done.
Qed.

Lemma runs_perm ks l l' : l ≡ₚ l' → Forall2 (≡ₚ) (map (λ k, at_rank k l) ks) (map (λ k, at_rank k l') ks).
Proof. intros E. induction ks as [|k ks IH]; cbn; constructor; [|done]. unfold at_rank. by rewrite E. Qed.
Lemma concat_perm {B} (ls ls' : list (list B)) : Forall2 (≡ₚ) ls ls' → concat ls ≡ₚ concat ls'.
Proof. induction 1 as [|l l' ls ls' E _ IH]; cbn; [done|]. by rewrite E, IH. Qed.
Lemma runs_all ks l : StronglySorted Z.lt ks → (∀ a, a ∈ l → rk a ∈ ks) → runs ks l ≡ₚ l.
Proof.
  intros Hks Hin. pose proof (merge_sort_Permutation rank_le l) as E.
  rewrite <- E at 2. rewrite <- (sorted_runs ks (merge_sort rank_le l)).
  - apply concat_perm, runs_perm. by rewrite E.
  - done.
  - apply (StronglySorted_merge_sort rank_le).
  - intros a. rewrite E. apply Hin.
Qed.

Lemma sorted_concat ks (parts : list (list A)) : StronglySorted Z.lt ks →
  Forall2 (λ k part, Forall (λ a, rk a = k) part) ks parts → StronglySorted rank_le (concat parts).
Proof.
  intros Hks HF. induction HF as [|k part ks parts Hp HF IH]; cbn; [constructor|].
  inversion Hks as [|? ? Hks' Hk]; subst.
  assert (Forall (λ b, k < rk b) (concat parts)) as Hgt.
  { clear IH Hks Hks' Hp. induction HF as [|k' part' ks parts Hp' _ IH]; cbn; [constructor|].
    apply list.Forall_cons in Hk as [Hk Hk']. apply Forall_app. split; [|by apply IH].
    eapply list.Forall_impl; [exact Hp'|]. intros a ->. done. }
  clear HF. induction Hp as [|a part Ha Hp IHp]; cbn; [by apply IH|]. constructor; [done|].
  apply Forall_app. unfold rank_le. split.
  - eapply list.Forall_impl; [exact Hp|]. intros b Hb. cbn in Hb. lia.
  - eapply list.Forall_impl; [exact Hgt|]. intros b Hb. cbn in Hb. lia.
Qed.

(** The arrangements of [l] by groups of equal rank, the groups in rank order,
    are its arrangements in rank order. *)
Lemma arrangements ks l order : StronglySorted Z.lt ks → (∀ a, a ∈ l → rk a ∈ ks) →
  (∃ parts, Forall2 (≡ₚ) (map (λ k, at_rank k l) ks) parts ∧ order = concat parts) ↔
  order ≡ₚ l ∧ StronglySorted rank_le order.
Proof.
  intros Hks Hin. split.
  - intros (parts & HF & ->). split.
    + rewrite <- (concat_perm _ _ HF). by apply runs_all.
    + apply (sorted_concat ks); [done|]. clear Hks Hin.
      revert parts HF. induction ks as [|k ks IH]; intros parts HF; inversion HF as [|? p ? ps E HF']; subst;
        constructor; [|by apply IH].
      apply list.Forall_forall. intros a. rewrite <- E. by intros [? _]%list_elem_of_filter.
  - intros [E Hs]. exists (map (λ k, at_rank k order) ks). split; [by apply runs_perm|].
    symmetry. apply sorted_runs; [done|done|]. intros a. rewrite E. apply Hin.
Qed.

(** As many elements precede the run of rank [k] as have a smaller rank. *)
Lemma count_below ks l i k : StronglySorted Z.lt ks → (∀ a, a ∈ l → rk a ∈ ks) → ks !! i = Some k →
  length (runs (take i ks) l) = length (filter (λ a, rk a < k) l).
Proof.
  intros Hks Hin Hi. rewrite <- (runs_all (take i ks) (filter (λ a, rk a < k) l)).
  - unfold runs. do 2 f_equal. apply map_ext_in. intros k' Hk'%list_elem_of_In.
    unfold at_rank. rewrite list_filter_filter. apply list_filter_iff. intros a.
    assert (k' < k); [|lia]. apply elem_of_take in Hk' as (j & Hj & Hlt).
    by apply (StronglySorted_lookup_lt ks j i).
  - by apply StronglySorted_take.
  - intros a [Ha Hl]%list_elem_of_filter. apply elem_of_take.
    apply Hin, list_elem_of_lookup in Hl as [j Hj]. exists j. split; [done|].
    destruct (decide (j < i)%nat) as [|Hge]; [done|]. exfalso.
    destruct (decide (j = i)) as [->|Hne]; [rewrite Hi in Hj; injection Hj; lia|].
    assert (k < rk a); [|lia]. by apply (StronglySorted_lookup_lt ks i j); [|lia| |].
Qed.
End ranking.

(** ** The finish order of a race *)
Definition rank_of (p : participant) : Z := default 0 (finish_rank p).
Definition finishers (ps : list participant) : list participant :=
  filter (λ p, is_Some (finish_rank p)) ps.
(** An order the ranks allow: every finisher once, none before one of a smaller
    rank. *)
Definition placed (ps : list participant) (order : list Z) : Prop :=
  ∃ runners, runners ≡ₚ finishers ps ∧ StronglySorted (rank_le rank_of) runners ∧
    order = map car_number runners.

Record gathered_ok (g : gathered) : Prop := {
  go_cars : ∀ c, c ∈ cars g ↔ c ∈ map car_number (participants g);
  go_nodup : NoDup (map car_number (participants g));
  go_ranks : ∀ k, default [] (ranks g !! k) =
               map car_number (at_rank rank_of k (finishers (participants g)));
  go_groups : ∀ k l, ranks g !! k = Some l → l ≠ [] }.

Lemma gather_ok size g r g' : gathered_ok g → gather size g r = Ok g' →
  gathered_ok g' ∧ length (participants g') = S (length (participants g)).
Proof.
  intros [Hc Hn Hr Hg] H. unfold gather in H. inv_result. cbv zeta in H. inv_result.
  match goal with H : ?c ∉ cars g |- _ => rename c into car; rename H into Hfresh end.
  match goal with H : (let '(_, _) := ?x in _) = Ok g' |- _ => destruct x as [place state] end.
  injection H as <-. split; [|cbn; rewrite length_app; cbn; lia].
  split; cbn [cars ids ranks participants].
  - intros c. rewrite map_app, elem_of_union, elem_of_app, Hc. cbn.
    rewrite elem_of_singleton, list_elem_of_singleton. tauto.
  - rewrite map_app. apply list.NoDup_app. split_and!; [done| |apply NoDup_singleton].
    intros c Hin ->%list_elem_of_singleton. by apply Hc in Hin.
  - intros k. unfold finishers. rewrite list.filter_app. destruct place as [n|]; cbn [place_car].
    + rewrite filter_cons_True, filter_nil by done. unfold at_rank. rewrite list.filter_app, map_app.
      change (filter _ (filter _ (participants g))) with (at_rank rank_of k (finishers (participants g))).
      rewrite <- Hr, lookup_insert, filter_cons, filter_nil. unfold rank_of. cbn.
      destruct (decide (n = k)) as [->|N]; [done|by rewrite app_nil_r].
    + rewrite filter_cons_False, filter_nil, app_nil_r by by intros [? ?]. apply Hr.
  - intros k l. destruct place as [n|]; cbn [place_car]; [|apply Hg].
    rewrite lookup_insert. case_decide; [|apply Hg]. intros [= <-]. by destruct (default _ _).
Qed.
Lemma gather_all size g0 rows g : gathered_ok g0 → foldR (gather size) g0 rows = Ok g →
  gathered_ok g ∧ length (participants g) = (length (participants g0) + length rows)%nat.
Proof.
  revert g0. induction rows as [|r rows IH]; intros g0 H0; cbn.
  { intros [= ->]. split; [done|lia]. }
  intros (g1 & [H1 Hl]%gather_ok & H)%bind_Ok; [|done].
  apply IH in H as [? ?]; [|done]. split; [done|lia].
Qed.

Lemma check_ranks_ok e l groups : check_ranks e l = Ok groups →
  groups = map (λ kg, merge_sort Z.le kg.2) l ∧
  ∀ i kg, l !! i = Some kg → kg.1 = e + Z.of_nat (length (concat (take i (map snd l)))).
Proof.
  revert e groups. induction l as [|[k g] l IH]; intros e groups; cbn.
  { intros [= <-]. done. }
  intros H. inv_result. match goal with H : (k =? e) = true |- _ => apply Z.eqb_eq in H as -> end.
  match goal with H : check_ranks _ _ = Ok _ |- _ => apply IH in H as [-> Hk] end.
  split; [done|]. intros [|i] kg; cbn; [intros [= <-]; cbn; lia|]. intros Hi%Hk. cbn in Hi.
  rewrite Hi, length_app. lia.
Qed.

(** The groups of the ranks, smallest rank first. *)
Definition ranked (g : gathered) : list (Z * list Z) := merge_sort by_rank (map_to_list (ranks g)).
#[local] Instance by_rank_total : Total by_rank.
Proof. intros a b. unfold by_rank. lia. Qed.
#[local] Instance by_rank_trans : Transitive by_rank.
Proof. intros a b c. unfold by_rank. lia. Qed.

Lemma ranked_sorted g : StronglySorted Z.lt (map fst (ranked g)).
Proof.
  assert (NoDup (map fst (ranked g))) as Hn.
  { unfold ranked. rewrite merge_sort_Permutation. apply NoDup_fst_map_to_list. }
  pose proof (StronglySorted_merge_sort by_rank (map_to_list (ranks g))) as Hs. fold (ranked g) in Hs.
  revert Hn. induction Hs as [|a l Hs IH Ha]; cbn; [constructor|].
  intros [Hni Hn]%list.NoDup_cons. constructor; [by apply IH|].
  apply list.Forall_forall. intros k (b & -> & Hb)%list_elem_of_fmap.
  rewrite list.Forall_forall in Ha. specialize (Ha b Hb). unfold by_rank in Ha.
  assert (a.1 ≠ b.1); [|lia]. intros E. apply Hni. rewrite E. by apply list_elem_of_fmap_2.
Qed.
Lemma ranked_lists g : gathered_ok g →
  map snd (ranked g) =
  map (λ k, map car_number (at_rank rank_of k (finishers (participants g)))) (map fst (ranked g)).
Proof.
  intros Hg. rewrite map_map. apply map_ext_in. intros [k l] Hin%list_elem_of_In. cbn.
  unfold ranked in Hin. rewrite merge_sort_Permutation in Hin. apply elem_of_map_to_list in Hin.
  rewrite <- (go_ranks _ Hg), Hin. done.
Qed.
Lemma ranked_finishers g p : gathered_ok g → p ∈ finishers (participants g) →
  rank_of p ∈ map fst (ranked g).
Proof.
  intros Hg Hp. pose proof (go_ranks _ Hg (rank_of p)) as E.
  destruct (ranks g !! rank_of p) as [l|] eqn:El.
  - apply list_elem_of_fmap. exists (rank_of p, l). split; [done|].
    unfold ranked. rewrite merge_sort_Permutation. by apply elem_of_map_to_list.
  - cbn in E. symmetry in E. apply map_eq_nil in E. exfalso.
    apply (list.not_elem_of_nil p). rewrite <- E. apply list_elem_of_filter. done.
Qed.

Lemma grouped_cars ks F order :
  finish_order (map (λ k, merge_sort Z.le (map car_number (at_rank rank_of k F))) ks) order ↔
  ∃ runners, (∃ parts, Forall2 (≡ₚ) (map (λ k, at_rank rank_of k F) ks) parts ∧ runners = concat parts) ∧
    order = map car_number runners.
Proof.
  revert order. induction ks as [|k ks IH]; intros order; cbn [map].
  { split.
    - intros (parts & HF & ->). inversion HF. exists []. split; [by exists []|done].
    - intros (? & (parts & HF & ->) & ->). inversion HF. by exists []. }
  rewrite finish_order_cons. setoid_rewrite IH. split.
  - intros (p & ? & Hp & (runners & (parts & HF & ->) & ->) & ->).
    rewrite merge_sort_Permutation in Hp. symmetry in Hp.
    apply Permutation_map_inv in Hp as (q & -> & Hq).
    exists (q ++ concat parts). rewrite map_app. split; [|done].
    exists (q :: parts). by split; [constructor|].
  - intros (runners & (parts & HF & ->) & ->). inversion HF as [|? q ? ps Hq HF']; subst.
    cbn [concat]. rewrite map_app. exists (map car_number q), (map car_number (concat ps)).
    split_and!; [|by eauto|done]. rewrite merge_sort_Permutation. by rewrite Hq.
Qed.

Lemma finish_order_placed g order : gathered_ok g →
  finish_order (map (λ kg, merge_sort Z.le kg.2) (ranked g)) order ↔ placed (participants g) order.
Proof.
  intros Hg. assert (map (λ kg, merge_sort Z.le kg.2) (ranked g) =
    map (λ k, merge_sort Z.le (map car_number (at_rank rank_of k (finishers (participants g)))))
      (map fst (ranked g))) as ->.
  { rewrite <- (map_map snd (merge_sort Z.le)), (ranked_lists g Hg), !map_map. done. }
  rewrite grouped_cars. unfold placed. split.
  - intros (runners & [Hp Hs]%arrangements & ->); [eauto|apply ranked_sorted|].
    intros p. by apply ranked_finishers.
  - intros (runners & Hp & Hs & ->). exists runners. split; [|done]. apply arrangements; [|..|done].
    + apply ranked_sorted.
    + intros p. by apply ranked_finishers.
Qed.

Lemma placed_perm ps ps' order : ps ≡ₚ ps' → placed ps order ↔ placed ps' order.
Proof. intros E. unfold placed, finishers. by setoid_rewrite E. Qed.

(** The rank of a finisher is one more than the number of finishers before it. *)
Definition competition_ranks (ps : list participant) : Prop :=
  ∀ p n, p ∈ ps → finish_rank p = Some n →
    n = 1 + Z.of_nat (length (filter (λ q, rank_of q < n) (finishers ps))).
Lemma ranked_competition g groups : gathered_ok g → check_ranks 1 (ranked g) = Ok groups →
  competition_ranks (participants g).
Proof.
  intros Hg [_ Hk]%check_ranks_ok p n Hp Hn.
  assert (p ∈ finishers (participants g)) as Hf by (apply list_elem_of_filter; by rewrite Hn).
  assert (rank_of p = n) as E by (unfold rank_of; by rewrite Hn).
  pose proof (ranked_finishers g p Hg Hf) as Hin. rewrite E in Hin.
  apply list_elem_of_lookup in Hin as [i Hi].
  pose proof Hi as Hi'. rewrite list_lookup_fmap in Hi'.
  destruct (ranked g !! i) as [kg|] eqn:Ei; [|done]. injection Hi' as Ekg.
  pose proof (Hk i kg Ei) as Hrank. rewrite Ekg in Hrank. rewrite Hrank at 1. do 2 f_equal.
  rewrite <- (count_below rank_of (map fst (ranked g)) _ i n); [|apply ranked_sorted| |done].
  - rewrite ranked_lists by done. unfold runs. rewrite !length_concat. f_equal.
    rewrite firstn_map, !map_map. apply map_ext. intros k. by rewrite length_map.
  - intros q. by apply ranked_finishers.
Qed.

Lemma nothing_gathered_ok : gathered_ok nothing_gathered.
Proof.
  split; cbn.
  - intros c. by rewrite elem_of_empty, list.elem_of_nil.
  - constructor.
  - done.
  - done.
Qed.

Lemma result_groups_ok rows groups ps chs : _result_groups rows = Ok (groups, ps, chs) →
  NoDup (map car_number ps) ∧ length ps = length rows ∧ competition_ranks ps ∧
  length (concat groups) = length (finishers ps) ∧
  ∀ order, finish_order groups order ↔ placed ps order.
Proof.
  intros H. unfold _result_groups in H. cbv zeta in H. inv_result.
  match goal with H : foldR _ _ _ = Ok ?x |- _ =>
    rename x into g; apply gather_all in H as [Hg Hl]; [|apply nothing_gathered_ok] end.
  match goal with H : check_ranks _ _ = Ok _ |- _ => rename H into Hr end. fold (ranked g) in Hr.
  pose proof (merge_sort_Permutation by_car (participants g)) as E.
  assert (∀ order, finish_order groups order ↔ placed (merge_sort by_car (participants g)) order) as Ho.
  { intros order. rewrite (placed_perm _ _ _ E), <- finish_order_placed by done.
    apply check_ranks_ok in Hr as [-> _]. done. }
  split_and!; [|by rewrite E| | |done].
  - rewrite E. apply Hg.
  - pose proof (ranked_competition _ _ Hg Hr) as Hc. intros p n Hp Hn. unfold finishers in *. rewrite E in *.
    by apply (Hc p).
  - destruct (proj1 (Ho (concat groups))) as (rs & Hp & _ & ->); [by exists groups|].
    by rewrite length_map, Hp.
Qed.

(** ** Settlements *)
#[local] Instance by_combination_total : Total by_combination.
Proof.
  intros [a pa] [b pb]. unfold by_combination. cbn. revert b.
  induction a as [|x a IH]; intros [|y b]; cbn; auto.
  destruct (Z.lt_trichotomy x y) as [?|[->|?]].
  - left. by rewrite (proj2 (Z.ltb_lt x y)) by done.
  - rewrite Z.ltb_irrefl, Z.eqb_refl. apply IH.
  - right. by rewrite (proj2 (Z.ltb_lt y x)) by done.
Qed.

(** What the loop over the payout rows has found. *)
Record settling (expected : gset (list Z)) (acc : gset (list Z) * list outcome * list pyval) : Prop := {
  st_found : ∀ t, t ∈ acc.1.1 ↔ t ∈ map combination acc.1.2;
  st_nodup : NoDup (map combination acc.1.2);
  st_expected : ∀ t, t ∈ acc.1.1 → t ∈ expected }.
Lemma settle_row_ok expected width acc r acc' : settling expected acc →
  settle_row expected width acc r = Ok acc' → settling expected acc'.
Proof.
  destruct acc as [[found outs] chs]. intros [Hf Hn He] H. unfold settle_row in H. inv_result.
  match goal with H : (let '(_, _) := ?x in _) = Ok _ |- _ => destruct x as [cars rule] end.
  inv_result. cbn in Hf, Hn, He. split; cbn.
  - intros t. rewrite map_app, elem_of_union, elem_of_app, elem_of_singleton, Hf. cbn.
    rewrite list_elem_of_singleton. tauto.
  - rewrite map_app. apply list.NoDup_app. split_and!; [done| |apply NoDup_singleton].
    intros t Ht ->%list_elem_of_singleton. by apply Hf in Ht.
  - intros t [->%elem_of_singleton|Ht]%elem_of_union; auto.
Qed.
Lemma settle_all expected width acc rows acc' : settling expected acc →
  foldR (settle_row expected width) acc rows = Ok acc' → settling expected acc'.
Proof.
  revert acc. induction rows as [|r rows IH]; intros acc Ha; cbn; [by intros [= ->]|].
  intros (acc1 & H1%settle_row_ok & H)%bind_Ok; [|done]. by apply (IH acc1).
Qed.

(** A settlement that is accepted: every expected combination once, in order, or
    the refund when there is none. *)
Lemma settlement_ok rows groups width s : _settlement rows groups width = Ok s →
  (_outcomes groups width = ∅ ∧ s = Settlement "full_refund" [] []) ∨
  (_outcomes groups width ≠ ∅ ∧ settled_status s ≠ "full_refund" ∧
   NoDup (map combination (outcomes s)) ∧ Sorted by_combination (outcomes s) ∧
   ∀ t, t ∈ map combination (outcomes s) ↔ t ∈ _outcomes groups width).
Proof.
  intros H. unfold _settlement in H. cbv zeta in H. inv_result. case_bool_decide as Ee.
  { left. inv_result. split; [done|]. case_match; by inv_result. }
  right. inv_result.
  match goal with H : foldR _ _ _ = Ok ?x |- _ => rename H into Hf; destruct x as [[found outs] chs] end.
  inv_result. apply settle_all in Hf as [Hf Hn _].
  2: { split; cbn; [|constructor|set_solver]. intros t. by rewrite elem_of_empty, list.elem_of_nil. }
  cbn [fst snd] in Hf, Hn. cbn [outcomes settled_status]. pose proof (merge_sort_Permutation by_combination outs) as E.
  split_and!; [done|by destruct (_ <? _)%nat|by rewrite E|apply Sorted_merge_sort, _|].
  intros t. rewrite E, <- Hf. match goal with H : found = _ |- _ => by rewrite H end.
Qed.

Lemma finish_order_length groups order : finish_order groups order → length order = length (concat groups).
Proof. intros (parts & HF & ->). symmetry. by apply Permutation_length, concat_perm. Qed.
Lemma outcomes_empty groups w :
  _outcomes groups w = ∅ ↔ (length (concat groups) < w)%nat.
Proof.
  split; intros H.
  - destruct (decide (length (concat groups) < w)%nat) as [|N]; [done|]. exfalso.
    assert (take w (concat groups) ∈ _outcomes groups w); [|set_solver].
    apply outcomes_spec. split; [lia|]. exists (concat groups). split; [|done]. by exists groups.
  - apply elem_of_equiv_empty_L. intros t [? _]%outcomes_spec. lia.
Qed.

(** ** Consistent races *)

(** A settlement of the bet on the first [w] cars of [ps]. *)
Definition pays_exactly (ps : list participant) (w : nat) (s : settlement) : Prop :=
  if (length (finishers ps) <? w)%nat then s = Settlement "full_refund" [] []
  else settled_status s ≠ "full_refund" ∧ Sorted by_combination (outcomes s) ∧
       NoDup (map combination (outcomes s)) ∧
       ∀ t, t ∈ map combination (outcomes s) ↔ ∃ order, placed ps order ∧ t = take w order.

Lemma settlement_pays rows results groups ps chs w s :
  _result_groups results = Ok (groups, ps, chs) → _settlement rows groups w = Ok s → pays_exactly ps w s.
Proof.
  intros (_ & _ & _ & Hl & Ho)%result_groups_ok Hs. unfold pays_exactly. rewrite <- Hl.
  destruct (settlement_ok _ _ _ _ Hs) as [[He ->]|(He & Hst & Hn & Hso & Hin)].
  - apply outcomes_empty, Nat.ltb_lt in He. by rewrite He.
  - rewrite outcomes_empty in He. rewrite (proj2 (Nat.ltb_ge _ _)) by lia. split_and!; [done..|].
    intros t. rewrite Hin, outcomes_spec. setoid_rewrite Ho.
    split; [by intros [_ ?]|]. split; [lia|done].
Qed.

(** The parts of a race that is accepted. *)
Lemma accepted_race_parts strptime_error key info results payoffs c : check_race strptime_error key info results payoffs = Ok c →
  ∃ groups chs two three rows2 rows3, _result_groups results = Ok (groups, c_participants c, chs) ∧
    c_settlements c = [("2車単", two); ("3連単", three)] ∧
    _settlement rows2 groups 2 = Ok two ∧ _settlement rows3 groups 3 = Ok three.
Proof.
  intros H. unfold check_race in H. inv_result. destruct info as [|m [|? ?]]; try done. inv_result.
  match goal with H : (let '(_, _) := ?x in _) = Ok _ |- _ => destruct x as [[groups ps] chs] end.
  inv_result. cbn [c_participants c_settlements].
  match goal with H : mapR _ _ = Ok _ |- _ => cbn in H; inv_result end.
  unfold settle_bet in *. inv_result. by eexists _, _, _, _, _, _.
Qed.

(** C19: in a race that is accepted, no car is listed twice, every rank is one more
    than the number of finishers before it, and each of the two bets is paid exactly
    once for every finish order the ranks allow: cut to its first two or three cars,
    in ascending order; or it is refunded when fewer cars finished. *)
Theorem accepted_race_pays_exactly strptime_error key info results payoffs c :
  check_race strptime_error key info results payoffs = Ok c →
  NoDup (map car_number (c_participants c)) ∧ length (c_participants c) = length results ∧
  competition_ranks (c_participants c) ∧
  ∃ two three, c_settlements c = [("2車単", two); ("3連単", three)] ∧
    pays_exactly (c_participants c) 2 two ∧ pays_exactly (c_participants c) 3 three.
Proof.
  intros (groups & chs & two & three & rows2 & rows3 & Hg & -> & H2 & H3)%accepted_race_parts.
  destruct (result_groups_ok _ _ _ _ Hg) as (? & ? & ? & _). split_and!; [done..|]. exists two, three. split; [done|].
  split; by eapply settlement_pays.
Qed.

(** Four cars on race day: 2 and 3 share the second place behind 1, 4 fell. *)
Definition example_info : list row :=
  [[("Race_ID", "r"); ("Race_Status", "held"); ("Date", "20240105"); ("Race_Number", "7");
    ("Venue", "松山"); ("Unit", "4")]].
Definition example_result (car rank status : string) : row :=
  [("Race_ID", "r"); ("Car", car); ("Player_ID", ("01234" ++ car)%string); ("Rank", rank); ("Status", status)].
Definition example_results : list row :=
  [example_result "3" "2" ""; example_result "1" "1" ""; example_result "4" "" "落車";
   example_result "2" "2" ""].
Definition example_payoff (bet out pay : string) : row :=
  [("Race_ID", "r"); ("Bet_Type", bet); ("Outcome", out); ("Payout", pay)].
Definition example_payoffs : list row :=
  [example_payoff "2車単" "1-3" "480"; example_payoff "3連単" "1-3-2" "1,230";
   example_payoff "2車単" "1月2日" "510"; example_payoff "3連単" "2001/2/3" "990"].
Definition example_race : result consistent :=
  check_race (λ _, "") "20240105_松山7" example_info example_results example_payoffs.
Example example_settlements :
  (λ c, map (λ bs, map (λ o, (combination o, payout_yen o)) (outcomes bs.2)) (c_settlements c))
    <$> match example_race with Ok c => Some c | Err _ => None end =
  Some [[([1; 2], 510); ([1; 3], 480)]; [([1; 2; 3], 990); ([1; 3; 2], 1230)]].
Proof. vm_compute. reflexivity. Qed.
Lemma accepted_race_pays_exactly_witness : ∃ c, example_race = Ok c ∧
  ∃ two three, c_settlements c = [("2車単", two); ("3連単", three)] ∧
    pays_exactly (c_participants c) 2 two ∧ pays_exactly (c_participants c) 3 three.
Proof.
  destruct example_race as [c|e] eqn:E; [|by vm_compute in E]. exists c. split; [done|].
  by destruct (accepted_race_pays_exactly _ _ _ _ _ _ E) as (_ & _ & _ & H).
Defined.
