(* ===== verification/Dataset.v ===== *)
(** ml/race_conditions.py, ml/feature_extraction.py (the fields of a rider),
    ml/position_features.py and ml/dataset.py: which records may be learned from, and
    the rows they give.

    A record is a decoded JSON document.  Times and numbers are read by [Readers]. *)
From Stdlib Require Import Ascii SpecFloat.
From S2P Require Import Prelude PyString PyValue PyText PyFloat.

(** ** Documents *)
(** [v.get(k)] *)
Definition get (v : pyval) (k : string) : result pyval := o ← py_get v k; Ok (default VNone o).
(** [v.get(k) or {}] *)
Definition get_dict (v : pyval) (k : string) : result pyval := x ← get v k; Ok (py_or x (VDict [])).
(** [dict(Counter(l))]: a count per value, in the order of first occurrence *)
Definition count_one (d : pydict) (k : string) : pydict :=
  dict_set k (VInt (match get_or_none k d with VInt n => n + 1 | _ => 1 end)) d.
Definition counted (l : list string) : pydict := foldl count_one [] l.
Definition is_list (v : pyval) : bool := match v with VList _ => true | _ => false end.
(** [any(f(x) for x in l)] *)
Fixpoint existsR {A} (f : A → result bool) (l : list A) : result bool :=
  match l with
  | [] => Ok false
  | x :: l' => b ← f x; if (b : bool) then Ok true else existsR f l'
  end.
(** [v == s] *)
Definition is_text (v : pyval) (s : string) : bool := py_eqb v (VStr s).

(** ** ml/race_conditions.py *)
Definition CONDITIONS : list string := ["race_status"; "withdrawn_car_numbers"].
Definition require_standard_conditions (conditions : pyval) : result unit :=
  match conditions with
  | VDict d =>
      reject_if (negb (forallb (λ k, bool_decide (k ∈ CONDITIONS)) (keys d)
                       && forallb (λ k, dict_has k d) CONDITIONS)) ValueError "race_conditions_contract_invalid";;
      reject_if (negb (is_text (get_or_none "race_status" d) "scheduled")) ValueError
        "nonstandard_race_requires_review";;
      let withdrawn := get_or_none "withdrawn_car_numbers" d in
      reject_if (negb (is_list withdrawn)) ValueError "race_conditions_contract_invalid";;
      reject_if (truthy withdrawn) ValueError "withdrawal_requires_review"
  | _ => raise ValueError "race_conditions_contract_invalid"
  end.

(** The check of the conditions that [training_input] declares. *)
Definition declared_conditions (input : pydict) : result unit :=
  match dict_get "race_conditions" input with
  | Some conditions => require_standard_conditions conditions
  | None => Ok tt
  end.

Section dataset.
Context `{Readers}.

(** [value.replace("Z", "+00:00")] read as a time *)
Definition read_time (s : string) : result datetime := fromisoformat (replace_char "Z" "+00:00" s).

(** ** ml/feature_extraction.py *)
Definition num (value : pyval) : result (option spec_float) :=
  if is_none value || is_text value "" then Ok None
  else match py_float value with
       | Ok f => Ok (Some f)
       | Err e => if isinstance e TypeError || isinstance e ValueError then Ok None else Err e
       end.
Definition float_or_none (o : option spec_float) : pyval :=
  match o with Some f => VFloat f | None => VNone end.
(** [num(v.get(k))] *)
Definition num_at (v : pyval) (k : string) : result pyval := x ← get v k; o ← num x; Ok (float_or_none o).

Definition positive (f : spec_float) : bool := SFltb (S754_zero false) f.
Definition finish_of (item : pyval) : result (list spec_float) :=
  raw ← match item with VDict d => Ok (get_or_none "finish" d) | _ => Ok item end;
  value ← num raw;
  Ok (match value with Some f => if positive f then [f] else [] | None => [] end).
Definition current_meet_avg (player : pyval) : result pyval :=
  meet ← get_dict player "current_meet";
  r ← get meet "results";
  items ← iter_text (py_or r (VList []));
  finishes ← mapR finish_of items;
  match concat finishes with
  | [] => Ok VNone
  | l => n ← float_of_Z (Z.of_nat (length l)); Ok (VFloat (float_div (float_sum l) n))
  end.

Definition extract_player_model_fields (player : pyval) : result pydict :=
  c ← getitem player "car_number";
  car ← int_value c;
  recent ← get_dict player "recent_form";
  comments ← get_dict player "comments";
  factors ← get_dict comments "parsed_factors";
  line_position ← num_at player "line_position";
  style ← get player "style";
  race_score ← num_at player "race_score";
  s ← num_at player "S"; h ← num_at player "H"; b ← num_at player "B";
  line_id ← get player "line_id";
  line_length ← num_at player "line_length";
  win ← num_at recent "win_rate"; top2 ← num_at recent "top2_rate"; top3 ← num_at recent "top3_rate";
  avg ← num_at recent "avg_finish";
  meet ← current_meet_avg player;
  condition ← get_dict player "condition"; condition_score ← num_at condition "score";
  bank ← get_dict player "bank_fit"; bank_score ← num_at bank "score";
  f1 ← num_at factors "condition"; f2 ← num_at factors "training"; f3 ← num_at factors "equipment";
  f4 ← num_at factors "confidence"; f5 ← num_at factors "motivation"; f6 ← num_at factors "fatigue";
  Ok [("car_number", VInt car); ("style", style); ("race_score", race_score); ("S", s); ("H", h); ("B", b);
      ("line_id", line_id); ("line_position", line_position); ("line_length", line_length);
      ("is_line_leader", VInt (of_bool (py_eqb line_position (VInt 1))));
      ("recent_win_rate", win); ("recent_top2_rate", top2); ("recent_top3_rate", top3);
      ("recent_avg_finish", avg); ("current_meet_avg_finish", meet);
      ("condition_score", condition_score); ("bank_fit_score", bank_score);
      ("comment_condition", f1); ("comment_training", f2); ("comment_equipment", f3);
      ("comment_confidence", f4); ("comment_motivation", f5); ("comment_fatigue", f6)].

(** ** ml/position_features.py *)
Definition NUMERIC_FEATURES : list string :=
  ["race_score"; "S"; "H"; "B"; "line_position"; "line_length"; "is_line_leader"; "recent_win_rate";
   "recent_top2_rate"; "recent_top3_rate"; "recent_avg_finish"; "current_meet_avg_finish"; "condition_score";
   "bank_fit_score"; "comment_condition"; "comment_training"; "comment_equipment"; "comment_confidence";
   "comment_motivation"; "comment_fatigue"].
Definition STYLE_FEATURES : list string := ["style_nige"; "style_ryo"; "style_oi"].
Definition FEATURE_COLUMNS : list string := NUMERIC_FEATURES ++ STYLE_FEATURES.
Definition _float_or_nan (value : pyval) : result spec_float :=
  if is_none value || is_text value "" then Ok S754_nan
  else match py_float value with
       | Ok f => Ok (if float_is_finite f then f else S754_nan)
       | Err e => if isinstance e TypeError || isinstance e ValueError then Ok S754_nan else Err e
       end.
Definition one_hot (b : bool) : spec_float := if b then float_one else S754_zero false.
Definition row_to_features (row : pydict) : result (list spec_float) :=
  values ← mapR (λ name, _float_or_nan (get_or_none name row)) NUMERIC_FEATURES;
  let style := py_str (py_or (get_or_none "style" row) (VStr "")) in
  Ok (values ++ map (λ s, one_hot (String.eqb style s)) ["逃"; "両"; "追"]).

(** ** Eligibility *)
Definition TRAINING_SCHEMA : string := "keirin-training-input-v1".
(** [_time_key], where [None] is minus infinity *)
Definition _time_key (value : pyval) : result (option Z) :=
  match value with
  | VStr s =>
      if truthy_s s then
        match (d ← read_time s; posix d) with
        | Ok t => Ok (Some t)
        | Err e => if isinstance e ValueError then Ok None else Err e
        end
      else Ok None
  | _ => Ok None
  end.
Definition _aware_time (value : pyval) : result (option Z) :=
  match value with
  | VStr s =>
      if truthy_s s then
        match read_time s with
        | Ok d => if zoned d then t ← posix d; Ok (Some t) else Ok None
        | Err e => if isinstance e ValueError then Ok None else Err e
        end
      else Ok None
  | _ => Ok None
  end.

(** A verdict and its reason. *)
Abbreviation verdict := (bool * string)%type.
Definition time_is (o : option Z) (t : Z) : bool := match o with Some t' => t' =? t | None => false end.
Definition _schedule_order (record training_input : pyval) : result verdict :=
  metadata ← get_dict record "metadata";
  source_snapshot ← get_dict metadata "source_snapshot";
  snapshot_eligibility ← get_dict source_snapshot "snapshot_eligibility";
  scheduled_raw ← get snapshot_eligibility "scheduled_start";
  if is_none scheduled_raw then Ok (true, "schedule_unavailable") else
  p ← get record "prediction_timestamp"; prediction ← _aware_time p;
  c ← get training_input "captured_at"; captured ← _aware_time c;
  r ← get metadata "result_timestamp"; result ← _aware_time r;
  scheduled ← _aware_time scheduled_raw;
  match prediction, captured, result, scheduled with
  | Some tp, Some tc, Some tr, Some ts =>
      if negb (tc =? tp) || negb ((tp <? ts) && (ts <=? tr)) then Ok (false, "invalid_schedule_order") else
      race ← get_dict training_input "race";
      race_scheduled_raw ← get race "scheduled_start_jst";
      if is_none race_scheduled_raw then Ok (true, "schedule_order_valid") else
      race_scheduled ← _aware_time race_scheduled_raw;
      Ok (if time_is race_scheduled ts then (true, "schedule_order_valid") else (false, "scheduled_start_mismatch"))
  | _, _, _, _ => Ok (false, "invalid_schedule_time")
  end.

(** An early return: [refuse b reason k] is [if b: return False, reason] before [k]. *)
Definition refuse (bad : bool) (reason : string) (k : result verdict) : result verdict :=
  if bad then Ok (false, reason) else k.
Definition supervised_eligibility (record : pyval) : result verdict :=
  metadata ← get_dict record "metadata";
  eligibility ← get_dict metadata "training_eligibility";
  training_input ← get record "training_input";
  scope ← get metadata "evaluation_scope";
  refuse (negb (is_text scope "prospective")) "not_prospective" (
  order ← get metadata "temporal_order";
  refuse (negb (is_text order "prediction_before_result")) "not_pre_result" (
  marked ← get eligibility "supervised_training";
  refuse (negb (is_true marked)) "not_marked_training_eligible" (
  match training_input with
  | VDict input =>
      match declared_conditions input with
      | Err e => if isinstance e ValueError then Ok (false, exn_msg e) else Err e
      | Ok _ =>
          refuse (negb (is_text (get_or_none "schema_version" input) TRAINING_SCHEMA)) "training_schema_mismatch" (
          refuse (negb (is_text (get_or_none "evaluation_scope" input) "prospective"))
            "training_input_not_prospective" (
          schedule ← _schedule_order record training_input;
          refuse (negb schedule.1) schedule.2 (
          refuse (match get_or_none "players" input with VList l => (length l <? 4)%nat | _ => true end)
            "players_missing" (
          outcome ← get record "outcome_combo";
          refuse (match outcome with VStr s => negb (length (split_on "-" s) =? 3)%nat | _ => true end)
            "outcome_missing" (Ok (true, "eligible"))))))
      end
  | _ => Ok (false, "training_input_missing")
  end))).

(** [str(record.get("race_id") or "").strip()] *)
Definition race_id_of (record : pyval) : result string :=
  id ← get record "race_id"; Ok (strip_text (py_str (py_or id (VStr "")))).
(** [a > b] *)
Definition later (a b : option Z) : bool :=
  match a, b with Some x, Some y => y <? x | Some _, None => true | None, _ => false end.
(** The body of the loop: the records kept, by race, and the reasons of the exclusions. *)
Definition keep_latest (acc : pydict * list string) (record : pyval) : result (pydict * list string) :=
  let '(selected, excluded) := acc in
  v ← supervised_eligibility record;
  if negb v.1 then Ok (selected, excluded ++ [v.2]) else
  race_id ← race_id_of record;
  if negb (truthy_s race_id) then Ok (selected, excluded ++ ["race_id_missing"]) else
  match dict_get race_id selected with
  | None => Ok (dict_set race_id record selected, excluded)
  | Some current =>
      new ← get record "prediction_timestamp"; new_key ← _time_key new;
      old ← get current "prediction_timestamp"; old_key ← _time_key old;
      Ok (if later new_key old_key then dict_set race_id record selected else selected, excluded)
  end.
Definition select_latest_eligible_per_race (records : list pyval) : result (list pyval * pydict) :=
  acc ← foldR keep_latest ([], []) records; Ok (map snd acc.1, counted acc.2).

(** ** Rows *)
(** [9999.9] *)
Definition no_ticket : spec_float := S754_finite false 5497503163298611 (-39).
(** [num(v) == 9999.9] *)
Definition is_no_ticket (v : pyval) : result bool :=
  n ← num v; Ok match n with Some f => SFeqb f no_ticket | None => false end.
Definition labels (outcome : list Z) (car : Z) : pydict :=
  let at_place i := VInt (of_bool (bool_decide (outcome !! i = Some car))) in
  [("target_first", at_place 0%nat); ("target_second", at_place 1%nat); ("target_third", at_place 2%nat);
   ("target_top3", VInt (of_bool (bool_decide (car ∈ outcome))))].
Definition rider_row (record race : pyval) (known_odds : nat) (outcome : list Z) (player : pyval) : result pydict :=
  features ← extract_player_model_fields player;
  car ← py_int (get_or_none "car_number" features);
  race_id ← get record "race_id";
  date ← get race "date"; venue ← get race "venue"; race_number ← get race "race_number";
  prediction ← get record "prediction_timestamp";
  Ok ([("race_id", race_id); ("date", date); ("venue", venue); ("race_number", race_number);
       ("prediction_timestamp", prediction)] ++ features
      ++ [("known_trifecta_odds_count", VInt (Z.of_nat known_odds))] ++ labels outcome car).
Definition int_at (k : string) (row : pydict) : Z := match get_or_none k row with VInt n => n | _ => 0 end.
(** [sum(r[k] for r in rows)] *)
Definition total (k : string) (rows : list pydict) : Z := foldr Z.add 0 (map (int_at k) rows).
Definition rider_rows (record : pyval) : result (list pydict) :=
  v ← supervised_eligibility record;
  reject_if (negb v.1) ValueError ("record is not eligible for supervised training: " ++ v.2);;
  training ← getitem record "training_input";
  race ← get_dict training "race";
  combo ← getitem record "outcome_combo";
  outcome ← mapR read_int (split_on "-" (py_str combo));
  reject_if (negb (length (remove_dups outcome) =? 3)%nat) ValueError
    "outcome_combo must contain three distinct riders";;
  odds ← get_dict training "odds";
  known_odds ← get_dict odds "trifecta";
  known ← match known_odds with VDict d => Ok d | _ => raise AttributeError "values" end;
  marked ← existsR is_no_ticket (map snd known);
  reject_if marked ValueError "training input contains K-Dreams 9999.9 no-ticket marker";;
  p ← getitem training "players";
  players ← iter_text p;
  rows ← mapR (rider_row record race (length known) outcome) (List.filter is_dict players);
  reject_if (negb (total "target_first" rows =? 1)) ValueError
    "exactly one first-place rider must exist in training rows";;
  reject_if (negb (total "target_second" rows =? 1)) ValueError
    "exactly one second-place rider must exist in training rows";;
  reject_if (negb (total "target_third" rows =? 1)) ValueError
    "exactly one third-place rider must exist in training rows";;
  reject_if (negb (total "target_top3" rows =? 3)) ValueError
    "exactly three top-3 riders must exist in training rows";;
  Ok rows.

(** ** The table *)
(** [(_time_key(...), str(r.get("race_id") or ""))] of a record *)
Definition sort_key (record : pyval) : result (option Z * string) :=
  p ← get record "prediction_timestamp"; t ← _time_key p;
  id ← get record "race_id"; Ok (t, py_str (py_or id (VStr ""))).
Definition key_le (a b : option Z * string) : bool :=
  later b.1 a.1 || (negb (later a.1 b.1) && str_le a.2 b.2).
(** [sorted], which is stable *)
Fixpoint insert_key (x : (option Z * string) * pyval) (l : list ((option Z * string) * pyval)) :=
  match l with
  | [] => [x]
  | y :: l' => if key_le y.1 x.1 then y :: insert_key x l' else x :: l
  end.
Definition build_rows (records : list pyval) : result (list pydict * pydict) :=
  s ← select_latest_eligible_per_race records;
  keyed ← mapR (λ r, k ← sort_key r; Ok (k, r)) s.1;
  rows ← mapR rider_rows (map snd (foldl (λ acc x, insert_key x acc) [] keyed));
  let rows := concat rows in
  Ok (rows, [("input_records", VInt (Z.of_nat (length records)));
             ("eligible_unique_races", VInt (Z.of_nat (length s.1)));
             ("rider_rows", VInt (Z.of_nat (length rows))); ("excluded", VDict s.2);
             ("selection_policy", VStr "latest_eligible_pre_result_snapshot_per_race");
             ("training_schema", VStr TRAINING_SCHEMA)]).
End dataset.
