(* ===== verification/DatasetFacts.v ===== *)
(** Which records may be learned from, what their rows are labelled with, and that no
    feature depends on the outcome. *)
From Stdlib Require Import Ascii SpecFloat.
From S2P Require Import Prelude PyString PyValue PyText PyFloat Dataset.

(** ** Navigation *)
(** The entry of a dictionary, [None] where there is none. *)
Definition field (k : string) (v : pyval) : pyval :=
  match v with VDict d => get_or_none k d | _ => VNone end.

Lemma get_Ok v k x : get v k = Ok x → x = field k v ∧ is_dict v = true.
Proof. unfold get. destruct v; try done. cbn. by intros [= <-]. Qed.
Lemma get_of_dict d k : get (VDict d) k = Ok (get_or_none k d).
Proof. done. Qed.
Lemma getitem_Ok v k x : getitem v k = Ok x → x = field k v ∧ is_dict v = true.
Proof. destruct v; try done. cbn. unfold get_or_none. destruct (dict_get k kvs); [|done]. by intros [= <-]. Qed.
(** [v.get(k) or {}] has the entries of [v.get(k)]. *)
Lemma get_dict_Ok v k x : get_dict v k = Ok x →
  (∀ k', field k' x = field k' (field k v)) ∧ (truthy x = true → x = field k v) ∧ is_dict v = true.
Proof.
  intros (y & [-> Hd]%get_Ok & [= <-])%bind_Ok. unfold py_or. destruct (truthy (field k v)) eqn:E; [done|].
  split_and!; [|done|done]. intros k'. destruct (field k v) as [| | | | | | |[|]]; done.
Qed.
Lemma is_text_true v s : is_text v s = true ↔ v = VStr s.
Proof. apply py_eqb_str. Qed.
Lemma negb_is_text v s : negb (is_text v s) = false ↔ v = VStr s.
Proof. by rewrite negb_false_iff, is_text_true. Qed.
Lemma refuse_true b why k w : refuse b why k = Ok (true, w) ↔ b = false ∧ k = Ok (true, w).
Proof. unfold refuse. destruct b; naive_solver. Qed.

(** Turn the reads of a successful run into [field]s. *)
Ltac inv_reads :=
  inv_result;
  repeat match goal with
  | H : get _ _ = Ok _ |- _ => apply get_Ok in H as [H ?]; try subst
  | H : getitem _ _ = Ok _ |- _ => apply getitem_Ok in H as [H ?]; try subst
  | H : refuse _ _ _ = Ok (true, _) |- _ => apply refuse_true in H as [? H]; inv_result
  end.

(** ** Standard conditions *)
Lemma standard_conditions_ok v : require_standard_conditions v = Ok tt →
  field "race_status" v = VStr "scheduled" ∧ field "withdrawn_car_numbers" v = VList [] ∧
  ∃ d, v = VDict d ∧ ∀ k, k ∈ keys d ↔ k ∈ CONDITIONS.
Proof.
  unfold require_standard_conditions. intros H. destruct v; try done. inv_result.
  repeat match goal with H : is_text _ _ = true |- _ => apply is_text_true in H end. cbn [field].
  match goal with H : forallb _ _ && forallb _ _ = true |- _ => apply andb_true_iff in H as [Hk Hc] end.
  split_and!; [done| |].
  - destruct (get_or_none "withdrawn_car_numbers" kvs) as [| | | | |[|]| |]; done.
  - exists kvs. split; [done|]. intros k. split.
    + intros Hin%list_elem_of_In. eapply forallb_forall in Hk; [|exact Hin]. by apply bool_decide_eq_true in Hk.
    + intros Hin%list_elem_of_In. eapply forallb_forall in Hc; [|exact Hin].
      destruct (decide (k ∈ keys kvs)) as [|Hn]; [done|]. unfold dict_has in Hc.
      by rewrite dict_get_not_in in Hc.
Qed.

(** The classes [prepare] catches. *)
Definition handled (c : exc_class) : bool :=
  existsb (issubclass c) [ValueError; TypeError; KeyError; AttributeError; OverflowError].
Abbreviation handles := (raises handled).
(** Follow the text of a function, leaving the functions it calls folded. *)
Ltac handles_steps :=
  repeat first
    [ solve [eauto with raises]
    | match goal with
      | |- raises _ (_ ≫= _) => apply raises_bind; [|intros ?]
      | |- raises _ (match ?x with _ => _ end) => destruct x
      end ].

Section facts.
Context `{Readers}.

(** ** Eligibility *)
(** The value is the text of a time with a zone. *)
Definition aware (v : pyval) (t : Z) : Prop := _aware_time v = Ok (Some t).
Definition metadata (record : pyval) : pyval := field "metadata" record.
Definition training_input (record : pyval) : pyval := field "training_input" record.
Definition scheduled_start (record : pyval) : pyval :=
  field "scheduled_start" (field "snapshot_eligibility" (field "source_snapshot" (metadata record))).
(** The prediction was captured before the race started, which ended before the result. *)
Definition schedule_respected (record : pyval) : Prop :=
  ∃ predicted scheduled settled,
    aware (field "prediction_timestamp" record) predicted ∧
    aware (field "captured_at" (training_input record)) predicted ∧
    aware (scheduled_start record) scheduled ∧
    aware (field "result_timestamp" (metadata record)) settled ∧
    predicted < scheduled ≤ settled.

Lemma schedule_ok record w : _schedule_order record (training_input record) = Ok (true, w) →
  scheduled_start record = VNone ∨ schedule_respected record.
Proof.
  unfold _schedule_order. intros Hrun. inv_reads.
  repeat match goal with H : get_dict _ _ = Ok _ |- _ => apply get_dict_Ok in H as (H & _ & _) end.
  unfold schedule_respected, scheduled_start, metadata.
  match goal with H : ∀ k, field k ?x = field k (field "snapshot_eligibility" ?y) |- _ =>
    rewrite (H "scheduled_start") in * end.
  match goal with H : ∀ k, field k ?x = field k (field "source_snapshot" ?y) |- _ =>
    rewrite (H "snapshot_eligibility") in * end.
  match goal with H : ∀ k, field k ?x = field k (field "metadata" ?y) |- _ =>
    rewrite ?(H "source_snapshot") in * end.
  destruct (is_none _) eqn:En in Hrun.
  { left. by destruct (field "scheduled_start" _). }
  right. inv_reads.
  do 4 (case_match; [|discriminate]). destruct (negb _ || negb _) eqn:E in Hrun; [discriminate|].
  apply orb_false_iff in E as [E1%negb_false_iff%Z.eqb_eq E2%negb_false_iff]. apply andb_true_iff in E2 as [? ?].
  subst. match goal with H : ∀ k, field k _ = field k (field "metadata" record) |- _ =>
    rewrite ?(H "result_timestamp") in * end.
  unfold aware. eauto 10 with lia.
Qed.

(** What [supervised_eligibility] accepts. *)
Record eligible (record : pyval) (input : pydict) (players : list pyval) (outcome : string) : Prop := {
  el_scope : field "evaluation_scope" (metadata record) = VStr "prospective";
  el_order : field "temporal_order" (metadata record) = VStr "prediction_before_result";
  el_marked : field "supervised_training" (field "training_eligibility" (metadata record)) = VBool true;
  el_input : training_input record = VDict input;
  el_conditions c : dict_get "race_conditions" input = Some c → require_standard_conditions c = Ok tt;
  el_schema : get_or_none "schema_version" input = VStr TRAINING_SCHEMA;
  el_input_scope : get_or_none "evaluation_scope" input = VStr "prospective";
  el_schedule : scheduled_start record = VNone ∨ schedule_respected record;
  el_players : get_or_none "players" input = VList players ∧ (4 ≤ length players)%nat;
  el_outcome : field "outcome_combo" record = VStr outcome ∧ length (split_on "-" outcome) = 3%nat }.

Lemma eligible_ok record w : supervised_eligibility record = Ok (true, w) →
  ∃ input players outcome, eligible record input players outcome.
Proof.
  unfold supervised_eligibility. intros Hrun. inv_reads.
  repeat match goal with H : get_dict _ _ = Ok _ |- _ => apply get_dict_Ok in H as (H & _ & _) end.
  destruct (field "training_input" record) as [| | | | | | |input] eqn:Hin; try discriminate.
  destruct (declared_conditions input) as [[]|] eqn:Hc in Hrun; [|destruct (isinstance _ _); discriminate].
  inv_reads. repeat match goal with H : is_text _ _ = true |- _ => apply is_text_true in H end.
  match goal with H : _schedule_order _ _ = Ok ?x |- _ => destruct x as [ok reason]; cbn in *; subst ok;
    rewrite <- Hin in H; apply schedule_ok in H end.
  destruct (get_or_none "players" input) as [| | | | |players| |] eqn:Hp; try discriminate.
  destruct (field "outcome_combo" record) as [| | | |outcome| | |] eqn:Ho; try discriminate.
  inv_result. exists input, players, outcome.
  rewrite Ha in *. repeat match goal with H : ∀ k, field k _ = _ |- _ => rewrite H in *; clear H end.
  split; unfold metadata; try done.
  - match goal with H : is_true ?v = true |- _ => by destruct v as [|[]| | | | | |] end.
  - intros c E. unfold declared_conditions in Hc. by rewrite E in Hc.
  - split; [done|]. apply Nat.leb_gt. done.
  - split; [done|]. by apply Nat.eqb_eq.
Qed.

(** ** The fields of a rider *)
Definition FIELDS : list string :=
  ["car_number"; "style"; "race_score"; "S"; "H"; "B"; "line_id"; "line_position"; "line_length"; "is_line_leader";
   "recent_win_rate"; "recent_top2_rate"; "recent_top3_rate"; "recent_avg_finish"; "current_meet_avg_finish";
   "condition_score"; "bank_fit_score"; "comment_condition"; "comment_training"; "comment_equipment";
   "comment_confidence"; "comment_motivation"; "comment_fatigue"].
Definition TARGETS : list string := ["target_first"; "target_second"; "target_third"; "target_top3"].
Lemma fields_shape player features : extract_player_model_fields player = Ok features →
  keys features = FIELDS ∧ ∃ c car, getitem player "car_number" = Ok c ∧ int_value c = Ok car ∧
    dict_get "car_number" features = Some (VInt car).
Proof. unfold extract_player_model_fields. intros Hrun. inv_result. split; [done|]. eauto 10. Qed.

(** The columns of a row that are not labels. *)
Definition without_labels (row : pydict) : pydict :=
  List.filter (λ kv, negb (bool_decide (kv.1 ∈ TARGETS))) row.
Definition car_of (row : pydict) : Z := int_at "car_number" row.
Definition row_head (record race : pyval) : pydict :=
  [("race_id", field "race_id" record); ("date", field "date" race); ("venue", field "venue" race);
   ("race_number", field "race_number" race);
   ("prediction_timestamp", field "prediction_timestamp" record)].
Lemma row_shape record race n outcome player row : rider_row record race n outcome player = Ok row →
  ∃ features car, extract_player_model_fields player = Ok features ∧ keys features = FIELDS ∧
    dict_get "car_number" features = Some (VInt car) ∧
    (∃ c, getitem player "car_number" = Ok c ∧ int_value c = Ok car) ∧
    row = row_head record race ++ features ++ [("known_trifecta_odds_count", VInt (Z.of_nat n))]
            ++ labels outcome car.
Proof.
  unfold rider_row. intros Hrun. inv_reads.
  match goal with H : extract_player_model_fields _ = Ok ?f |- _ => pose proof (fields_shape _ _ H) as (Hk & c & car & Hg & Hi & Hc) end.
  exists a, car. split_and!; [done..|by eexists|].
  match goal with H : py_int (get_or_none _ _) = Ok ?x |- _ => unfold get_or_none in H; rewrite Hc in H; by injection H as <- end.
Qed.

Lemma row_car record race n outcome player row : rider_row record race n outcome player = Ok row →
  dict_get "car_number" row = Some (VInt (car_of row)).
Proof.
  intros (features & car & _ & Hk & Hc & _ & ->)%row_shape. unfold car_of, int_at, get_or_none.
  rewrite !dict_get_app. cbn. by rewrite Hc.
Qed.
Lemma row_label record race n outcome player row k : rider_row record race n outcome player = Ok row →
  k ∈ TARGETS → dict_get k row = dict_get k (labels outcome (car_of row)).
Proof.
  intros Hrow Hk. pose proof (row_car _ _ _ _ _ _ Hrow) as Hcar.
  apply row_shape in Hrow as (features & car & _ & Hkeys & Hc & _ & ->).
  assert (car_of (row_head record race ++ features ++ [("known_trifecta_odds_count", VInt (Z.of_nat n))]
    ++ labels outcome car) = car) as ->.
  { revert Hcar. rewrite !dict_get_app. cbn. rewrite Hc. by intros [= <-]. }
  assert (k ∉ FIELDS ∧ k ∉ ["race_id"; "date"; "venue"; "race_number"; "prediction_timestamp"] ∧
          "known_trifecta_odds_count" ≠ k) as (Hf & Hh & Ho).
  { unfold TARGETS in Hk. rewrite !elem_of_cons, list.elem_of_nil in Hk.
    destruct_or! Hk; subst; try done; split_and!; try done; by apply (bool_decide_unpack _). }
  rewrite !dict_get_app, (dict_get_not_in k (row_head record race)), (dict_get_not_in k features) by (by rewrite ?Hkeys).
  cbn [dict_get]. by rewrite (proj2 (String.eqb_neq _ _) Ho).
Qed.

(** The car of a row is that of its player. *)
Lemma row_player record race n outcome player row : rider_row record race n outcome player = Ok row →
  ∃ c, getitem player "car_number" = Ok c ∧ int_value c = Ok (car_of row).
Proof.
  intros Hrow. pose proof (row_car _ _ _ _ _ _ Hrow) as Hcar.
  apply row_shape in Hrow as (features & car & _ & _ & Hc & (c & Hg & Hi) & ->). exists c. split; [done|].
  rewrite Hi. f_equal. revert Hcar. rewrite !dict_get_app. cbn. rewrite Hc. by intros [= <-].
Qed.

(** ** Labels *)
(** The row carries the label of each place for its car. *)
Definition labelled (first second third : Z) (row : pydict) : Prop :=
  int_at "target_first" row = of_bool (car_of row =? first) ∧
  int_at "target_second" row = of_bool (car_of row =? second) ∧
  int_at "target_third" row = of_bool (car_of row =? third) ∧
  int_at "target_top3" row = of_bool ((car_of row =? first) || (car_of row =? second) || (car_of row =? third)).
Lemma row_labelled record race n a b c player row :
  rider_row record race n [a; b; c] player = Ok row → labelled a b c row.
Proof.
  intros Hrow. unfold labelled, int_at, get_or_none.
  rewrite !(row_label _ _ _ _ _ _ _ Hrow) by (unfold TARGETS; set_solver). cbn [dict_get labels String.eqb Ascii.eqb Bool.eqb].
  cbn. split_and!; f_equal; apply eq_bool_prop_intro; rewrite bool_decide_spec, ?orb_True, !Is_true_true, !Z.eqb_eq; set_solver.
Qed.

(** Rows of the car [c]. *)
Definition rows_of (c : Z) (rows : list pydict) : list pydict := List.filter (λ row, car_of row =? c) rows.
Lemma total_count k c rows : (∀ row, row ∈ rows → int_at k row = of_bool (car_of row =? c)) →
  total k rows = Z.of_nat (length (rows_of c rows)).
Proof.
  unfold total, rows_of. induction rows as [|row rows IH]; intros Hrow; [done|]. cbn.
  rewrite IH, (Hrow row) by set_solver. destruct (car_of row =? c); cbn [of_bool length]; lia.
Qed.
Lemma remove_dups_short {A} `{EqDecision A} (l : list A) : (length (remove_dups l) ≤ length l)%nat.
Proof. induction l as [|x l IH]; cbn; [done|]. case_decide; cbn; lia. Qed.
Lemma remove_dups_full {A} `{EqDecision A} (l : list A) : length (remove_dups l) = length l → NoDup l.
Proof.
  induction l as [|x l IH]; cbn; intros E; [constructor|]. case_decide; cbn in E.
  - pose proof (remove_dups_short l). lia.
  - constructor; [done|]. apply IH. lia.
Qed.

(** What an accepted record says, and how its rows are labelled. *)
Record well_labelled (record : pyval) (rows : list pydict) (first second third : Z) : Prop := {
  wl_outcome : ∃ outcome, field "outcome_combo" record = VStr outcome ∧
                 mapR read_int (split_on "-" outcome) = Ok [first; second; third];
  wl_distinct : NoDup [first; second; third];
  wl_rows row : row ∈ rows → labelled first second third row;
  wl_once c : c ∈ [first; second; third] → length (rows_of c rows) = 1%nat }.

Lemma mapR_length {A B} (f : A → result B) l ys : mapR f l = Ok ys → length ys = length l.
Proof. intros E%mapR_Ok. by apply Forall2_length in E. Qed.

Lemma rider_rows_inv record rows : rider_rows record = Ok rows →
  ∃ input players outcome order, eligible record input players outcome ∧
    mapR read_int (split_on "-" outcome) = Ok order ∧ length (remove_dups order) = 3%nat ∧
    ∃ race odds known, get_dict (VDict input) "race" = Ok race ∧
    get_dict (VDict input) "odds" = Ok odds ∧ get_dict odds "trifecta" = Ok (VDict known) ∧
    mapR (rider_row record race (length known) order) (List.filter is_dict players) = Ok rows ∧
    total "target_first" rows = 1 ∧ total "target_second" rows = 1 ∧ total "target_third" rows = 1.
Proof.
  unfold rider_rows. intros Hrun. inv_result.
  match goal with H : supervised_eligibility _ = Ok ?x |- _ => destruct x as [ok why]; cbn in *; subst ok;
    pose proof (eligible_ok _ _ H) as (input & players & outcome & Hel) end.
  destruct Hel as [? ? ? Hin ? ? ? ? [Hp Hl] [Ho Hs]] eqn:E. clear E. inv_reads.
  unfold training_input in Hin. rewrite Ho, Hin in *. cbn [py_str field] in *. rewrite Hp in *. cbn [iter_text py_iter] in *.
  inv_result. repeat match goal with H : (_ =? _) = true |- _ => apply Z.eqb_eq in H end.
  match goal with H : (_ =? 3)%nat = true |- _ => apply Nat.eqb_eq in H end.
  eexists input, _, outcome, _. split_and!; [by split|eassumption|eassumption|].
  match goal with H : get_dict ?o "trifecta" = Ok ?k |- _ => destruct k as [| | | | | | |known]; try done; exists a2, o, known end.
  inv_result. split_and!; eassumption.
Qed.

(** C23: the rows of a record have the labels of its outcome and no others: the three
    cars it names are distinct, each has exactly one row, and every row is labelled
    with the places of its own car. *)
Theorem rows_labelled record rows : rider_rows record = Ok rows →
  ∃ first second third, well_labelled record rows first second third.
Proof.
  intros (input & players & outcome & order & Hel & Hread & Hdup & race & odds & known & _ & _ & _ & Hrows & H1 & H2 & H3)%rider_rows_inv.
  destruct (el_outcome _ _ _ _ Hel) as [Ho Hlen].
  pose proof (mapR_length _ _ _ Hread) as Horder. rewrite Hlen in Horder.
  assert (NoDup order) as Hnd by (apply remove_dups_full; congruence).
  destruct order as [|a [|b [|c [|]]]]; try done.
  assert (∀ row, row ∈ rows → labelled a b c row) as Hlab.
  { intros row Hin. apply mapR_Ok in Hrows. apply list_elem_of_lookup_1 in Hin as [i Hi].
    eapply Forall2_lookup_r in Hrows as (p & _ & Hp); [|exact Hi]. by eapply row_labelled. }
  exists a, b, c. split; [by eauto|done|done|].
  intros x Hx. rewrite !elem_of_cons, list.elem_of_nil in Hx. apply Nat2Z.inj.
  destruct_or! Hx; subst; try done.
  - rewrite <- (total_count "target_first"); [done|]. intros row Hin. by apply Hlab.
  - rewrite <- (total_count "target_second"); [done|]. intros row Hin. by apply Hlab.
  - rewrite <- (total_count "target_third"); [done|]. intros row Hin. by apply Hlab.
Qed.

(** ** No leakage *)
(** What the features of a record may be read from. *)
Definition PREDICTION_FIELDS : list string := ["training_input"; "race_id"; "prediction_timestamp"].
Definition same_prediction (record record' : pyval) : Prop :=
  ∀ k, k ∈ PREDICTION_FIELDS → field k record = field k record'.

Lemma row_without_labels record record' race n order order' player row row' : same_prediction record record' →
  rider_row record race n order player = Ok row → rider_row record' race n order' player = Ok row' →
  without_labels row = without_labels row'.
Proof.
  intros Hsame (f & car & Hf & Hk & _ & _ & ->)%row_shape (f' & car' & Hf' & _ & _ & _ & ->)%row_shape.
  assert (f' = f) as -> by congruence.
  assert (row_head record race = row_head record' race) as ->.
  { unfold row_head. rewrite (Hsame "race_id"), (Hsame "prediction_timestamp"); [done|..]; unfold PREDICTION_FIELDS; set_solver. }
  unfold without_labels. rewrite !List.filter_app. by repeat f_equal.
Qed.

(** Labels are no features. *)
Lemma without_labels_get k row : k ∉ TARGETS → dict_get k (without_labels row) = dict_get k row.
Proof.
  intros Hk. unfold without_labels. induction row as [|[k' v] row IH]; [done|]. cbn. destruct (bool_decide_reflect (k' ∈ TARGETS)); cbn.
  - rewrite IH. destruct (String.eqb_spec k' k); [by subst|done].
  - destruct (String.eqb k' k); done.
Qed.
Lemma mapR_ext {A B} (f g : A → result B) l : (∀ x, x ∈ l → f x = g x) → mapR f l = mapR g l.
Proof.
  induction l as [|x l IH]; intros E; [done|]. cbn. rewrite E by left. destruct (g x); [|done]. cbn.
  by rewrite IH by (intros; apply E; by right).
Qed.
Lemma features_without_labels row : row_to_features (without_labels row) = row_to_features row.
Proof.
  unfold row_to_features, get_or_none. rewrite without_labels_get by (by apply (bool_decide_unpack _)).
  rewrite (mapR_ext _ (λ name, _float_or_nan (default VNone (dict_get name row))) NUMERIC_FEATURES); [done|].
  intros name Hname. rewrite without_labels_get; [done|]. revert name Hname. apply list.Forall_forall.
  by apply (bool_decide_unpack _).
Qed.
Lemma matrix_without_labels rows : mapR row_to_features (map without_labels rows) = mapR row_to_features rows.
Proof. induction rows as [|row rows IH]; [done|]. cbn [map mapR]. by rewrite features_without_labels, IH. Qed.

Lemma rows_without_labels record record' race n order order' players rows rows' : same_prediction record record' →
  mapR (rider_row record race n order) players = Ok rows →
  mapR (rider_row record' race n order') players = Ok rows' →
  map without_labels rows = map without_labels rows'.
Proof.
  intros Hsame. revert rows rows'. induction players as [|p players IH]; intros rows rows'; cbn [mapR]; intros E E';
    inv_result; [done|]. cbn [map]. f_equal; [by eapply row_without_labels|by apply IH].
Qed.

(** C24: nothing but the labels depends on the outcome.  Two records with the same
    prediction (the same input, race and time), whatever their results and metadata,
    have the same rows up to the labels, and the learner sees the same matrix. *)
Theorem features_ignore_outcome record record' rows rows' : same_prediction record record' →
  rider_rows record = Ok rows → rider_rows record' = Ok rows' →
  map without_labels rows = map without_labels rows' ∧ mapR row_to_features rows = mapR row_to_features rows'.
Proof.
  intros Hsame (input & players & outcome & order & Hel & _ & _ & race & odds & known & Hrace & Hodds & Hknown & Hr & _)%rider_rows_inv
    (input' & players' & outcome' & order' & Hel' & _ & _ & race' & odds' & known' & Hrace' & Hodds' & Hknown' & Hr' & _)%rider_rows_inv.
  assert (VDict input = VDict input') as [= <-].
  { rewrite <- (el_input _ _ _ _ Hel), <- (el_input _ _ _ _ Hel'). apply Hsame. unfold PREDICTION_FIELDS. set_solver. }
  destruct (el_players _ _ _ _ Hel) as [Hp _], (el_players _ _ _ _ Hel') as [Hp' _].
  assert (VList players = VList players') as [= <-] by congruence.
  assert (race' = race) as -> by congruence. assert (odds' = odds) as -> by congruence.
  assert (VDict known = VDict known') as [= <-] by congruence.
  assert (map without_labels rows = map without_labels rows') as E by by eapply rows_without_labels.
  split; [done|]. by rewrite <- (matrix_without_labels rows), <- (matrix_without_labels rows'), E.
Qed.

(** ** Failures *)

Lemma handles_result {A} (r : result A) : (∀ e, r = Err e → exn_class e = ValueError) → handles r.
Proof. intros Hr e E. by rewrite (Hr e E). Qed.
Lemma handles_foldR {A B} (f : A → B → result A) a l : (∀ a b, handles (f a b)) → handles (foldR f a l).
Proof.
  intros Hf. revert a. induction l as [|b l IH]; intros a; cbn; [apply raises_ok|]. by apply raises_bind.
Qed.
Lemma handles_existsR {A} (f : A → result bool) l : (∀ a, handles (f a)) → handles (existsR f l).
Proof.
  intros Hf. induction l as [|x l IH]; cbn; [apply raises_ok|]. apply raises_bind; [done|]. intros []; [apply raises_ok|done].
Qed.
Hint Resolve handles_foldR handles_existsR : raises.

Lemma handles_get v k : handles (get v k).
Proof. unfold get, py_get. raises_tac. Qed.
Hint Resolve handles_get : raises.
Lemma handles_getitem v k : handles (getitem v k).
Proof. unfold getitem. raises_tac. Qed.
Lemma handles_get_dict v k : handles (get_dict v k).
Proof. unfold get_dict. raises_tac. Qed.
Lemma handles_float_of_Z z : handles (float_of_Z z).
Proof. unfold float_of_Z. raises_tac. Qed.
Lemma handles_in_str_set v l : handles (in_str_set v l).
Proof. unfold in_str_set. raises_tac. Qed.
Lemma handles_iter_text v : handles (iter_text v).
Proof. unfold iter_text, py_iter. raises_tac. Qed.
Lemma handles_py_int v : handles (py_int v).
Proof. unfold py_int. raises_tac. Qed.
Hint Resolve handles_getitem handles_get_dict handles_float_of_Z handles_in_str_set handles_iter_text
  handles_py_int : raises.

Context `{!ReaderLaws}.
Lemma handles_read_float s : handles (read_float s).
Proof. apply handles_result, read_float_error. Qed.
Lemma handles_read_int s : handles (read_int s).
Proof. apply handles_result, read_int_error. Qed.
Lemma handles_read_time s : handles (read_time s).
Proof. apply handles_result. intros e. apply fromisoformat_error. Qed.
Hint Resolve handles_read_float handles_read_int handles_read_time : raises.
Lemma handles_py_float v : handles (py_float v).
Proof. unfold py_float. raises_tac. Qed.
Lemma handles_int_value v : handles (int_value v).
Proof. unfold int_value. raises_tac. Qed.
Hint Resolve handles_py_float handles_int_value : raises.
(** A failure that is not turned into a value is passed on. *)
Lemma handles_otherwise {A} (e : exn) (b : bool) (r : result A) :
  handled (exn_class e) = true → handles r → handles (if b then r else Err e).
Proof. intros He Hr. destruct b; [done|]. by intros e' [= <-]. Qed.
Lemma handles_num v : handles (num v).
Proof.
  unfold num. destruct (_ || _); [apply raises_ok|]. destruct (py_float v) eqn:E; [apply raises_ok|].
  apply handles_otherwise; [by eapply handles_py_float|apply raises_ok].
Qed.
Hint Resolve handles_num : raises.
Lemma handles_num_at v k : handles (num_at v k).
Proof. unfold num_at. raises_tac. Qed.
Hint Resolve handles_num_at : raises.
Lemma handles_current_meet v : handles (current_meet_avg v).
Proof.
  unfold current_meet_avg. do 3 (apply raises_bind; [auto with raises|intros ?]).
  apply raises_bind; [|intros ?; raises_tac]. apply raises_mapR. intros item. unfold finish_of. raises_tac.
Qed.
Hint Resolve handles_current_meet : raises.
Lemma handles_extract v : handles (extract_player_model_fields v).
Proof. unfold extract_player_model_fields. repeat (apply raises_bind; [auto with raises|intros ?]). apply raises_ok. Qed.
Hint Resolve handles_extract : raises.

Lemma zoned_posix_Ok s d : read_time s = Ok d → zoned d = true → ∃ t, posix d = Ok t.
Proof. intros Hd Hz. pose proof (zoned_posix _ _ Hd Hz). destruct (posix d); [by eexists|done]. Qed.
Lemma handles_aware v : handles (_aware_time v).
Proof.
  unfold _aware_time. destruct v; try apply raises_ok. destruct (truthy_s s); [|apply raises_ok].
  destruct (read_time s) as [d|e] eqn:E.
  - destruct (zoned d) eqn:Ez; [|apply raises_ok]. destruct (zoned_posix_Ok _ _ E Ez) as [t ->]. apply raises_ok.
  - apply handles_otherwise; [by eapply handles_read_time|apply raises_ok].
Qed.
Hint Resolve handles_aware : raises.
Lemma handles_schedule r i : handles (_schedule_order r i).
Proof. unfold _schedule_order. raises_tac. Qed.
Lemma handles_conditions i : handles (declared_conditions i).
Proof. unfold declared_conditions, require_standard_conditions. raises_tac. Qed.
Hint Resolve handles_schedule handles_conditions : raises.
Lemma handles_eligibility r : handles (supervised_eligibility r).
Proof.
  unfold supervised_eligibility, refuse.
  repeat match goal with
  | |- raises _ (match declared_conditions ?i with _ => _ end) =>
      let E := fresh "E" in destruct (declared_conditions i) eqn:E;
      [|apply handles_otherwise; [by eapply handles_conditions|apply raises_ok]]
  | |- raises _ (if ?b then _ else _) => destruct b
  | |- raises _ (_ ≫= _) => apply raises_bind; [by auto with raises|intros ?]
  | |- raises _ (Ok _) => apply raises_ok
  | |- raises _ (match ?v with _ => _ end) => destruct v
  end.
Qed.
Hint Resolve handles_eligibility : raises.
Lemma handles_race_id r : handles (race_id_of r).
Proof. unfold race_id_of. raises_tac. Qed.
Lemma handles_rider_row r race n o p : handles (rider_row r race n o p).
Proof. unfold rider_row. repeat (apply raises_bind; [auto with raises|intros ?]). apply raises_ok. Qed.
Hint Resolve handles_race_id handles_rider_row : raises.
Example no_ticket_text : float_repr no_ticket = "9999.9".
Proof. vm_compute. reflexivity. Qed.
Lemma handles_no_ticket v : handles (is_no_ticket v).
Proof. unfold is_no_ticket. raises_tac. Qed.
Hint Resolve handles_no_ticket : raises.
Lemma handles_rider_rows r : handles (rider_rows r).
Proof. unfold rider_rows. handles_steps. Qed.
End facts.
#[export] Hint Resolve handles_foldR handles_existsR handles_get handles_getitem handles_get_dict handles_float_of_Z
  handles_in_str_set handles_read_time handles_py_float handles_eligibility handles_race_id handles_rider_rows : raises.

(** ** Examples *)
(** Times and numbers that are decimal integers. *)
Definition decimal_readers : Readers := {|
  fromisoformat s := match parse_int s with
                     | Some t => Ok (Datetime true t (Ok t))
                     | None => raise ValueError "Invalid isoformat string"
                     end;
  read_float s := raise ValueError "could not convert string to float";
  read_int s := match parse_int s with Some z => Ok z | None => raise ValueError "invalid literal" end;
  decimal_digit s := match chars s with [c] => is_digit c | _ => false end |}.
Lemma decimal_laws : @ReaderLaws decimal_readers.
Proof.
  split; cbn; unfold raise; intros s.
  - intros e. destruct (parse_int s); [done|]. by intros [= <-].
  - intros e. by intros [= <-].
  - intros e. destruct (parse_int s); [done|]. by intros [= <-].
  - intros d. destruct (parse_int s); [|done]. by intros [= <-].
  - intros s' d d' t t'. destruct (parse_int s), (parse_int s'); try done. intros [= <-] [= <-] _ _ [= <-] [= <-]. cbn. lia.
  - intros s' d d' t t'. destruct (parse_int s), (parse_int s'); try done. intros [= <-] [= <-] _ _ [= <-] [= <-]. cbn. lia.
  - intros Hs. rewrite <- (Z2Nat.id s) by lia. assert (Z.to_nat s < 10)%nat as Hn by lia.
    generalize dependent (Z.to_nat s). intros n Hn. do 10 (destruct n as [|n]; [done|]). lia.
Qed.

(** Four riders and an outcome. *)
Definition small_record (outcome settled : string) : pyval :=
  VDict [("race_id", VStr "r"); ("prediction_timestamp", VStr "10"); ("outcome_combo", VStr outcome);
    ("training_input", VDict [("schema_version", VStr TRAINING_SCHEMA); ("evaluation_scope", VStr "prospective");
       ("captured_at", VStr "10"); ("players", VList (map (λ i, VDict [("car_number", VInt (Z.of_nat i));
          ("S", VInt (Z.of_nat (2 * i)))]) (seq 1 4)))]);
    ("metadata", VDict [("evaluation_scope", VStr "prospective"); ("temporal_order", VStr "prediction_before_result");
       ("result_timestamp", VStr settled); ("training_eligibility", VDict [("supervised_training", VBool true)])])].
Definition small_rows (outcome settled : string) : result (list pydict) := @rider_rows decimal_readers (small_record outcome settled).
Lemma rows_labelled_witness : ∃ rows, small_rows "3-1-4" "20" = Ok rows ∧ map (int_at "target_second") rows = [1; 0; 0; 0] ∧
  ∃ first second third, @well_labelled decimal_readers (small_record "3-1-4" "20") rows first second third.
Proof.
  destruct (small_rows "3-1-4" "20") as [rows|e] eqn:E; [|by vm_compute in E]. exists rows. split_and!; [done| |].
  - by vm_compute in E; injection E as <-.
  - by apply (@rows_labelled decimal_readers).
Defined.
Lemma features_ignore_outcome_witness : ∃ rows rows', small_rows "3-1-4" "20" = Ok rows ∧ small_rows "1-2-3" "30" = Ok rows' ∧
  rows ≠ rows' ∧ map without_labels rows = map without_labels rows'.
Proof.
  destruct (small_rows "3-1-4" "20") as [rows|e] eqn:E; [|by vm_compute in E].
  destruct (small_rows "1-2-3" "30") as [rows'|e] eqn:E'; [|by vm_compute in E']. exists rows, rows'. split_and!; [done|done| |].
  - intros <-. by rewrite <- E in E'; vm_compute in E'.
  - apply (@features_ignore_outcome decimal_readers (small_record "3-1-4" "20") (small_record "1-2-3" "30")); [|done|done].
    intros k Hk. unfold PREDICTION_FIELDS in Hk. rewrite !elem_of_cons, list.elem_of_nil in Hk. by destruct_or! Hk; subst.
Defined.
