(* ===== verification/Evaluation.v ===== *)
(** ml/evaluation_protocol.py: which records an evaluation may use, one snapshot per
    race, and the chronological partitions.

    A candidate is what [prepare] appends for a record that passes its checks.  Its
    times are finite floats, held as their exact multiples of 2^-1074: the code only
    compares them. *)
From Stdlib Require Import SpecFloat.
From stdpp Require Import sorting.
From S2P Require Import Prelude PyString PyValue PyText PyFloat Itertools Dataset.

Record candidate := Candidate {
  race_id : string; prediction_time : Z; result_time : Z;
  record : pyval; rows : list pydict; baseline : pydict }.
(** [item["record"]["outcome_combo"]], a text in every candidate *)
Definition outcome_of (v : pyval) : string :=
  match v with VDict d => py_str (get_or_none "outcome_combo" d) | _ => "" end.
Definition outcome_combo (c : candidate) : string := outcome_of (record c).
(** [json.dumps(item["record"], sort_keys=True)] *)
Definition record_text (c : candidate) : string := dumps_sorted (record c).

(** ** One snapshot per race *)

(** [candidates.setdefault(race_id, []).append(item)] *)
Definition group_by_race (l : list candidate) : list (string * list candidate) := group_on race_id l.

(** [max] of the prediction times of a group that is not empty *)
Definition latest (g : list candidate) : Z :=
  match g with
  | [] => 0
  | c :: g' => foldl Z.max (prediction_time c) (map prediction_time g')
  end.
Definition tied (g : list candidate) : list candidate :=
  List.filter (λ c, prediction_time c =? latest g) g.
(** [len({key(item) for item in l}) == 1] *)
Definition one_value (key : candidate → string) (l : list candidate) : bool :=
  (length (remove_dups (map key l)) =? 1)%nat.

Record selection := Selection {
  selected : list candidate; duplicates : Z;
  (* the reason of each exclusion *)
  reasons : list string }.
(** The body of the loop over the groups. *)
Definition select_group (acc : selection) (g : list candidate) : selection :=
  let 'Selection sel dup why := acc in
  let n := length g in
  if negb (one_value outcome_combo g) then Selection sel dup (why ++ repeat "conflicting_outcomes" n)
  else if negb (one_value record_text (tied g)) then
    Selection sel dup (why ++ repeat "conflicting_latest_snapshots" n)
  else match tied g with
       | c :: _ => Selection (sel ++ [c]) (dup + (Z.of_nat n - 1)) why
       | [] => acc
       end.

(** [(item["prediction_time"], item["race_id"])] *)
Definition by_time (a b : candidate) : Prop :=
  prediction_time a < prediction_time b ∨
  (prediction_time a = prediction_time b ∧ str_le (race_id a) (race_id b) = true).
#[export] Instance by_time_dec a b : Decision (by_time a b).
Proof. unfold by_time. apply _. Defined.

Definition select_latest (candidates : list candidate) : selection :=
  let 'Selection sel dup why :=
    foldl select_group (Selection [] 0 []) (map snd (group_by_race candidates)) in
  Selection (merge_sort by_time sel) dup why.

(** ** Chronological partitions *)

(** Products of floats: [(m, e)] is [m * 2^e]. *)
Definition float_mul (a b : Z * Z) : Z * Z :=
  let e := a.2 + b.2 in round64 (a.1 * b.1 * 2 ^ Z.max e 0) (2 ^ Z.max (- e) 0).
Definition float_to_int (a : Z * Z) : Z :=
  if 0 <=? a.2 then a.1 * 2 ^ a.2 else a.1 / 2 ^ (- a.2).
(** [int(n * literal)], the decimal literal being [num/den] *)
Definition int_times (n num den : Z) : Z := float_to_int (float_mul (round64 n 1) (round64 num den)).

(** [l[i]] for [0 <= i] *)
Definition item_at (i : Z) (l : list Z) : result Z :=
  match l !! Z.to_nat i with Some x => Ok x | None => raise IndexError "list index out of range" end.
Record partitions := Partitions {
  train : list candidate; valid : list candidate; test : list candidate;
  purged : Z; validation_start : Z; test_start : Z }.
Definition distinct_times (records : list candidate) : list Z :=
  merge_sort Z.le (remove_dups (map prediction_time records)).

Definition split_records (records : list candidate) : result partitions :=
  let times := distinct_times records in
  let n := Z.of_nat (length times) in
  reject_if (n <? 5) ValueError "need_at_least_five_distinct_prediction_times";;
  valid_start ← item_at (Z.max 2 (int_times n 6 10)) times;
  test_start ← item_at (Z.max 3 (int_times n 8 10)) times;
  let train := List.filter (λ c, (prediction_time c <? valid_start) && (result_time c <? valid_start))
                 records in
  let valid := List.filter (λ c, (valid_start <=? prediction_time c) && (prediction_time c <? test_start)
                                 && (result_time c <? test_start)) records in
  let test := List.filter (λ c, test_start <=? prediction_time c) records in
  reject_if ((length train <? 2)%nat || bool_decide (valid = []) || bool_decide (test = [])) ValueError
    "insufficient_non_overlapping_partitions";;
  Ok (Partitions train valid test
        (Z.of_nat (length records) - Z.of_nat (length train) - Z.of_nat (length valid)
         - Z.of_nat (length test)) valid_start test_start).

(** ** The checks of a record *)
Section prepare.
Context `{Readers}.
Definition BASELINE : string := "phase32-hit-priority-all210-v1".

Definition timestamp (value : pyval) : result Z :=
  match value with
  | VStr s =>
      dt ← read_time s;
      reject_if (negb (zoned dt)) ValueError "timestamp_timezone_missing";;
      posix dt
  | _ => raise ValueError "timestamp_missing"
  end.

(** The keys of the combinations of three cars. *)
Definition combinations (cars : list Z) : list string := map (λ p, join "-" (map z_str p)) (permutations 3 cars).
(** [math.isfinite(f) and 0 <= f <= 1] *)
Definition is_probability (f : spec_float) : bool :=
  float_is_finite f && SFleb (S754_zero false) f && SFleb f float_one.
(** The body of the loop. *)
Definition add_probability (expected : list string) (values : pydict) (row : pyval) : result pydict :=
  key ← getitem row "combo_key";
  raw ← getitem row "estimated_probability";
  known ← in_str_set key expected;
  match key, raw with
  | VStr k, VBool _ => raise ValueError "baseline_invalid"
  | VStr k, _ =>
      reject_if (dict_has k values || negb known) ValueError "baseline_invalid";;
      probability ← py_float raw;
      reject_if (negb (is_probability probability)) ValueError "baseline_invalid_probability";;
      Ok (dict_set k (VFloat probability) values)
  | _, _ => raise ValueError "baseline_invalid"
  end.
Definition floats (d : pydict) : list spec_float :=
  map (λ kv, match kv.2 with VFloat f => f | _ => S754_zero false end) d.
Definition probability_table (rows : pyval) (cars : list Z) : result pydict :=
  let expected := combinations cars in
  match rows with
  | VList l =>
      reject_if (negb (length l =? length (remove_dups expected))%nat) ValueError "baseline_incomplete";;
      values ← foldR (add_probability expected) [] l;
      reject_if (mass_is_off (float_sum (floats values))) ValueError "baseline_invalid_mass";;
      Ok values
  | _ => raise ValueError "baseline_incomplete"
  end.

(** [isinstance(car, bool) or str(car) not in {str(i) for i in range(1, n + 1)}] *)
Definition invalid_car (n : nat) (car : pyval) : bool :=
  match car with
  | VBool _ => true
  | _ => negb (bool_decide (py_str car ∈ map (λ i, z_str (Z.of_nat i)) (seq 1 n)))
  end.
Definition STYLES : list string := ["逃"; "両"; "追"].
(** The body of the [try]: the candidate of a record. *)
Definition candidate_of (synthetic : bool) (record : pyval) : result candidate :=
  v ← supervised_eligibility record;
  reject_if (negb v.1) ValueError v.2;;
  input ← getitem record "training_input";
  c ← py_get input "prediction_context";
  source ← py_get (default (VDict []) c) "source";
  reject_if (contains "synthetic" (lower (py_str (default (VStr "") source))) && negb synthetic) ValueError
    "synthetic_excluded";;
  race_id ← race_id_of record;
  reject_if (negb (truthy_s race_id)) ValueError "race_id_missing";;
  p ← get record "prediction_timestamp"; prediction_time ← timestamp p;
  metadata ← getitem record "metadata";
  r ← get metadata "result_timestamp"; result_time ← timestamp r;
  t ← get input "captured_at"; captured ← timestamp t;
  reject_if (negb (captured =? prediction_time) || negb (prediction_time <? result_time)) ValueError
    "invalid_temporal_order";;
  ps ← getitem input "players";
  players ← match ps with
            | VList l => if ((length l =? 7) || (length l =? 9))%nat then Ok l
                         else raise ValueError "seven_or_nine_unique_riders_required"
            | _ => raise ValueError "seven_or_nine_unique_riders_required"
            end;
  raw_cars ← mapR (λ player, getitem player "car_number") players;
  reject_if (existsb (invalid_car (length players)) raw_cars) ValueError "invalid_car_number";;
  rows ← rider_rows record;
  let cars := map (int_at "car_number") rows in
  reject_if (negb (length rows =? length raw_cars)%nat || negb (bool_decide (NoDup cars))) ValueError
    "seven_or_nine_unique_riders_required";;
  foreign ← existsR (λ row, b ← in_str_set (get_or_none "style" row) STYLES; Ok (negb b)) rows;
  reject_if foreign ValueError "invalid_style";;
  engine ← get metadata "engine_version";
  reject_if (negb (is_text engine BASELINE)) ValueError "baseline_version_mismatch";;
  scores ← get record "trifecta_scores";
  baseline ← probability_table scores cars;
  reject_if (negb (dict_has (outcome_of record) baseline)) ValueError "outcome_not_in_riders";;
  Ok (Candidate race_id prediction_time result_time record rows baseline).

(** ** [prepare] *)
Definition caught (e : exn) : bool :=
  existsb (isinstance e) [ValueError; TypeError; KeyError; AttributeError; OverflowError].
Definition exclusion (e : exn) : string :=
  if isinstance e ValueError then exn_msg e else "malformed_record".
(** The body of the loop over the records. *)
Definition check_record (synthetic : bool) (acc : list candidate * list string) (record : pyval) :
    result (list candidate * list string) :=
  match candidate_of synthetic record with
  | Ok c => Ok (acc.1 ++ [c], acc.2)
  | Err e => if caught e then Ok (acc.1, acc.2 ++ [exclusion e]) else Err e
  end.
(** [sum(not math.isfinite(row[index]) for row in matrix)] *)
Definition missing_at (matrix : list (list spec_float)) (index : nat) : Z :=
  Z.of_nat (length (List.filter (λ row, negb (float_is_finite (nth index row S754_nan))) matrix)).
Definition fraction (matrix : list (list spec_float)) (value : Z) : result pyval :=
  if bool_decide (matrix = []) then Ok VNone
  else n ← float_of_Z value; d ← float_of_Z (Z.of_nat (length matrix)); Ok (VFloat (float_div n d)).
Definition prepare (synthetic : bool) (records : list pyval) : result (list candidate * pydict) :=
  checked ← foldR (check_record synthetic) ([], []) records;
  let 'Selection selected duplicates why := select_latest checked.1 in
  matrix ← mapR row_to_features (concat (map rows selected));
  let missing := imap (λ i name, (name, missing_at matrix i)) FEATURE_COLUMNS in
  fractions ← mapR (λ kv, f ← fraction matrix kv.2; Ok (kv.1, f)) missing;
  Ok (selected,
    [("input_records", VInt (Z.of_nat (length records)));
     ("eligible_unique_races", VInt (Z.of_nat (length selected)));
     ("excluded", VDict (counted (checked.2 ++ why)));
     ("duplicate_snapshots_removed", VInt duplicates); ("rider_rows", VInt (Z.of_nat (length matrix)));
     ("missing_feature_counts", VDict (map (λ kv, (kv.1, VInt kv.2)) missing));
     ("missing_feature_fraction", VDict fractions)]).
End prepare.

Section readiness.
(** [datetime.fromtimestamp(t, timezone.utc).isoformat()] *)
Context (utc_iso : Z → string).

Definition race_ids (l : list candidate) : pyval := VList (map (λ c, VStr (race_id c)) l).
Definition count_value (l : list candidate) : pyval := VInt (Z.of_nat (length l)).
Definition split_entries (p : partitions) : pydict :=
  [("train_race_ids", race_ids (train p)); ("validation_race_ids", race_ids (valid p));
   ("test_race_ids", race_ids (test p)); ("purged_unsettled_at_boundary", VInt (purged p));
   ("validation_start", VStr (utc_iso (validation_start p)));
   ("test_start", VStr (utc_iso (test_start p)))].
(** [readiness] after [prepare], which returned [records] and [quality]. *)
Definition readiness_of (records : list candidate) (quality : pyval) : result pydict :=
  let n := Z.of_nat (length (remove_dups (map prediction_time records))) in
  let report ready reason split :=
    [("data_quality", quality); ("distinct_prediction_times", VInt n);
     ("minimum_distinct_prediction_times", VInt 5);
     ("remaining_distinct_prediction_times", VInt (Z.max 0 (5 - n)));
     ("technical_time_minimum_met", VBool (5 <=? n));
     ("chronological_partitions_ready", VBool ready); ("blocked_reason", reason); ("split", split);
     ("note", VStr "Passing readiness is only a technical pipeline condition. It is not evidence of statistical sufficiency, calibration, model superiority or profitability.")] in
  match split_records records with
  | Ok p => Ok (report true VNone (VDict (split_entries p ++
              [("train_races", count_value (train p)); ("validation_races", count_value (valid p));
               ("test_races", count_value (test p))])))
  | Err e => if isinstance e ValueError then Ok (report false (VStr (exn_msg e)) VNone) else Err e
  end.
Definition readiness `{Readers} (synthetic : bool) (records : list pyval) : result pydict :=
  prepared ← prepare synthetic records; readiness_of prepared.1 (VDict prepared.2).
End readiness.
