(* ===== verification/EvaluationFacts.v ===== *)
(** No look-ahead: the snapshots an evaluation uses, one per race, and partitions
    in which every result was known before the predictions it is compared with. *)
From stdpp Require Import sorting.
From S2P Require Import Prelude PyString PyValue PyText Itertools Evaluation.

(** ** The split points *)
Lemma div_half_even_near num den : 0 < den →
  2 * Z.abs (div_half_even num den * den - num) ≤ den.
Proof.
  intros Hd. unfold div_half_even. pose proof (Z.div_mod num den ltac:(lia)) as E.
  pose proof (Z.mod_pos_bound num den Hd) as Hr. set (q := num / den) in *. set (r := num mod den) in *.
  destruct (Z.ltb_spec (2 * r) den); [nia|]. destruct (Z.ltb_spec den (2 * r)); [nia|].
  destruct (Z.even q); nia.
Qed.

(** A quotient between 1 and 2^52 is rounded to 53 bits. *)
Lemma round64_near num den : 0 < den ≤ num → num < 2 ^ 52 * den →
  ∃ k, 0 ≤ k ≤ 52 ∧ (round64 num den).2 = - k ∧
    2 ^ 52 * den ≤ num * 2 ^ k < 2 ^ 53 * den ∧
    2 * Z.abs ((round64 num den).1 * den - num * 2 ^ k) ≤ den.
Proof.
  intros [Hd Hle] Hlt. unfold round64.
  pose proof (Z.log2_spec num ltac:(lia)) as [Hn1 Hn2]. pose proof (Z.log2_spec den Hd) as [Hd1 Hd2].
  pose proof (Z.log2_le_mono _ _ Hle) as Hlog. pose proof (Z.log2_nonneg den) as Hl0.
  set (ln := Z.log2 num) in *. set (ld := Z.log2 den) in *. set (t := ln - ld).
  assert (0 ≤ t) as Ht by lia. rewrite (Z.max_r (- t) 0), (Z.max_l t 0) by lia. cbn zeta.
  assert (2 ^ t * 2 ^ ld = 2 ^ ln) as Hpow by (rewrite <- Z.pow_add_r by lia; f_equal; lia).
  assert (2 ^ Z.succ ld = 2 * 2 ^ ld) as Hs1 by (apply Z.pow_succ_r; lia).
  assert (2 ^ Z.succ ln = 2 * 2 ^ ln) as Hs2 by (apply Z.pow_succ_r; lia).
  (* the quotient lies between 2^f and 2^(f+1) *)
  assert (∃ f, (if num * 2 ^ 0 <? den * 2 ^ t then t - 53 else t - 52) = f - 52 ∧ 0 ≤ f ∧
    den * 2 ^ f ≤ num < 2 * (den * 2 ^ f)) as (f & -> & Hf & Hlo & Hhi).
  { rewrite Z.pow_0_r, Z.mul_1_r. destruct (Z.ltb_spec num (den * 2 ^ t)) as [C|C].
    - assert (0 < t) by (destruct (decide (t = 0)) as [E|]; [rewrite E in C; lia|lia]).
      exists (t - 1). assert (2 ^ t = 2 * 2 ^ (t - 1)) as Et.
      { rewrite <- Z.pow_succ_r by lia. f_equal. lia. }
      split_and!; [lia|lia| |lia]. rewrite Et in Hpow. nia.
    - exists t. split_and!; [lia|lia|done|]. nia. }
  assert (f < 52) as Hf52.
  { destruct (decide (f < 52)); [done|]. exfalso.
    assert (2 ^ 52 ≤ 2 ^ f) by (apply Z.pow_le_mono_r; lia). nia. }
  rewrite (Z.max_l (f - 52)) by lia. exists (52 - f). cbn [fst snd].
  rewrite (Z.max_l (- (f - 52))), (Z.max_r (f - 52)) by lia. rewrite Z.pow_0_r, Z.mul_1_r.
  replace (- (f - 52)) with (52 - f) by lia.
  assert (2 ^ f * 2 ^ (52 - f) = 2 ^ 52) as Hp by (rewrite <- Z.pow_add_r by lia; f_equal; lia).
  split_and!; [lia|lia|lia| | |by apply div_half_even_near].
  - rewrite <- Hp. assert (0 < 2 ^ (52 - f)) by lia. nia.
  - replace (2 ^ 53) with (2 * 2 ^ 52) by done. rewrite <- Hp. assert (0 < 2 ^ (52 - f)) by lia. nia.
Qed.

Lemma round64_int n : 0 < n < 2 ^ 50 → round64 n 1 = (n * 2 ^ (52 - Z.log2 n), Z.log2 n - 52).
Proof.
  intros Hn. unfold round64. pose proof (Z.log2_spec n ltac:(lia)) as [H1 H2].
  assert (Z.log2 n < 50) as Hl by (apply Z.log2_lt_pow2; lia). pose proof (Z.log2_nonneg n).
  change (Z.log2 1) with 0. rewrite Z.sub_0_r. rewrite (Z.max_r (- Z.log2 n)), (Z.max_l (Z.log2 n)) by lia.
  rewrite Z.pow_0_r, Z.mul_1_r, Z.mul_1_l. cbn zeta. rewrite (proj2 (Z.ltb_ge _ _)) by lia.
  rewrite (Z.max_l (Z.log2 n - 52)) by lia. rewrite (Z.max_l (- (Z.log2 n - 52))), (Z.max_r (Z.log2 n - 52)) by lia.
  rewrite Z.pow_0_r, Z.mul_1_r. replace (- (Z.log2 n - 52)) with (52 - Z.log2 n) by lia. f_equal.
  unfold div_half_even. by rewrite Z.div_1_r, Z.mod_1_r.
Qed.

(** The integer part of [n * literal] is that of a 53-bit rounding [q / 2^k] of the
    product with the literal's own rounding [m / 2^53]. *)
Lemma int_times_near n num den m : 2 ≤ n < 2 ^ 50 → round64 num den = (m, -53) → 2 ^ 52 ≤ m < 2 ^ 53 →
  ∃ q k, 0 ≤ k ∧ int_times n num den = q / 2 ^ k ∧
    2 ^ 52 * 2 ^ 53 ≤ n * 2 ^ k * m < 2 ^ 53 * 2 ^ 53 ∧ 2 * Z.abs (q * 2 ^ 53 - n * 2 ^ k * m) ≤ 2 ^ 53.
Proof.
  intros Hn Hr Hm. unfold int_times. rewrite Hr, round64_int by lia.
  assert (Z.log2 n < 50) as Hl by (apply Z.log2_lt_pow2; lia). pose proof (Z.log2_nonneg n).
  unfold float_mul. cbn [fst snd]. cbn zeta.
  replace (Z.log2 n - 52 + -53) with (- (105 - Z.log2 n)) by lia.
  rewrite (Z.max_r (- (105 - Z.log2 n))), Z.opp_involutive, (Z.max_l (105 - Z.log2 n)) by lia.
  replace (105 - Z.log2 n) with (53 + (52 - Z.log2 n)) by lia. rewrite (Z.pow_add_r 2 53) by lia.
  assert (0 < 2 ^ (52 - Z.log2 n)) as Hc by lia. set (c := 2 ^ (52 - Z.log2 n)) in *.
  rewrite Z.pow_0_r, Z.mul_1_r.
  assert (2 ^ 53 ≤ n * m < 2 ^ 50 * 2 ^ 53) as Hnm by nia.
  replace (n * c * m) with (n * m * c) by ring.
  destruct (round64_near (n * m * c) (2 ^ 53 * c)) as (k & Hk & He & Hb & Ha).
  { split; [lia|]. apply Z.mul_le_mono_nonneg_r; lia. }
  { rewrite Z.mul_assoc. apply Z.mul_lt_mono_pos_r; lia. }
  set (r := round64 (n * m * c) _) in *. exists r.1, k. split_and!; [lia| | | |].
  - unfold float_to_int. rewrite He, Z.opp_involutive. destruct (Z.leb_spec 0 (- k)); [|done].
    replace k with 0 by lia. change (2 ^ (- 0)) with 1. change (2 ^ 0) with 1.
    by rewrite Z.mul_1_r, Z.div_1_r.
  - apply (Z.mul_le_mono_pos_r _ _ c); lia.
  - apply (Z.mul_lt_mono_pos_r c); lia.
  - replace (r.1 * (2 ^ 53 * c) - n * m * c * 2 ^ k) with ((r.1 * 2 ^ 53 - n * 2 ^ k * m) * c) in Ha by ring.
    rewrite Z.abs_mul, (Z.abs_eq c) in Ha by lia. apply (Z.mul_le_mono_pos_r _ _ c); lia.
Qed.

Lemma int_times_06 n : 5 ≤ n < 2 ^ 50 → int_times n 6 10 = 3 * n / 5.
Proof.
  intros Hn. destruct (int_times_near n 6 10 5404319552844595) as (q & k & Hk & -> & Hb & Ha);
    [lia|by vm_compute|lia|].
  assert (0 < 2 ^ k) as HA by lia. set (A := 2 ^ k) in *.
  pose proof (Z.div_mod (3 * n) 5 ltac:(lia)) as E. pose proof (Z.mod_pos_bound (3 * n) 5 ltac:(lia)) as Hs.
  set (v := 3 * n / 5) in *. set (s := (3 * n) mod 5) in *.
  assert (n * A ≤ 2 ^ 50 * A) as HB by nia. assert (3 * (n * A) = 5 * (v * A) + s * A) as EB by nia.
  assert (s = 0 ∨ A ≤ s * A) as HS by nia. assert (s * A ≤ 4 * A) as HS4 by nia.
  set (B := n * A) in *. set (V := v * A) in *. set (S := s * A) in *.
  assert (V ≤ q < V + A); [|symmetry; apply (Z.div_unique_pos _ _ _ (q - V)); subst V; lia].
  destruct HS as [HS|HS]; [subst S; rewrite HS in *|]; lia.
Qed.
Lemma int_times_08 n : 5 ≤ n < 2 ^ 50 → int_times n 8 10 = 4 * n / 5.
Proof.
  intros Hn. destruct (int_times_near n 8 10 7205759403792794) as (q & k & Hk & -> & Hb & Ha);
    [lia|by vm_compute|lia|].
  assert (0 < 2 ^ k) as HA by lia. set (A := 2 ^ k) in *.
  pose proof (Z.div_mod (4 * n) 5 ltac:(lia)) as E. pose proof (Z.mod_pos_bound (4 * n) 5 ltac:(lia)) as Hs.
  set (v := 4 * n / 5) in *. set (s := (4 * n) mod 5) in *.
  assert (n * A ≤ 2 ^ 50 * A) as HB by nia. assert (4 * (n * A) = 5 * (v * A) + s * A) as EB by nia.
  assert (s * A ≤ 4 * A) as HS4 by nia. assert (0 ≤ s * A) as HS0 by nia.
  set (B := n * A) in *. set (V := v * A) in *. set (S := s * A) in *.
  assert (V ≤ q < V + A); [|symmetry; apply (Z.div_unique_pos _ _ _ (q - V)); subst V; lia]. lia.
Qed.

(** ** Partitions *)
Lemma distinct_times_nodup records : NoDup (distinct_times records).
Proof. unfold distinct_times. rewrite merge_sort_Permutation. apply NoDup_remove_dups. Qed.
Lemma distinct_times_length records : (length (distinct_times records) ≤ length records)%nat.
Proof.
  rewrite <- (length_map prediction_time records). apply submseteq_length, NoDup_submseteq.
  - apply distinct_times_nodup.
  - intros t. unfold distinct_times. rewrite merge_sort_Permutation. by rewrite elem_of_remove_dups.
Qed.
Lemma distinct_times_lt records i j t t' : (i < j)%nat →
  distinct_times records !! i = Some t → distinct_times records !! j = Some t' → t < t'.
Proof.
  intros Hij Hi Hj. pose proof (StronglySorted_merge_sort Z.le (remove_dups (map prediction_time records))) as Hs.
  fold (distinct_times records) in Hs.
  assert (t ≤ t').
  { rewrite <- (take_drop j (distinct_times records)) in Hs. eapply StronglySorted_app_1_elem_of; [exact Hs| |].
    - apply elem_of_take. eauto.
    - apply list_elem_of_lookup. exists 0%nat. by rewrite lookup_drop, Nat.add_0_r. }
  assert (t ≠ t'); [|lia]. intros <-.
  pose proof (NoDup_lookup _ _ _ _ (distinct_times_nodup records) Hi Hj). lia.
Qed.

(** The split points are the distinct times at three and at four fifths. *)
Lemma split_spec records : Z.of_nat (length records) < 2 ^ 50 →
  let times := distinct_times records in
  let n := Z.of_nat (length times) in
  match split_records records with
  | Ok p => 5 ≤ n ∧ times !! Z.to_nat (3 * n / 5) = Some (validation_start p) ∧
      times !! Z.to_nat (4 * n / 5) = Some (test_start p) ∧ validation_start p < test_start p ∧
      p = Partitions
        (List.filter (λ c, (prediction_time c <? validation_start p) && (result_time c <? validation_start p)) records)
        (List.filter (λ c, (validation_start p <=? prediction_time c) && (prediction_time c <? test_start p)
                           && (result_time c <? test_start p)) records)
        (List.filter (λ c, test_start p <=? prediction_time c) records)
        (Z.of_nat (length records) - Z.of_nat (length (train p)) - Z.of_nat (length (valid p))
          - Z.of_nat (length (test p))) (validation_start p) (test_start p) ∧
      (2 ≤ length (train p))%nat ∧ valid p ≠ [] ∧ test p ≠ []
  | Err e => exn_class e = ValueError
  end.
Proof.
  intros Hlen times n. unfold split_records. fold times n.
  destruct (Z.ltb_spec n 5) as [|H5]; [done|]. cbn -[item_at int_times Z.max reject_if].
  assert (n < 2 ^ 50) as Hn by (pose proof (distinct_times_length records); unfold n, times; lia).
  rewrite int_times_06, int_times_08 by lia.
  assert (3 ≤ 3 * n / 5 < 4 * n / 5 ∧ 4 * n / 5 < n) as [Hi Hj] by (Z.div_mod_to_equations; lia).
  rewrite !Z.max_r by lia. unfold item_at.
  destruct (lookup_lt_is_Some_2 times (Z.to_nat (3 * n / 5))) as [vs Hvs]; [unfold n in *; lia|].
  destruct (lookup_lt_is_Some_2 times (Z.to_nat (4 * n / 5))) as [ts Hts]; [unfold n in *; lia|].
  rewrite Hvs, Hts. cbn -[Z.mul Z.div reject_if].
  match goal with |- context [reject_if ?b _ _] => destruct b eqn:Hb end; cbn -[Z.mul Z.div]; [done|].
  apply orb_false_elim in Hb as [[Hb1 Hb2]%orb_false_elim Hb3].
  apply Nat.leb_gt in Hb1. apply bool_decide_eq_false in Hb2, Hb3.
  split_and!; try done. eapply distinct_times_lt; [|exact Hvs|exact Hts]. lia.
Qed.

(** ** One snapshot per race *)
Abbreviation of_race := (at_key race_id).

Lemma one_value_spec key l : one_value key l = true ↔
  l ≠ [] ∧ ∀ c c', c ∈ l → c' ∈ l → key c = key c'.
Proof.
  unfold one_value. rewrite Nat.eqb_eq. split.
  - intros H. destruct (remove_dups (map key l)) as [|v [|? ?]] eqn:E; try done.
    assert (∀ c, c ∈ l → key c = v) as Hv.
    { intros c Hc. apply list_elem_of_singleton. rewrite <- E, elem_of_remove_dups. by apply list_elem_of_fmap_2. }
    split; [by intros ->|]. intros c c' Hc Hc'. by rewrite !Hv.
  - intros [Hne Hv]. destruct l as [|c l]; [done|].
    assert (remove_dups (map key (c :: l)) ≡ₚ [key c]) as E; [|by rewrite E].
    apply NoDup_Permutation; [apply NoDup_remove_dups|apply NoDup_singleton|].
    intros v. rewrite elem_of_remove_dups, list_elem_of_singleton, list_elem_of_fmap. split.
    + intros (c' & -> & Hc'). apply Hv; [done|left].
    + intros ->. exists c. split; [done|left].
Qed.

Lemma foldl_max_spec x l : x ≤ foldl Z.max x l ∧ (∀ y, y ∈ l → y ≤ foldl Z.max x l) ∧
  (foldl Z.max x l = x ∨ foldl Z.max x l ∈ l).
Proof.
  revert x. induction l as [|y l IH]; intros x; cbn.
  { split_and!; [lia|by intros ? ?%not_elem_of_nil|by left]. }
  destruct (IH (Z.max x y)) as (H1 & H2 & H3). split_and!; [lia| |].
  - intros z [->|Hz]%elem_of_cons; [lia|auto].
  - destruct H3 as [->|H3]; [|right; by right].
    destruct (Z.max_spec x y) as [[_ ->]|[_ ->]]; [right; left|by left].
Qed.
Lemma latest_spec g c : c ∈ g → prediction_time c ≤ latest g ∧ ∃ c', c' ∈ g ∧ prediction_time c' = latest g.
Proof.
  intros Hc. destruct g as [|d g]; [by apply not_elem_of_nil in Hc|].
  destruct (foldl_max_spec (prediction_time d) (map prediction_time g)) as (H1 & H2 & H3). split.
  - apply elem_of_cons in Hc as [->|Hc]; [done|]. apply H2. by apply list_elem_of_fmap_2.
  - destruct H3 as [E|H3]; [exists d; split; [left|done]|].
    apply list_elem_of_fmap in H3 as (c' & E & Hc'). exists c'. split; [by right|done].
Qed.
Lemma elem_of_tied g c : c ∈ tied g ↔ c ∈ g ∧ ∀ c', c' ∈ g → prediction_time c' ≤ prediction_time c.
Proof.
  unfold tied. rewrite list_elem_of_In, filter_In, <- list_elem_of_In, Z.eqb_eq. split.
  - intros [Hc E]. split; [done|]. intros c' Hc'. rewrite E. by apply latest_spec.
  - intros [Hc Hm]. split; [done|]. destruct (latest_spec g c Hc) as (? & c' & Hc' & E).
    specialize (Hm c' Hc'). lia.
Qed.
Lemma tied_not_nil g : g ≠ [] → tied g ≠ [].
Proof.
  intros Hg E. destruct g as [|c g]; [done|].
  destruct (latest_spec (c :: g) c ltac:(left)) as (_ & c' & Hc' & Hp).
  apply (not_elem_of_nil c'). rewrite <- E. apply elem_of_tied. split; [done|].
  intros d Hd. rewrite Hp. by apply latest_spec.
Qed.

(** The snapshot a group contributes. *)
Definition chosen (g : list candidate) : option candidate :=
  if one_value outcome_combo g && one_value record_text (tied g) then head (tied g) else None.
(** A candidate is kept, removed as a duplicate or excluded. *)
Definition accounted (s : selection) : Z :=
  duplicates s + Z.of_nat (length (reasons s)) + Z.of_nat (length (selected s)).
Lemma select_groups gs acc : Forall (λ g, g ≠ []) gs →
  let s := foldl select_group acc gs in
  selected s = selected acc ++ omap chosen gs ∧
  accounted s = accounted acc + Z.of_nat (sum_list (map length gs)).
Proof.
  intros HF. revert acc. induction HF as [|g gs Hg _ IH]; intros [sel dup why].
  { cbn. by rewrite app_nil_r, Z.add_0_r. }
  cbn [foldl map sum_list omap list_omap]. destruct (IH (select_group (Selection sel dup why) g)) as [-> ->].
  clear IH. apply tied_not_nil in Hg. unfold select_group, chosen, accounted.
  destruct (one_value outcome_combo g); cbn; [|rewrite length_app, repeat_length; split; [done|lia]].
  destruct (one_value record_text (tied g)); cbn; [|rewrite length_app, repeat_length; split; [done|lia]].
  destruct (tied g) as [|c l]; [done|]. cbn. rewrite <- (assoc_L (++)), !length_app. cbn. split; [done|lia].
Qed.

(** [c] is the snapshot of its race: all agree on the outcome, none was taken later,
    those taken at the same time are equal, and it comes first among them. *)
Definition is_latest (l : list candidate) (c : candidate) : Prop :=
  ∃ l1 l2, l = l1 ++ c :: l2 ∧
    (∀ c', c' ∈ l1 → race_id c' = race_id c → prediction_time c' < prediction_time c) ∧
    (∀ c', c' ∈ l → race_id c' = race_id c →
       outcome_combo c' = outcome_combo c ∧ prediction_time c' ≤ prediction_time c ∧
       (prediction_time c' = prediction_time c → record_text c' = record_text c)).

Lemma filter_head {A} (f : A → bool) l x : head (List.filter f l) = Some x ↔
  ∃ l1 l2, l = l1 ++ x :: l2 ∧ f x = true ∧ ∀ y, y ∈ l1 → f y = false.
Proof.
  split.
  - induction l as [|y l IH]; cbn; [done|]. destruct (f y) eqn:E; cbn.
    + intros [= ->]. exists [], l. split_and!; [done|done|]. by intros ? ?%not_elem_of_nil.
    + intros (l1 & l2 & -> & Hx & Hl)%IH. exists (y :: l1), l2. split_and!; [done|done|].
      intros z [->|?]%elem_of_cons; auto.
  - intros (l1 & l2 & -> & Hx & Hl). rewrite List.filter_app. cbn. rewrite Hx.
    assert (List.filter f l1 = []) as ->; [|done].
    induction l1 as [|y l1 IH]; cbn; [done|]. rewrite Hl by left. apply IH. intros z Hz. apply Hl. by right.
Qed.
Lemma filter_twice {A} (f h : A → bool) l : List.filter f (List.filter h l) = List.filter (λ x, h x && f x) l.
Proof. induction l as [|x l IH]; cbn; [done|]. destruct (h x); cbn; [|done]. destruct (f x); by rewrite IH. Qed.
Lemma tied_head l c : head (tied (of_race (race_id c) l)) = Some c ↔
  ∃ l1 l2, l = l1 ++ c :: l2 ∧ (∀ c', c' ∈ l → race_id c' = race_id c → prediction_time c' ≤ prediction_time c) ∧
    (∀ c', c' ∈ l1 → race_id c' = race_id c → prediction_time c' < prediction_time c).
Proof.
  set (g := of_race (race_id c) l).
  assert (∀ c', c' ∈ g ↔ c' ∈ l ∧ race_id c' = race_id c) as Hg by (intros c'; apply elem_at_key).
  unfold tied, g, at_key. rewrite filter_twice, filter_head. fold (at_key race_id (race_id c) l). fold g. split.
  - intros (l1 & l2 & E & [_ Hc%Z.eqb_eq]%andb_prop & Hl1). exists l1, l2. split_and!; [done| |].
    + intros c' Hin Hid. rewrite Hc. apply latest_spec. by apply Hg.
    + intros c' Hin Hid. assert (c' ∈ g) as Hg' by (apply Hg; rewrite E; set_solver).
      apply latest_spec in Hg' as [Hle _]. specialize (Hl1 c' Hin).
      rewrite Hid, String.eqb_refl in Hl1. cbn in Hl1. apply Z.eqb_neq in Hl1. lia.
  - intros (l1 & l2 & E & Hmax & Hl1). exists l1, l2.
    assert (c ∈ g) as Hc by (apply Hg; rewrite E; set_solver).
    destruct (latest_spec g c Hc) as (Hle & c0 & [Hc0 Hid]%Hg & E0).
    assert (prediction_time c = latest g) as Ec by (specialize (Hmax c0 Hc0 Hid); lia).
    split_and!; [done|rewrite String.eqb_refl; by apply Z.eqb_eq|].
    intros c' Hin. destruct (String.eqb_spec (race_id c') (race_id c)) as [Ei|]; [|done].
    specialize (Hl1 c' Hin Ei). apply Z.eqb_neq. lia.
Qed.
Lemma chosen_latest l c : chosen (of_race (race_id c) l) = Some c ↔ is_latest l c.
Proof.
  unfold is_latest. set (g := of_race (race_id c) l).
  assert (∀ c', c' ∈ g ↔ c' ∈ l ∧ race_id c' = race_id c) as Hg by (intros c'; apply elem_at_key).
  transitivity ((one_value outcome_combo g = true ∧ one_value record_text (tied g) = true) ∧
                head (tied g) = Some c).
  { unfold chosen. rewrite <- andb_true_iff. destruct (_ && _); naive_solver. }
  pose proof (tied_head l c) as Hh. fold g in Hh. rewrite !one_value_spec, Hh. clear Hh. split.
  - intros [[[_ Ho] [_ Ht]] (l1 & l2 & E & Hmax & Hl1)]. exists l1, l2. split_and!; [done|done|].
    intros c' Hin Hid. assert (c ∈ g) by (apply Hg; rewrite E; set_solver).
    split_and!; [apply Ho; [by apply Hg|done]|by apply Hmax|]. intros Ep.
    apply Ht; apply elem_of_tied; (split; [by first [assumption | apply Hg]|]); intros d [Hd ?]%Hg;
      rewrite ?Ep; by apply Hmax.
  - intros (l1 & l2 & E & Hl1 & Hall). assert (c ∈ g) as Hc by (apply Hg; rewrite E; set_solver).
    assert (g ≠ []) by (by intros Eg; rewrite Eg in Hc; apply not_elem_of_nil in Hc).
    split_and!; [done| |by apply tied_not_nil| |].
    + intros a b [Ha ?]%Hg [Hb ?]%Hg. destruct (Hall a) as [-> _]; [done..|]. by destruct (Hall b) as [-> _].
    + assert (∀ a, a ∈ tied g → record_text a = record_text c) as Hcommon; [|by intros a b ->%Hcommon ->%Hcommon].
      intros a [[Ha Hid]%Hg Hm]%elem_of_tied. destruct (Hall a Ha Hid) as (_ & Hle & Heq). apply Heq.
      specialize (Hm c Hc). lia.
    + exists l1, l2. split_and!; [done| |done]. intros c' Hin Hid. by apply Hall.
Qed.

#[local] Instance by_time_total : Total by_time.
Proof. intros a b. unfold by_time. destruct (str_le_total (race_id a) (race_id b)), (Z.lt_trichotomy (prediction_time a) (prediction_time b)); naive_solver. Qed.

Lemma chosen_in g c : chosen g = Some c → c ∈ g.
Proof.
  unfold chosen. destruct (_ && _); [|done]. intros H. assert (c ∈ tied g) as [Hc _]%elem_of_tied; [|done].
  destruct (tied g); [done|]. injection H as ->. left.
Qed.
Lemma grouped_chosen gs l : grouped race_id gs l →
  NoDup (map race_id (omap chosen (map snd gs))) ∧
  ∀ c, c ∈ omap chosen (map snd gs) ↔ is_latest l c.
Proof.
  intros [Hn Hg Ha _]. assert (∀ id g c, (id, g) ∈ gs → chosen g = Some c → race_id c = id) as Hid.
  { intros id g c [-> _]%Hg Hc%chosen_in. by apply elem_at_key in Hc as [_ ?]. }
  split.
  - clear Hg Ha. induction gs as [|[id g] gs IH]; cbn; [constructor|]. cbn in Hn.
    apply list.NoDup_cons in Hn as [Hni Hn].
    assert (NoDup (map race_id (omap chosen (map snd gs)))) as IH'.
    { apply IH; [done|]. intros i h c Hin. apply Hid. by right. }
    destruct (chosen g) as [c|] eqn:E; [|done]. cbn. apply list.NoDup_cons. split; [|done].
    intros (c' & Ec & (h & Hh & Hc')%list_elem_of_omap)%list_elem_of_fmap. apply Hni.
    apply list_elem_of_fmap in Hh as ([i h'] & -> & Hin). cbn in Hc'.
    rewrite <- (Hid id g c ltac:(left) E), Ec, (Hid i h' c' ltac:(by right) Hc').
    by apply (list_elem_of_fmap_2 fst) in Hin.
  - intros c. rewrite list_elem_of_omap, <- chosen_latest. split.
    + intros (g & Hin & Hc). apply list_elem_of_fmap in Hin as ([id g'] & -> & Hin). cbn in Hc.
      rewrite (Hid _ _ _ Hin Hc). by destruct (Hg _ _ Hin) as [<- _].
    + intros Hc. exists (of_race (race_id c) l). split; [|done].
      apply chosen_in, elem_at_key in Hc as [Hin _]. apply Ha in Hin.
      apply list_elem_of_fmap in Hin as ([id g] & Ei & Hin). cbn in Ei. subst id.
      destruct (Hg _ _ Hin) as [<- _]. by apply (list_elem_of_fmap_2 snd) in Hin.
Qed.

Lemma select_latest_spec (candidates : list candidate) :
  let s := select_latest candidates in
  selected s = merge_sort by_time (omap chosen (map snd (group_by_race candidates))) ∧
  accounted s = Z.of_nat (length candidates).
Proof.
  cbv zeta.
  assert (grouped race_id (group_by_race candidates) candidates) as Hgr by apply group_on_ok.
  destruct (select_groups (map snd (group_by_race candidates)) (Selection [] 0 [])) as [Hs Hc].
  { apply list.Forall_forall. intros g (ig & -> & Hin)%list_elem_of_fmap. destruct ig as [id g].
    by apply (gr_group _ _ _ Hgr) in Hin as [_ ?]. }
  unfold select_latest. destruct (foldl select_group _ _) as [sel dup why].
  cbn in Hs. subst sel. split; [done|]. revert Hc. unfold accounted. cbn.
  rewrite merge_sort_Permutation, (gr_length _ _ _ Hgr), map_map. lia.
Qed.
Lemma selected_ids (candidates : list candidate) : NoDup (map race_id (selected (select_latest candidates))).
Proof.
  destruct (select_latest_spec candidates) as [-> _]. rewrite merge_sort_Permutation.
  apply (grouped_chosen _ candidates), group_on_ok.
Qed.

(** Of the snapshots of each race, [select_latest] keeps the latest one, and
    none when they disagree; the kept ones are in the order of their times, and
    every snapshot is kept, removed as a duplicate or excluded. *)
Theorem latest_snapshot_selected (candidates : list candidate) :
  let s := select_latest candidates in
  NoDup (map race_id (selected s)) ∧ Sorted by_time (selected s) ∧
  (∀ c, c ∈ selected s ↔ is_latest candidates c) ∧
  duplicates s + Z.of_nat (length (reasons s)) + Z.of_nat (length (selected s)) = Z.of_nat (length candidates).
Proof.
  intros s. split; [apply selected_ids|]. destruct (select_latest_spec candidates) as [Hs Hc]. fold s in Hs, Hc.
  split_and!; [rewrite Hs; apply Sorted_merge_sort, _| |exact Hc]. rewrite Hs.
  intros c. rewrite merge_sort_Permutation. apply grouped_chosen, group_on_ok.
Qed.

(** ** No look-ahead *)
Lemma selected_fewer (candidates : list candidate) :
  (length (selected (select_latest candidates)) ≤ length candidates)%nat.
Proof.
  pose proof (selected_ids candidates) as Hn%NoDup_fmap_1. apply submseteq_length, NoDup_submseteq; [done|].
  intros c. destruct (select_latest_spec candidates) as [-> _]. rewrite merge_sort_Permutation.
  intros Hc%(grouped_chosen _ _ (group_on_ok race_id candidates)). destruct Hc as (l1 & l2 & -> & _). set_solver.
Qed.
Lemma elem_of_filter_bool {A} (f : A → bool) l x : x ∈ List.filter f l ↔ x ∈ l ∧ f x = true.
Proof. by rewrite list_elem_of_In, filter_In, <- list_elem_of_In. Qed.

(** What the split leaves out: predicted before a boundary, not settled by then. *)
Definition purged_between (vs ts : Z) (records : list candidate) : list candidate :=
  List.filter (λ c, ((prediction_time c <? vs) && (vs <=? result_time c))
    || ((vs <=? prediction_time c) && (prediction_time c <? ts) && (ts <=? result_time c))) records.

Lemma partition_perm vs ts (records : list candidate) : vs < ts →
  records ≡ₚ List.filter (λ c, (prediction_time c <? vs) && (result_time c <? vs)) records
    ++ List.filter (λ c, (vs <=? prediction_time c) && (prediction_time c <? ts) && (result_time c <? ts)) records
    ++ List.filter (λ c, ts <=? prediction_time c) records ++ purged_between vs ts records.
Proof.
  intros Hlt. induction records as [|c l IH]; [done|]. unfold purged_between in *. cbn [List.filter].
  destruct (Z.ltb_spec (prediction_time c) vs), (Z.leb_spec vs (prediction_time c)),
    (Z.ltb_spec (prediction_time c) ts), (Z.leb_spec ts (prediction_time c)),
    (Z.ltb_spec (result_time c) vs), (Z.leb_spec vs (result_time c)),
    (Z.ltb_spec (result_time c) ts), (Z.leb_spec ts (result_time c));
    cbn [andb orb]; try lia; rewrite IH at 1; solve_Permutation.
Qed.

(** What a split of the selected snapshots promises. *)
Definition no_peeking (records : list candidate) (p : partitions) : Prop :=
  NoDup (map race_id (train p ++ valid p ++ test p)) ∧
  (2 ≤ length (train p))%nat ∧ valid p ≠ [] ∧ test p ≠ [] ∧
  (∀ c c', (c ∈ train p ∧ c' ∈ valid p ++ test p) ∨ (c ∈ valid p ∧ c' ∈ test p) →
     prediction_time c < prediction_time c' ∧ result_time c < prediction_time c') ∧
  records ≡ₚ train p ++ valid p ++ test p ++ purged_between (validation_start p) (test_start p) records ∧
  purged p = Z.of_nat (length (purged_between (validation_start p) (test_start p) records)).
Lemma split_no_peeking (candidates : list candidate) p :
  Z.of_nat (length candidates) < 2 ^ 50 →
  split_records (selected (select_latest candidates)) = Ok p →
  no_peeking (selected (select_latest candidates)) p.
Proof.
  unfold no_peeking. intros Hlen Hp. pose proof (selected_fewer candidates) as Hle. pose proof (selected_ids candidates) as Hn.
  set (records := selected (select_latest candidates)) in *.
  pose proof (split_spec records ltac:(lia)) as H. cbv zeta in H. rewrite Hp in H.
  destruct H as (_ & _ & _ & Hlt & E & Ht & Hv & Hs).
  pose proof (partition_perm _ _ records Hlt) as Hperm.
  set (vs := validation_start p) in *. set (ts := test_start p) in *.
  pose proof (f_equal train E) as Et. pose proof (f_equal valid E) as Ev.
  pose proof (f_equal test E) as Es. pose proof (f_equal purged E) as Ep. clear E.
  cbn [train valid test purged] in Et, Ev, Es, Ep. rewrite <- Et, <- Ev, <- Es in Hperm.
  split_and!; [ |done|done|done| |done|].
  - rewrite Hperm, !map_app, !list.NoDup_app in Hn. rewrite !map_app, !list.NoDup_app. set_solver.
  - intros c c'. rewrite elem_of_app, Et, Ev, Es, !elem_of_filter_bool, !andb_true_iff, !Z.ltb_lt, !Z.leb_le. lia.
  - apply Permutation_length in Hperm. rewrite !length_app in Hperm. lia.
Qed.

(** Seven races, one of them recorded twice, and one settled too late. *)
Definition example_candidate (id : string) (predicted settled : Z) (outcome text : string) : candidate :=
  Candidate id predicted settled (VDict [("outcome_combo", VStr outcome); ("note", VStr text)]) [] [].
Definition example_candidates : list candidate :=
  [example_candidate "r1" 10 15 "1-2-3" "a"; example_candidate "r2" 20 25 "1-3-2" "b";
   example_candidate "r1" 12 15 "1-2-3" "c"; example_candidate "r3" 30 95 "2-1-3" "d";
   example_candidate "r4" 40 45 "4-1-3" "e"; example_candidate "r5" 50 55 "5-1-2" "f";
   example_candidate "r6" 60 65 "6-1-2" "g"; example_candidate "r7" 70 75 "7-1-2" "h"].
Definition example_split : result partitions := split_records (selected (select_latest example_candidates)).
Example example_partitions :
  match example_split with
  | Ok p => (map race_id (train p), map race_id (valid p), map race_id (test p), purged p,
             validation_start p, test_start p) =
            (["r1"; "r2"; "r4"], ["r5"], ["r6"; "r7"], 1, 50, 60)
  | Err _ => False
  end.
Proof. vm_compute. reflexivity. Qed.
(** The split of fewer than 2^50 records cuts at the distinct prediction times
    of index three and four fifths, in exact arithmetic although the code multiplies
    by floats; every refusal is a ValueError, no index is out of range. *)
Theorem split_at_fifths (records : list candidate) : Z.of_nat (length records) < 2 ^ 50 →
  let times := distinct_times records in
  let n := Z.of_nat (length times) in
  match split_records records with
  | Ok p => 5 ≤ n ∧ times !! Z.to_nat (3 * n / 5) = Some (validation_start p) ∧
      times !! Z.to_nat (4 * n / 5) = Some (test_start p)
  | Err e => exn_class e = ValueError
  end.
Proof.
  intros Hlen times n. pose proof (split_spec records Hlen) as H. cbv zeta in H. fold times n in H.
  destruct (split_records records); [|done]. destruct H as (H5 & Hv & Ht & _). auto.
Qed.
Lemma split_at_fifths_witness : ∃ p, split_records example_candidates = Ok p ∧
  distinct_times example_candidates !! 4%nat = Some (validation_start p).
Proof.
  pose proof (split_at_fifths example_candidates ltac:(reflexivity)) as H.
  destruct (split_records example_candidates) as [p|e] eqn:E; [|by vm_compute in E].
  exists p. split; [done|]. apply H.
Defined.
