(* ===== verification/PrepareFacts.v ===== *)
(** From raw records to the partitions of an evaluation: [prepare] always returns,
    accounts for every record, and a split of what it selects never looks ahead. *)
From Stdlib Require Import SpecFloat.
From stdpp Require Import sorting.
From S2P Require Import Prelude PyString PyValue PyText PyFloat Itertools Dataset DatasetFacts Evaluation EvaluationFacts.

Section prepare.
Context `{Readers}.

(** ** The table of probabilities *)
Lemma dict_set_new k v d : dict_has k d = false → dict_set k v d = d ++ [(k, v)].
Proof.
  unfold dict_has. induction d as [|[k' v'] d IH]; cbn; [done|]. destruct (String.eqb k' k); [done|]. intros E. by rewrite IH.
Qed.
(** Distinct expected keys, each with a probability. *)
Definition probabilities (expected : list string) (values : pydict) : Prop :=
  NoDup (keys values) ∧ Forall (λ kv, kv.1 ∈ expected ∧ ∃ p, kv.2 = VFloat p ∧ is_probability p = true) values.
Lemma add_probability_ok expected values row values' : probabilities expected values →
  add_probability expected values row = Ok values' →
  probabilities expected values' ∧ length values' = S (length values).
Proof.
  intros [Hn Hf]. unfold add_probability. intros Hrun. inv_result.
  match goal with H : in_str_set ?key _ = Ok ?known |- _ => rename H into Hin, key into key0, known into known0 end.
  destruct key0 as [| | | |k| | |]; try done.
  match goal with H : match ?raw with _ => _ end = Ok _ |- _ => assert (∃ p, is_probability p = true ∧
    dict_has k values = false ∧ known0 = true ∧ values' = dict_set k (VFloat p) values) as (p & Hp & Hk & -> & ->) end.
  { destruct a0; try done; inv_result; eauto. }
  rewrite dict_set_new by done. rewrite length_app. cbn. split; [|lia]. split.
  - unfold keys. rewrite map_app. apply list.NoDup_app. split_and!; [done| |apply NoDup_singleton].
    intros x Hx ->%list_elem_of_singleton. unfold dict_has in Hk. cbn in Hx.
    apply list_elem_of_fmap in Hx as ([x v] & -> & Hx). by rewrite (dict_get_elem _ v) in Hk.
  - apply Forall_app. split; [done|]. repeat constructor; [|by eexists]. cbn.
    apply in_strs_ok in Hin as (s & [= ->] & ?); done.
Qed.
Lemma add_probabilities_ok expected l values values' : probabilities expected values →
  foldR (add_probability expected) values l = Ok values' →
  probabilities expected values' ∧ length values' = (length values + length l)%nat.
Proof.
  revert values. induction l as [|row l IH]; intros values Hok; cbn [foldR length].
  { intros [= <-]. split; [done|lia]. }
  intros (v1 & Hrow & Hrun)%bind_Ok. apply add_probability_ok in Hrow as [H1 L1]; [|done].
  apply IH in Hrun as [H2 L2]; [|done]. split; [done|lia].
Qed.
(** An accepted table gives every combination one probability. *)
Lemma probability_table_ok table cars values : probability_table table cars = Ok values →
  keys values ≡ₚ remove_dups (combinations cars) ∧ probabilities (combinations cars) values ∧
  mass_is_off (float_sum (floats values)) = false.
Proof.
  unfold probability_table. intros Hrun. destruct table; try done. inv_result.
  match goal with H : foldR _ _ _ = Ok _ |- _ => apply add_probabilities_ok in H as [Hok Hlen]; [|by repeat constructor] end.
  split; [|done]. destruct Hok as [Hn Hf]. cbn in Hlen.
  match goal with H : (_ =? _)%nat = true |- _ => apply Nat.eqb_eq in H as El end.
  apply submseteq_length_Permutation.
  - apply NoDup_submseteq; [done|]. intros k Hk. apply elem_of_remove_dups.
    apply list_elem_of_fmap in Hk as (kv & -> & Hin). rewrite list.Forall_forall in Hf. by apply Hf.
  - unfold keys. rewrite length_map. lia.
Qed.

(** ** The cars *)
Lemma slen_chars s : slen s = Z.of_nat (length (chars s)).
Proof. unfold slen. f_equal. induction s as [|c s IH]; cbn; congruence. Qed.
Lemma slen_app a b : slen (a ++ b) = slen a + slen b.
Proof. by rewrite !slen_chars, chars_app, length_app, Nat2Z.inj_add. Qed.
Lemma slen_nonneg s : 0 ≤ slen s.
Proof. unfold slen. lia. Qed.
(** The text of a float is longer than a digit. *)
Lemma pos_float_repr_long m e : 2 ≤ slen (pos_float_repr m e).
Proof.
  unfold pos_float_repr. destruct (shortest _ _ _ _ _ _) as [d k]. cbv zeta. set (s := nat_str _).
  destruct ((-4 <=? k) && (k <? 16)) eqn:Ek.
  - apply andb_true_iff in Ek as [?%Z.leb_le ?%Z.ltb_lt].
    destruct (Z.ltb_spec k 0); [|destruct (Z.leb_spec (slen s) (k + 1))]; rewrite !slen_app.
    + change (slen "0.") with 2. pose proof (slen_nonneg (zeros (- k - 1))). pose proof (slen_nonneg s). lia.
    + change (slen ".0") with 2. pose proof (slen_nonneg (zeros (k + 1 - slen s))). pose proof (slen_nonneg s). lia.
    + change (slen ".") with 1. pose proof (slen_nonneg (drop_s (Z.to_nat (k + 1)) s)). pose proof (slen_chars s).
      unfold take_s. rewrite (slen_chars (of_chars _)), chars_of_chars, length_firstn. lia.
  - rewrite !slen_app. change (slen "e") with 1. destruct (k <? 0).
    all: match goal with |- _ ≤ slen ?m + (_ + (slen ?c + (slen ?z + slen ?t))) =>
           pose proof (slen_nonneg m); change (slen c) with 1; pose proof (slen_nonneg z);
           pose proof (slen_nonneg t); lia end.
Qed.
(** The numbers of the cars. *)
Definition digits (n : nat) : list string := map (λ i, z_str (Z.of_nat i)) (seq 1 n).
Lemma digits_short n s : (n ≤ 9)%nat → s ∈ digits n → ∃ i, s = z_str i ∧ 1 ≤ i ≤ Z.of_nat n ∧ slen s = 1.
Proof.
  intros Hn (i & -> & Hi%elem_of_seq)%list_elem_of_fmap. exists (Z.of_nat i). split_and!; [done|lia|lia|].
  do 10 (destruct i as [|i]; [try lia; done|]). lia.
Qed.
(** A number of one character is a digit. *)
Lemma nat_str_length z : (1 ≤ length (chars (nat_str z)))%nat ∧ (10 ≤ z → (2 ≤ length (chars (nat_str z)))%nat).
Proof.
  unfold nat_str. rewrite chars_of_chars, length_rev.
  replace (Z.to_nat (Z.log2 z + 2)) with (S (S (Z.to_nat (Z.log2 z)))) by (pose proof (Z.log2_nonneg z); lia).
  cbn [digits_rev]. destruct (Z.ltb_spec z 10); cbn [length]; [lia|]. destruct (z / 10 <? 10); cbn [length]; lia.
Qed.
Lemma z_str_short z : slen (z_str z) = 1 → 0 ≤ z < 10.
Proof.
  unfold z_str. destruct (Z.ltb_spec z 0); rewrite ?slen_app.
  - change (slen "-") with 1. rewrite slen_chars. destruct (nat_str_length (- z)). lia.
  - rewrite slen_chars. destruct (nat_str_length z). destruct (Z.leb_spec 10 z); lia.
Qed.
Lemma z_str_digit_inj i j : 0 ≤ i < 10 → 0 ≤ j < 10 → z_str i = z_str j → i = j.
Proof.
  intros Hi Hj. rewrite <- (Z2Nat.id i), <- (Z2Nat.id j) by lia. assert (Z.to_nat i < 10)%nat as Hi' by lia.
  assert (Z.to_nat j < 10)%nat as Hj' by lia. generalize dependent (Z.to_nat i). generalize dependent (Z.to_nat j).
  intros m Hm k Hk. do 10 (destruct m as [|m]; [do 10 (destruct k as [|k]; [done|]); lia|]). lia.
Qed.
Context `{!ReaderLaws}.
Lemma valid_car n v car : (n ≤ 9)%nat → invalid_car n v = false → int_value v = Ok car → 1 ≤ car ≤ Z.of_nat n.
Proof.
  intros Hn Hv Hcar. unfold invalid_car in Hv. destruct v; try done; apply negb_false_iff, bool_decide_eq_true in Hv;
    pose proof (digits_short _ _ Hn Hv) as (i & Hs & Hi & Hlen); cbn [py_str] in *.
  - injection Hcar as <-. apply z_str_short in Hlen as Hz. apply z_str_digit_inj in Hs; lia.
  - exfalso. cbn [py_repr] in Hlen. destruct f as [[]|[]| |sign m e]; try done. cbn [float_repr] in Hlen.
    rewrite slen_app in Hlen. pose proof (pos_float_repr_long (Zpos m) e).
    pose proof (slen_nonneg (if sign then "-" else "")). lia.
  - subst s. cbn [int_value] in Hcar. rewrite read_digit in Hcar by lia. injection Hcar as <-. lia.
Qed.
(** Distinct numbers from one to their count are all of them. *)
Lemma cars_permutation cars : NoDup cars → (∀ car, car ∈ cars → 1 ≤ car ≤ Z.of_nat (length cars)) →
  cars ≡ₚ map Z.of_nat (seq 1 (length cars)).
Proof.
  intros Hn Hb. apply submseteq_length_Permutation; [|by rewrite length_map, length_seq].
  apply NoDup_submseteq; [done|]. intros car Hcar%Hb. apply list_elem_of_fmap. exists (Z.to_nat car).
  split; [lia|]. apply elem_of_seq. lia.
Qed.
Lemma rows_cars r players raw rows :
  rider_rows r = Ok rows → field "players" (training_input r) = VList players →
  mapR (λ player, getitem player "car_number") players = Ok raw →
  existsb (invalid_car (length players)) raw = false → (length players ≤ 9)%nat →
  ∀ car, car ∈ map car_of rows → 1 ≤ car ≤ Z.of_nat (length players).
Proof.
  intros (input & players' & o & order & Hel & _ & _ & race & odds & known & _ & _ & _ & Hrows & _)%rider_rows_inv
    Hp Hraw Hvalid Hle car (row & -> & Hrow)%list_elem_of_fmap.
  assert (players' = players) as ->.
  { rewrite (el_input _ _ _ _ Hel) in Hp. destruct (el_players _ _ _ _ Hel) as [E _]. cbn in Hp. congruence. }
  apply mapR_Ok in Hrows, Hraw. apply list_elem_of_lookup_1 in Hrow as [i Hi].
  eapply Forall2_lookup_r in Hrows as (p & Hpi & (c & Hg & Hc)%row_player); [|exact Hi].
  apply (valid_car _ c); [done| |done]. apply list_elem_of_lookup_2, list_elem_of_In, filter_In in Hpi as [Hin _].
  apply list_elem_of_In, list_elem_of_lookup_1 in Hin as [j Hj].
  eapply Forall2_lookup_l in Hraw as (c' & Hc' & E); [|exact Hj].
  assert (c' = c) as -> by congruence. destruct (invalid_car (length players) c) eqn:Einv; [|done].
  rewrite <- Hvalid. symmetry. apply existsb_exists. exists c. split; [|done]. apply list_elem_of_In.
  by apply list_elem_of_lookup_2 in Hc'.
Qed.

(** ** What a candidate is *)
(** The text of a time with a zone, read as [t]. *)
Definition timed (v : pyval) (t : Z) : Prop := timestamp v = Ok t.
(** What [candidate_of] has checked. *)
Record usable (c : candidate) : Prop := {
  us_eligible : ∃ input players outcome, eligible (record c) input players outcome;
  us_predicted : timed (field "prediction_timestamp" (record c)) (prediction_time c);
  us_captured : timed (field "captured_at" (training_input (record c))) (prediction_time c);
  us_settled : timed (field "result_timestamp" (metadata (record c))) (result_time c);
  us_order : prediction_time c < result_time c;
  us_rows : rider_rows (record c) = Ok (rows c);
  us_riders : length (rows c) = 7%nat ∨ length (rows c) = 9%nat;
  us_cars : map car_of (rows c) ≡ₚ map Z.of_nat (seq 1 (length (rows c)));
  us_styles row : row ∈ rows c → ∃ s, get_or_none "style" row = VStr s ∧ s ∈ STYLES;
  us_engine : field "engine_version" (metadata (record c)) = VStr BASELINE;
  us_baseline : probability_table (field "trifecta_scores" (record c)) (map car_of (rows c)) = Ok (baseline c);
  us_complete : keys (baseline c) ≡ₚ remove_dups (combinations (map car_of (rows c)));
  us_mass : mass_is_off (float_sum (floats (baseline c))) = false;
  us_outcome : dict_has (outcome_combo c) (baseline c) = true }.

Lemma existsR_false {A} (f : A → result bool) l x : existsR f l = Ok false → x ∈ l → f x = Ok false.
Proof.
  induction l as [|y l IH]; [by intros _ ?%not_elem_of_nil|]. cbn. intros Hrun. inv_result.
  match goal with H : (if ?b then _ else _) = _ |- _ => destruct b; [done|] end.
  intros [->|Hx]%elem_of_cons; [done|by apply IH].
Qed.
Lemma candidate_usable synthetic r c : candidate_of synthetic r = Ok c → record c = r ∧ usable c.
Proof.
  unfold candidate_of. intros Hrun. inv_result.
  match goal with H : supervised_eligibility _ = Ok ?x |- _ => destruct x as [ok why]; cbn in *; subst ok;
    pose proof (eligible_ok _ _ H) as Hel end.
  inv_reads. cbn [record]. split; [done|].
  match goal with H : (match field "players" _ with _ => _ end) = Ok _ |- _ =>
    destruct (field "players" _) eqn:Hp in H; try done; destruct (_ || _) eqn:Hlen in H; [|done]; injection H as -> end.
  repeat match goal with
  | H : (_ =? _) = true |- _ => apply Z.eqb_eq in H
  | H : (_ <? _) = true |- _ => apply Z.ltb_lt in H
  | H : is_text _ _ = true |- _ => apply is_text_true in H
  | H : (_ =? _)%nat = true |- _ => apply Nat.eqb_eq in H
  end. subst.
  match goal with H : mapR _ ?ps = Ok ?raw |- _ => pose proof (mapR_length _ _ _ H) as Hraw;
    assert (length ps = 7 ∨ length ps = 9)%nat as Hsize by (rewrite orb_true_iff, !Nat.eqb_eq in Hlen; done) end.
  match goal with H : probability_table _ _ = Ok _ |- _ => pose proof (probability_table_ok _ _ _ H) as (? & _ & ?) end.
  split; cbn [prediction_time result_time record rows baseline]; unfold timed, metadata, training_input; try done.
  - lia.
  - pose proof (rows_cars r a16 a17 a19 ltac:(done) ltac:(done) ltac:(done) ltac:(done) ltac:(lia)) as Hc.
    replace (length a19) with (length (map car_of a19)) by by rewrite length_map.
    apply cars_permutation; [done|]. rewrite length_map. replace (length a19) with (length a16) by congruence. done.
  - intros row Hin. eapply existsR_false in Hin; [|done]. cbn beta in Hin. inv_result.
    by eapply in_strs_ok.
Qed.

(** ** Every row gives features *)
(** A value a feature is made of. *)
Definition plain (v : pyval) : Prop := v = VNone ∨ (∃ f, v = VFloat f) ∨ v = VInt 0 ∨ v = VInt 1.
Lemma num_at_plain v k x : num_at v k = Ok x → plain x.
Proof. unfold num_at, plain. intros Hrun. inv_result. match goal with |- float_or_none ?o = _ ∨ _ => destruct o end; eauto. Qed.
Lemma meet_plain v x : current_meet_avg v = Ok x → plain x.
Proof.
  unfold current_meet_avg, plain. intros Hrun. inv_result.
  match goal with H : match concat ?l with _ => _ end = _ |- _ => destruct (concat l); inv_result; eauto end.
Qed.
Lemma of_bool_plain b : plain (VInt (of_bool b)).
Proof. unfold plain. destruct b; auto. Qed.
Lemma plain_feature v : plain v → is_ok (_float_or_nan v) = true.
Proof. by intros [->|[[f ->]|[-> | ->]]]. Qed.
Lemma fields_plain player features : extract_player_model_fields player = Ok features →
  ∀ name, name ∈ NUMERIC_FEATURES → plain (get_or_none name features).
Proof.
  unfold extract_player_model_fields. intros Hrun. inv_result.
  repeat match goal with
  | H : num_at _ _ = Ok _ |- _ => apply num_at_plain in H
  | H : current_meet_avg _ = Ok _ |- _ => apply meet_plain in H
  end.
  apply list.Forall_forall. unfold NUMERIC_FEATURES.
  repeat (apply list.Forall_cons; split; [first [assumption | apply of_bool_plain]|]). by apply list.Forall_nil.
Qed.

(** The features of the rows a record gives are defined. *)
Lemma dict_get_in k d : k ∈ keys d → ∃ v, dict_get k d = Some v.
Proof.
  induction d as [|[k' v] d IH]; cbn; [by intros ?%not_elem_of_nil|]. destruct (String.eqb_spec k' k); [by eexists|].
  intros [E|Hin]%elem_of_cons; [by subst|auto].
Qed.
Lemma row_numeric record race n outcome player row name : rider_row record race n outcome player = Ok row →
  name ∈ NUMERIC_FEATURES → plain (get_or_none name row).
Proof.
  intros (features & car & Hf & Hk & _ & _ & ->)%row_shape Hname. pose proof (fields_plain _ _ Hf _ Hname) as Hp.
  destruct (dict_get_in name features) as [v Hv].
  { rewrite Hk. clear Hp. revert name Hname. apply list.Forall_forall. by apply (bool_decide_unpack _). }
  unfold get_or_none in *. rewrite dict_get_app, dict_get_app, Hv in *.
  rewrite dict_get_not_in; [done|]. clear Hp Hv. cbn [keys row_head map fst]. revert name Hname.
  apply list.Forall_forall. by apply (bool_decide_unpack _).
Qed.
Lemma rows_features r rows : rider_rows r = Ok rows → ∀ row, row ∈ rows → ∃ fs, row_to_features row = Ok fs.
Proof.
  intros (input & players & o & order & _ & _ & _ & race & odds & known & _ & _ & _ & Hrows & _)%rider_rows_inv row Hin.
  apply mapR_Ok in Hrows. apply list_elem_of_lookup_1 in Hin as [i Hi].
  eapply Forall2_lookup_r in Hrows as (p & _ & Hp); [|exact Hi]. unfold row_to_features.
  destruct (mapR_total (λ name, _float_or_nan (get_or_none name row)) NUMERIC_FEATURES) as [ys ->]; [|by eexists].
  intros name Hname. pose proof (plain_feature _ (row_numeric _ _ _ _ _ _ _ Hp Hname)).
  destruct (_float_or_nan _); [by eexists|done].
Qed.

(** ** Every record is accounted for *)
Lemma handles_py_get v k : handles (py_get v k).
Proof. unfold py_get. raises_tac. Qed.
Lemma handles_timestamp v : handles (timestamp v).
Proof.
  unfold timestamp. destruct v; eauto with raises. destruct (read_time s) as [d|e] eqn:E; cbn.
  - destruct (zoned d) eqn:Ez; cbn; [|by intros e [= <-]]. destruct (zoned_posix_Ok _ _ E Ez) as [t ->]. apply raises_ok.
  - by intros e' [= <-]; eapply handles_read_time.
Qed.
Lemma handles_style row : handles (in_str_set (get_or_none "style" row) STYLES ≫= λ b : bool, Ok (negb b)).
Proof. raises_tac. Qed.
Lemma handles_add_probability expected values row : handles (add_probability expected values row).
Proof. unfold add_probability. handles_steps. Qed.
Hint Resolve handles_py_get handles_timestamp handles_style handles_add_probability : raises.
Lemma handles_table table cars : handles (probability_table table cars).
Proof. unfold probability_table. handles_steps. Qed.
Hint Resolve handles_table : raises.
Lemma handles_candidate synthetic r : handles (candidate_of synthetic r).
Proof. unfold candidate_of. handles_steps. Qed.

(** The candidates of a list of records. *)
Definition candidates_of (synthetic : bool) (records : list pyval) : list candidate :=
  omap (λ r, match candidate_of synthetic r with Ok c => Some c | Err _ => None end) records.
Lemma check_records synthetic records acc : ∃ why, foldR (check_record synthetic) acc records =
    Ok (acc.1 ++ candidates_of synthetic records, acc.2 ++ why) ∧
  length records = (length (candidates_of synthetic records) + length why)%nat.
Proof.
  revert acc. induction records as [|r records IH]; intros [cs ws]; cbn [foldR].
  { exists []. by rewrite !app_nil_r. }
  unfold check_record, candidates_of in *. cbn [omap list_omap].
  destruct (candidate_of synthetic r) as [c|e] eqn:E; cbn [fst snd].
  - destruct (IH (cs ++ [c], ws)) as (why & Hrun & Hlen). exists why. cbn in Hrun |- *. rewrite Hrun.
    split; [by rewrite <- (assoc_L (++))|]. cbn. lia.
  - assert (caught e = true) as -> by exact (handles_candidate synthetic r e E).
    destruct (IH (cs, ws ++ [exclusion e])) as (why & Hrun & Hlen). exists (exclusion e :: why). cbn in Hrun |- *.
    rewrite Hrun. split; [by rewrite <- (assoc_L (++))|]. cbn. lia.
Qed.
Lemma candidates_usable synthetic records c : c ∈ candidates_of synthetic records → record c ∈ records ∧ usable c.
Proof.
  unfold candidates_of. intros (r & Hin & Hc)%list_elem_of_omap. destruct (candidate_of synthetic r) eqn:E; [|done].
  injection Hc as ->. apply candidate_usable in E as [-> Hu]. done.
Qed.

(** The counts of the exclusions add up to their number. *)
Definition sum_counts (d : pydict) : Z := foldr (λ kv acc, match kv.2 with VInt n => n | _ => 0 end + acc) 0 d.
Definition is_count (kv : string * pyval) : Prop := ∃ n, kv.2 = VInt n.
Lemma count_one_sum d k : Forall is_count d →
  Forall is_count (count_one d k) ∧ sum_counts (count_one d k) = sum_counts d + 1.
Proof.
  unfold count_one, get_or_none. induction 1 as [|[k' v] d [n Hn] Hd IH]; cbn [dict_get dict_set].
  { split; [repeat constructor; by eexists|done]. }
  cbn in Hn. subst v. destruct (String.eqb k' k).
  - split; [constructor; [by eexists|done]|]. cbn. lia.
  - destruct IH as [Hf Hs]. split; [constructor; [by eexists|done]|]. unfold sum_counts in *. cbn [foldr snd] in *. rewrite Hs. lia.
Qed.
Lemma counted_sum l : sum_counts (counted l) = Z.of_nat (length l).
Proof.
  unfold counted. change (Z.of_nat (length l)) with (sum_counts [] + Z.of_nat (length l)).
  assert (Forall is_count []) as Hf by constructor. revert Hf. generalize (@nil (string * pyval)) as d.
  induction l as [|k l IH]; intros d Hf; cbn [foldl length]; [lia|].
  destruct (count_one_sum d k Hf) as [Hf' Hs]. rewrite IH, Hs by done. lia.
Qed.

Lemma selected_usable synthetic records c : c ∈ selected (select_latest (candidates_of synthetic records)) →
  record c ∈ records ∧ usable c.
Proof.
  destruct (select_latest_spec (candidates_of synthetic records)) as [-> _]. rewrite merge_sort_Permutation.
  intros (l1 & l2 & E & _)%(grouped_chosen _ _ (group_on_ok race_id _)). apply (candidates_usable synthetic).
  rewrite E. set_solver.
Qed.
Lemma float_of_count z : 0 ≤ z < 2 ^ 60 → ∃ f, float_of_Z z = Ok f.
Proof.
  intros Hz. unfold float_of_Z. assert (float_overflow <=? Z.abs z = false) as ->; [|by eexists].
  apply Z.leb_gt. rewrite Z.abs_eq by lia. assert (2 ^ 60 <= float_overflow) by done. lia.
Qed.
Lemma length_concat_le {A} n (ls : list (list A)) : (∀ l, l ∈ ls → (length l ≤ n)%nat) →
  (length (concat ls) ≤ n * length ls)%nat.
Proof.
  induction ls as [|l ls IH]; intros Hn; cbn [concat length]; [lia|]. rewrite length_app.
  pose proof (Hn l ltac:(left)). specialize (IH ltac:(intros; apply Hn; by right)). lia.
Qed.
Lemma fraction_defined matrix index : Z.of_nat (length matrix) < 2 ^ 60 →
  ∃ f, fraction matrix (missing_at matrix index) = Ok f.
Proof.
  intros Hm. unfold fraction. case_bool_decide; [by eexists|].
  destruct (float_of_count (missing_at matrix index)) as [n ->].
  { unfold missing_at. pose proof (filter_length_le (λ row, negb (float_is_finite (nth index row S754_nan))) matrix). lia. }
  destruct (float_of_count (Z.of_nat (length matrix))) as [d ->]; [lia|]. by eexists.
Qed.
Lemma prepare_run synthetic records : Z.of_nat (length records) < 2 ^ 50 →
  let s := select_latest (candidates_of synthetic records) in
  ∃ quality why, prepare synthetic records = Ok (selected s, quality) ∧
    dict_get "excluded" quality = Some (VDict (counted why)) ∧
    dict_get "duplicate_snapshots_removed" quality = Some (VInt (duplicates s)) ∧
    Z.of_nat (length records) = Z.of_nat (length (selected s)) + duplicates s + Z.of_nat (length why).
Proof.
  intros Hlen. cbv zeta. unfold prepare.
  destruct (check_records synthetic records ([], [])) as (why & Hrun & Hcount). cbn in Hrun. rewrite Hrun. cbn [mbind result_bind fst snd].
  pose proof (selected_usable synthetic records) as Hus. pose proof (selected_fewer (candidates_of synthetic records)) as Hle.
  destruct (select_latest_spec (candidates_of synthetic records)) as [_ Hacc].
  destruct (select_latest (candidates_of synthetic records)) as [sel dup why']. unfold accounted in Hacc.
  cbn [selected duplicates reasons] in *.
  destruct (mapR_total row_to_features (concat (map rows sel))) as [matrix Hm].
  { intros row Hin. apply list_elem_of_In, in_concat in Hin as (rs & Hrs%list_elem_of_In & Hrow%list_elem_of_In).
    apply list_elem_of_fmap in Hrs as (c & -> & Hc). eapply rows_features; [|done]. by apply us_rows, Hus. }
  rewrite Hm. cbn [mbind result_bind].
  assert (Z.of_nat (length matrix) < 2 ^ 60) as Hmatrix.
  { apply mapR_length in Hm. rewrite Hm. pose proof (length_concat_le 9 (map rows sel)) as Hc. rewrite length_map in Hc.
    assert (length (concat (map rows sel)) ≤ 9 * length sel)%nat; [|lia]. apply Hc.
    intros rs (c & -> & [_ Hu]%Hus)%list_elem_of_fmap. destruct (us_riders _ Hu); lia. }
  destruct (mapR_total (λ kv : string * Z, fraction matrix kv.2 ≫= λ f : pyval, Ok (kv.1, f))
    (imap (λ i name, (name, missing_at matrix i)) FEATURE_COLUMNS)) as [fractions ->].
  { intros kv (i & name & -> & _)%elem_of_lookup_imap. cbn [fst snd].
    destruct (fraction_defined matrix i Hmatrix) as [f ->]. by eexists. }
  cbn [mbind result_bind]. eexists _, (why ++ why'). split_and!; [done|done|done|]. rewrite length_app. lia.
Qed.

(** Preparing the records of an evaluation never fails, and accounts for every
    record: it is selected, removed as a duplicate or counted under the reason of its
    exclusion.  There is one selected record per race, and each has passed the checks:
    its prediction was captured at the stated time and before its result, its riders
    are the cars one to seven or nine, and its baseline is a complete table of
    probabilities that contains the outcome. *)
Theorem prepare_accounts synthetic (records : list pyval) : Z.of_nat (length records) < 2 ^ 50 →
  ∃ chosen quality excluded removed, prepare synthetic records = Ok (chosen, quality) ∧
    NoDup (map race_id chosen) ∧ (∀ c, c ∈ chosen → record c ∈ records ∧ usable c) ∧
    dict_get "excluded" quality = Some (VDict excluded) ∧
    dict_get "duplicate_snapshots_removed" quality = Some (VInt removed) ∧
    Z.of_nat (length records) = Z.of_nat (length chosen) + removed + sum_counts excluded.
Proof.
  intros Hlen. destruct (prepare_run synthetic records Hlen) as (quality & why & Hrun & Hex & Hrem & Hsum).
  eexists _, quality, _, _. split_and!; [done|apply selected_ids|apply selected_usable|done|done|].
  by rewrite counted_sum.
Qed.

Lemma prepared_no_peeking synthetic (records : list pyval) chosen quality p :
  Z.of_nat (length records) < 2 ^ 50 → prepare synthetic records = Ok (chosen, quality) → split_records chosen = Ok p →
  chosen = selected (select_latest (candidates_of synthetic records)) ∧ no_peeking chosen p.
Proof.
  intros Hlen Hrun Hp. destruct (prepare_run synthetic records Hlen) as (q & why & Hrun' & _).
  rewrite Hrun' in Hrun. injection Hrun as <- <-. split; [done|]. apply split_no_peeking; [|done].
  destruct (check_records synthetic records ([], [])) as (? & _ & ?). lia.
Qed.

(** C22: an evaluation of raw records never looks ahead.  No race is in two
    partitions; every result used for training was known strictly before each
    prediction of the validation and test partitions, every validation result before
    each test prediction, the predictions being ordered likewise; what is purged is
    exactly what was predicted before a boundary and settled after it; and the times
    compared are those the records state. *)
Theorem no_look_ahead synthetic (records : list pyval) chosen quality p :
  Z.of_nat (length records) < 2 ^ 50 → prepare synthetic records = Ok (chosen, quality) →
  split_records chosen = Ok p →
  no_peeking chosen p ∧
  ∀ c, c ∈ train p ++ valid p ++ test p → record c ∈ records ∧ usable c.
Proof.
  intros Hlen Hrun Hp. destruct (prepared_no_peeking _ _ _ _ _ Hlen Hrun Hp) as [-> Hn]. split; [done|]. intros c Hin.
  apply (selected_usable synthetic). destruct Hn as (_ & _ & _ & _ & _ & Hperm & _). rewrite Hperm. set_solver.
Qed.
End prepare.

(** ** Examples *)
#[local] Existing Instance decimal_readers.
#[local] Existing Instance decimal_laws.
(** Seven riders, the whole probability on one combination. *)
Definition example_score (outcome key : string) : pyval :=
  VDict [("combo_key", VStr key); ("estimated_probability", VInt (of_bool (String.eqb key outcome)))].
Definition example_player (i : nat) : pyval :=
  VDict [("car_number", VInt (Z.of_nat i)); ("style", VStr "逃"); ("race_score", VInt 90)].
Definition example_record (race predicted settled outcome : string) : pyval :=
  VDict [("race_id", VStr race); ("prediction_timestamp", VStr predicted); ("outcome_combo", VStr outcome);
    ("trifecta_scores", VList (map (example_score "1-2-3") (combinations (map Z.of_nat (seq 1 7)))));
    ("training_input", VDict [("schema_version", VStr TRAINING_SCHEMA); ("evaluation_scope", VStr "prospective");
       ("captured_at", VStr predicted); ("players", VList (map example_player (seq 1 7)))]);
    ("metadata", VDict [("evaluation_scope", VStr "prospective"); ("engine_version", VStr BASELINE);
       ("temporal_order", VStr "prediction_before_result"); ("result_timestamp", VStr settled);
       ("training_eligibility", VDict [("supervised_training", VBool true)])])].
(** Seven races, one recorded twice, one settled late, and a record without a schema. *)
Definition example_records : list pyval :=
  [example_record "r1" "10" "15" "1-2-3"; example_record "r2" "20" "25" "1-3-2";
   example_record "r1" "12" "15" "1-2-3"; example_record "r3" "30" "95" "2-1-3";
   example_record "r4" "40" "45" "4-1-3"; VDict []; example_record "r5" "50" "55" "5-1-2";
   example_record "r6" "60" "65" "6-1-2"; example_record "r7" "70" "75" "7-1-2"].
Definition example_run : result (list candidate * pydict) := prepare false example_records.
Example example_prepared : match example_run with
  | Ok (chosen, quality) => map race_id chosen = ["r1"; "r2"; "r3"; "r4"; "r5"; "r6"; "r7"] ∧
      dict_get "excluded" quality = Some (VDict [("not_prospective", VInt 1)])
  | Err _ => False
  end.
Proof. vm_compute. done. Qed.
Lemma prepare_accounts_witness : ∃ chosen quality, prepare false example_records = Ok (chosen, quality) ∧ NoDup (map race_id chosen).
Proof.
  destruct (prepare_accounts false example_records) as (chosen & quality & ? & ? & Hrun & Hn & _); [done|].
  exists chosen, quality. split; [exact Hrun|exact Hn].
Defined.
Lemma no_look_ahead_witness : ∃ chosen quality p, prepare false example_records = Ok (chosen, quality) ∧ split_records chosen = Ok p ∧
  map race_id (test p) = ["r6"; "r7"] ∧ no_peeking chosen p.
Proof.
  destruct (prepare false example_records) as [[chosen quality]|e] eqn:E; [|by vm_compute in E].
  assert (match prepare false example_records with Ok (c, _) => match split_records c with
    | Ok p => map race_id (test p) = ["r6"; "r7"] | Err _ => False end | Err _ => False end) as Hp by (by vm_compute).
  rewrite E in Hp. destruct (split_records chosen) as [p|e] eqn:Es; [|destruct Hp]. exists chosen, quality, p.
  split; [exact eq_refl|split; [exact Es|split; [exact Hp|]]].
  exact (proj1 (no_look_ahead false example_records chosen quality p eq_refl E Es)).
Defined.
