(* ===== verification/History.v ===== *)
(** ml/historical_audit.py and ml/historical_training.py: the intake of historical
    records, the reviews they need, and the chronological partitions made of them.

    A record is a decoded JSON document, as in Dataset.v; times are read by [Readers].
    The text of an exception the interpreter raises is the label the model gives it. *)
From Stdlib Require Import Ascii SpecFloat.
From stdpp Require Import sorting.
From S2P Require Import Prelude PyString PyValue PyText PyFloat Sha256 Dataset.

(** ** Documents *)
(** [isinstance(v, str) and bool(v.strip())] *)
Definition has_text (v : pyval) : bool := match v with VStr s => truthy_s (strip_text s) | _ => false end.
Definition as_dict (v : pyval) : option pydict := match v with VDict d => Some d | _ => None end.
Definition as_int (v : pyval) : option Z := match v with VInt z => Some z | _ => None end.
(** [type(c) is int and 1 <= c <= 9] *)
Definition is_car (v : pyval) : bool := match v with VInt z => (1 <=? z) && (z <=? 9) | _ => false end.
Definition when (b : bool) (reason : string) : list string := if b then [reason] else [].
(** [len(set(l)) == n] for integers *)
Definition distinct_are (n : nat) (l : list Z) : bool := (length (remove_dups l) =? n)%nat.
(** [json.dumps(v, sort_keys=True, allow_nan=False)] *)
Fixpoint all_finite (v : pyval) : bool :=
  match v with
  | VFloat f => float_is_finite f
  | VList l | VTuple l => forallb all_finite l
  | VDict d => forallb (λ kv, all_finite kv.2) d
  | _ => true
  end.
Definition canonical (v : pyval) : result string :=
  if all_finite v then Ok (dumps_sorted v)
  else raise ValueError "Out of range float values are not JSON compliant".
(** Both have a canonical text, the same one. *)
Definition same_text (a b : pyval) : bool :=
  match canonical a, canonical b with Ok x, Ok y => String.eqb x y | _, _ => false end.
(** [{k: v for k, v in d.items() if k != key}] *)
Definition without (key : string) (d : pydict) : pydict := List.filter (λ kv, negb (String.eqb kv.1 key)) d.

(** ** Intake: ml/historical_audit.py *)
(** A record that is turned away: its race, where it names one, and the reasons. *)
Record exclusion := Exclusion { ex_race : option string; ex_reasons : list string }.
Definition exclusion_value (e : exclusion) : pyval :=
  VDict [("race_id", match ex_race e with Some id => VStr id | None => VNone end);
         ("reasons", VList (map VStr (ex_reasons e)))].

(** The first record of each race, in order of appearance. *)
Abbreviation races := (list (string * pydict)).
Definition first_of (key : string) (l : races) : option pydict :=
  snd <$> find (λ kr, String.eqb kr.1 key) l.

Record intake := Intake {
  seen : races; conflicts : gset string; source_variants : gset string;
  duplicates : Z; problems : list exclusion }.
Definition nothing_seen : intake := Intake [] ∅ ∅ 0 [].
Definition problem (reason : string) (i : intake) : intake :=
  Intake (seen i) (conflicts i) (source_variants i) (duplicates i) (problems i ++ [Exclusion None [reason]]).

(** A further record of a race already seen: never a second example. *)
Definition repeated_race (key : string) (first record : pydict) (i : intake) : intake :=
  let variant := negb (same_text (get_or_none "sources" first) (get_or_none "sources" record)) in
  let same_content := same_text (VDict (without "sources" first)) (VDict (without "sources" record)) in
  Intake (seen i)
    (if same_content then conflicts i else {[key]} ∪ conflicts i)
    (if variant then {[key]} ∪ source_variants i else source_variants i)
    (if same_content then duplicates i + 1 else duplicates i) (problems i).
(** The body of the first loop. *)
Definition take_record (i : intake) (record : pyval) : intake :=
  match record with
  | VDict d =>
      match get_or_none "race_id" d with
      | VStr key =>
          if negb (has_text (VStr key)) then problem "race_id_missing" i else
          match first_of key (seen i) with
          | Some first => repeated_race key first d i
          | None => Intake (seen i ++ [(key, d)]) (conflicts i) (source_variants i) (duplicates i) (problems i)
          end
      | _ => problem "race_id_missing" i
      end
  | _ => problem "invalid_record" i
  end.

(** The cars of the riders that are dictionaries. *)
Definition roster_cars (riders : pyval) : list pyval :=
  match riders with VList l => map (get_or_none "car_number") (omap as_dict l) | _ => [] end.
Definition roster_invalid (count riders : pyval) : bool :=
  let cars := roster_cars riders in
  match riders with
  | VList l =>
      negb (length cars =? length l)%nat
      || negb (py_eqb (VInt (Z.of_nat (length cars))) count)
      || existsb (λ c, negb (is_car c)) cars
      || negb (distinct_are (length cars) (omap as_int cars))
  | _ => true
  end.
Definition outcome_reasons (outcomes dead_heat : pyval) (cars : list pyval) : list string :=
  match outcomes with
  | VList (combo :: others) =>
      if negb (length others =? 0)%nat || is_true dead_heat then ["dead_heat_requires_multilabel_contract"] else
      match combo with
      | VList l =>
          if negb (length l =? 3)%nat || existsb (λ c, negb (is_car c)) l
             || negb (distinct_are 3 (omap as_int l)) then ["invalid_outcome"]
          else when (negb (length cars =? 0)%nat
                     && negb (forallb (λ c, bool_decide (c ∈ omap as_int cars)) (omap as_int l)))
                 "outcome_not_in_roster"
      | _ => ["invalid_outcome"]
      end
  | _ => ["outcome_missing"]
  end.
Definition rider_count_invalid (count : pyval) : bool :=
  match count with VInt n => negb ((3 <=? n) && (n <=? 9)) | _ => true end.
Definition REVIEW : string := "dedicated_historical_review_required".
(** The body of the second loop: the reasons of a race. *)
Definition intake_reasons (i : intake) (key : string) (record : pydict) : list string :=
  let at_ k := get_or_none k record in
  [REVIEW]
  ++ when (bool_decide (key ∈ conflicts i)) "conflicting_duplicate_requires_review"
  ++ when (bool_decide (key ∈ source_variants i)) "source_variants_require_review"
  ++ when (rider_count_invalid (at_ "rider_count")) "invalid_rider_count"
  ++ when (match at_ "sources" with VList (_ :: _) => false | _ => true end) "source_missing"
  ++ when (negb (is_text (at_ "training_use_status") "confirmed")) "training_use_unconfirmed"
  ++ when (negb (is_true (at_ "pre_race_state_verified"))) "historical_feature_time_unverified"
  ++ when (roster_invalid (at_ "rider_count") (at_ "riders")) "roster_incomplete_or_invalid"
  ++ outcome_reasons (at_ "trifecta_outcomes") (at_ "dead_heat") (roster_cars (at_ "riders")).

Record row := Row { row_race : string; row_count : pyval; row_reasons : list string }.
Definition row_value (r : row) : pyval :=
  VDict [("race_id", VStr (row_race r)); ("rider_count", row_count r); ("status", VStr "quarantined");
         ("reasons", VList (map VStr (row_reasons r))); ("supervised_training_eligible", VBool false);
         ("prospective", VBool false)].
Definition take_records (records : list pyval) : intake := foldl take_record nothing_seen records.
Definition intake_rows (i : intake) : list row :=
  map (λ kr, Row kr.1 (get_or_none "rider_count" kr.2) (intake_reasons i kr.1 kr.2)) (seen i).
(** The report of [audit]. *)
Definition audit (records : list pyval) : pydict :=
  let i := take_records records in
  let rows := intake_rows i in
  [("schema_version", VStr "historical-intake-audit-v1");
   ("input_records", VInt (Z.of_nat (length records))); ("unique_races", VInt (Z.of_nat (length (seen i))));
   ("identical_duplicates", VInt (duplicates i)); ("conflicting_races", VInt (Z.of_nat (size (conflicts i))));
   ("source_variant_races", VInt (Z.of_nat (size (source_variants i))));
   ("invalid_records", VList (map exclusion_value (problems i)));
   ("quarantined_races", VInt (Z.of_nat (length rows))); ("training_eligible_races", VInt 0);
   ("training_runs", VInt 0); ("automatic_collection_enabled", VBool false); ("production_enabled", VBool false);
   ("rider_count_distribution", VDict (counted (map (λ r, py_str (row_count r)) rows)));
   ("records", VList (map row_value rows))].

(** ** Reviewed records: ml/historical_training.py *)
Section prepare.
Context `{Readers}.

Definition FEATURES : list string :=
  ["race_score"; "S"; "H"; "B"; "recent_win_rate"; "recent_top2_rate"; "recent_top3_rate"; "recent_avg_finish"].
Definition RATES : list string := ["recent_win_rate"; "recent_top2_rate"; "recent_top3_rate"].
Definition STYLES : list string := ["逃"; "両"; "追"].
Definition TARGETS : list string := ["target_first"; "target_second"; "target_third"].
Definition EVIDENCE : list string :=
  ["reviewer"; "source_use_evidence"; "feature_time_evidence"; "result_time_evidence"].

Definition timestamp (value : pyval) : result Z :=
  match value with
  | VStr s =>
      dt ← read_time s;
      reject_if (negb (zoned dt)) ValueError "timestamp_timezone_missing";;
      posix dt
  | _ => raise ValueError "timestamp_missing"
  end.

(** One review per race. *)
Definition add_review (reviews : races) (review : pyval) : result races :=
  match review with
  | VDict d =>
      match get_or_none "race_id" d with
      | VStr key =>
          match first_of key reviews with
          | Some _ => raise ValueError "duplicate_review"
          | None => Ok (reviews ++ [(key, d)])
          end
      | _ => raise ValueError "invalid_review"
      end
  | _ => raise ValueError "invalid_review"
  end.
Definition review_map (reviews : list pyval) : result races := foldR add_review [] reviews.

(** [set(l) == set(cars)] where [l] holds integers and [cars] anything *)
Definition same_cars (l : list pyval) (cars : list pyval) : result bool :=
  if forallb hashable cars
  then Ok (forallb (λ c, in_list c cars) l && forallb (λ c, in_list c l) cars)
  else raise TypeError "unhashable type".

(** The body of the loop over the names of the features. *)
Definition check_value (feature : pydict) (name : string) : result unit :=
  let value := get_or_none name feature in
  if is_none value then Ok tt else
  finite ← match value with
           | VInt z => float_of_Z z;; Ok true
           | VFloat f => Ok (float_is_finite f)
           | _ => Ok false
           end;
  reject_if (negb finite) ValueError "invalid_numeric_feature";;
  reject_if (bool_decide (name ∈ RATES) && negb ((0 <=? scaled value) && (scaled value <=? 100 * unit_))) ValueError
    "recent_rate_out_of_range";;
  reject_if (String.eqb name "recent_avg_finish" && negb ((unit_ <=? scaled value) && (scaled value <=? 9 * unit_)))
    ValueError "recent_finish_out_of_range".
(** The body of the loop over the features: a row without its label. *)
Definition feature_row (feature : pydict) : result pydict :=
  reject_if (negb (forallb (λ k, bool_decide (k ∈ "car_number" :: "style" :: FEATURES)) (keys feature))) ValueError
    "unreviewed_feature_columns";;
  reject_if (negb (in_strs (get_or_none "style" feature) STYLES)) ValueError "invalid_style";;
  mapR (check_value feature) FEATURES;;
  Ok ([("car_number", get_or_none "car_number" feature); ("style", get_or_none "style" feature)]
      ++ map (λ name, (name, get_or_none name feature)) FEATURES).
(** The rows of a record, one for each of its cars. *)
Definition feature_rows (record : pydict) : result (list pydict) :=
  let features := get_or_none "pre_race_features" record in
  riders ← iter_text (default (VList []) (dict_get "riders" record));
  cars ← mapR (λ r, getitem r "car_number") riders;
  match features with
  | VList l =>
      reject_if (negb (length l =? length cars)%nat) ValueError "reviewed_features_missing";;
      let dicts := omap as_dict l in
      let feature_cars := map (get_or_none "car_number") dicts in
      mismatch ← (if negb (length feature_cars =? length l)%nat || negb (forallb type_is_int feature_cars)
                     || negb (distinct_are (length feature_cars) (omap as_int feature_cars)) then Ok true
                  else b ← same_cars feature_cars cars; Ok (negb b));
      reject_if mismatch ValueError "feature_roster_mismatch";;
      mapR feature_row dicts
  | _ => raise ValueError "reviewed_features_missing"
  end.
(** [row.update(...)] with the race and the labels *)
Definition label_row (key : string) (outcome : list pyval) (row : pydict) : pydict :=
  dict_update row
    (("race_id", VStr key)
     :: zip_with (λ target car, (target, VInt (of_bool (py_eqb (get_or_none "car_number" row) car)))) TARGETS outcome).
Definition first_outcome (record : pydict) : result (list pyval) :=
  outcomes ← getitem (VDict record) "trifecta_outcomes";
  match outcomes with
  | VList (o :: _) => iter_text o
  | VList [] => raise IndexError "list index out of range"
  | _ => raise TypeError "the intake lets no other value through"
  end.

(** ** Partitions *)
Inductive partition := Train | Validation | Test.
#[export] Instance partition_eq_dec : EqDecision partition.
Proof. solve_decision. Defined.
(** Boundaries: where validation and test start. *)
Record boundaries := Boundaries { valid_boundary : Z; test_boundary : Z }.
Definition partition_at (b : boundaries) (feature_time : Z) : partition :=
  if feature_time <? valid_boundary b then Train
  else if feature_time <? test_boundary b then Validation else Test.
(** Where the next partition starts. *)
Definition next_start (b : boundaries) (p : partition) : option Z :=
  match p with Train => Some (valid_boundary b) | Validation => Some (test_boundary b) | Test => None end.

Record race := Race {
  race_key : string; race_rows : list pydict; feature_time : Z; record_sha256 : string; race_review : pydict }.
(** What becomes of a record. *)
Inductive verdict := Excluded (reasons : list string) | Placed (p : partition) (r : race).

(** The body of the [try]; its state is the list of reasons, which survives an exception. *)
Definition note (bad : bool) (reason : string) : eff (list string) unit :=
  modify (λ reasons, reasons ++ when bad reason).
Definition examine (b : boundaries) (key : string) (record review : pydict) : eff (list string) verdict :=
  let at_ k := get_or_none k record in
  sha ← lift (digest (VDict record));
  note (negb (is_text (get_or_none "record_sha256" review) sha)) "review_missing_or_record_changed";;
  modify (λ reasons, reasons ++ concat (map (λ k, when (negb (has_text (get_or_none k review))) (k ++ "_missing")%string)
                                          EVIDENCE));;
  note (negb (is_false (at_ "prospective"))) "historical_record_must_not_claim_prospective";;
  note (negb (is_false (at_ "dead_heat"))) "explicit_non_dead_heat_required";;
  feature_time ← lift (timestamp (at_ "feature_as_of"));
  start ← lift (timestamp (at_ "listed_scheduled_start_jst"));
  result_time ← lift (timestamp (at_ "result_available_at"));
  note (negb ((feature_time <? start) && (start <=? result_time))) "invalid_historical_chronology";;
  rows ← lift (feature_rows record);
  reasons ← Prelude.get;
  match reasons with
  | _ :: _ => mret (Excluded reasons)
  | [] =>
      outcome ← lift (first_outcome record);
      let p := partition_at b feature_time in
      if match next_start b p with Some boundary => boundary <=? result_time | None => false end
      then mret (Excluded ["label_unavailable_before_next_partition"])
      else mret (Placed p (Race key (map (label_row key outcome) rows) feature_time sha review))
  end.
Definition caught (e : exn) : bool :=
  existsb (isinstance e) [ValueError; TypeError; KeyError; AttributeError; OverflowError].
(** The body of the loop over the audited races. *)
Definition judge (b : boundaries) (reviews : races) (i : intake) (kr : string * pydict) : result verdict :=
  let '(key, record) := kr in
  let reasons := List.filter (λ r, negb (String.eqb r REVIEW)) (intake_reasons i key record) in
  match examine b key record (default [] (first_of key reviews)) reasons with
  | (Ok v, _) => Ok v
  | (Err e, reasons') => if caught e then Ok (Excluded (reasons' ++ [exn_text e])) else Err e
  end.

(** ** The plan *)
Definition race_by_time (x y : race) : Prop :=
  feature_time x < feature_time y ∨ (feature_time x = feature_time y ∧ str_le (race_key x) (race_key y) = true).
#[export] Instance race_by_time_dec x y : Decision (race_by_time x y).
Proof. unfold race_by_time. apply _. Defined.
Definition placed_in (p : partition) (v : verdict) : list race :=
  match v with Placed q r => if decide (q = p) then [r] else [] | Excluded _ => [] end.
Definition excluded_race (kv : string * verdict) : list exclusion :=
  match kv.2 with Excluded reasons => [Exclusion (Some kv.1) reasons] | Placed _ _ => [] end.

Record plan := Plan { group : partition → list race; excluded : list exclusion }.
Definition prepare (records reviews validation_start test_start : pyval) : result plan :=
  valid_boundary ← timestamp validation_start;
  test_boundary ← timestamp test_start;
  reject_if (test_boundary <=? valid_boundary) ValueError "validation_must_precede_test";;
  match records, reviews with
  | VList records, VList reviews =>
      let i := take_records records in
      reviews ← review_map reviews;
      verdicts ← mapR (judge (Boundaries valid_boundary test_boundary) reviews i) (seen i);
      Ok (Plan (λ p, merge_sort race_by_time (concat (map (placed_in p) verdicts)))
               (problems i ++ concat (map excluded_race (zip (map fst (seen i)) verdicts))))
  | _, _ => raise ValueError "records_and_reviews_must_be_arrays"
  end.

(** The report of a plan. *)
Definition partition_name (p : partition) : string :=
  match p with Train => "train" | Validation => "validation" | Test => "test" end.
Definition race_value (time_value : Z → pyval) (r : race) : pyval :=
  VDict [("race_id", VStr (race_key r)); ("rows", VList (map VDict (race_rows r)));
         ("feature_time", time_value (feature_time r)); ("record_sha256", VStr (record_sha256 r));
         ("review", VDict (race_review r))].
(** [time_value] is the float of a time held as its multiple of 2^-1074. *)
Definition plan_entries (time_value : Z → pyval) (pl : plan) (validation_start test_start : pyval) : pydict :=
  let partitions := [Train; Validation; Test] in
  [("schema_version", VStr "historical-training-plan-v1");
   ("partitions", VDict (map (λ p, (partition_name p, VList (map (race_value time_value) (group pl p)))) partitions));
   ("partition_counts", VDict (map (λ p, (partition_name p, VInt (Z.of_nat (length (group pl p))))) partitions));
   ("excluded", VList (map exclusion_value (excluded pl)));
   ("validation_start", validation_start); ("test_start", test_start); ("training_runs", VInt 0);
   ("prospective", VBool false); ("production_enabled", VBool false); ("promotion_eligible", VBool false);
   ("review_verification", VStr "operator_attestation_only");
   ("statistical_sufficiency", VStr "not_established")].
End prepare.
