(* ===== verification/HistoryFacts.v ===== *)
(** The intake counts every race once; a plan admits only reviewed records, labels each
    of their rows with the outcome, and never trains on a result that was not known when
    the next partition starts. *)
From Stdlib Require Import Ascii SpecFloat.
From stdpp Require Import sorting.
From S2P Require Import Prelude PyString PyValue PyText PyFloat Sha256 Dataset DatasetFacts History.


(** ** Intake *)
(** The race a record names. *)
Definition named (v : pyval) : option string :=
  match v with
  | VDict d => match get_or_none "race_id" d with
               | VStr key => if has_text (VStr key) then Some key else None
               | _ => None
               end
  | _ => None
  end.
Definition is_named (v : pyval) : bool := match named v with Some _ => true | None => false end.

Lemma first_of_None k (l : races) : first_of k l = None ↔ k ∉ map fst l.
Proof.
  unfold first_of. induction l as [|[k' d] l IH]; cbn; [split; [intros _; apply not_elem_of_nil|done]|].
  rewrite not_elem_of_cons. destruct (String.eqb_spec k' k) as [->|N]; cbn; [naive_solver|]. rewrite IH. naive_solver.
Qed.
Lemma first_of_in k d (l : races) : first_of k l = Some d → (k, d) ∈ l.
Proof.
  unfold first_of. induction l as [|[k' d'] l IH]; cbn; [done|].
  destruct (String.eqb_spec k' k) as [->|N]; cbn; [intros [= ->]; left|]. intros H. right. auto.
Qed.
(** One more record, as far as the races seen are concerned. *)
Lemma take_record_spec i v :
  match named v with
  | None => seen (take_record i v) = seen i ∧ ∃ why, problems (take_record i v) = problems i ++ [Exclusion None [why]]
  | Some k => problems (take_record i v) = problems i ∧
      (k ∈ map fst (seen i) ∧ seen (take_record i v) = seen i ∨
       k ∉ map fst (seen i) ∧ ∃ d, v = VDict d ∧ seen (take_record i v) = seen i ++ [(k, d)])
  end.
Proof.
  destruct v; cbn [named take_record]; try (split; [done|by eexists]).
  destruct (get_or_none "race_id" kvs); try (split; [done|by eexists]).
  destruct (has_text (VStr s)); cbn [negb]; [|split; [done|by eexists]].
  destruct (first_of s (seen i)) eqn:E; (split; [done|]).
  - left. split; [|done]. apply first_of_in in E. by apply (list_elem_of_fmap_2 fst) in E.
  - right. apply first_of_None in E. split; [done|]. by eexists.
Qed.
Record intake_of (records : list pyval) (i : intake) : Prop := {
  in_distinct : NoDup (map fst (seen i));
  in_record k d : (k, d) ∈ seen i → VDict d ∈ records ∧ named (VDict d) = Some k;
  in_races k : k ∈ map fst (seen i) ↔ k ∈ omap named records;
  in_problems : Forall (λ e, ex_race e = None) (problems i);
  in_unnamed : length (problems i) = length (List.filter (λ v, negb (is_named v)) records) }.
Lemma take_records_ok records : intake_of records (take_records records).
Proof.
  induction records as [|v records IH] using rev_ind.
  { split; cbn; [apply NoDup_nil_2|by intros ? ? ?%not_elem_of_nil|done|by apply list.Forall_nil|done]. }
  unfold take_records in *. rewrite foldl_snoc. set (i := foldl _ _ _) in *. destruct IH as [Hn Hr Hk Hp Hu].
  pose proof (take_record_spec i v) as Hs.
  assert (omap named (records ++ [v]) = omap named records ++ omap named [v]) as Eo by apply omap_app.
  destruct (named v) as [k|] eqn:E; cbn [omap list_omap] in Eo; rewrite E in Eo.
  - destruct Hs as [Ep Hs]. split.
    + destruct Hs as [[_ ->]|[Hni (d & -> & ->)]]; [done|]. rewrite map_app. apply list.NoDup_app.
      split_and!; [done| |apply NoDup_singleton]. by intros x Hx ->%list_elem_of_singleton.
    + destruct Hs as [[_ ->]|[Hni (d & -> & ->)]]; intros k' d' Hin.
      * apply Hr in Hin. set_solver.
      * apply elem_of_app in Hin as [Hin|[= -> ->]%list_elem_of_singleton]; [apply Hr in Hin|]; set_solver.
    + intros k'. rewrite Eo, elem_of_app, list_elem_of_singleton.
      destruct Hs as [[Hin ->]|[Hni (d & -> & ->)]]; rewrite ?map_app, ?elem_of_app, Hk; cbn; [|set_solver].
      apply Hk in Hin. naive_solver.
    + by rewrite Ep.
    + rewrite Ep, List.filter_app, length_app. cbn. unfold is_named at 2. rewrite E. cbn. lia.
  - destruct Hs as [Es [why Ep]]. rewrite app_nil_r in Eo. split.
    + by rewrite Es.
    + rewrite Es. intros k' d' Hin. apply Hr in Hin. set_solver.
    + intros k'. by rewrite Es, Eo.
    + rewrite Ep. apply Forall_app. by repeat constructor.
    + rewrite Ep, List.filter_app, !length_app. cbn. unfold is_named at 2. rewrite E. cbn. lia.
Qed.
(** The races of some records, each once. *)
Lemma intake_races records i : intake_of records i → map fst (seen i) ≡ₚ remove_dups (omap named records).
Proof.
  intros Hi. apply NoDup_Permutation; [by eapply in_distinct|apply NoDup_remove_dups|].
  intros k. by rewrite (in_races _ _ Hi), elem_of_remove_dups.
Qed.

(** ** An admitted record *)
Lemma when_nil b r : when b r = [] ↔ b = false.
Proof. by destruct b. Qed.
Lemma concat_nil_iff {A} (ls : list (list A)) : concat ls = [] ↔ ∀ l, l ∈ ls → l = [].
Proof.
  induction ls as [|l ls IH]; cbn; [split; [by intros _ l ?%not_elem_of_nil|done]|].
  setoid_rewrite elem_of_cons. split.
  - intros [-> H]%app_eq_nil l' [->|Hl]; [done|]. by apply IH.
  - intros H. rewrite (H l), (proj2 IH) by auto. done.
Qed.
(** What the intake finds nothing wrong with. *)
Record clean (record : pydict) (cars outcome : list Z) : Prop := {
  cl_sources : ∃ source more, get_or_none "sources" record = VList (source :: more);
  cl_use : get_or_none "training_use_status" record = VStr "confirmed";
  cl_verified : get_or_none "pre_race_state_verified" record = VBool true;
  cl_riders : ∃ riders, get_or_none "riders" record = VList (map VDict riders) ∧
    map (get_or_none "car_number") riders = map VInt cars;
  cl_count : get_or_none "rider_count" record = VInt (Z.of_nat (length cars)) ∧ (3 ≤ length cars ≤ 9)%nat;
  cl_cars : NoDup cars ∧ ∀ c, c ∈ cars → 1 ≤ c ≤ 9;
  cl_outcome : get_or_none "trifecta_outcomes" record = VList [VList (map VInt outcome)];
  cl_distinct : length outcome = 3%nat ∧ NoDup outcome ∧ ∀ c, c ∈ outcome → c ∈ cars }.

Lemma are_cars l : existsb (λ c, negb (is_car c)) l = false →
  ∃ cs, l = map VInt cs ∧ omap as_int l = cs ∧ ∀ c, c ∈ cs → 1 ≤ c ≤ 9.
Proof.
  induction l as [|v l IH]; cbn; [exists []; split_and!; [done|done|by intros ? ?%not_elem_of_nil]|].
  intros [Hv Hl]%orb_false_iff. destruct (IH Hl) as (cs & -> & E & Hc). destruct v; try done. cbn in Hv.
  apply negb_false_iff, andb_true_iff in Hv as [?%Z.leb_le ?%Z.leb_le]. exists (z :: cs). cbn. rewrite E.
  split_and!; [done|done|]. intros c [->|?]%elem_of_cons; [lia|auto].
Qed.
Lemma remove_dups_length {A} `{EqDecision A} (l : list A) : (length (remove_dups l) ≤ length l)%nat.
Proof. induction l as [|x l IH]; cbn; [lia|]. case_decide; cbn; lia. Qed.
Lemma distinct_NoDup l : distinct_are (length l) l = true → NoDup l.
Proof.
  unfold distinct_are. intros E%Nat.eqb_eq. induction l as [|x l IH]; [apply NoDup_nil_2|]. cbn in E.
  pose proof (remove_dups_length l). case_decide as D; cbn in E; [lia|].
  apply list.NoDup_cons. split; [done|]. apply IH. lia.
Qed.
Lemma omap_shorter {A B} (f : A → option B) l : (length (omap f l) ≤ length l)%nat.
Proof. induction l as [|x l IH]; cbn; [lia|]. destruct (f x); cbn; lia. Qed.
Lemma all_dicts l : length (omap as_dict l) = length l → l = map VDict (omap as_dict l).
Proof.
  induction l as [|v l IH]; [done|]. cbn [omap list_omap]. pose proof (omap_shorter as_dict l).
  destruct v; cbn [as_dict length map]; try lia. intros [= E]. by rewrite <- IH.
Qed.
Lemma clean_when b reason : Forall (eq REVIEW) (when b reason) → reason ≠ REVIEW → b = false.
Proof. destruct b; [|done]. intros [H _]%list.Forall_cons ?. congruence. Qed.
Lemma roster_ok count riders : roster_invalid count riders = false →
  ∃ rs cars, riders = VList (map VDict rs) ∧ map (get_or_none "car_number") rs = map VInt cars ∧
    py_eqb (VInt (Z.of_nat (length cars))) count = true ∧ NoDup cars ∧ ∀ c, c ∈ cars → 1 ≤ c ≤ 9.
Proof.
  unfold roster_invalid. destruct riders as [| | | | |l| |]; try done. cbn [roster_cars]. intros Hr. inv_result.
  match goal with H : existsb _ _ = false |- _ => apply are_cars in H as (cars & Ec & Eo & Hb) end.
  match goal with H : (_ =? _)%nat = true |- _ => apply Nat.eqb_eq in H; rewrite length_map in H; apply all_dicts in H end.
  exists (omap as_dict l), cars. rewrite Ec, length_map in *. split_and!; try done; [by f_equal|].
  apply distinct_NoDup. by rewrite <- Eo at 2.
Qed.
Lemma outcome_ok outcomes dead_heat cars : cars ≠ [] →
  Forall (eq REVIEW) (outcome_reasons outcomes dead_heat (map VInt cars)) →
  ∃ outcome, outcomes = VList [VList (map VInt outcome)] ∧
    length outcome = 3%nat ∧ NoDup outcome ∧ ∀ c, c ∈ outcome → c ∈ cars.
Proof.
  intros Hne. unfold outcome_reasons. destruct outcomes as [| | | | |[|combo [|]]| |]; cbn [negb orb length Nat.eqb];
    try (intros [? _]%list.Forall_cons; done).
  destruct (is_true dead_heat); [intros [? _]%list.Forall_cons; done|].
  destruct combo as [| | | | |l| |]; try (intros [? _]%list.Forall_cons; done).
  destruct (negb _ || _ || _) eqn:E; [intros [? _]%list.Forall_cons; done|]. inv_result.
  match goal with H : existsb _ _ = false |- _ => apply are_cars in H as (outcome & -> & Eo & _) end.
  rewrite Eo, length_map in *. intros Hw%clean_when; [|done]. exists outcome.
  match goal with H : (_ =? 3)%nat = true |- _ => apply Nat.eqb_eq in H as El end.
  split_and!; [done|done|apply distinct_NoDup; by rewrite El|].
  intros c Hc. apply andb_false_iff in Hw as [Hw|Hw]; [by destruct cars|]. apply negb_false_iff in Hw.
  rewrite forallb_forall in Hw. apply list_elem_of_In, Hw, bool_decide_eq_true in Hc.
  apply list_elem_of_omap in Hc as (v & (c' & -> & ?)%list_elem_of_fmap & [= ->]). done.
Qed.
Lemma intake_clean i key record :
  List.filter (λ r, negb (String.eqb r REVIEW)) (intake_reasons i key record) = [] →
  key ∉ conflicts i ∧ key ∉ source_variants i ∧ ∃ cars outcome, clean record cars outcome.
Proof.
  intros Hf.
  assert (Forall (eq REVIEW) (intake_reasons i key record)) as Hr.
  { apply list.Forall_forall. intros x Hx. rewrite filter_nil_iff in Hf. apply Hf, negb_false_iff, String.eqb_eq in Hx. done. }
  clear Hf. unfold intake_reasons in Hr. rewrite !Forall_app in Hr.
  destruct Hr as (_ & Hc%clean_when & Hv%clean_when & Hn%clean_when & Hs%clean_when & Hu%clean_when & Hp%clean_when
    & Hroster%clean_when & Ho); try done.
  apply bool_decide_eq_false in Hc, Hv. split; [done|]. split; [done|].
  apply roster_ok in Hroster as (riders & cars & Hriders & Hcars & Hlen & Hd & Hb).
  assert (∃ n, get_or_none "rider_count" record = VInt n ∧ 3 ≤ n ≤ 9) as (n & En & Hn9).
  { unfold rider_count_invalid in Hn. destruct (get_or_none "rider_count" record); try done. exists z.
    split; [done|]. apply negb_false_iff, andb_true_iff in Hn as [?%Z.leb_le ?%Z.leb_le]. lia. }
  rewrite En in Hlen. cbn in Hlen. apply Z.eqb_eq in Hlen. subst n.
  assert (roster_cars (get_or_none "riders" record) = map VInt cars) as Er.
  { rewrite Hriders. cbn. rewrite <- Hcars. f_equal. clear. induction riders; cbn; congruence. }
  rewrite Er in Ho. apply outcome_ok in Ho as (outcome & Eo & Hl & Hdo & Hin); [|by intros ->; cbn in *; lia].
  exists cars, outcome. split; try done.
  - destruct (get_or_none "sources" record) as [| | | | |[|source more]| |]; try done. by exists source, more.
  - by apply negb_is_text in Hu.
  - by destruct (get_or_none "pre_race_state_verified" record) as [|[]| | | | | |].
  - by exists riders.
  - split; [done|]. lia.
Qed.

Section facts.
Context `{Readers}.

Lemma note_Ok bad why w r w' : note bad why w = (Ok r, w') ↔ r = tt ∧ w' = w ++ when bad why.
Proof. unfold note, modify. destruct r. split; [intros [= <-]|intros [_ ->]]; done. Qed.
(** The run of a record up to its rows: the reasons only grow. *)
Record admitted (b : boundaries) (p : partition) (key : string) (record review : pydict) (r : race) : Prop := {
  ad_key : race_key r = key;
  ad_review : race_review r = review;
  ad_digest : digest (VDict record) = Ok (record_sha256 r);
  ad_signed : get_or_none "record_sha256" review = VStr (record_sha256 r);
  ad_evidence k : k ∈ EVIDENCE → has_text (get_or_none k review) = true;
  ad_prospective : get_or_none "prospective" record = VBool false;
  ad_dead_heat : get_or_none "dead_heat" record = VBool false;
  ad_time : timestamp (get_or_none "feature_as_of" record) = Ok (feature_time r);
  ad_order : ∃ start result_time, timestamp (get_or_none "listed_scheduled_start_jst" record) = Ok start ∧
    timestamp (get_or_none "result_available_at" record) = Ok result_time ∧
    feature_time r < start ≤ result_time ∧ ∀ next, next_start b p = Some next → result_time < next;
  ad_partition : p = partition_at b (feature_time r);
  ad_rows : ∃ rows outcome, feature_rows record = Ok rows ∧ first_outcome record = Ok outcome ∧
    race_rows r = map (label_row key outcome) rows }.
Lemma examine_placed b key record review reasons p r w :
  examine b key record review reasons = (Ok (Placed p r), w) → reasons = [] ∧ admitted b p key record review r.
Proof.
  unfold examine. intros Hrun. inv_eff.
  repeat match goal with H : note _ _ _ = (Ok _, _) |- _ => apply note_Ok in H as [_ ->] end.
  match goal with H : Prelude.get _ = (Ok _, _) |- _ => injection H as <- <- end.
  match goal with H : modify _ _ = (Ok _, _) |- _ => injection H as <- end.
  match goal with H : match ?l with _ => _ end _ = _ |- _ => destruct l eqn:El; [|done] end.
  inv_eff. repeat apply app_eq_nil in El as [El ?].
  repeat match goal with H : when _ _ = [] |- _ => apply when_nil in H end. inv_result.
  match goal with H : (if ?c then _ else _) _ = _ |- _ => destruct c eqn:En; [done|] end.
  inv_eff. split; [done|].
  match goal with H : (_ <? _) && (_ <=? _) = true |- _ => apply andb_true_iff in H as [?%Z.ltb_lt ?%Z.leb_le] end.
  split; try done; cbn [race_key race_rows feature_time record_sha256 race_review].
  - by apply is_text_true.
  - assert (concat (map (λ k, when (negb (has_text (get_or_none k review))) (k ++ "_missing")%string) EVIDENCE) = [])
      as Hev by done.
    intros k Hk. eapply negb_false_iff, when_nil, (proj1 (concat_nil_iff _) Hev), list_elem_of_fmap. by exists k.
  - match goal with H : is_false (get_or_none "prospective" _) = true |- _ => by destruct (get_or_none "prospective" record) as [|[]| | | | | |] end.
  - match goal with H : is_false (get_or_none "dead_heat" _) = true |- _ => by destruct (get_or_none "dead_heat" record) as [|[]| | | | | |] end.
  - eexists _, _. split_and!; [done|done|done|done|]. intros next Hnext. rewrite Hnext in En. by apply Z.leb_gt.
  - by eexists _, _.
Qed.

(** ** The rows of an admitted record *)
(** The cars of the rows are those of the riders. *)
Lemma feature_row_car feature row : feature_row feature = Ok row →
  row = [("car_number", get_or_none "car_number" feature); ("style", get_or_none "style" feature)]
        ++ map (λ name, (name, get_or_none name feature)) FEATURES.
Proof. unfold feature_row. intros Hrun. by inv_result. Qed.
Lemma in_list_ints c l : in_list (VInt c) (map VInt l) = true → c ∈ l.
Proof.
  unfold in_list. rewrite existsb_exists. intros (v & (c' & -> & Hin)%list_elem_of_In%list_elem_of_fmap & E).
  cbn in E. apply Z.eqb_eq in E. by subst.
Qed.
Lemma are_ints l : forallb type_is_int l = true → l = map VInt (omap as_int l).
Proof.
  induction l as [|v l IH]; [done|]. cbn. intros [Hv Hl]%andb_true_iff. destruct v; try done. cbn. by rewrite <- IH.
Qed.
Lemma mapR_entries k ds vs : mapR (λ r, getitem r k) (map VDict ds) = Ok vs → vs = map (get_or_none k) ds.
Proof.
  revert vs. induction ds as [|d ds IH]; intros vs; cbn [map mapR]; [by intros [= <-]|]. intros Hrun. inv_result.
  match goal with H : getitem _ _ = Ok _ |- _ => apply getitem_Ok in H as [-> _] end. cbn. f_equal. by apply IH.
Qed.
Lemma feature_rows_cars record rows riders cars : feature_rows record = Ok rows →
  get_or_none "riders" record = VList (map VDict riders) →
  map (get_or_none "car_number") riders = map VInt cars → NoDup cars →
  ∃ row_cars, map (get_or_none "car_number") rows = map VInt row_cars ∧ row_cars ≡ₚ cars.
Proof.
  intros Hrun Hr Hc Hn. unfold feature_rows in Hrun. inv_result.
  assert (a = map VDict riders) as ->.
  { unfold get_or_none in Hr. destruct (dict_get "riders" record); [|done]. cbn in Hr, Ha. subst. by injection Ha. }
  apply mapR_entries in Ha0. rewrite Hc in Ha0. subst a0.
  destruct (get_or_none "pre_race_features" record) as [| | | | |l| |]; try done. inv_result.
  subst. match goal with H : (if ?c then _ else _) = _ |- _ => destruct c eqn:Ec; [done|] end. inv_result.
  match goal with H : forallb type_is_int _ = true |- _ => apply are_ints in H as Ei end.
  set (fs := omap as_dict l) in *. set (row_cars := omap as_int (map (get_or_none "car_number") fs)) in *.
  exists row_cars. split.
  - rewrite <- Ei. apply mapR_Ok in Hrun. clear -Hrun. induction Hrun as [|f row fs rows Hf _ IH]; [done|].
    cbn. rewrite IH. f_equal. by apply feature_row_car in Hf as ->.
  - subst a. rewrite Ei in *. clearbody row_cars. match goal with H : same_cars _ _ = Ok _ |- _ => unfold same_cars in H;
      destruct (forallb hashable _); [|done]; injection H as H; apply andb_true_iff in H as [Hin1 Hin2] end.
    rewrite forallb_forall in Hin1, Hin2. rewrite length_map in *.
    apply NoDup_Permutation; [by apply distinct_NoDup|done|]. intros c.
    split; intros Hc'; apply in_list_ints; [apply Hin1|apply Hin2]; by apply list_elem_of_In, list_elem_of_fmap_2.
Qed.

(** ** Labels *)
Lemma get_or_none_update k d e : get_or_none k (dict_update d e) =
  match dict_get k (rev e) with Some v => v | None => get_or_none k d end.
Proof.
  unfold get_or_none, dict_update. revert d. induction e as [|[k' v] e IH] using rev_ind; intros d; [done|].
  rewrite fold_left_app, rev_app_distr. cbn [fold_left rev app dict_get fst snd]. rewrite dict_get_set.
  destruct (String.eqb k' k); [done|]. apply IH.
Qed.
(** A row of a race says which car it is of, and whether that car was first, second or third. *)
Definition labelled (key : string) (outcome : list Z) (row : pydict) : Prop :=
  get_or_none "race_id" row = VStr key ∧
  ∃ car, get_or_none "car_number" row = VInt car ∧
  ∀ i target winner, TARGETS !! i = Some target → outcome !! i = Some winner →
    get_or_none target row = VInt (of_bool (car =? winner)).
Lemma label_row_labelled key outcome row car : length outcome = 3%nat → get_or_none "car_number" row = VInt car →
  labelled key outcome (label_row key (map VInt outcome) row) ∧
  get_or_none "car_number" (label_row key (map VInt outcome) row) = VInt car.
Proof.
  intros Hl Hc. destruct outcome as [|a [|b [|c [|]]]]; try done. unfold labelled, label_row.
  rewrite !get_or_none_update. cbn [map zip_with TARGETS rev app dict_get String.eqb Ascii.eqb Bool.eqb fst snd].
  rewrite Hc. split; [|done]. split; [done|]. exists car. split; [done|].
  intros i target winner Ht Hw. rewrite get_or_none_update.
  destruct i as [|[|[|i]]]; cbn in Ht, Hw; try done; injection Ht as <-; injection Hw as <-; reflexivity.
Qed.

(** ** Every race gets a verdict *)
Lemma json_dumps_error v e : json_dumps v = Err e → exn_class e = ValueError.
Proof.
  induction v as [|b|z|f|s|l IH|l IH|d IH] using pyval_rec_ind; cbn [json_dumps]; try done.
  - destruct (float_is_finite f); [done|]. by intros [= <-].
  - intros [He|(ss & _ & ?)]%bind_Err; [|done]. induction IH as [|v l Hv Hl IH']; [done|].
    cbn [mapR] in He. apply bind_Err in He as [He|(s & _ & [He|(? & _ & ?)]%bind_Err)]; auto. done.
  - intros [He|(ss & _ & ?)]%bind_Err; [|done]. induction IH as [|v l Hv Hl IH']; [done|].
    cbn [mapR] in He. apply bind_Err in He as [He|(s & _ & [He|(? & _ & ?)]%bind_Err)]; auto. done.
  - intros [He|(ss & _ & ?)]%bind_Err; [|done]. induction IH as [|[k v] d Hv Hd IH']; [done|].
    apply bind_Err in He as [He|(s & _ & [He|(? & _ & ?)]%bind_Err)]; auto. done.
Qed.
Context `{!ReaderLaws}.
Lemma handles_digest v : handles (digest v).
Proof. unfold digest. apply raises_bind; [|eauto with raises]. intros e He. by rewrite (json_dumps_error _ _ He). Qed.
Lemma handles_timestamp' v : handles (timestamp v).
Proof.
  unfold timestamp. destruct v; eauto with raises. destruct (read_time s) as [d|e] eqn:E; cbn.
  - destruct (zoned d) eqn:Ez; cbn; [|by intros e [= <-]]. destruct (zoned_posix_Ok _ _ E Ez) as [t ->]. apply raises_ok.
  - by intros e' [= <-]; eapply handles_read_time.
Qed.
Hint Resolve handles_getitem handles_float_of_Z handles_iter_text : raises.
Lemma handles_check_value f name : handles (check_value f name).
Proof. unfold check_value. handles_steps. Qed.
Hint Resolve handles_check_value : raises.
Lemma handles_feature_row f : handles (feature_row f).
Proof. unfold feature_row. handles_steps. Qed.
Hint Resolve handles_feature_row : raises.
Lemma handles_feature_rows record : handles (feature_rows record).
Proof. unfold feature_rows, same_cars. handles_steps. Qed.

(** A step that can only raise what [prepare] catches. *)
Lemma wpi_handles {A} (I : list string → Prop) (r : result A) (Q : A → list string → Prop) s :
  I s → handles r → (∀ a, r = Ok a → Q a s) → wpi I (λ e, handled (exn_class e) = true) (lift r) Q s.
Proof. intros Hs Hr Ha. by apply wpi_lift. Qed.
Lemma examine_total b key record review reasons : (reasons = [] → is_ok (first_outcome record) = true) →
  match (examine b key record review reasons).1 with Ok _ => True | Err e => handled (exn_class e) = true end.
Proof.
  intros Ho. set (I := λ w : list string, w = [] → reasons = []).
  assert (wpi I (λ e, handled (exn_class e) = true) (examine b key record review) (λ _ _, True) reasons) as Hw.
  2: { unfold wpi, wp in Hw. destruct (examine b key record review reasons) as [[v|e] w]; [done|by destruct Hw]. }
  assert (∀ w more, I w → I (w ++ more)) as Happ by (unfold I; intros w more Hw [? _]%app_eq_nil; auto).
  assert (I reasons) as Hi by (by unfold I).
  assert (∀ bad why w Q, I w → (∀ w', I w' → Q tt w') → wpi I (λ e, handled (exn_class e) = true) (note bad why) Q w) as Hnote.
  { intros bad why w Q Hw HQ. unfold note. apply wpi_modify; auto. }
  unfold examine. cbv zeta.
  apply wpi_bind, wpi_handles; [done|apply handles_digest|]. intros sha Hsha.
  apply wpi_bind, Hnote; [done|]. intros w1 H1.
  apply wpi_bind, wpi_modify; auto.
  apply wpi_bind, Hnote; [auto|]. intros w2 H2.
  apply wpi_bind, Hnote; [auto|]. intros w3 H3.
  apply wpi_bind, wpi_handles; [done|apply handles_timestamp'|]. intros t1 _.
  apply wpi_bind, wpi_handles; [done|apply handles_timestamp'|]. intros t2 _.
  apply wpi_bind, wpi_handles; [done|apply handles_timestamp'|]. intros t3 _.
  apply wpi_bind, Hnote; [auto|]. intros w4 H4.
  apply wpi_bind, wpi_handles; [done|apply handles_feature_rows|]. intros rows _.
  apply wpi_bind, wpi_get; [done|]. destruct w4 as [|why w4]; [|by apply wpi_ret].
  apply wpi_bind, wpi_lift; [done| |intros e He; specialize (Ho (H4 eq_refl)); by rewrite He in Ho].
  intros o _. match goal with |- wpi _ _ (if ?c then _ else _) _ _ => destruct c end; by apply wpi_ret.
Qed.
(** What the intake accepts has an outcome to label with. *)
Lemma first_outcome_clean record cars outcome : clean record cars outcome → first_outcome record = Ok (map VInt outcome).
Proof.
  intros Hc. unfold first_outcome, getitem. pose proof (cl_outcome _ _ _ Hc) as E. unfold get_or_none in E.
  destruct (dict_get "trifecta_outcomes" record); cbn in *; [by subst|done].
Qed.
Lemma judge_total b reviews i kr : ∃ v, judge b reviews i kr = Ok v.
Proof.
  destruct kr as [key record]. unfold judge.
  pose proof (examine_total b key record (default [] (first_of key reviews))
    (List.filter (λ r, negb (String.eqb r REVIEW)) (intake_reasons i key record))) as Ht.
  destruct (examine _ _ _ _ _) as [[v|e] w]; [by eexists|]. cbn [fst] in Ht.
  assert (caught e = true) as ->; [|by eexists]. apply Ht.
  intros (_ & _ & cars & outcome & Hc)%intake_clean. by rewrite (first_outcome_clean _ _ _ Hc).
Qed.
Lemma judge_placed b reviews i key record p r : judge b reviews i (key, record) = Ok (Placed p r) →
  key ∉ conflicts i ∧ key ∉ source_variants i ∧ (∃ cars outcome, clean record cars outcome) ∧
  admitted b p key record (default [] (first_of key reviews)) r.
Proof.
  unfold judge. destruct (examine _ _ _ _ _) as [[v|e] w] eqn:E; [|by destruct (caught e)].
  intros [= ->]. apply examine_placed in E as [(? & ? & ?)%intake_clean Ha]. done.
Qed.

(** ** The plan *)
Lemma review_map_in reviews rs key review : review_map reviews = Ok rs → first_of key rs = Some review →
  VDict review ∈ reviews ∧ get_or_none "race_id" review = VStr key.
Proof.
  unfold review_map. assert (∀ acc, foldR add_review acc reviews = Ok rs → (key, review) ∈ rs →
    (key, review) ∈ acc ∨ VDict review ∈ reviews ∧ get_or_none "race_id" review = VStr key) as Hg.
  { induction reviews as [|v reviews IH]; intros acc; cbn [foldR]; [by intros [= ->]; left|].
    intros Hrun Hin. inv_result. destruct (IH _ Hrun Hin) as [Hacc|[? ?]]; [|right; split; [by right|done]].
    unfold add_review in *. destruct v; try done. destruct (get_or_none "race_id" kvs) eqn:E; try done.
    destruct (first_of _ acc); [done|]. inv_result.
    apply elem_of_app in Hacc as [?|[= -> ->]%list_elem_of_singleton]; [by left|right]. split; [left|done]. }
  intros Hrun Hf%first_of_in. by destruct (Hg [] Hrun Hf) as [?%not_elem_of_nil|].
Qed.
Definition PARTITIONS : list partition := [Train; Validation; Test].
(** The races of a plan, partition by partition, and those it excludes. *)
Definition placed_races (pl : plan) : list string := map race_key (concat (map (group pl) PARTITIONS)).
Definition excluded_races (pl : plan) : list string := omap ex_race (excluded pl).

Lemma prepare_inv records reviews vs ts pl : prepare (VList records) (VList reviews) vs ts = Ok pl →
  ∃ b rs verdicts, timestamp vs = Ok (valid_boundary b) ∧ timestamp ts = Ok (test_boundary b) ∧
    valid_boundary b < test_boundary b ∧ review_map reviews = Ok rs ∧
    let i := take_records records in
    mapR (judge b rs i) (seen i) = Ok verdicts ∧
    (∀ p, group pl p = merge_sort race_by_time (concat (map (placed_in p) verdicts))) ∧
    excluded pl = problems i ++ concat (map excluded_race (zip (map fst (seen i)) verdicts)).
Proof.
  unfold prepare. intros Hrun. inv_result. match goal with H : (_ <=? _) = false |- _ => apply Z.leb_gt in H end.
  eexists (Boundaries _ _), _, _. cbn. by split_and!.
Qed.
(** A placed race comes from the first record of its name, admitted there. *)
Lemma placed_admitted records reviews vs ts pl p r : prepare (VList records) (VList reviews) vs ts = Ok pl →
  r ∈ group pl p →
  ∃ b record review cars outcome, timestamp vs = Ok (valid_boundary b) ∧ timestamp ts = Ok (test_boundary b) ∧
    valid_boundary b < test_boundary b ∧
    VDict record ∈ records ∧ named (VDict record) = Some (race_key r) ∧ VDict review ∈ reviews ∧
    get_or_none "race_id" review = VStr (race_key r) ∧ clean record cars outcome ∧
    admitted b p (race_key r) record review r.
Proof.
  intros (b & rs & vs' & Hv & Ht & Hlt & Hrs & Hvs & Hg & _)%prepare_inv Hin.
  rewrite Hg, merge_sort_Permutation in Hin.
  apply list_elem_of_In, in_concat in Hin as (l & Hl%list_elem_of_In & Hr%list_elem_of_In).
  apply list_elem_of_fmap in Hl as (v & -> & Hv').
  destruct v as [|q r']; [by apply not_elem_of_nil in Hr|]. cbn in Hr. case_decide; [|by apply not_elem_of_nil in Hr].
  apply list_elem_of_singleton in Hr as ->. subst q.
  apply mapR_Ok in Hvs. apply list_elem_of_lookup_1 in Hv' as [n Hn].
  eapply Forall2_lookup_r in Hvs as ([key record] & Hk & Hj); [|exact Hn]. apply list_elem_of_lookup_2 in Hk.
  destruct (in_record _ _ (take_records_ok records) _ _ Hk) as [Hrec Hname].
  apply judge_placed in Hj as (_ & _ & (cars & outcome & Hc) & Ha).
  rewrite (ad_key _ _ _ _ _ _ Ha) in *.
  exists b, record, (default [] (first_of key rs)), cars, outcome. split_and!; try done.
  all: destruct (first_of key rs) as [review|] eqn:Er; [by eapply review_map_in in Er as [? ?]|].
  all: by pose proof (ad_signed _ _ _ _ _ _ Ha).
Qed.

Definition earlier (p q : partition) : bool :=
  match p, q with Train, Validation | Train, Test | Validation, Test => true | _, _ => false end.
(** C34: A historical plan never trains on what was not yet known.  The result of every
    race of a partition was available strictly before the features of any race of a
    later partition were taken, and after its own features; the times are those the
    records state. *)
Theorem historical_no_label_leak records reviews vs ts pl p q a z :
  prepare (VList records) (VList reviews) vs ts = Ok pl → earlier p q = true →
  a ∈ group pl p → z ∈ group pl q →
  ∃ record available, VDict record ∈ records ∧ named (VDict record) = Some (race_key a) ∧
    timestamp (get_or_none "feature_as_of" record) = Ok (feature_time a) ∧
    timestamp (get_or_none "result_available_at" record) = Ok available ∧
    feature_time a < available < feature_time z.
Proof.
  intros Hrun He Ha Hz.
  destruct (placed_admitted _ _ _ _ _ _ _ Hrun Ha) as (b & record & review & cars & outcome & Hv & Ht & Hlt & Hin & Hname & _ & _ & _ & Had).
  destruct (placed_admitted _ _ _ _ _ _ _ Hrun Hz) as (b' & record' & review' & ? & ? & Hv' & Ht' & _ & _ & _ & _ & _ & _ & Had').
  destruct (ad_order _ _ _ _ _ _ Had) as (start & available & _ & Hav & Hord & Hnext).
  exists record, available. split_and!; [done|done|by eapply ad_time|done|lia|].
  rewrite Hv in Hv'. rewrite Ht in Ht'. injection Hv' as Ev. injection Ht' as Et.
  pose proof (ad_partition _ _ _ _ _ _ Had') as Hq. unfold partition_at in Hq. rewrite <- Ev, <- Et in Hq.
  destruct p; cbn in Hnext; [| |by destruct q].
  all: specialize (Hnext _ eq_refl); destruct (Z.ltb_spec (feature_time z) (valid_boundary b)); [by subst q|].
  all: destruct (Z.ltb_spec (feature_time z) (test_boundary b)); [subst q; try done; lia|lia].
Qed.

(** Only a reviewed record is learned from.  A placed race comes from a record
    that the intake finds complete and single, that names its sources and a confirmed
    permission, and that does not claim to be prospective; a review signs exactly its
    content, with every piece of evidence stated; and its features were taken before
    the start of the race. *)
Theorem only_reviewed_records records reviews vs ts pl p r :
  prepare (VList records) (VList reviews) vs ts = Ok pl → r ∈ group pl p →
  ∃ b record review cars outcome,
    timestamp vs = Ok (valid_boundary b) ∧ timestamp ts = Ok (test_boundary b) ∧ valid_boundary b < test_boundary b ∧
    VDict record ∈ records ∧ named (VDict record) = Some (race_key r) ∧ VDict review ∈ reviews ∧
    get_or_none "race_id" review = VStr (race_key r) ∧ clean record cars outcome ∧
    admitted b p (race_key r) record review r.
Proof. exact (placed_admitted records reviews vs ts pl p r). Qed.

(** The rows of a placed race are one for each rider of its record, and say which
    car was first, which second and which third in its outcome. *)
Theorem historical_rows_labelled records reviews vs ts pl p r :
  prepare (VList records) (VList reviews) vs ts = Ok pl → r ∈ group pl p →
  ∃ record cars outcome row_cars, VDict record ∈ records ∧ named (VDict record) = Some (race_key r) ∧
    clean record cars outcome ∧
    map (get_or_none "car_number") (race_rows r) = map VInt row_cars ∧ row_cars ≡ₚ cars ∧
    ∀ row, row ∈ race_rows r → labelled (race_key r) outcome row.
Proof.
  intros Hrun Hin.
  destruct (placed_admitted _ _ _ _ _ _ _ Hrun Hin) as (b & record & review & cars & outcome & _ & _ & _ & Hrec & Hname & _ & _ & Hc & Had).
  destruct (ad_rows _ _ _ _ _ _ Had) as (rows & o & Hrows & Ho & Er).
  rewrite (first_outcome_clean _ _ _ Hc) in Ho. injection Ho as <-.
  destruct (cl_riders _ _ _ Hc) as (riders & Hr & Hcars). destruct (cl_cars _ _ _ Hc) as [Hn _].
  destruct (cl_distinct _ _ _ Hc) as [Hl _].
  destruct (feature_rows_cars _ _ _ _ Hrows Hr Hcars Hn) as (row_cars & Erow & Hperm).
  exists record, cars, outcome, row_cars. rewrite Er. split_and!; try done.
  - clear -Erow Hl. revert row_cars Erow. induction rows as [|row rows IH]; intros [|c row_cars]; try done. cbn [map].
    intros [= E1 E2]. destruct (label_row_labelled (race_key r) outcome row c Hl E1) as [_ ->]. f_equal. by apply IH.
  - intros row (row0 & -> & Hrow0)%list_elem_of_fmap.
    assert (get_or_none "car_number" row0 ∈ map VInt row_cars) as (c & Hc0 & _)%list_elem_of_fmap.
    { rewrite <- Erow. by apply list_elem_of_fmap_2. }
    by destruct (label_row_labelled (race_key r) outcome row0 c Hl Hc0).
Qed.

(** ** Accounting *)
Lemma verdicts_races b rs i (l : races) verdicts : mapR (judge b rs i) l = Ok verdicts →
  map race_key (concat (map (λ p, concat (map (placed_in p) verdicts)) PARTITIONS))
  ++ omap ex_race (concat (map excluded_race (zip (map fst l) verdicts))) ≡ₚ map fst l.
Proof.
  intros Hm%mapR_Ok. induction Hm as [|[key record] v l verdicts Hj _ IH]; [done|].
  cbn [PARTITIONS map concat zip zip_with fst] in *. rewrite app_nil_r in *. change (Some <$> ?x) with x in *.
  etransitivity; [|apply perm_skip, IH]. destruct v as [reasons|p r].
  - cbn. by rewrite <- Permutation_middle.
  - apply judge_placed in Hj as (_ & _ & _ & Ha). pose proof (ad_key _ _ _ _ _ _ Ha) as <-.
    cbn [excluded_race snd app]. rewrite !map_app, <- !(assoc_L (++)).
    destruct p; cbn; repeat (case_decide; try done); cbn; rewrite <- ?Permutation_middle; done.
Qed.
Lemma merge_sort_groups pl verdicts :
  (∀ p, group pl p = merge_sort race_by_time (concat (map (placed_in p) verdicts))) →
  placed_races pl ≡ₚ map race_key (concat (map (λ p, concat (map (placed_in p) verdicts)) PARTITIONS)).
Proof.
  intros Hg. unfold placed_races. cbn [PARTITIONS map concat]. rewrite !Hg, !merge_sort_Permutation. done.
Qed.

Lemma race_by_time_total : Total race_by_time.
Proof.
  intros x y. unfold race_by_time. destruct (Ztrichotomy (feature_time x) (feature_time y)) as [?|[E|?]]; [auto| |right; left; lia].
  destruct (str_le_total (race_key x) (race_key y)); auto.
Qed.
(** A plan accounts for every record.  With two boundaries in order and one review
    per race, preparing returns a plan; the races that the records name are each placed
    in one partition or excluded, once; a record that names no race is excluded; and
    each partition is in order of time. *)
Theorem plan_accounts records reviews vs ts valid test rs :
  timestamp vs = Ok valid → timestamp ts = Ok test → valid < test → review_map reviews = Ok rs →
  ∃ pl, prepare (VList records) (VList reviews) vs ts = Ok pl ∧
    placed_races pl ++ excluded_races pl ≡ₚ remove_dups (omap named records) ∧
    length (excluded pl) = (length (excluded_races pl) + length (List.filter (λ v, negb (is_named v)) records))%nat ∧
    ∀ p, Sorted race_by_time (group pl p).
Proof.
  intros Hv Ht Hlt Hrs. pose proof (take_records_ok records) as Hi.
  destruct (prepare (VList records) (VList reviews) vs ts) as [pl|e] eqn:Hrun.
  2: { exfalso. unfold prepare in Hrun. rewrite Hv, Ht in Hrun. cbn in Hrun. rewrite (proj2 (Z.leb_gt _ _) Hlt) in Hrun.
    cbn in Hrun. rewrite Hrs in Hrun. cbn in Hrun.
    destruct (mapR_total (judge (Boundaries valid test) rs (take_records records)) (seen (take_records records))) as [verdicts Hvs];
      [intros; apply judge_total|]. by rewrite Hvs in Hrun. }
  exists pl. split; [done|]. apply prepare_inv in Hrun as (b & rs' & verdicts & _ & _ & _ & _ & Hvs & Hg & He).
  assert (omap ex_race (problems (take_records records)) = []) as Hp.
  { pose proof (in_problems _ _ Hi) as Hp. revert Hp. generalize (problems (take_records records)). intros l Hp.
    induction Hp as [|e l He' _ IH]; [done|]. cbn. rewrite He'. exact IH. }
  unfold excluded_races. rewrite He, omap_app, Hp, length_app, (in_unnamed _ _ Hi). cbn [app]. split_and!.
  - rewrite (merge_sort_groups _ _ Hg), (verdicts_races _ _ _ _ _ Hvs). by apply intake_races.
  - rewrite Nat.add_comm. f_equal. generalize (zip (map fst (seen (take_records records))) verdicts). intros l.
    induction l as [|[k v] l IH]; [done|]. cbn [map concat]. rewrite omap_app, !length_app, IH. by destruct v.
  - intros p. rewrite Hg. apply Sorted_merge_sort. exact race_by_time_total.
Qed.
End facts.

(** ** Examples *)
#[local] Existing Instance decimal_readers.
#[local] Existing Instance decimal_laws.
(** Three riders; the times are numbers. *)
Definition example_feature (car : Z) : pyval :=
  VDict [("car_number", VInt car); ("style", VStr "逃"); ("race_score", VInt 90); ("recent_win_rate", VInt 25)].
Definition example_race (race features start known : string) : pydict :=
  [("race_id", VStr race); ("rider_count", VInt 3); ("sources", VList [VStr "archive"]);
   ("training_use_status", VStr "confirmed"); ("pre_race_state_verified", VBool true);
   ("riders", VList (map (λ c, VDict [("car_number", VInt c)]) [1; 2; 3]));
   ("trifecta_outcomes", VList [VList [VInt 3; VInt 1; VInt 2]]); ("dead_heat", VBool false);
   ("prospective", VBool false); ("feature_as_of", VStr features); ("listed_scheduled_start_jst", VStr start);
   ("result_available_at", VStr known); ("pre_race_features", VList (map example_feature [2; 1; 3]))].
Definition example_review (record : pydict) : pyval :=
  VDict [("race_id", get_or_none "race_id" record);
         ("record_sha256", match digest (VDict record) with Ok sha => VStr sha | Err _ => VNone end);
         ("reviewer", VStr "a"); ("source_use_evidence", VStr "b"); ("feature_time_evidence", VStr "c");
         ("result_time_evidence", VStr "d")].
Definition example_races : list pydict :=
  [example_race "r4" "250" "260" "270"; example_race "r1" "10" "20" "30"; example_race "r2" "95" "96" "105";
   example_race "r3" "120" "130" "140"].
Definition example_records : list pyval := VInt 7 :: map VDict example_races ++ [VDict (example_race "r1" "10" "20" "30")].
Definition example_plan : result plan :=
  prepare (VList example_records) (VList (map example_review example_races)) (VStr "100") (VStr "200").

(** Three partitions; the race known only after the validation starts is excluded. *)
Example example_plan_races :
  match example_plan with
  | Ok pl => map (λ p, map race_key (group pl p)) PARTITIONS = [["r1"]; ["r3"]; ["r4"]] ∧
             excluded pl = [Exclusion None ["invalid_record"]; Exclusion (Some "r2") ["label_unavailable_before_next_partition"]]
  | Err _ => False
  end.
Proof. vm_compute. split; reflexivity. Qed.

Lemma example_groups : ∃ pl a z, example_plan = Ok pl ∧ a ∈ group pl Train ∧ z ∈ group pl Test.
Proof.
  pose proof example_plan_races as Hr. destruct example_plan as [pl|e]; [|destruct Hr]. exists pl.
  destruct Hr as [[= H1 H2 H3] _].
  destruct (group pl Train) as [|a l]; [discriminate H1|]. destruct (group pl Test) as [|z l']; [discriminate H3|].
  exists a, z. split; [reflexivity|]. split; left.
Qed.
Lemma historical_no_label_leak_witness : ∃ pl a z, example_plan = Ok pl ∧ a ∈ group pl Train ∧ z ∈ group pl Test ∧
  ∃ record available, VDict record ∈ example_records ∧ named (VDict record) = Some (race_key a) ∧
    timestamp (get_or_none "feature_as_of" record) = Ok (feature_time a) ∧
    timestamp (get_or_none "result_available_at" record) = Ok available ∧
    feature_time a < available < feature_time z.
Proof.
  destruct example_groups as (pl & a & z & Hp & Ha & Hz). exists pl, a, z. split; [exact Hp|]. split; [exact Ha|]. split; [exact Hz|].
  exact (historical_no_label_leak _ _ _ _ pl Train Test a z Hp eq_refl Ha Hz).
Defined.
Lemma only_reviewed_records_witness : ∃ pl r, example_plan = Ok pl ∧ r ∈ group pl Train ∧
  ∃ b record review cars outcome,
    timestamp (VStr "100") = Ok (valid_boundary b) ∧ timestamp (VStr "200") = Ok (test_boundary b) ∧
    valid_boundary b < test_boundary b ∧
    VDict record ∈ example_records ∧ named (VDict record) = Some (race_key r) ∧
    VDict review ∈ map example_review example_races ∧
    get_or_none "race_id" review = VStr (race_key r) ∧ clean record cars outcome ∧
    admitted b Train (race_key r) record review r.
Proof.
  destruct example_groups as (pl & a & z & Hp & Ha & Hz). exists pl, a. split; [exact Hp|]. split; [exact Ha|].
  exact (only_reviewed_records _ _ _ _ pl Train a Hp Ha).
Defined.
Lemma historical_rows_labelled_witness : ∃ pl r, example_plan = Ok pl ∧ r ∈ group pl Train ∧
  ∃ record cars outcome row_cars, VDict record ∈ example_records ∧ named (VDict record) = Some (race_key r) ∧
    clean record cars outcome ∧
    map (get_or_none "car_number") (race_rows r) = map VInt row_cars ∧ row_cars ≡ₚ cars ∧
    ∀ row, row ∈ race_rows r → labelled (race_key r) outcome row.
Proof.
  destruct example_groups as (pl & a & z & Hp & Ha & Hz). exists pl, a. split; [exact Hp|]. split; [exact Ha|].
  exact (historical_rows_labelled _ _ _ _ pl Train a Hp Ha).
Defined.
Lemma plan_accounts_witness : ∃ pl, example_plan = Ok pl ∧
  placed_races pl ++ excluded_races pl ≡ₚ remove_dups (omap named example_records) ∧
  length (excluded pl) = (length (excluded_races pl) + length (List.filter (λ v, negb (is_named v)) example_records))%nat ∧
  ∀ p, Sorted race_by_time (group pl p).
Proof.
  destruct (review_map (map example_review example_races)) as [rs|e] eqn:Hr; [|by vm_compute in Hr].
  unfold example_plan. apply (plan_accounts example_records (map example_review example_races) (VStr "100") (VStr "200") 100 200 rs).
  - vm_compute. reflexivity.
  - vm_compute. reflexivity.
  - lia.
  - exact Hr.
Defined.
