(* ===== verification/Form.v ===== *)
(** ml/historical_form.py: the recent form of the riders of a race, from results that
    were available before a cutoff.

    Times are floats held as their exact multiples of 2^-1074; the start of the window
    is a float subtraction.  Rates and averages are quotients of integers, rounded to
    the nearest float ([true_div] of Rounding.v). *)
From Stdlib Require Import Ascii SpecFloat.
From stdpp Require Import sorting.
From S2P Require Import Prelude PyString PyValue PyText PyFloat Sha256 Rounding Dataset History.

Definition FORM_FEATURES : list string := ["recent_win_rate"; "recent_top2_rate"; "recent_top3_rate"; "recent_avg_finish"].
Definition _text (v : pyval) : bool := has_text v.

(** ** Rosters *)
(** [identity.split(":", 1)] when there is a colon *)
Fixpoint split_once (sep : ascii) (s : string) : option (string * string) :=
  match s with
  | EmptyString => None
  | String c s' => if Ascii.eqb c sep then Some (EmptyString, s')
                   else match split_once sep s' with Some (a, b) => Some (String c a, b) | None => None end
  end.
Definition is_namespaced (v : pyval) : bool :=
  match v with
  | VStr s => _text v && match split_once ":" s with Some (a, b) => _text (VStr a) && _text (VStr b) | None => false end
  | _ => false
  end.
(** The body of the loop. *)
Definition roster_row (acc : list Z * list string) (row : pyval) : result (list Z * list string) :=
  match row with
  | VDict d =>
      match get_or_none "car_number" d with
      | VInt car =>
          reject_if (negb ((1 <=? car) && (car <=? 9))) ValueError "invalid_car_number";;
          reject_if (negb (is_namespaced (get_or_none "rider_id" d))) ValueError "namespaced_rider_identity_required";;
          Ok (acc.1 ++ [car], acc.2 ++ [py_str (get_or_none "rider_id" d)])
      | _ => raise ValueError "invalid_car_number"
      end
  | _ => raise ValueError "invalid_rider"
  end.
Definition _roster (rows : pyval) : result unit :=
  match rows with
  | VList l =>
      reject_if (negb ((3 <=? length l)%nat && (length l <=? 9)%nat)) ValueError "invalid_roster_size";;
      found ← foldR roster_row ([], []) l;
      reject_if (negb (length (remove_dups found.1) =? length found.1)%nat
                 || negb (length (remove_dups found.2) =? length found.2)%nat) ValueError
        "duplicate_car_or_rider_identity"
  | _ => raise ValueError "invalid_roster_size"
  end.
Definition dicts (v : pyval) : list pydict := match v with VList l => omap as_dict l | _ => [] end.

(** ** Finish orders *)
Definition finish_rank (size : nat) (rider : pydict) : result (list Z) :=
  let status := get_or_none "status" rider in
  let rank := get_or_none "finish_rank" rider in
  if is_text status "FINISHED" then
    match rank with
    | VInt r => reject_if (negb ((1 <=? r) && (r <=? Z.of_nat size))) ValueError "invalid_finish_rank";; Ok [r]
    | _ => raise ValueError "invalid_finish_rank"
    end
  else
    reject_if (negb (in_strs status ["DNF"; "DSQ"; "DNS"]) || negb (is_none rank)) ValueError "invalid_finish_status";;
    Ok [].
(** [sorted(Counter(ranks).items())] *)
Definition rank_counts (ranks : list Z) : list (Z * Z) :=
  map (λ r, (r, Z.of_nat (length (List.filter (Z.eqb r) ranks)))) (merge_sort Z.le (remove_dups ranks)).
(** Competition ranks preserve ties. *)
Fixpoint check_ranks (next_rank : Z) (counts : list (Z * Z)) : result unit :=
  match counts with
  | [] => Ok tt
  | (rank, count) :: counts' =>
      reject_if (negb (rank =? next_rank)) ValueError "incomplete_or_invalid_finish_order";;
      check_ranks (next_rank + count) counts'
  end.

Section build.
Context `{Readers}.

Fixpoint require_texts (d : pydict) (fields : list string) : result unit :=
  match fields with
  | [] => Ok tt
  | f :: fields' => reject_if (negb (_text (get_or_none f d))) ValueError (f ++ "_required");; require_texts d fields'
  end.
(** A float of a time held as its multiple of 2^-1074, and [cutoff - window_days * 86400] *)
Definition float_of_scaled (t : Z) : spec_float := binary_normalize 53 1024 t (-1074) false.
Definition window_start (cutoff window_days : Z) : result Z :=
  width ← float_of_Z (window_days * 86400);
  Ok (scaled_float (float_sub (float_of_scaled cutoff) width)).

(** ** History *)
(** The records by race, the first of each, and the races that have different ones. *)
Record known := Known { records : races; conflicting : gset string; identical : Z; unnamed : nat }.
Definition add_history (k : known) (record : pyval) : known :=
  match record with
  | VDict d =>
      match get_or_none "race_id" d with
      | VStr key =>
          if _text (VStr key) then
            match first_of key (records k) with
            | Some first =>
                if py_eqb record (VDict first) then Known (records k) (conflicting k) (identical k + 1) (unnamed k)
                else Known (records k) ({[key]} ∪ conflicting k) (identical k) (unnamed k)
            | None => Known (records k ++ [(key, d)]) (conflicting k) (identical k) (unnamed k)
            end
          else Known (records k) (conflicting k) (identical k) (S (unnamed k))
      | _ => Known (records k) (conflicting k) (identical k) (S (unnamed k))
      end
  | _ => Known (records k) (conflicting k) (identical k) (S (unnamed k))
  end.
Definition gather_history (history : list pyval) : known := foldl add_history (Known [] ∅ 0 0) history.

(** What the target fixes: its race and its window. *)
Record window := Window { target_race : string; lower : Z; cutoff : Z }.
Record observed := Observed { start : Z; race_key : string; record : pydict; record_sha : string }.
Definition HISTORY_EVIDENCE : list string := ["result_time_evidence"; "identity_evidence"; "source_use_evidence"].
(** The body of the [try]: a record that may be used. *)
Definition use_record (w : window) (conflicts : gset string) (kr : string * pydict) : result observed :=
  let '(key, record) := kr in
  let at_ k := get_or_none k record in
  reject_if (String.eqb key (target_race w)) ValueError "target_result_excluded";;
  reject_if (bool_decide (key ∈ conflicts)) ValueError "conflicting_history_race";;
  reject_if (negb (is_text (at_ "race_status") "completed")) ValueError "completed_race_required";;
  require_texts record HISTORY_EVIDENCE;;
  start ← timestamp (at_ "race_start_at");
  available ← timestamp (at_ "result_available_at");
  reject_if (available <? start) ValueError "result_precedes_race";;
  reject_if (negb ((lower w <=? start) && (start <? cutoff w))) ValueError "outside_race_window";;
  reject_if (cutoff w <=? available) ValueError "result_not_available_before_cutoff";;
  _roster (at_ "participants");;
  let participants := dicts (at_ "participants") in
  ranks ← mapR (finish_rank (length participants)) participants;
  check_ranks 1 (rank_counts (concat ranks));;
  sha ← digest (VDict record);
  Ok (Observed start key record sha).
Definition refused (e : exn) : bool := existsb (isinstance e) [ValueError; TypeError; KeyError; OverflowError].
Definition by_start (a b : observed) : Prop :=
  start a < start b ∨ (start a = start b ∧ str_le (race_key a) (race_key b) = true).
#[export] Instance by_start_dec a b : Decision (by_start a b).
Proof. unfold by_start. apply _. Defined.
(** The loop over the races: those used, and the reasons for the others. *)
Fixpoint select_history (w : window) (conflicts : gset string) (l : races) :
    result (list observed * list (string * string)) :=
  match l with
  | [] => Ok ([], [])
  | kr :: l' =>
      match use_record w conflicts kr with
      | Ok o => rest ← select_history w conflicts l'; Ok (o :: rest.1, rest.2)
      | Err e => if refused e then rest ← select_history w conflicts l'; Ok (rest.1, (kr.1, exn_text e) :: rest.2)
                 else Err e
      end
  end.

(** ** Rows *)
Definition rider_in (identity : pyval) (record : pydict) : option pydict :=
  find (λ p, py_eqb (get_or_none "rider_id" p) identity) (dicts (get_or_none "participants" record)).
(** The starts of a rider in the races used, in order. *)
Definition observations (identity : pyval) (usable : list observed) : list (observed * pydict) :=
  omap (λ o, match rider_in identity (record o) with
             | Some rider => if is_text (get_or_none "status" rider) "DNS" then None else Some (o, rider)
             | None => None
             end) usable.
Definition classified (obs : list (observed * pydict)) : list Z :=
  omap (λ op, as_int (get_or_none "finish_rank" op.2))
    (List.filter (λ op, is_text (get_or_none "status" op.2) "FINISHED") obs).
(** [100 * sum(r <= k for r in ranked) / n if n else None] *)
Definition rate (k : Z) (ranked : list Z) (n : nat) : option spec_float :=
  if (n =? 0)%nat then None
  else Some (true_div (100 * Z.of_nat (length (List.filter (λ r, r <=? k) ranked))) (Z.of_nat n)).
Definition sum (l : list Z) : Z := foldr Z.add 0 l.
Definition average (ranked : list Z) : option spec_float :=
  if (length ranked =? 0)%nat then None else Some (true_div (sum ranked) (Z.of_nat (length ranked))).

Record form := Form {
  car : pyval; rider : pyval; win_rate : option spec_float; top2_rate : option spec_float;
  top3_rate : option spec_float; avg_finish : option spec_float; starts : nat; finishes : nat;
  statuses : list string; history_races : list string }.
Definition form_of (usable : list observed) (entrant : pydict) : form :=
  let identity := get_or_none "rider_id" entrant in
  let obs := observations identity usable in
  let n := length obs in
  let ranked := classified obs in
  Form (get_or_none "car_number" entrant) identity
    (if (n =? 0)%nat then None
     else Some (true_div (100 * Z.of_nat (length (List.filter (Z.eqb 1) ranked))) (Z.of_nat n)))
    (rate 2 ranked n) (rate 3 ranked n) (average ranked) n (length ranked)
    (map (λ op, py_str (get_or_none "status" op.2)) obs) (map (λ op, race_key op.1) obs).
Definition form_value (f : form) : pyval :=
  VDict [("car_number", car f); ("rider_id", rider f);
         ("features", VDict (zip FORM_FEATURES
            (map float_or_none [win_rate f; top2_rate f; top3_rate f; avg_finish f])));
         ("starts", VInt (Z.of_nat (starts f))); ("classified_finishes", VInt (Z.of_nat (finishes f)));
         ("status_counts", VDict (counted (statuses f))); ("history_race_ids", VList (map VStr (history_races f)))].
(** [provenance[key] = ...] for every start counted *)
Definition provenance_entry (o : observed) : pyval :=
  VDict ([("race_id", VStr (race_key o)); ("record_sha256", VStr (record_sha o));
          ("result_available_at", get_or_none "result_available_at" (record o))]
         ++ map (λ f, (f, get_or_none f (record o))) HISTORY_EVIDENCE).
Definition provenance_of (usable : list observed) (entrants : list pydict) : pydict :=
  foldl (λ d o, dict_set (race_key o) (provenance_entry o) d) []
    (concat (map (λ e, map fst (observations (get_or_none "rider_id" e) usable)) entrants)).

(** ** [build] *)
Record report := Report {
  target_sha : string; forms : list form; provenance : pydict; excluded_history : list (string * string);
  invalid_records : nat; identical_duplicates : Z }.
(** The checks of the target: its window and its entrants. *)
Definition check_target (target : pydict) (window_days : Z) : result (window * list pydict) :=
  require_texts target ["identity_evidence"; "entry_time_evidence"];;
  cutoff ← timestamp (get_or_none "feature_as_of" target);
  scheduled ← timestamp (get_or_none "listed_scheduled_start_jst" target);
  reject_if (scheduled <=? cutoff) ValueError "cutoff_must_precede_start";;
  _roster (get_or_none "riders" target);;
  lower ← window_start cutoff window_days;
  Ok (Window (py_str (get_or_none "race_id" target)) lower cutoff, dicts (get_or_none "riders" target)).
Definition build (target history window_days : pyval) : result report :=
  match window_days with
  | VInt days =>
      reject_if (days <=? 0) ValueError "positive_window_days_required";;
      match target with
      | VDict d =>
          reject_if (negb (_text (get_or_none "race_id" d))) ValueError "target_race_id_required";;
          match history with
          | VList l =>
              checked ← check_target d days;
              let '(w, entrants) := checked in
              let k := gather_history l in
              selected ← select_history w (conflicting k) (records k);
              let usable := merge_sort by_start selected.1 in
              sha ← digest target;
              Ok (Report sha (map (form_of usable) entrants) (provenance_of usable entrants) selected.2 (unnamed k)
                    (identical k))
          | _ => raise ValueError "history_array_required"
          end
      | _ => raise ValueError "target_race_id_required"
      end
  | _ => raise ValueError "positive_window_days_required"
  end.
End build.
