(* ===== verification/FormFacts.v ===== *)
(** Recent form is made of results that were available before the cutoff: later results
    change nothing, every start counted is traced to a record, and the rates are ordered
    and bounded. *)
From Stdlib Require Import Ascii SpecFloat.
From stdpp Require Import sorting.
From S2P Require Import Prelude PyString PyValue PyText PyFloat Sha256 Rounding Dataset DatasetFacts History HistoryFacts Form.

(** ** Rosters and ranks *)
Lemma roster_size rows : _roster rows = Ok tt → ∃ l, rows = VList l ∧ (3 ≤ length l ≤ 9)%nat.
Proof.
  unfold _roster. destruct rows as [| | | | |l| |]; try done. intros Hrun. inv_result. exists l. split; [done|].
  repeat match goal with H : _ && _ = true |- _ => apply andb_true_iff in H as [?%Nat.leb_le ?%Nat.leb_le] end. lia.
Qed.
Lemma dicts_length v : (length (dicts v) ≤ match v with VList l => length l | _ => 0 end)%nat.
Proof. destruct v; try (cbn; lia). apply omap_shorter. Qed.
(** What a rider of an accepted finish order is. *)
Definition ranked_within (size : nat) (rider : pydict) : Prop :=
  is_text (get_or_none "status" rider) "FINISHED" = true →
  ∃ r, get_or_none "finish_rank" rider = VInt r ∧ 1 ≤ r ≤ Z.of_nat size.
Lemma finish_rank_ok size rider ranks : finish_rank size rider = Ok ranks → ranked_within size rider.
Proof.
  unfold finish_rank, ranked_within. intros Hrun E. rewrite E in Hrun. destruct (get_or_none "finish_rank" rider); try done. inv_result.
  match goal with H : _ && _ = true |- _ => apply andb_true_iff in H as [?%Z.leb_le ?%Z.leb_le] end. eauto.
Qed.

Section facts.
Context `{Readers}.

(** ** The races known *)
(** What one more record adds. *)
Definition new_race (l : races) (v : pyval) : races :=
  match named v, v with
  | Some key, VDict d => match first_of key l with Some _ => [] | None => [(key, d)] end
  | _, _ => []
  end.
Definition new_conflict (l : races) (v : pyval) : gset string :=
  match named v with
  | Some key => match first_of key l with
                | Some first => if py_eqb v (VDict first) then ∅ else {[key]}
                | None => ∅
                end
  | None => ∅
  end.
Lemma add_history_spec k v :
  records (add_history k v) = records k ++ new_race (records k) v ∧
  conflicting (add_history k v) = new_conflict (records k) v ∪ conflicting k.
Proof.
  unfold new_race, new_conflict. destruct v; try (cbn; by rewrite app_nil_r, (left_id_L ∅ (∪))).
  cbn [named add_history]. destruct (get_or_none "race_id" kvs); try (cbn; by rewrite app_nil_r, (left_id_L ∅ (∪))).
  unfold _text. destruct (has_text (VStr s)); [|cbn; by rewrite app_nil_r, (left_id_L ∅ (∪))].
  destruct (first_of s (records k)); [destruct (py_eqb _ _)|]; cbn; by rewrite ?app_nil_r, ?(left_id_L ∅ (∪)).
Qed.
Lemma gather_history_in history key d : (key, d) ∈ records (gather_history history) →
  VDict d ∈ history ∧ named (VDict d) = Some key.
Proof.
  induction history as [|v history IH] using rev_ind; [by intros ?%not_elem_of_nil|].
  unfold gather_history in *. rewrite foldl_snoc. set (k := foldl _ _ _) in *.
  destruct (add_history_spec k v) as [-> _]. intros [Hin%IH|Hin]%elem_of_app; [set_solver|]. unfold new_race in Hin.
  destruct (named v) eqn:E; [|by apply not_elem_of_nil in Hin]. destruct v; try by apply not_elem_of_nil in Hin.
  destruct (first_of _ _); [by apply not_elem_of_nil in Hin|]. apply list_elem_of_singleton in Hin as [= -> ->]. set_solver.
Qed.
Definition other (key : string) (v : pyval) : bool := negb (bool_decide (named v = Some key)).
Definition besides (key : string) (l : races) : races := List.filter (λ kr, negb (String.eqb kr.1 key)) l.
Lemma first_of_besides key name l : name ≠ key → first_of name (besides key l) = first_of name l.
Proof.
  intros N. unfold first_of, besides. induction l as [|[k d] l IH]; cbn; [done|].
  destruct (String.eqb_spec k key) as [->|Nk]; cbn.
  - by rewrite IH, (proj2 (String.eqb_neq _ _)).
  - destruct (String.eqb k name); [done|apply IH].
Qed.
(** Leaving out the records of a race leaves out that race, and nothing else. *)
Lemma gather_history_other key history :
  let k := gather_history history in let k' := gather_history (List.filter (other key) history) in
  records k' = besides key (records k) ∧ ∀ name, name ≠ key → name ∈ conflicting k' ↔ name ∈ conflicting k.
Proof.
  cbv zeta. induction history as [|v history [IHr IHc]] using rev_ind; [done|].
  rewrite List.filter_app. cbn [List.filter]. unfold gather_history in *. rewrite foldl_snoc.
  set (k := foldl _ _ history) in *. set (k' := foldl _ _ (List.filter _ history)) in *.
  destruct (add_history_spec k v) as [-> Hc]. unfold besides. rewrite List.filter_app. fold (besides key (records k)).
  destruct (other key v) eqn:Eo; unfold other in Eo; inv_result.
  - rewrite foldl_snoc. fold k'. destruct (add_history_spec k' v) as [-> Hc']. rewrite IHr in Hc' |- *.
    assert (new_race (besides key (records k)) v = new_race (records k) v ∧
      new_conflict (besides key (records k)) v = new_conflict (records k) v ∧
      List.filter (λ kr, negb (String.eqb kr.1 key)) (new_race (records k) v) = new_race (records k) v) as (-> & E2 & ->).
    { unfold new_race, new_conflict. destruct (named v) as [name|]; [|done].
      assert (name ≠ key) as N by congruence. rewrite !first_of_besides by done. split_and!; try done.
      destruct v; try done. destruct (first_of _ _); [done|]. cbn. by rewrite (proj2 (String.eqb_neq _ _)). }
    split; [done|]. intros name N. rewrite Hc', Hc, E2. set_solver.
  - rewrite app_nil_r. fold k'. unfold new_race. rewrite Eo. split.
    + rewrite IHr. symmetry. destruct v; try apply app_nil_r. destruct (first_of _ _); [apply app_nil_r|]. cbn.
      rewrite String.eqb_refl. apply app_nil_r.
    + intros name N. rewrite IHc, Hc by done. unfold new_conflict. rewrite Eo.
      destruct (first_of _ _); [destruct (py_eqb _ _)|]; set_solver.
Qed.
(** ** The races used *)
(** What [use_record] has checked: the race was run inside the window, its result was
    known before the cutoff, and its finish order is complete. *)
Record before_cutoff (w : window) (o : observed) : Prop := {
  bc_other : race_key o ≠ target_race w;
  bc_completed : get_or_none "race_status" (record o) = VStr "completed";
  bc_evidence k : k ∈ HISTORY_EVIDENCE → has_text (get_or_none k (record o)) = true;
  bc_start : timestamp (get_or_none "race_start_at" (record o)) = Ok (start o);
  bc_available : ∃ available, timestamp (get_or_none "result_available_at" (record o)) = Ok available ∧
    lower w ≤ start o ≤ available ∧ available < cutoff w;
  bc_digest : digest (VDict (record o)) = Ok (record_sha o);
  bc_size : (length (dicts (get_or_none "participants" (record o))) ≤ 9)%nat;
  bc_ranks rider : rider ∈ dicts (get_or_none "participants" (record o)) → ranked_within 9 rider }.
Lemma require_texts_ok d fields : require_texts d fields = Ok tt → ∀ k, k ∈ fields → has_text (get_or_none k d) = true.
Proof.
  induction fields as [|f fields IH]; cbn; [by intros _ k ?%not_elem_of_nil|]. intros Hrun. inv_result.
  intros k [->|Hk]%elem_of_cons; [done|by apply IH].
Qed.
Lemma use_record_ok w conflicts key d o : use_record w conflicts (key, d) = Ok o →
  race_key o = key ∧ record o = d ∧ key ∉ conflicts ∧ before_cutoff w o.
Proof.
  unfold use_record. intros Hrun. inv_result.
  repeat match goal with
  | H : (_ <? _) = false |- _ => apply Z.ltb_ge in H
  | H : (_ <=? _) = false |- _ => apply Z.leb_gt in H
  | H : _ && _ = true |- _ => apply andb_true_iff in H as [?%Z.leb_le ?%Z.ltb_lt]
  | H : String.eqb _ _ = false |- _ => apply String.eqb_neq in H
  | H : is_text _ _ = true |- _ => apply is_text_true in H
  | H : require_texts _ _ = Ok _ |- _ => pose proof (require_texts_ok _ _ H); clear H
  | H : _roster _ = Ok _ |- _ => apply roster_size in H as (ps & Hps & Hsize)
  | H : mapR (finish_rank _) _ = Ok _ |- _ => apply mapR_Ok in H as Hranks; clear H
  end.
  assert (length (dicts (get_or_none "participants" d)) ≤ 9)%nat as Hle.
  { pose proof (dicts_length (get_or_none "participants" d)) as Hd. rewrite Hps in *. lia. }
  split_and!; [done|done|done|]. split; cbn [start race_key record record_sha]; try done.
  - eexists. split; [done|]. lia.
  - intros rider Hr. apply list_elem_of_lookup_1 in Hr as [i Hi].
    eapply Forall2_lookup_l in Hranks as (rs & _ & Hrank); [|exact Hi]. apply finish_rank_ok in Hrank.
    intros (r & ? & ?)%Hrank. exists r. split; [done|]. lia.
Qed.
Lemma select_history_in w conflicts l sel o : select_history w conflicts l = Ok sel → o ∈ sel.1 →
  ∃ kr, kr ∈ l ∧ use_record w conflicts kr = Ok o.
Proof.
  revert sel. induction l as [|kr l IH]; intros sel; cbn [select_history]; [intros [= <-] ?%not_elem_of_nil; done|].
  destruct (use_record w conflicts kr) as [o'|e] eqn:E; [|destruct (refused e); [|done]]; intros Hrun Hin; inv_result; cbn in Hin.
  - apply elem_of_cons in Hin as [->|Hin]; [exists kr; split; [left|done]|].
    destruct (IH _ Ha Hin) as (kr' & ? & ?). exists kr'. split; [by right|done].
  - destruct (IH _ Ha Hin) as (kr' & ? & ?). exists kr'. split; [by right|done].
Qed.

Lemma build_inv target history window_days rep : build target (VList history) window_days = Ok rep →
  ∃ d days w entrants sel sha, target = VDict d ∧ window_days = VInt days ∧ 0 < days ∧
    has_text (get_or_none "race_id" d) = true ∧ check_target d days = Ok (w, entrants) ∧ digest target = Ok sha ∧
    let k := gather_history history in let usable := merge_sort by_start sel.1 in
    select_history w (conflicting k) (records k) = Ok sel ∧
    rep = Report sha (map (form_of usable) entrants) (provenance_of usable entrants) sel.2 (unnamed k) (identical k).
Proof.
  unfold build. destruct window_days as [| |days| | | | |]; try done. intros Hrun. inv_result.
  destruct target as [| | | | | | |d]; try done. inv_result.
  match goal with H : check_target _ _ = Ok ?x |- _ => destruct x as [w entrants] end. inv_result.
  match goal with H : (_ <=? _) = false |- _ => apply Z.leb_gt in H end.
  eexists d, days, w, entrants, _, _. by split_and!.
Qed.
Lemma check_target_ok d days w entrants : check_target d days = Ok (w, entrants) →
  target_race w = py_str (get_or_none "race_id" d) ∧ entrants = dicts (get_or_none "riders" d) ∧
  timestamp (get_or_none "feature_as_of" d) = Ok (cutoff w) ∧
  ∃ scheduled, timestamp (get_or_none "listed_scheduled_start_jst" d) = Ok scheduled ∧ cutoff w < scheduled.
Proof.
  unfold check_target. intros Hrun. inv_result. match goal with H : (_ <=? _) = false |- _ => apply Z.leb_gt in H end.
  cbn. split_and!; [done|done|done|]. by eexists.
Qed.

(** ** Observations *)
Lemma observations_in identity usable o rider : (o, rider) ∈ observations identity usable →
  o ∈ usable ∧ rider ∈ dicts (get_or_none "participants" (record o)) ∧
  py_eqb (get_or_none "rider_id" rider) identity = true ∧ is_text (get_or_none "status" rider) "DNS" = false.
Proof.
  unfold observations. intros (o' & Hin & Ho)%list_elem_of_omap. unfold rider_in in Ho.
  destruct (find _ _) as [r|] eqn:E; [|done]. destruct (is_text (get_or_none "status" r) "DNS") eqn:Ed; [done|].
  injection Ho as -> ->. apply find_some in E as [Hr%list_elem_of_In He]. done.
Qed.
Lemma usable_before target history window_days rep f : build target (VList history) window_days = Ok rep → f ∈ forms rep →
  ∃ w usable entrant d, target = VDict d ∧ entrant ∈ dicts (get_or_none "riders" d) ∧ f = form_of usable entrant ∧
    target_race w = py_str (get_or_none "race_id" d) ∧
    timestamp (get_or_none "feature_as_of" d) = Ok (cutoff w) ∧
    (∃ scheduled, timestamp (get_or_none "listed_scheduled_start_jst" d) = Ok scheduled ∧ cutoff w < scheduled) ∧
    ∀ o, o ∈ usable → before_cutoff w o ∧ VDict (record o) ∈ history ∧ named (VDict (record o)) = Some (race_key o).
Proof.
  intros (d & days & w & entrants & sel & sha & -> & _ & _ & _ & Hc & _ & Hsel & ->)%build_inv Hf.
  apply check_target_ok in Hc as (Ht & -> & Hcut & Hs). cbn [forms] in Hf. apply list_elem_of_fmap in Hf as (entrant & -> & He).
  eexists w, _, entrant, d. split_and!; try done. intros o Ho. rewrite merge_sort_Permutation in Ho.
  destruct (select_history_in _ _ _ _ _ Hsel Ho) as ([key r] & Hin & (Hk & Hr & _ & Hb)%use_record_ok).
  apply gather_history_in in Hin as [? ?]. subst. done.
Qed.

(** C35: recent form never looks ahead.  Every start counted for a rider is a completed
    race of another name in the supplied history, in which the rider took part; it
    started before its result was available, and that was before the cutoff, which
    comes before the scheduled start of the target race. *)
Theorem form_no_look_ahead target history window_days rep f id :
  build target (VList history) window_days = Ok rep → f ∈ forms rep → id ∈ history_races f →
  ∃ d past began available cutoff scheduled participant,
    target = VDict d ∧ VDict past ∈ history ∧ named (VDict past) = Some id ∧ VStr id ≠ get_or_none "race_id" d ∧
    get_or_none "race_status" past = VStr "completed" ∧
    timestamp (get_or_none "race_start_at" past) = Ok began ∧
    timestamp (get_or_none "result_available_at" past) = Ok available ∧
    timestamp (get_or_none "feature_as_of" d) = Ok cutoff ∧
    timestamp (get_or_none "listed_scheduled_start_jst" d) = Ok scheduled ∧
    began ≤ available < cutoff ∧ cutoff < scheduled ∧
    participant ∈ dicts (get_or_none "participants" past) ∧
    py_eqb (get_or_none "rider_id" participant) (rider f) = true ∧
    is_text (get_or_none "status" participant) "DNS" = false.
Proof.
  intros Hrun Hf Hid.
  destruct (usable_before _ _ _ _ _ Hrun Hf) as (w & usable & entrant & d & -> & _ & -> & Ht & Hcut & (sch & Hsch & Hlt) & Hu).
  cbn [history_races form_of] in Hid. apply list_elem_of_fmap in Hid as ([o participant] & -> & (Ho & Hp & Heq & Hdns)%observations_in).
  destruct (Hu o Ho) as (Hb & Hin & Hname). destruct (bc_available _ _ Hb) as (available & Hav & Hord & Hbefore).
  exists d, (record o), (start o), available, (cutoff w), sch, participant. cbn [fst rider form_of].
  split_and!; try done; try lia; [|by eapply bc_completed|by eapply bc_start].
  intros E. apply (bc_other _ _ Hb). by rewrite Ht, <- E.
Qed.

(** ** Bounds *)
Lemma filter_le {A} (f g : A → bool) l : (∀ x, f x = true → g x = true) →
  (length (List.filter f l) ≤ length (List.filter g l))%nat.
Proof.
  intros Hfg. induction l as [|x l IH]; cbn; [lia|]. destruct (f x) eqn:E; [rewrite (Hfg x E); cbn; lia|].
  destruct (g x); cbn; lia.
Qed.
Lemma classified_bounds identity usable w r : (∀ o, o ∈ usable → before_cutoff w o) →
  r ∈ classified (observations identity usable) → 1 ≤ r ≤ 9.
Proof.
  intros Hu. unfold classified. intros ([o rider] & Hin & Hr)%list_elem_of_omap.
  apply list_elem_of_In, filter_In in Hin as [Hin Hs]. apply list_elem_of_In, observations_in in Hin as (Ho & Hp & _).
  destruct (bc_ranks _ _ (Hu o Ho) rider Hp Hs) as (r' & E & Hb). cbn [snd] in Hr. rewrite E in Hr. injection Hr as <-. lia.
Qed.
Lemma classified_length obs : (length (classified obs) ≤ length obs)%nat.
Proof.
  unfold classified. pose proof (filter_length_le (λ op : observed * pydict, is_text (get_or_none "status" op.2) "FINISHED") obs).
  pose proof (omap_shorter (λ op : observed * pydict, as_int (get_or_none "finish_rank" op.2))
    (List.filter (λ op, is_text (get_or_none "status" op.2) "FINISHED") obs)). lia.
Qed.
Lemma sum_bounds l : (∀ r, r ∈ l → 1 ≤ r ≤ 9) → Z.of_nat (length l) ≤ sum l ≤ 9 * Z.of_nat (length l).
Proof.
  induction l as [|r l IH]; cbn; [lia|]. intros Hb. pose proof (Hb r ltac:(left)).
  specialize (IH ltac:(intros; apply Hb; by right)). unfold sum in *. lia.
Qed.
(** The numbers of a form: percentages in order, and an average finish. *)
Record bounded_form (f : form) : Prop := {
  bf_starts : (finishes f ≤ starts f)%nat ∧ starts f = length (history_races f);
  bf_none : starts f = 0%nat → win_rate f = None ∧ top2_rate f = None ∧ top3_rate f = None;
  bf_rates : (0 < starts f)%nat → ∃ first second third, win_rate f = Some first ∧ top2_rate f = Some second ∧
    top3_rate f = Some third ∧
    0 ≤ scaled_float first ≤ scaled_float second ∧ scaled_float second ≤ scaled_float third ≤ 100 * unit_;
  bf_average : match avg_finish f with
               | None => finishes f = 0%nat
               | Some a => unit_ ≤ scaled_float a ≤ 9 * unit_
               end }.
(** The numbers of a form are what their names say: the rates are percentages, first
    place at most the first two, these at most the first three and these at most 100;
    the average finish is between 1 and 9; and there are none without a start. *)
Theorem form_rates_bounded target history window_days rep f :
  build target (VList history) window_days = Ok rep → f ∈ forms rep → bounded_form f.
Proof.
  intros Hrun Hf. destruct (usable_before _ _ _ _ _ Hrun Hf) as (w & usable & entrant & d & _ & _ & -> & _ & _ & _ & Hu).
  set (identity := get_or_none "rider_id" entrant). set (obs := observations identity usable).
  pose proof (classified_length obs) as Hle. set (ranked := classified obs) in *.
  assert (∀ r, r ∈ ranked → 1 ≤ r ≤ 9) as Hr by (intros r; apply (classified_bounds identity usable w); intros o Ho; by apply Hu).
  split; unfold form_of, rate, average; cbv zeta; cbn [starts finishes history_races win_rate top2_rate top3_rate avg_finish];
    fold identity obs ranked.
  - by rewrite length_map.
  - by intros ->.
  - intros Hn. destruct (Nat.eqb_spec (length obs) 0); [lia|]. eexists _, _, _. split_and!; try reflexivity.
    + rewrite <- (Z.mul_0_l unit_). change (0 * unit_) with (scaled_float (true_div 0 1)). apply true_div_mono; lia.
    + pose proof (filter_le (Z.eqb 1) (λ r, r <=? 2) ranked ltac:(intros x ?%Z.eqb_eq; apply Z.leb_le; lia)).
      apply true_div_mono; nia.
    + pose proof (filter_le (λ r, r <=? 2) (λ r, r <=? 3) ranked ltac:(intros x ?%Z.leb_le; apply Z.leb_le; lia)).
      apply true_div_mono; nia.
    + change (100 * unit_) with (scaled_float (true_div 100 1)).
      pose proof (filter_length_le (λ r, r <=? 3) ranked). apply true_div_mono; nia.
  - destruct (Nat.eqb_spec (length ranked) 0) as [|Hn]; [done|]. pose proof (sum_bounds ranked Hr).
    change unit_ with (scaled_float (true_div 1 1)) at 1. change (9 * unit_) with (scaled_float (true_div 9 1)).
    split; apply true_div_mono; nia.
Qed.

(** ** Late results *)
Lemma select_besides w c c' key l sel :
  (∀ name, name ≠ key → name ∈ c' ↔ name ∈ c) → (∀ d o, (key, d) ∈ l → use_record w c (key, d) ≠ Ok o) →
  select_history w c l = Ok sel → ∃ why, select_history w c' (besides key l) = Ok (sel.1, why).
Proof.
  intros Hc. revert sel. induction l as [|[name d] l IH]; intros sel Hno; cbn [select_history]; [intros [= <-]; by exists []|].
  specialize (IH) as IH'. intros Hrun. unfold besides. cbn [List.filter fst].
  assert (∀ sel, select_history w c l = Ok sel → ∃ why, select_history w c' (besides key l) = Ok (sel.1, why)) as Hl.
  { intros sel0. apply IH. intros d0 o Hin. apply Hno. by right. }
  destruct (String.eqb_spec name key) as [->|N]; cbn [negb]; fold (besides key l).
  - destruct (use_record w c (key, d)) as [o|e] eqn:E; [by apply Hno in E; [|left]|].
    destruct (refused e); [|done]. inv_result. destruct (Hl _ Ha) as [why Hw]. exists why. exact Hw.
  - cbn [select_history]. assert (use_record w c' (name, d) = use_record w c (name, d)) as ->.
    { unfold use_record. rewrite (bool_decide_ext (name ∈ c') (name ∈ c) (Hc name N)). reflexivity. }
    destruct (use_record w c (name, d)) as [o|e]; [|destruct (refused e); [|done]]; inv_result;
      destruct (Hl _ Ha) as [why ->]; eexists; reflexivity.
Qed.
(** A result that was not available before the cutoff changes nothing.  When every
    record of a race says that its result became available at the cutoff or later, the
    form of the riders and its provenance are those built without that race. *)
Theorem form_ignores_late_results d history window_days rep key cutoff :
  build (VDict d) (VList history) window_days = Ok rep →
  timestamp (get_or_none "feature_as_of" d) = Ok cutoff →
  (∀ past, VDict past ∈ history → named (VDict past) = Some key →
     ∃ available, timestamp (get_or_none "result_available_at" past) = Ok available ∧ cutoff ≤ available) →
  ∃ rep', build (VDict d) (VList (List.filter (other key) history)) window_days = Ok rep' ∧
    forms rep' = forms rep ∧ provenance rep' = provenance rep.
Proof.
  intros (d' & days & w & entrants & sel & sha & [= <-] & -> & Hd & Hid & Hc & Hsha & Hsel & ->)%build_inv Hcut Hlate.
  destruct (gather_history_other key history) as [Hr Hk].
  eapply (select_besides _ _ _ key) in Hsel as [why Hsel]; [|exact Hk|].
  - unfold build. rewrite (proj2 (Z.leb_gt _ _) Hd). unfold _text. rewrite Hid. cbn [reject_if negb mbind result_bind].
    rewrite Hc. cbn [mbind result_bind]. rewrite Hr, Hsel. cbn [mbind result_bind]. rewrite Hsha. cbn. by eexists.
  - intros past o [Hin Hname]%gather_history_in (_ & E & _ & Hb)%use_record_ok. subst past.
    destruct (Hlate _ Hin Hname) as (av & Hav & Hge). destruct (bc_available _ _ Hb) as (av' & Hav' & _ & Hlt).
    apply check_target_ok in Hc as (_ & _ & Hcut' & _). rewrite Hav in Hav'. rewrite Hcut in Hcut'.
    injection Hav' as ->. injection Hcut' as ->. lia.
Qed.
End facts.

(** ** Examples *)
#[local] Existing Instance decimal_readers.
#[local] Existing Instance decimal_laws.
Definition example_rider (car : Z) (status : string) (rank : pyval) : pyval :=
  VDict [("car_number", VInt car); ("rider_id", VStr ("jka:" ++ z_str car)); ("status", VStr status); ("finish_rank", rank)].
(** A past race in which the third rider started and did not finish. *)
Definition example_past (race began known : string) : pyval :=
  VDict [("race_id", VStr race); ("race_status", VStr "completed"); ("result_time_evidence", VStr "a");
    ("identity_evidence", VStr "b"); ("source_use_evidence", VStr "c"); ("race_start_at", VStr began);
    ("result_available_at", VStr known);
    ("participants", VList [example_rider 1 "FINISHED" (VInt 2); example_rider 2 "FINISHED" (VInt 1);
                            example_rider 3 "DNF" VNone])].
Definition example_target : pydict :=
  [("race_id", VStr "target"); ("identity_evidence", VStr "a"); ("entry_time_evidence", VStr "b");
   ("feature_as_of", VStr "1000"); ("listed_scheduled_start_jst", VStr "2000");
   ("riders", VList (map (λ c, VDict [("car_number", VInt c); ("rider_id", VStr ("jka:" ++ z_str c))]) [1; 2; 3]))].
Definition example_history : list pyval :=
  [example_past "r1" "100" "200"; example_past "r2" "300" "1500"; example_past "r1" "100" "200"; VNone].
Definition example_form : result report := build (VDict example_target) (VList example_history) (VInt 120).
Definition forms_of (r : result report) : list form := match r with Ok rep => forms rep | Err _ => [] end.
Example example_form_rows : map (λ f, (starts f, finishes f, history_races f)) (forms_of example_form) =
  [(1, 1, ["r1"]); (1, 1, ["r1"]); (1, 0, ["r1"])]%nat.
Proof. vm_compute. reflexivity. Qed.
Lemma example_form_run : ∃ rep f, example_form = Ok rep ∧ f ∈ forms rep ∧ history_races f = ["r1"].
Proof.
  pose proof example_form_rows as Hr. destruct example_form as [rep|e]; [|discriminate Hr]. cbn [forms_of] in Hr.
  destruct (forms rep) as [|f l] eqn:E; [discriminate Hr|]. exists rep, f. injection Hr as _ _ Hh _. rewrite E. split_and!; [done|left|done].
Qed.
Lemma form_no_look_ahead_witness : ∃ rep f, example_form = Ok rep ∧ f ∈ forms rep ∧ "r1" ∈ history_races f ∧
  ∃ d past began available cutoff scheduled participant,
    VDict example_target = VDict d ∧ VDict past ∈ example_history ∧ named (VDict past) = Some "r1" ∧
    VStr "r1" ≠ get_or_none "race_id" d ∧
    get_or_none "race_status" past = VStr "completed" ∧
    timestamp (get_or_none "race_start_at" past) = Ok began ∧
    timestamp (get_or_none "result_available_at" past) = Ok available ∧
    timestamp (get_or_none "feature_as_of" d) = Ok cutoff ∧
    timestamp (get_or_none "listed_scheduled_start_jst" d) = Ok scheduled ∧
    began ≤ available < cutoff ∧ cutoff < scheduled ∧
    participant ∈ dicts (get_or_none "participants" past) ∧
    py_eqb (get_or_none "rider_id" participant) (rider f) = true ∧
    is_text (get_or_none "status" participant) "DNS" = false.
Proof.
  destruct example_form_run as (rep & f & Hrep & Hf & Hh). exists rep, f. split; [exact Hrep|]. split; [exact Hf|].
  assert ("r1" ∈ history_races f) as Hid by (rewrite Hh; left). split; [exact Hid|].
  exact (form_no_look_ahead _ _ _ rep f "r1" Hrep Hf Hid).
Defined.
Lemma form_rates_bounded_witness : ∃ rep f, example_form = Ok rep ∧ f ∈ forms rep ∧ bounded_form f.
Proof.
  destruct example_form_run as (rep & f & Hrep & Hf & _). exists rep, f. split; [exact Hrep|]. split; [exact Hf|].
  exact (form_rates_bounded _ _ _ rep f Hrep Hf).
Defined.
Lemma form_ignores_late_results_witness : ∃ rep rep', example_form = Ok rep ∧
  build (VDict example_target) (VList (List.filter (other "r2") example_history)) (VInt 120) = Ok rep' ∧
  forms rep' = forms rep ∧ provenance rep' = provenance rep.
Proof.
  destruct example_form_run as (rep & f & Hrep & _). exists rep.
  destruct (form_ignores_late_results example_target example_history (VInt 120) rep "r2" 1000 Hrep) as (rep' & ? & ?).
  - vm_compute. reflexivity.
  - intros past Hin Hname. exists 1500. unfold example_history in Hin.
    apply elem_of_cons in Hin as [E|Hin]; [rewrite E in Hname; discriminate Hname|].
    apply elem_of_cons in Hin as [E|Hin]; [unfold example_past in E; injection E as ->; split; [vm_compute; reflexivity|lia]|].
    apply elem_of_cons in Hin as [E|Hin]; [rewrite E in Hname; discriminate Hname|].
    apply elem_of_cons in Hin as [E|Hin]; [discriminate E|]. destruct (not_elem_of_nil _ Hin).
  - exists rep'. split; [exact Hrep|]. split; assumption.
Defined.
