(* ===== verification/Settle.v ===== *)
(** ml/settle_snapshot.py: a prospective history record from a saved prediction and a
    confirmed result.

    Documents are values: a deep copy is the value itself.  The table of odds is a
    dictionary and the ignored combinations are texts. *)
From Stdlib Require Import Ascii SpecFloat.
From S2P Require Import Prelude PyString PyValue PyText PyFloat Itertools Dataset Evaluation.

Definition ENGINE_VERSION : string := "phase32-hit-priority-all210-v1".
Definition OUTPUT_SCHEMA : string := "backtest-record-v2".
Definition CATEGORIES : list string := ["hit_priority"; "balance"; "middle"; "longshot"; "super_longshot"].

(** ** The source pattern *)
(** The characters that match a letter of the pattern regardless of case; [K] and [s]
    have another one each (the Kelvin sign and the long s). *)
Definition folds_to (letter c : string) : bool :=
  String.eqb (lower letter) (lower c)
  || (String.eqb letter "K" && String.eqb c (of_bytes [226; 132; 170]))
  || (String.eqb letter "s" && String.eqb c (of_bytes [197; 191])).
(** The text starts with the letters; what follows them. *)
Fixpoint after_letters (letters text : list string) : option (list string) :=
  match letters, text with
  | [], _ => Some text
  | l :: letters', c :: text' => if folds_to l c then after_letters letters' text' else None
  | _, [] => None
  end.
Definition starts_with (s : string) (text : list string) : bool :=
  match after_letters (characters s) text with Some _ => true | None => false end.
(** [K[-\s]?Dreams|Kドリームス|ケイドリームス] at the start of the text *)
Definition kdreams_here (text : list string) : bool :=
  match text with
  | k :: sep :: rest =>
      folds_to "K" k && ((String.eqb sep "-" || is_white sep) && starts_with "Dreams" rest
                         || starts_with "Dreams" (sep :: rest))
  | _ => false
  end || starts_with "Kドリームス" text || starts_with "ケイドリームス" text.
Fixpoint kdreams_in (text : list string) : bool :=
  kdreams_here text || match text with [] => false | _ :: text' => kdreams_in text' end.
(** [bool(KDREAMS_RE.search(source))] *)
Definition KDREAMS_RE (source : string) : bool := kdreams_in (characters source).

Section settle.
Context `{Readers}.

Definition _iso (value : pyval) (name : string) : result datetime :=
  match value with
  | VStr s =>
      reject_if (negb (truthy_s s)) ValueError (name ++ "_missing");;
      match read_time s with
      | Ok parsed => reject_if (negb (zoned parsed)) ValueError (name ++ "_timezone_missing");; Ok parsed
      | Err e => if isinstance e ValueError then raise ValueError (name ++ "_invalid") else Err e
      end
  | _ => raise ValueError (name ++ "_missing")
  end.

(** [\d+] *)
Definition digits_text (s : string) : bool := truthy_s s && forallb decimal_digit (characters s).
Definition _combo (value : pyval) : bool :=
  match value with
  | VStr s =>
      let parts := split_on "-" s in
      ((length parts =? 3)%nat && forallb digits_text parts) (* COMBO_RE *) && bool_decide (NoDup parts)
  | _ => false
  end.

(** The body of the loop: [None] is [return False]. *)
Definition table_row (expected : list string) (seen : pydict) (row : pyval) : result (option pydict) :=
  match row with
  | VDict d =>
      known ← in_str_set (get_or_none "combo_key" d) expected;
      match get_or_none "combo_key" d, get_or_none "estimated_probability" d with
      | VStr key, VBool _ => Ok None
      | VStr key, raw =>
          if dict_has key seen || negb known then Ok None else
          match py_float raw with
          | Ok p => Ok (if is_probability p then Some (dict_set key (VFloat p) seen) else None)
          | Err e => if isinstance e TypeError || isinstance e ValueError then Ok None else Err e
          end
      | _, _ => Ok None
      end
  | _ => Ok None
  end.
Fixpoint table_rows (expected : list string) (seen : pydict) (l : list pyval) : result (option pydict) :=
  match l with
  | [] => Ok (Some seen)
  | row :: l' =>
      s ← table_row expected seen row;
      match s with Some seen' => table_rows expected seen' l' | None => Ok None end
  end.
Definition _full_probability_table (scores : pyval) (cars : list Z) : result bool :=
  let expected := combinations cars in
  match scores with
  | VList l =>
      if negb (length l =? length (remove_dups expected))%nat then Ok false else
      s ← table_rows expected [] l;
      Ok match s with Some seen => negb (mass_is_off (float_sum (floats seen))) | None => false end
  | _ => Ok false
  end.

Definition entry (k : string) (v : pyval) : pyval := match v with VDict d => get_or_none k d | _ => VNone end.
(** The picks of one category. *)
Definition picks_valid (allowed : list string) (block : pyval) : bool :=
  match entry "picks" block with
  | VList picks =>
      let keys := map (entry "combo_key") (List.filter is_dict picks) in
      (length picks <=? 3)%nat && (length keys =? length picks)%nat
      && forallb (λ x, _combo x && in_strs x allowed) keys
      && bool_decide (NoDup (map py_str keys))
  | _ => false
  end.
Definition _categories_valid (selected : pyval) (cars : list Z) : bool :=
  let categories := entry "categories" selected in
  is_dict categories && forallb (λ key, picks_valid (combinations cars) (entry key categories)) CATEGORIES.

Definition _snapshot_times (snapshot : pyval) : result (datetime * datetime) :=
  eligibility ← get_dict snapshot "snapshot_eligibility";
  c ← get snapshot "captured_at"; captured ← _iso c "captured_at";
  s ← get eligibility "scheduled_start"; scheduled ← _iso s "scheduled_start";
  reject_if (instant scheduled <=? instant captured) ValueError "snapshot_capture_not_before_scheduled_start";;
  race_data ← get_dict snapshot "race_data";
  race ← get_dict race_data "race";
  raw ← get race "scheduled_start_jst";
  (if is_none raw then Ok tt
   else race_scheduled ← _iso raw "race_scheduled_start";
        reject_if (negb (instant race_scheduled =? instant scheduled)) ValueError "scheduled_start_mismatch");;
  Ok (captured, scheduled).

(** [require_standard_conditions] of the conditions a dictionary declares *)
Definition check_conditions (race_data : pyval) : result unit :=
  match race_data with VDict d => declared_conditions d | _ => raise TypeError "argument is not iterable" end.
(** [type(car) is int and 1 <= car <= n] *)
Definition car_in (n : nat) (v : pyval) : bool :=
  match v with VInt z => (1 <=? z) && (z <=? Z.of_nat n) | _ => false end.
Definition int_of (v : pyval) : Z := match v with VInt z => z | _ => 0 end.
(** The car numbers of the riders. *)
Definition car_numbers (players : pyval) : result (list Z) :=
  match players with
  | VList l =>
      reject_if (negb ((length l =? 7) || (length l =? 9))%nat) ValueError "seven_or_nine_riders_required";;
      let cars := map (entry "car_number") (List.filter is_dict l) in
      reject_if (negb (length cars =? length l)%nat || negb (forallb (car_in (length l)) cars)
                 || negb (length (remove_dups (map int_of cars)) =? length l)%nat) ValueError "invalid_car_numbers";;
      Ok (map int_of cars)
  | _ => raise ValueError "seven_or_nine_riders_required"
  end.
(** [engine.get(k) is not b] rejects. *)
Definition require_flag (engine : pyval) (k : string) (b : bool) (msg : string) : result unit :=
  v ← get engine k; reject_if (negb (if b then is_true v else is_false v)) ValueError msg.
Definition validate_snapshot (snapshot : pyval) : result unit :=
  schema ← get snapshot "schema_version";
  reject_if (negb (is_text schema "prediction-snapshot-v1")) ValueError "snapshot_schema_mismatch";;
  mode ← get snapshot "validation_mode";
  reject_if (negb (is_text mode "prospective-only")) ValueError "snapshot_not_prospective_only";;
  eligibility ← get_dict snapshot "snapshot_eligibility";
  require_flag eligibility "prospective" true "snapshot_not_prospective";;
  require_flag eligibility "prestart_confirmed" true "snapshot_not_prospective";;
  _snapshot_times snapshot;;
  race_data ← get_dict snapshot "race_data";
  check_conditions race_data;;
  players ← get race_data "players";
  cars ← car_numbers players;
  engine ← get_dict snapshot "engine_response";
  require_flag engine "success" true "engine_response_unsuccessful";;
  require_flag engine "saved" false "snapshot_persistence_not_off";;
  require_flag engine "db_write_enabled" false "snapshot_persistence_not_off";;
  require_flag engine "production_prediction_enabled" false "production_prediction_must_be_off";;
  architecture ← get_dict engine "architecture";
  version ← get architecture "engine"; candidate ← get engine "engine_candidate";
  reject_if (negb (is_text (py_or version candidate) ENGINE_VERSION)) ValueError "engine_version_mismatch";;
  prediction ← get_dict engine "prediction";
  scores ← get prediction "trifecta_scores";
  full ← _full_probability_table scores cars;
  reject_if (negb full) ValueError "full_probability_table_invalid";;
  selected ← get prediction "selected_predictions";
  reject_if (negb (_categories_valid selected cars)) ValueError "selected_categories_invalid".

(** ** The training input *)
(** The entries of the odds that are kept, and the keys removed. *)
Fixpoint sanitize (ignored : list string) (kdreams : bool) (raw : pydict) : result (pydict * list string) :=
  match raw with
  | [] => Ok ([], [])
  | (key, v) :: raw' =>
      drop ← (if bool_decide (key ∈ ignored) then Ok true
              else if kdreams then f ← py_float v; Ok (SFeqb f no_ticket) else Ok false);
      rest ← sanitize ignored kdreams raw';
      Ok (if drop : bool then (rest.1, key :: rest.2) else ((key, v) :: rest.1, rest.2))
  end.
Definition text_item (v : pyval) : result string :=
  match v with VStr s => Ok s | _ => raise TypeError "not a text" end.
Definition build_training_input (snapshot : pyval) (evaluation_scope : string) : result pydict :=
  race_data ← getitem snapshot "race_data";
  check_conditions race_data;;
  engine ← getitem snapshot "engine_response";
  race ← get_dict race_data "race";
  p ← get race_data "players"; let players := py_or p (VList []) in
  context ← get race_data "prediction_context";
  odds ← get_dict race_data "odds"; t ← get_dict odds "trifecta";
  raw ← match t with VDict d => Ok d | _ => raise TypeError "not a dictionary" end;
  sanitization ← get_dict engine "odds_sanitization";
  i ← get sanitization "ignored_combos"; items ← iter_text (py_or i (VList [])); ignored ← mapR text_item items;
  let source := match context with
                | VDict d => py_str (py_or (get_or_none "source" d) (VStr ""))
                | _ => ""
                end in
  let kdreams := KDREAMS_RE source in
  kept ← sanitize ignored kdreams raw;
  captured ← getitem snapshot "captured_at";
  policy ← get sanitization "policy";
  matched ← py_get sanitization "source_matched";
  Ok ([("schema_version", VStr TRAINING_SCHEMA); ("captured_at", captured); ("race", race); ("players", players)]
      ++ match race_data with
         | VDict d => match dict_get "race_conditions" d with Some c => [("race_conditions", c)] | None => [] end
         | _ => []
         end
      ++ [("odds", VDict [("trifecta", VDict kept.1)]); ("prediction_context", context);
          ("odds_sanitization", VDict [("policy", py_or policy (VStr "snapshot_safety_filter"));
             ("source_matched", default (VBool kdreams) matched);
             ("removed_combos", VList (map VStr (sorted (remove_dups (ignored ++ kept.2)))))]);
          ("evaluation_scope", VStr evaluation_scope)]).

(** ** The record *)
Definition score_entry (row : pyval) : result pyval :=
  key ← getitem row "combo_key";
  raw ← getitem row "estimated_probability"; p ← py_float raw;
  odds ← get row "odds";
  Ok (VDict [("combo_key", key); ("estimated_probability", VFloat p); ("odds", odds)]).
(** [engine.get(k) or (prediction.get("selected_predictions") or {}).get(k)] *)
Definition declared (engine prediction : pyval) (use : pyval → bool) (k : string) : result pyval :=
  v ← get engine k;
  if use v then Ok v else selected ← get_dict prediction "selected_predictions"; get selected k.
Definition engine_version (engine : pyval) : result pyval :=
  candidate ← get engine "engine_candidate";
  if truthy candidate then Ok candidate else architecture ← get_dict engine "architecture"; get architecture "engine".
Definition source_snapshot (snapshot engine prediction : pyval) : result pydict :=
  schema ← get snapshot "schema_version";
  mode ← py_get snapshot "validation_mode";
  eligibility ← get snapshot "snapshot_eligibility";
  captured ← getitem snapshot "captured_at";
  service ← get engine "service_version";
  version ← engine_version engine;
  calibration ← declared engine prediction truthy "probability_calibration_status";
  ev ← declared engine prediction (λ v, negb (is_none v)) "monetary_ev_enabled";
  ranking ← declared engine prediction truthy "odds_band_ranking";
  sanitization ← get engine "odds_sanitization";
  Ok [("schema_version", schema); ("validation_mode", default (VStr "legacy") mode);
      ("snapshot_eligibility", eligibility); ("captured_at", captured); ("engine_service_version", service);
      ("engine_version", version); ("probability_calibration_status", calibration); ("monetary_ev_enabled", ev);
      ("odds_band_ranking", ranking); ("odds_sanitization", sanitization); ("evaluation_scope", VStr "prospective")].
(** [race.get(k, k')] in the text of an f-string *)
Definition part (race : pyval) (k k' : string) : result string :=
  v ← py_get race k; Ok (py_str (default (VStr k') v)).

Definition build_history_record (snapshot outcome_combo settlement_odds result_timestamp : pyval) : result pydict :=
  validate_snapshot snapshot;;
  reject_if (negb (_combo outcome_combo)) ValueError "outcome_combo_invalid";;
  odds ← py_float settlement_odds;
  reject_if (negb (float_is_finite odds && positive odds)) ValueError "settlement_odds_invalid";;
  times ← _snapshot_times snapshot;
  let '(captured, scheduled) := times in
  result_time ← _iso result_timestamp "result_timestamp";
  reject_if (instant result_time <=? instant captured) ValueError "prediction_must_precede_result_confirmation";;
  reject_if (instant result_time <? instant scheduled) ValueError "result_confirmation_before_scheduled_start";;
  race_data ← getitem snapshot "race_data";
  race ← get_dict race_data "race";
  p ← get race_data "players"; players ← iter_text (py_or p (VList []));
  cars ← mapR (λ player, c ← getitem player "car_number"; int_value c) players;
  outcome_cars ← mapR read_int (split_on "-" (py_str outcome_combo));
  reject_if (negb (forallb (λ c, bool_decide (c ∈ cars)) outcome_cars)) ValueError "outcome_not_in_riders";;
  engine ← getitem snapshot "engine_response";
  prediction ← getitem engine "prediction";
  rows ← getitem prediction "trifecta_scores";
  items ← iter_text rows;
  scores ← mapR score_entry items;
  source ← source_snapshot snapshot engine prediction;
  date ← part race "date" "date"; venue ← part race "venue" "venue"; number ← part race "race_number" "R";
  training_input ← build_training_input snapshot "prospective";
  captured_at ← getitem snapshot "captured_at";
  selected ← getitem prediction "selected_predictions";
  d ← get race "date"; v ← get race "venue"; n ← get race "race_number";
  version ← engine_version engine;
  quality ← get engine "input_quality";
  q ← get_dict engine "input_quality"; coverage ← get q "trifecta_odds_coverage";
  Ok [("race_id", VStr (date ++ "-" ++ venue ++ "-" ++ number ++ "R"));
      ("prediction_timestamp", captured_at); ("outcome_combo", outcome_combo); ("settlement_odds", VFloat odds);
      ("trifecta_scores", VList scores); ("selected_predictions", selected); ("training_input", VDict training_input);
      ("metadata", VDict [("date", d); ("venue", v); ("race_number", n); ("result_timestamp", result_timestamp);
         ("result_time_status", VStr "provided"); ("engine_version", version); ("input_quality", quality);
         ("odds_coverage", coverage); ("source_snapshot", VDict source); ("evaluation_scope", VStr "prospective");
         ("temporal_order", VStr "prediction_before_result");
         ("training_eligibility", VDict [("supervised_training", VBool true);
            ("reason", VStr "eligible_prospective_pre_result_snapshot")]);
         ("prepared_by", VStr "offline-settle-snapshot-v1"); ("schema_version", VStr OUTPUT_SCHEMA)])].
End settle.
