(* ===== verification/SettleFacts.v ===== *)
(** A record that settling accepts is one that training accepts, unless the outcome is
    written with leading zeros or the prediction has no context. *)
From Stdlib Require Import Ascii SpecFloat.
From S2P Require Import Prelude PyString PyValue PyText PyFloat Itertools Dataset DatasetFacts Evaluation PrepareFacts Settle.

Section facts.
Context `{!Readers} `{!ReaderLaws}.

(** ** Times *)
Lemma iso_aware v name d : _iso v name = Ok d →
  ∃ s t, v = VStr s ∧ read_time s = Ok d ∧ zoned d = true ∧ posix d = Ok t ∧ _aware_time v = Ok (Some t).
Proof.
  unfold _iso, _aware_time. destruct v; try done. intros Hrun. inv_result.
  destruct (read_time s) as [p|e] eqn:E; [|by destruct (isinstance _ _)]. inv_result.
  match goal with H : truthy_s s = true |- _ => rewrite H end.
  match goal with H : zoned ?p = true |- _ => rewrite H; destruct (zoned_posix_Ok _ _ E H) as [t Ht] end.
  rewrite Ht. exists s, t. done.
Qed.
(** Two times of a snapshot, as the records compare them. *)
Lemma iso_order v v' n n' d d' t t' : _iso v n = Ok d → _iso v' n' = Ok d' →
  _aware_time v = Ok (Some t) → _aware_time v' = Ok (Some t') →
  (instant d ≤ instant d' → t ≤ t') ∧ (near (instant d) → near (instant d') → instant d < instant d' → t < t').
Proof.
  intros (s & u & -> & Hr & Hz & Hp & Ha)%iso_aware (s' & u' & -> & Hr' & Hz' & Hp' & Ha')%iso_aware.
  rewrite Ha, Ha'. intros [= <-] [= <-]. split.
  - by eapply posix_order.
  - by eapply posix_strict.
Qed.

Lemma snapshot_times_ok snapshot captured scheduled : _snapshot_times snapshot = Ok (captured, scheduled) →
  _iso (field "captured_at" snapshot) "captured_at" = Ok captured ∧
  _iso (field "scheduled_start" (field "snapshot_eligibility" snapshot)) "scheduled_start" = Ok scheduled ∧
  instant captured < instant scheduled ∧
  let raw := field "scheduled_start_jst" (field "race" (field "race_data" snapshot)) in
  (raw = VNone ∨ ∃ d, _iso raw "race_scheduled_start" = Ok d ∧ instant d = instant scheduled).
Proof.
  unfold _snapshot_times. intros Hrun. inv_reads.
  repeat match goal with H : get_dict _ _ = Ok _ |- _ => apply get_dict_Ok in H as (H & _ & _) end.
  repeat match goal with H : ∀ k, field k _ = _ |- _ => rewrite H in *; clear H end.
  match goal with H : (_ <=? _) = false |- _ => apply Z.leb_gt in H end. split_and!; [done|done|done|].
  destruct (is_none (field "scheduled_start_jst" _)) eqn:En; [left; by destruct (field "scheduled_start_jst" _)|right].
  inv_result. match goal with H : (_ =? _) = true |- _ => apply Z.eqb_eq in H end. eauto.
Qed.

(** ** The parts of a record *)
Record input_of (snapshot : pyval) (input : pydict) : Prop := {
  in_schema : get_or_none "schema_version" input = VStr TRAINING_SCHEMA;
  in_scope : get_or_none "evaluation_scope" input = VStr "prospective";
  in_captured : get_or_none "captured_at" input = field "captured_at" snapshot;
  in_race : is_dict (get_or_none "race" input) = true ∧
    field "scheduled_start_jst" (get_or_none "race" input) =
    field "scheduled_start_jst" (field "race" (field "race_data" snapshot));
  in_players : get_or_none "players" input = py_or (field "players" (field "race_data" snapshot)) (VList []);
  in_context : dict_get "prediction_context" input = Some (field "prediction_context" (field "race_data" snapshot));
  in_conditions : declared_conditions input = Ok tt }.
Lemma training_input_ok snapshot input : build_training_input snapshot "prospective" = Ok input →
  (∀ race, get_dict (field "race_data" snapshot) "race" = Ok race → is_dict race = true) → input_of snapshot input.
Proof.
  unfold build_training_input. intros Hrun Hrace. inv_result.
  match goal with H : getitem snapshot "race_data" = Ok _ |- _ => apply getitem_Ok in H as [-> _] end.
  match goal with H : get_dict _ "race" = Ok _ |- _ => pose proof (Hrace _ H); apply get_dict_Ok in H as (Hjst & _ & _) end.
  unfold check_conditions in *. destruct (field "race_data" snapshot) as [| | | | | | |rd] eqn:Erd; try done. inv_reads.
  match goal with H : declared_conditions rd = Ok ?u |- _ => destruct u; rename H into Hc end.
  destruct (dict_get "race_conditions" rd) as [c|] eqn:Ec; cbn [app];
    split; rewrite ?Erd; try done.
  - rewrite <- Hc. unfold declared_conditions. by rewrite Ec.
Qed.

(** The parts of a record that settling builds. *)
Record settled (snapshot outcome result_timestamp : pyval) (r : pydict) : Prop := {
  se_captured : get_or_none "prediction_timestamp" r = field "captured_at" snapshot;
  se_outcome : get_or_none "outcome_combo" r = outcome;
  se_input : ∃ input, get_or_none "training_input" r = VDict input ∧ input_of snapshot input;
  se_metadata : ∃ m source, get_or_none "metadata" r = VDict m ∧ get_or_none "evaluation_scope" m = VStr "prospective" ∧
    get_or_none "temporal_order" m = VStr "prediction_before_result" ∧
    get_or_none "result_timestamp" m = result_timestamp ∧
    field "supervised_training" (get_or_none "training_eligibility" m) = VBool true ∧
    is_dict (get_or_none "training_eligibility" m) = true ∧
    get_or_none "source_snapshot" m = VDict source ∧
    get_or_none "snapshot_eligibility" source = field "snapshot_eligibility" snapshot;
  se_players : ∃ players, field "players" (field "race_data" snapshot) = VList players ∧
    (length players = 7 ∨ length players = 9)%nat ∧
    ∃ cars items scores, car_numbers (VList players) = Ok cars ∧
      _full_probability_table (VList items) cars = Ok true ∧ mapR score_entry items = Ok scores ∧
      get_or_none "trifecta_scores" r = VList scores;
  se_race : ∃ text, get_or_none "race_id" r = VStr (text ++ "R");
  se_combo : _combo outcome = true;
  se_times : ∃ captured scheduled result, _snapshot_times snapshot = Ok (captured, scheduled) ∧
    _iso result_timestamp "result_timestamp" = Ok result ∧
    instant captured < instant result ∧ instant scheduled ≤ instant result }.
Lemma source_snapshot_ok snapshot engine prediction source : source_snapshot snapshot engine prediction = Ok source →
  get_or_none "snapshot_eligibility" source = field "snapshot_eligibility" snapshot.
Proof. unfold source_snapshot. intros Hrun. inv_reads. done. Qed.
(** The riders of a valid snapshot, with a car number each, and its table of probabilities. *)
Lemma valid_players snapshot : validate_snapshot snapshot = Ok tt →
  ∃ players cars, field "players" (field "race_data" snapshot) = VList players ∧
    (length players = 7 ∨ length players = 9)%nat ∧ car_numbers (VList players) = Ok cars ∧
    _full_probability_table (field "trifecta_scores" (field "prediction" (field "engine_response" snapshot))) cars = Ok true.
Proof.
  unfold validate_snapshot. intros Hrun. inv_reads.
  repeat match goal with H : get_dict _ _ = Ok _ |- _ => apply get_dict_Ok in H as (H & _ & _) end.
  repeat match goal with H : ∀ k, field k _ = _ |- _ => rewrite H in *; clear H end.
  match goal with H : car_numbers _ = Ok _ |- _ => pose proof H as Hcars end.
  destruct (field "players" (field "race_data" snapshot)) as [| | | | |l| |]; try done.
  match type of Hcars with _ = Ok ?cars => exists l, cars end. split_and!; [done| |done|done]. unfold car_numbers in Hcars. inv_result.
  match goal with H : (_ || _) = true |- _ => rewrite orb_true_iff, !Nat.eqb_eq in H; exact H end.
Qed.
Lemma history_record_ok snapshot outcome odds result_timestamp r :
  build_history_record snapshot outcome odds result_timestamp = Ok r → settled snapshot outcome result_timestamp r.
Proof.
  unfold build_history_record. intros Hrun. inv_result.
  match goal with H : (let '(_, _) := ?t in _) = Ok _ |- _ => destruct t as [captured scheduled] end. inv_result.
  match goal with H : validate_snapshot _ = Ok ?u |- _ => destruct u; apply valid_players in H as (players & cars & Hp & Hlen & Hcars & Htable) end.
  match goal with H : source_snapshot _ _ _ = Ok _ |- _ => apply source_snapshot_ok in H end.
  match goal with H : getitem snapshot "race_data" = Ok _ |- _ => apply getitem_Ok in H as [-> _] end.
  match goal with H : getitem snapshot "captured_at" = Ok _ |- _ => apply getitem_Ok in H as [-> _] end.
  match goal with H : get ?race "date" = Ok _, H' : get_dict _ "race" = Ok ?race |- _ =>
    apply get_Ok in H as [_ Hrace]; rename H' into Hdict end.
  match goal with H : build_training_input _ _ = Ok _ |- _ => apply training_input_ok in H end.
  2: { intros race Hr. by rewrite Hdict in Hr; injection Hr as <-. }
  match goal with H : (_ <=? _) = false |- _ => apply Z.leb_gt in H end.
  match goal with H : (_ <? _) = false |- _ => apply Z.ltb_ge in H end.
  inv_reads. destruct (field "trifecta_scores" _) as [| | | | |items| |] eqn:Eitems; try done.
  match goal with H : iter_text (VList items) = Ok _ |- _ => injection H as <- end.
  split; try done; [by eexists| | | |by eexists _, _, _].
  - eexists _, _. by split_and!.
  - exists players. split_and!; [done|done|]. by eexists cars, items, _.
  - match goal with |- context [VStr (?a ++ "-" ++ ?b ++ "-" ++ ?c ++ "R")%string] =>
      exists (a ++ "-" ++ b ++ "-" ++ c)%string end.
    unfold get_or_none. cbn [dict_get String.eqb Ascii.eqb Bool.eqb default from_option id]. f_equal.
    apply chars_inj. by rewrite !chars_app, <- !(assoc_L (++)).
Qed.

(** Reading a dictionary. *)
Lemma or_dict_identity d : py_or (VDict d) (VDict []) = VDict d.
Proof. by destruct d. Qed.
Lemma get_dict_dict d k e : get_or_none k d = VDict e → get_dict (VDict d) k = Ok (VDict e).
Proof. intros E. unfold get_dict, get. cbn. unfold get_or_none in E. rewrite E. cbn. by rewrite or_dict_identity. Qed.
Lemma get_entry d k v : get_or_none k d = v → get (VDict d) k = Ok v.
Proof. by intros <-. Qed.
Lemma getitem_entry d k v : get_or_none k d = VDict v → getitem (VDict d) k = Ok (VDict v).
Proof. unfold getitem, get_or_none. destruct (dict_get k d); [|done]. cbn. by intros ->. Qed.
Lemma getitem_list d k l : field k (VDict d) = VList l → getitem (VDict d) k = Ok (VList l).
Proof. unfold getitem. cbn. unfold get_or_none. destruct (dict_get k d); [|done]. cbn. by intros ->. Qed.
(** What has an entry is a dictionary. *)
Lemma field_dict k v s : field k v = VStr s → ∃ d, v = VDict d.
Proof. destruct v; try done. eauto. Qed.

(** Rewrite the next read and go on. *)
Ltac read E := rewrite E; cbn [mbind result_bind].

Lemma settled_schedule snapshot outcome result_timestamp r input : settled snapshot outcome result_timestamp r →
  get_or_none "training_input" r = VDict input →
  (∀ captured scheduled, _snapshot_times snapshot = Ok (captured, scheduled) →
     near (instant captured) ∧ near (instant scheduled)) →
  _schedule_order (VDict r) (VDict input) = Ok (true, "schedule_order_valid") ∧ schedule_respected (VDict r).
Proof.
  intros [Hcap _ (input' & Hin' & Hi) (m & source & Hm & _ & _ & Hres & _ & _ & Hsrc & Hel)
    _ _ _ (captured & scheduled & settled & Htimes & Hiso & Hlt & Hle)] Hin Hnear.
  rewrite Hin in Hin'. injection Hin' as <-.
  destruct (Hnear _ _ Htimes) as [Hn1 Hn2]. apply snapshot_times_ok in Htimes as (Hc & Hs & Hcs & Hrace).
  destruct (iso_aware _ _ _ Hc) as (sc & tc & _ & _ & _ & _ & Hac).
  destruct (iso_aware _ _ _ Hs) as (ss & ts & Ess & _ & _ & _ & Has).
  destruct (iso_aware _ _ _ Hiso) as (sr & tr & _ & _ & _ & _ & Har).
  assert (tc < ts) as H1 by by apply (iso_order _ _ _ _ _ _ _ _ Hc Hs Hac Has).
  assert (ts ≤ tr) as H2 by by apply (iso_order _ _ _ _ _ _ _ _ Hs Hiso Has Har).
  destruct (field_dict _ _ _ Ess) as [e He]. pose proof Has as Has0. rewrite He in Has, Ess, Hel. cbn [field] in Ess, Has.
  split.
  - unfold _schedule_order. read (get_dict_dict _ _ _ Hm). read (get_dict_dict _ _ _ Hsrc). read (get_dict_dict _ _ _ Hel).
    read (get_entry e _ _ Ess). cbn [is_none]. read (get_entry r _ _ Hcap). read Hac.
    read (get_entry input _ _ (in_captured _ _ Hi)). read Hac. read (get_entry m _ _ Hres). read Har.
    rewrite <- Ess. read Has.
    rewrite (proj2 (Z.eqb_eq tc tc)), (proj2 (Z.ltb_lt tc ts)), (proj2 (Z.leb_le ts tr)) by done. cbn [negb andb orb].
    destruct (in_race _ _ Hi) as [Hd Hjst]. destruct (get_or_none "race" input) as [| | | | | | |race] eqn:Er; try done.
    rewrite (get_dict_dict _ _ _ Er). cbn [mbind result_bind]. rewrite (get_entry race _ _ Hjst). cbn [mbind result_bind].
    destruct Hrace as [-> | (d & Hd' & Ed)]; [done|].
    destruct (iso_aware _ _ _ Hd') as (sd & td & Esd & _ & _ & _ & Had). rewrite Had, Esd. cbn.
    assert (td = ts) as ->; [|by rewrite Z.eqb_refl].
    rewrite Esd in Had. rewrite Esd in Hd'.
    pose proof (proj1 (iso_order _ _ _ _ _ _ _ _ Hd' Hs Had Has0)).
    pose proof (proj1 (iso_order _ _ _ _ _ _ _ _ Hs Hd' Has0 Had)). lia.
  - exists tc, ts, tr. unfold aware, scheduled_start, metadata, training_input. cbn [field].
    rewrite Hcap, Hm, Hin. cbn [field]. rewrite Hsrc. cbn [field]. rewrite Hel, Hres, (in_captured _ _ Hi). cbn [field].
    split_and!; done || lia.
Qed.

(** What settling builds, training accepts.  A record built from a snapshot and a
    result is eligible for supervised training, its schedule included: the prediction
    precedes the start, and the start the result. *)
Lemma settled_eligible snapshot outcome odds result_timestamp r :
  build_history_record snapshot outcome odds result_timestamp = Ok r →
  (∀ captured scheduled, _snapshot_times snapshot = Ok (captured, scheduled) →
     near (instant captured) ∧ near (instant scheduled)) →
  supervised_eligibility (VDict r) = Ok (true, "eligible") ∧ schedule_respected (VDict r).
Proof.
  intros Hr%history_record_ok Hnear. pose proof (se_input _ _ _ _ Hr) as (input & Hin & Hi).
  destruct (settled_schedule _ _ _ _ _ Hr Hin Hnear) as [Hsch Hresp]. split; [|done].
  destruct Hr as [_ Hout _ (m & source & Hm & Hscope & Horder & _ & Hmark & Htrain & _ & _) (players & Hp & Hlen & _) _ Hcombo _].
  destruct (get_or_none "training_eligibility" m) as [| | | | | | |marks] eqn:Emarks; try done. cbn [field] in Hmark.
  unfold supervised_eligibility. read (get_dict_dict _ _ _ Hm). read (get_dict_dict _ _ _ Emarks). read (get_entry r _ _ Hin).
  read (get_entry m _ _ Hscope). read (get_entry m _ _ Horder). read (get_entry marks _ _ Hmark).
  rewrite (in_conditions _ _ Hi), (in_schema _ _ Hi), (in_scope _ _ Hi), (in_players _ _ Hi), Hp.
  cbn [is_text py_eqb is_true negb String.eqb Ascii.eqb Bool.eqb refuse]. read Hsch. cbn [fst snd negb refuse].
  rewrite String.eqb_refl. cbn [negb refuse]. destruct players as [|p players]; [by destruct Hlen|]. cbn [py_or truthy].
  rewrite (proj2 (Nat.ltb_ge _ 4)) by lia. cbn [refuse]. read (get_entry r _ _ Hout).
  unfold _combo in Hcombo. destruct outcome; try done. apply andb_true_iff in Hcombo as [[Hc _]%andb_true_iff _].
  by rewrite Hc.
Qed.

(** A prediction without a context is lost.  [build_training_input] keeps the
    missing context as an explicit [None], which [prepare] reads as a dictionary: the
    settled record, although eligible, is excluded as malformed. *)
Theorem missing_context_excluded synthetic snapshot outcome odds result_timestamp r :
  build_history_record snapshot outcome odds result_timestamp = Ok r →
  (∀ captured scheduled, _snapshot_times snapshot = Ok (captured, scheduled) →
     near (instant captured) ∧ near (instant scheduled)) →
  field "prediction_context" (field "race_data" snapshot) = VNone →
  ∃ quality, prepare synthetic [VDict r] = Ok ([], quality) ∧
    dict_get "excluded" quality = Some (VDict [("malformed_record", VInt 1)]).
Proof.
  intros Hrun Hnear Hnone. assert (supervised_eligibility (VDict r) = Ok (true, "eligible")) as Hel by by eapply settled_eligible.
  apply history_record_ok in Hrun. destruct (se_input _ _ _ _ Hrun) as (input & Hin & Hi).
  assert (candidate_of synthetic (VDict r) = Err (Exn AttributeError "get")) as Hc.
  { unfold candidate_of. read Hel. cbn [negb fst snd reject_if mbind result_bind]. read (getitem_entry r _ _ Hin).
    cbn [py_get mbind result_bind]. by rewrite (in_context _ _ Hi), Hnone. }
  eexists. unfold prepare, check_record. cbn [foldR]. rewrite Hc. split; [by vm_compute|done].
Qed.

(** ** Through the whole pipeline *)
(** The table that settling validates is the one an evaluation reads. *)
Lemma table_row_again expected seen seen' row item : table_row expected seen row = Ok (Some seen') →
  score_entry row = Ok item → add_probability expected seen item = Ok seen'.
Proof.
  unfold table_row, score_entry. destruct row as [| | | | | | |d]; try done. intros Hrow Hitem. inv_result.
  inv_reads. cbn [field] in *. match goal with H : in_str_set _ _ = Ok ?b |- _ => rename H into Hin, b into known end.
  match goal with H : py_float _ = Ok ?f |- _ => rename H into Hf, f into p end.
  destruct (get_or_none "combo_key" d) as [| | | |key| | |]; try done.
  assert (dict_has key seen || negb known = false ∧ is_probability p = true ∧ seen' = dict_set key (VFloat p) seen)
    as (Hk & Hp & ->).
  { destruct (get_or_none "estimated_probability" d) as [| | | | | | |]; try done; rewrite Hf in Hrow;
      destruct (_ || _); try done; destruct (is_probability p); by inv_result. }
  unfold add_probability. cbn [getitem dict_get String.eqb Ascii.eqb Bool.eqb mbind result_bind].
  read Hin. cbn [py_float]. rewrite Hk. cbn [reject_if mbind result_bind]. by rewrite Hp.
Qed.
Lemma table_again expected seen seen' l items : table_rows expected seen l = Ok (Some seen') →
  mapR score_entry l = Ok items → foldR (add_probability expected) seen items = Ok seen'.
Proof.
  revert seen items. induction l as [|row l IH]; intros seen items; cbn [table_rows mapR]; intros Hrun Hitems; inv_result.
  - done.
  - match goal with H : table_row _ _ _ = Ok ?s |- _ => destruct s as [seen1|]; [|done] end.
    cbn [foldR]. read (table_row_again _ _ _ _ _ ltac:(eassumption) ltac:(eassumption)). by apply IH.
Qed.
Lemma settled_table items cars scores : _full_probability_table (VList items) cars = Ok true →
  mapR score_entry items = Ok scores → ∃ values, probability_table (VList scores) cars = Ok values.
Proof.
  unfold _full_probability_table, probability_table. intros Hfull Hscores. rewrite (mapR_length _ _ _ Hscores).
  destruct (negb _) in Hfull |- *; [done|]. inv_result.
  match goal with H : match ?s with _ => _ end = true |- _ => destruct s as [seen|]; [|done] end.
  cbn [reject_if mbind result_bind]. read (table_again _ _ _ _ _ ltac:(eassumption) Hscores).
  exists seen. match goal with H : negb _ = true |- _ => apply negb_true_iff in H; rewrite H end. done.
Qed.

Lemma filter_full {A} (f : A → bool) l : length (List.filter f l) = length l → List.filter f l = l.
Proof.
  induction l as [|x l IH]; [done|]. cbn. destruct (f x); cbn; intros E; [f_equal; apply IH; lia|].
  pose proof (filter_length_le f l). lia.
Qed.
(** The cars of a valid snapshot are distinct integers from one to their count. *)
Lemma car_numbers_ok players cars : car_numbers (VList players) = Ok cars →
  Forall2 (λ p z, getitem p "car_number" = Ok (VInt z) ∧ 1 ≤ z ≤ Z.of_nat (length players)) players cars ∧
  NoDup cars ∧ List.filter is_dict players = players.
Proof.
  unfold car_numbers. intros Hrun. inv_result. rewrite length_map in *.
  repeat match goal with H : (_ =? _)%nat = true |- _ => apply Nat.eqb_eq in H end.
  assert (List.filter is_dict players = players) as Hall by (by apply filter_full).
  rewrite Hall in *. split_and!; [|by apply remove_dups_full; rewrite !length_map|done].
  match goal with H : forallb _ _ = true |- _ => rename H into Hr end. clear -Hr Hall.
  generalize dependent (length players). intros n Hr. induction players as [|p players IH]; [constructor|].
  cbn [map forallb List.filter] in *. apply andb_true_iff in Hr as [Hp Hr].
  destruct (is_dict p) eqn:Ed; [|exfalso; apply (f_equal length) in Hall; pose proof (filter_length_le is_dict players); cbn in Hall; lia].
  injection Hall as Hall. constructor; [|by apply IH]. destruct p as [| | | | | | |d]; try done.
  cbn [entry] in *. unfold car_in in Hp. cbn [getitem]. unfold get_or_none in *.
  destruct (dict_get "car_number" d) as [[]|]; try done. cbn [default from_option id int_of] in *. split; [done|lia].
Qed.
Lemma rows_have_cars record race n outcome players cars rows :
  Forall2 (λ p z, getitem p "car_number" = Ok (VInt z) ∧ 1 ≤ z ≤ Z.of_nat (length players)) players cars →
  mapR (rider_row record race n outcome) players = Ok rows → map car_of rows = cars.
Proof.
  generalize (length players) as k. intros k HF Hrows%mapR_Ok. revert rows Hrows.
  induction HF as [|p z players cars [Hp _] _ IH]; intros rows Hrows; inversion Hrows as [|? row ? rows' Hrow Hrest]; subst; [done|].
  cbn. f_equal; [|by apply IH]. apply row_player in Hrow as (c & Hc & Hcar). rewrite Hp in Hc. injection Hc as <-. by injection Hcar.
Qed.

(** A text that ends in a letter is not blank. *)
Lemma split_chars_last l c : continues c = false → split_chars (l ++ [c]) = split_chars l ++ [[c]].
Proof.
  intros Hc. induction l as [|d l IH]; cbn [app split_chars]; [done|]. rewrite IH.
  destruct (split_chars l) as [|[|e es] rest]; cbn [app]; [by rewrite Hc|done|by destruct (continues e)].
Qed.
Lemma trim_left_last l c : is_white c = false → ∃ l', trim_left (l ++ [c]) = l' ++ [c].
Proof.
  intros Hc. induction l as [|d l IH]; cbn; [rewrite Hc; by exists []|]. destruct (is_white d); [done|]. by exists (d :: l).
Qed.
Lemma chars_concat l : chars (String.concat "" l) = concat (map chars l).
Proof.
  induction l as [|x l IH]; [done|]. destruct l as [|y l]; [cbn; by rewrite app_nil_r|].
  change (String.concat "" (x :: y :: l)) with (x ++ "" ++ String.concat "" (y :: l))%string.
  by rewrite !chars_app, IH.
Qed.
Lemma strip_text_not_blank text : truthy_s (strip_text (text ++ "R")) = true.
Proof.
  unfold strip_text, characters. rewrite chars_app. change (chars "R") with ["R"%char]. rewrite split_chars_last by done. rewrite map_app. cbn [map].
  destruct (trim_left_last (map of_chars (split_chars (chars text))) "R") as [l' E]; [by vm_compute|].
  change (of_chars ["R"%char]) with "R". rewrite E, rev_app_distr. cbn [rev app trim_left].
  assert (is_white "R" = false) as -> by (by vm_compute). cbn [rev]. rewrite rev_involutive.
  destruct (String.concat "" (l' ++ ["R"])) eqn:Ec; [exfalso|done]. apply (f_equal chars) in Ec.
  rewrite chars_concat, map_app, concat_app in Ec. by destruct (concat (map chars l')).
Qed.

Lemma race_id_settled r text : get_or_none "race_id" r = VStr (text ++ "R") →
  race_id_of (VDict r) = Ok (strip_text (text ++ "R")).
Proof.
  intros E. unfold race_id_of. rewrite (get_entry r _ _ E). cbn [mbind result_bind].
  unfold py_or. by destruct (truthy (VStr (text ++ "R"))) eqn:Et; [|destruct text].
Qed.
Lemma aware_timestamp v t : aware v t → timestamp v = Ok t.
Proof.
  unfold aware, _aware_time, timestamp. destruct v; try done. destruct (truthy_s s); [|done].
  destruct (read_time s) as [d|e]; [|by destruct (isinstance _ _)]. cbn. destruct (zoned d); [|done]. intros Hrun. by inv_result.
Qed.
(** The cars of the rows, and of the riders they come from. *)
Lemma settled_cars r input players cars rows : rider_rows (VDict r) = Ok rows → get_or_none "training_input" r = VDict input →
  get_or_none "players" input = VList players → car_numbers (VList players) = Ok cars →
  map car_of rows = cars ∧ mapR (λ p, getitem p "car_number") players = Ok (map VInt cars).
Proof.
  intros (input' & players' & o & order & Hel & _ & _ & race & odds & known & _ & _ & _ & Hrows & _)%rider_rows_inv Hin Hp
    (HF & _ & Hall)%car_numbers_ok.
  pose proof (el_input _ _ _ _ Hel) as Hin'. unfold training_input in Hin'. cbn [field] in Hin'. rewrite Hin in Hin'. injection Hin' as <-.
  destruct (el_players _ _ _ _ Hel) as [Hp' _]. rewrite Hp in Hp'. injection Hp' as <-. rewrite Hall in Hrows.
  split; [by eapply rows_have_cars|]. apply mapR_Ok. clear -HF. generalize dependent (length players). intros n HF.
  induction HF as [|p z players cars [Hp _] _ IH]; constructor; auto.
Qed.
Lemma cars_valid n cars : (n ≤ 9)%nat → Forall (λ z, 1 ≤ z ≤ Z.of_nat n) cars → existsb (invalid_car n) (map VInt cars) = false.
Proof.
  intros Hn. induction 1 as [|z cars Hz _ IH]; [done|]. cbn [map existsb]. rewrite IH, orb_false_r.
  apply negb_false_iff, bool_decide_eq_true. cbn [py_str py_repr]. apply list_elem_of_fmap. exists (Z.to_nat z).
  split; [f_equal; lia|]. apply elem_of_seq. lia.
Qed.
Lemma existsR_all_false {A} (f : A → result bool) l : (∀ x, x ∈ l → f x = Ok false) → existsR f l = Ok false.
Proof.
  induction l as [|x l IH]; intros Hf; [done|]. cbn. rewrite (Hf x) by left. cbn. apply IH. intros y Hy. apply Hf. by right.
Qed.
Lemma known_style row : (∃ s, get_or_none "style" row = VStr s ∧ s ∈ STYLES) →
  (b ← in_str_set (get_or_none "style" row) STYLES; Ok (negb b)) = Ok false.
Proof. intros (s & -> & Hs). cbn [in_str_set hashable in_strs]. by rewrite bool_decide_true by done. Qed.

(** C25: through the whole pipeline.  A record that settling builds is eligible for
    supervised training, and its times are in order: the capture before the start, the
    start no later than the result.  When moreover rows can be made of its riders, it is a
    candidate of an evaluation with exactly these rows, provided its prediction has a
    context that is not synthetic, its riders have known styles, its outcome is written as
    the table writes it and it was made by the version evaluated. *)
Theorem settled_record_candidate snapshot outcome odds result_timestamp r :
  build_history_record snapshot outcome odds result_timestamp = Ok r →
  (∀ captured scheduled, _snapshot_times snapshot = Ok (captured, scheduled) →
     near (instant captured) ∧ near (instant scheduled)) →
  supervised_eligibility (VDict r) = Ok (true, "eligible") ∧ schedule_respected (VDict r) ∧
  ∀ synthetic rows context,
    rider_rows (VDict r) = Ok rows →
    (∀ row, row ∈ rows → ∃ s, get_or_none "style" row = VStr s ∧ s ∈ STYLES) →
    field "prediction_context" (field "race_data" snapshot) = VDict context →
    contains "synthetic" (lower (py_str (default (VStr "") (dict_get "source" context)))) = false →
    field "engine_version" (metadata (VDict r)) = VStr BASELINE →
    py_str outcome ∈ combinations (map car_of rows) →
    ∃ c, candidate_of synthetic (VDict r) = Ok c ∧ record c = VDict r ∧ Evaluation.rows c = rows.
Proof.
  intros Hrun Hnear. destruct (settled_eligible _ _ _ _ _ Hrun Hnear) as [Hel Hsch]. split; [done|]. split; [done|].
  clear Hsch. intros synthetic rows context Hrows Hstyle Hctx Hsource Hengine Hkey.
  apply history_record_ok in Hrun. destruct (se_input _ _ _ _ Hrun) as (input & Hin & Hi).
  destruct (settled_schedule _ _ _ _ _ Hrun Hin Hnear) as [_ (tp & ts & tr & Hp & Hc & _ & Hr & Hlt)].
  destruct (se_metadata _ _ _ _ Hrun) as (m & source & Hm & _ & _ & Hres & _).
  destruct (se_race _ _ _ _ Hrun) as (text & Hrace).
  destruct (se_players _ _ _ _ Hrun) as (players & Hps & Hlen & cars & items & scores & Hcars & Hfull & Hscores & Hts).
  assert (field "players" (VDict input) = VList players) as Hpl by (cbn; by rewrite (in_players _ _ Hi), Hps; destruct players; [destruct Hlen|]).
  destruct (settled_cars _ _ _ _ _ Hrows Hin Hpl Hcars) as [Hmap Hraw].
  destruct (car_numbers_ok _ _ Hcars) as (HF & Hnd & _).
  destruct (settled_table _ _ _ Hfull Hscores) as [values Hvalues].
  assert (length rows = length players ∧ length cars = length players) as [Hl1 Hl2].
  { apply Forall2_length in HF. rewrite <- Hmap, length_map in HF. rewrite <- Hmap, length_map. lia. }
  unfold candidate_of. read Hel. cbn [fst snd negb reject_if mbind result_bind]. read (getitem_entry r _ _ Hin).
  cbn [py_get mbind result_bind]. rewrite (in_context _ _ Hi), Hctx. cbn [default from_option id py_get mbind result_bind].
  rewrite Hsource. cbn [andb reject_if mbind result_bind]. read (race_id_settled _ _ Hrace).
  rewrite strip_text_not_blank. cbn [negb reject_if mbind result_bind].
  apply aware_timestamp in Hp, Hc, Hr. unfold training_input, metadata in *. cbn [field] in Hp, Hc, Hr, Hengine.
  rewrite Hin in Hc. rewrite Hm in Hr, Hengine. cbn [field] in Hc, Hr, Hengine.
  read (get_of_dict r "prediction_timestamp"). read Hp. read (getitem_entry r _ _ Hm).
  read (get_of_dict m "result_timestamp"). read Hr. read (get_of_dict input "captured_at"). read Hc.
  rewrite Z.eqb_refl, (proj2 (Z.ltb_lt tp tr)) by lia. cbn [negb orb reject_if mbind result_bind].
  read (getitem_list input _ _ Hpl). assert ((length players =? 7)%nat || (length players =? 9)%nat = true) as ->.
  { by rewrite orb_true_iff, !Nat.eqb_eq. }
  cbn [mbind result_bind]. read Hraw. rewrite cars_valid; [|lia|].
  2: { clear -HF. generalize dependent (length players). intros n HF. induction HF as [|? ? ? ? [_ ?]]; by constructor. }
  cbn [reject_if mbind result_bind]. read Hrows. 
  change (map (int_at "car_number") rows) with (map car_of rows). rewrite Hmap, length_map, Hl1, Hl2, Nat.eqb_refl.
  rewrite (bool_decide_true (NoDup cars)) by done. cbn [negb orb reject_if mbind result_bind].
  rewrite existsR_all_false by (intros; by apply known_style, Hstyle). cbn [reject_if mbind result_bind].
  read (get_of_dict m "engine_version"). rewrite Hengine. cbn [is_text py_eqb]. rewrite String.eqb_refl. cbn [negb reject_if mbind result_bind].
  read (get_of_dict r "trifecta_scores"). rewrite Hts. read Hvalues.
  assert (dict_has (outcome_of (VDict r)) values = true) as ->; [|by eexists].
  destruct (probability_table_ok _ _ _ Hvalues) as (Hkeys & _). rewrite Hmap in Hkey.
  assert (outcome_of (VDict r) = py_str outcome) as -> by (cbn; by rewrite (se_outcome _ _ _ _ Hrun)).
  unfold dict_has. destruct (dict_get_in (py_str outcome) values) as [v ->]; [|done].
  by rewrite Hkeys, elem_of_remove_dups.
Qed.
End facts.

(** ** Examples *)
#[local] Existing Instance decimal_readers.
#[local] Existing Instance decimal_laws.
Definition example_categories : pyval :=
  VDict [("categories", VDict (map (λ k, (k, VDict [("picks", VList [VDict [("combo_key", VStr "1-2-3")]])])) CATEGORIES))].
Definition example_engine : pyval :=
  VDict [("success", VBool true); ("saved", VBool false); ("db_write_enabled", VBool false);
    ("production_prediction_enabled", VBool false); ("engine_candidate", VStr ENGINE_VERSION);
    ("prediction", VDict [("trifecta_scores", VList (map (example_score "1-2-3") (combinations (map Z.of_nat (seq 1 7)))));
       ("selected_predictions", example_categories)])].
Definition example_snapshot (context : pyval) : pyval :=
  VDict [("schema_version", VStr "prediction-snapshot-v1"); ("validation_mode", VStr "prospective-only");
    ("snapshot_eligibility", VDict [("prospective", VBool true); ("prestart_confirmed", VBool true);
       ("scheduled_start", VStr "20")]);
    ("captured_at", VStr "10"); ("engine_response", example_engine);
    ("race_data", VDict [("race", VDict [("date", VStr "2026-07-01"); ("scheduled_start_jst", VStr "20")]);
       ("players", VList (map example_player (seq 1 7))); ("prediction_context", context)])].
Definition example_history (context : pyval) (outcome : string) : result pydict :=
  build_history_record (example_snapshot context) (VStr outcome) (VInt 5) (VStr "30").
Definition example_context : pyval := VDict [("source", VStr "official")].
Lemma example_near context captured scheduled : _snapshot_times (example_snapshot context) = Ok (captured, scheduled) →
  near (instant captured) ∧ near (instant scheduled).
Proof. intros E. vm_compute in E. injection E as <- <-. by vm_compute. Qed.

(** The check of the outcome compares the parts as texts: a car named twice passes it
    when one of the numbers has a leading zero.  Training refuses the record. *)
Example leading_zero_outcome : match example_history example_context "1-01-2" with
  | Ok r => supervised_eligibility (VDict r) = Ok (true, "eligible") ∧
      rider_rows (VDict r) = raise ValueError "outcome_combo must contain three distinct riders"
  | Err _ => False
  end.
Proof. vm_compute. done. Qed.

(** The conditions of the pipeline, as a test. *)
Definition ready (outcome : string) (r : pydict) (rows : list pydict) : bool :=
  forallb (λ row, in_strs (get_or_none "style" row) STYLES) rows
  && is_text (field "engine_version" (metadata (VDict r))) BASELINE
  && bool_decide (outcome ∈ combinations (map car_of rows)).
Lemma ready_spec outcome r rows : ready outcome r rows = true →
  (∀ row, row ∈ rows → ∃ s, get_or_none "style" row = VStr s ∧ s ∈ STYLES) ∧
  field "engine_version" (metadata (VDict r)) = VStr BASELINE ∧ outcome ∈ combinations (map car_of rows).
Proof.
  unfold ready. rewrite !andb_true_iff, is_text_true, bool_decide_eq_true. intros [[Hf He] Hk]. split_and!; [|done|done].
  intros row Hin%list_elem_of_In. eapply forallb_forall in Hf; [|exact Hin]. unfold in_strs in Hf.
  destruct (get_or_none "style" row); try done. apply bool_decide_eq_true in Hf. eauto.
Qed.
Example example_ready : match example_history example_context "2-1-3" with
  | Ok r => match rider_rows (VDict r) with Ok rows => ready "2-1-3" r rows | Err _ => false end
  | Err _ => false
  end = true.
Proof. vm_compute. reflexivity. Qed.
Lemma settled_record_candidate_witness : ∃ r c, example_history example_context "2-1-3" = Ok r ∧
  supervised_eligibility (VDict r) = Ok (true, "eligible") ∧ candidate_of false (VDict r) = Ok c ∧ record c = VDict r.
Proof.
  pose proof example_ready as Hready. destruct (example_history example_context "2-1-3") as [r|e] eqn:E; [|discriminate].
  destruct (rider_rows (VDict r)) as [rows|e] eqn:Er; [|discriminate].
  destruct (ready_spec _ _ _ Hready) as (Hs & Hv & Hk).
  destruct (settled_record_candidate _ _ _ _ r E (example_near example_context)) as (Hel & _ & Hcand).
  destruct (Hcand false rows _ Er Hs eq_refl eq_refl Hv Hk) as (c & Hc & Hrec & _).
  exists r, c. split; [exact eq_refl|split; [exact Hel|split; [exact Hc|exact Hrec]]].
Defined.
Lemma missing_context_excluded_witness : ∃ r quality, example_history VNone "2-1-3" = Ok r ∧
  prepare false [VDict r] = Ok ([], quality).
Proof.
  destruct (example_history VNone "2-1-3") as [r|e] eqn:E; [|by vm_compute in E].
  destruct (missing_context_excluded false _ _ _ _ r E (example_near VNone)) as (quality & Hq & _); [done|].
  exists r, quality. split; [exact eq_refl|exact Hq].
Defined.
