(* ===== verification/Selection.v ===== *)
(** ml/category_selection.py: the selection of tickets in five categories from a
    complete table of probabilities.

    Probabilities and odds are Python numbers: integers or binary64 floats.  They are
    compared exactly, as multiples of 2^-1074; their sum is a sum of floats. *)
From Stdlib Require Import Ascii SpecFloat.
From S2P Require Import Prelude PyString PyValue PyFloat Itertools.

(** [(key, name, minimum, maximum)] *)
Record rule := Rule { category : string; category_name : string; minimum : option Z; maximum : option Z }.
Definition CATEGORY_RULES : list rule :=
  [Rule "hit_priority" "的中率優先" None None; Rule "balance" "穴＋バランス" (Some 20) (Some 60);
   Rule "middle" "中穴" (Some 60) (Some 100); Rule "longshot" "大穴" (Some 100) (Some 500);
   Rule "super_longshot" "超大穴" (Some 500) None].
Definition SELECTION_POLICY : string := "hit_priority_all_combos_odds_bands_probability_uncalibrated_v2".

(** [0 <= value <= 1] and [value > 0] *)
Definition in_bounds (probability : bool) (v : pyval) : bool :=
  if probability then (0 <=? scaled v) && (scaled v <=? unit_) else 0 <? scaled v.
Definition _number (probability : bool) (v : pyval) : result bool :=
  match v with
  | VInt z => float_of_Z z;; Ok (in_bounds probability v) (* isfinite converts *)
  | VFloat f => Ok (float_is_finite f && in_bounds probability v)
  | _ => Ok false
  end.

(** [float(v)] of a probability *)
Definition float_of (v : pyval) : spec_float :=
  match v with VFloat f => f | VInt 1 => float_one | _ => S754_zero false end.

(** ** The table *)
Definition riders (n : Z) : list Z := map Z.of_nat (seq 1 (Z.to_nat n)).
(** The combinations with their keys. *)
Definition table (n : Z) : list (string * list Z) :=
  map (λ c, (join "-" (map z_str c), c)) (permutations 3 (riders n)).
Definition combo_of (n : Z) (key : string) : option (list Z) :=
  snd <$> find (λ kc, String.eqb kc.1 key) (table n).
Definition PHASE32_FIELDS : list string :=
  ["score"; "contributions"; "reason"; "expected_value_index"; "uncalibrated_odds_probability_product"].

Record checked := Checked { seen : gset string; mass : spec_float; known : Z }.
(** The body of the loop. *)
Definition check_row (n : Z) (acc : checked) (v : pyval) : result checked :=
  match v with
  | VDict row =>
      let p := get_or_none "estimated_probability" row in
      let odds := get_or_none "odds" row in
      let invalid {A} : result A := raise ValueError "invalid probability row" in
      entry ← match get_or_none "combo_key" row with
              | VStr key => match combo_of n key with Some c => Ok (key, c) | None => invalid end
              | _ => invalid
              end;
      let '(key, combo) := entry in
      reject_if (bool_decide (key ∈ seen acc)) ValueError "invalid probability row";;
      good ← _number true p;
      reject_if (negb good) ValueError "invalid probability row";;
      match dict_get "combo" row with
      | Some (VList l) => reject_if (negb (forallb type_is_int l && py_eqb (VList l) (VList (map VInt combo))))
                            ValueError "combo does not match combo_key"
      | Some _ => raise ValueError "combo does not match combo_key"
      | None => Ok tt
      end;;
      (if is_none odds then Ok tt
       else fine ← _number false odds; reject_if (negb fine) ValueError "invalid confirmed odds");;
      reject_if (negb (is_none (get_or_none "monetary_expected_value" row))) ValueError
        "monetary EV must remain unavailable";;
      reject_if (existsb (λ k, dict_has k row) PHASE32_FIELDS) ValueError
        "Phase32 scores, explanations and EV fields are not ML output";;
      Ok (Checked ({[key]} ∪ seen acc) (float_add (mass acc) (float_of p))
            (known acc + of_bool (negb (is_none odds))))
  | _ => raise ValueError "invalid probability row"
  end.
Definition validate_model_scores (rows : pyval) (rider_count : pyval) : result Z :=
  n ← match rider_count with
      | VInt 7 => Ok 7 | VInt 9 => Ok 9
      | _ => raise ValueError "standard seven or nine riders required"
      end;
  match rows with
  | VList l =>
      reject_if (negb (length l =? length (table n))%nat) ValueError "complete probability table required";;
      acc ← foldR (check_row n) (Checked ∅ (S754_zero false) 0) l;
      reject_if (mass_is_off (mass acc)) ValueError "probability mass must equal one";;
      Ok (known acc)
  | _ => raise ValueError "complete probability table required"
  end.

(** ** The selection *)
Definition combo_key (row : pydict) : string := py_str (get_or_none "combo_key" row).
Definition probability (row : pydict) : Z := scaled (get_or_none "estimated_probability" row).
Definition odds_known (row : pydict) : bool := negb (is_none (get_or_none "odds" row)).
(** The odds of the row are in the band of the rule. *)
Definition in_band (r : rule) (row : pydict) : bool :=
  let odds := scaled (get_or_none "odds" row) in
  odds_known row
  && match minimum r with Some m => m * unit_ <=? odds | None => true end
  && match maximum r with Some m => odds <? m * unit_ | None => true end.
Definition is_hit (r : rule) : bool := String.eqb (category r) "hit_priority".
Definition eligible (r : rule) (used : gset string) (ranked : list pydict) : list pydict :=
  if is_hit r then ranked
  else List.filter (λ row, negb (bool_decide (combo_key row ∈ used)) && in_band r row) ranked.

Record chosen := Chosen { chosen_rule : rule; available : Z; picks : list pydict }.
(** The body of the loop over the rules. *)
Definition select_category (ranked : list pydict) (acc : gset string * list chosen) (r : rule) :
    gset string * list chosen :=
  let '(used, cats) := acc in
  let rows := eligible r used ranked in
  let picks := firstn 3 rows in
  (list_to_set (map combo_key picks) ∪ used, cats ++ [Chosen r (Z.of_nat (length rows)) picks]).
Definition select_rows (rows : list pydict) : gset string * list chosen :=
  foldl (select_category (sorted_by (λ row, - probability row) rows)) (∅, []) CATEGORY_RULES.

(** ** The report *)
Definition pick_value (r : rule) (i : nat) (row : pydict) : pyval :=
  VDict (dict_update row [("rank", VInt (Z.of_nat i + 1)); ("category", VStr (category r));
    ("category_name", VStr (category_name r)); ("fallback", VBool false); ("category_note", VNone)]).
Definition category_note (known_count : Z) (size : nat) : pyval :=
  if (size <? 3)%nat then
    if known_count =? 0 then VStr "3連単オッズ未取得のため見送り"
    else VStr ("確認済みデータ内の候補が不足しているため" ++ z_str (Z.of_nat size)
               ++ "点。未確認オッズでは補完しません。")
  else VNone.
Definition category_value (known_count : Z) (c : chosen) : pyval :=
  let r := chosen_rule c in
  let size := length (picks c) in
  VDict [("category_name", VStr (category_name r));
         ("candidate_scope", VStr (if is_hit r then "all_combinations" else "confirmed_odds_only"));
         ("status", VStr (if (size =? 3)%nat then "ready" else if (size =? 0)%nat then "skipped" else "partial"));
         ("available_candidates", VInt (available c));
         ("picks", VList (imap (pick_value r) (picks c)));
         ("category_note", category_note known_count size)].
Definition complete (c : chosen) : bool := (length (picks c) =? 3)%nat.

(** The rows, which are dictionaries once they are validated. *)
Definition row_of (v : pyval) : option pydict := match v with VDict d => Some d | _ => None end.
Definition table_rows (rows : pyval) : list pydict :=
  match rows with VList l => omap row_of l | _ => [] end.

(** The categories, and the report on them. *)
Definition select_model_categories (rows rider_count : pyval) : result (list chosen * pydict) :=
  known_count ← validate_model_scores rows rider_count;
  let '(used, cats) := select_rows (table_rows rows) in
  Ok (cats,
    [("selection_policy", VStr SELECTION_POLICY); ("probability_calibration_status", VStr "uncalibrated");
     ("monetary_ev_enabled", VBool false); ("odds_band_ranking", VStr "estimated_probability_only");
     ("odds_available", VBool (0 <? known_count)); ("known_odds_count", VInt known_count);
     ("categories", VDict (map (λ c, (category (chosen_rule c), category_value known_count c)) cats));
     ("total_picks", VInt (Z.of_nat (size used))); ("unique_picks", VInt (Z.of_nat (size used)));
     ("complete_category_count", VInt (Z.of_nat (length (List.filter complete cats))));
     ("insufficient_categories", VList (map (λ c, VStr (category (chosen_rule c)))
                                          (List.filter (λ c, negb (complete c)) cats)))]).
