(* ===== verification/SelectionFacts.v ===== *)
(** The selection picks the most probable tickets of each band, and none twice. *)
From Stdlib Require Import SpecFloat.
From stdpp Require Import sorting.
From S2P Require Import Prelude PyString PyValue PyFloat Itertools Selection.

(** ** The table *)
Lemma check_row_ok n acc v acc' : check_row n acc v = Ok acc' →
  ∃ row, v = VDict row ∧ combo_key row ∉ seen acc ∧ seen acc' = {[combo_key row]} ∪ seen acc.
Proof.
  unfold check_row. destruct v; try done. cbv zeta. intros H. inv_result.
  match goal with H : (let '(_, _) := ?x in _) = Ok _ |- _ => destruct x as [key combo] end. inv_result.
  match goal with H : context [dict_get "combo" kvs] |- _ => clear H end.
  exists kvs. split; [done|]. unfold combo_key. destruct (get_or_none "combo_key" kvs); try done.
  destruct (combo_of n s); [|done]. inv_result. cbn. done.
Qed.
Lemma check_rows_ok n l acc acc' : foldR (check_row n) acc l = Ok acc' →
  NoDup (map combo_key (omap row_of l)) ∧
  ∀ row, row ∈ omap row_of l → combo_key row ∉ seen acc.
Proof.
  revert acc. induction l as [|v l IH]; intros acc; cbn.
  { intros _. split; [constructor|]. by intros row ?%not_elem_of_nil. }
  intros (acc1 & (row & -> & Hnew & Hseen)%check_row_ok & H)%bind_Ok. cbn.
  apply IH in H as [Hn Hs]. rewrite Hseen in Hs. split.
  - apply list.NoDup_cons. split; [|done]. intros (r & E & Hr)%list_elem_of_fmap.
    apply (Hs r Hr). rewrite <- E. set_solver.
  - intros r [->|Hr]%elem_of_cons; [done|]. specialize (Hs r Hr). set_solver.
Qed.

(** ** One category *)
Definition picked (cats : list chosen) : list string := map combo_key (concat (map picks cats)).
(** The rows the rule may pick after the categories [before]. *)
Definition candidate (before : list chosen) (r : rule) (row : pydict) : Prop :=
  is_hit r = true ∨ (in_band r row = true ∧ combo_key row ∉ picked before).
(** At most three candidates, by decreasing probability, and a candidate is left out
    only for three that are at least as probable. *)
Definition best_candidates (rows : list pydict) (before : list chosen) (c : chosen) : Prop :=
  (length (picks c) ≤ 3)%nat ∧
  StronglySorted (λ a b, probability b ≤ probability a) (picks c) ∧
  (∀ row, row ∈ picks c → row ∈ rows ∧ candidate before (chosen_rule c) row) ∧
  (∀ row, row ∈ rows → candidate before (chosen_rule c) row → row ∉ picks c →
     length (picks c) = 3%nat ∧ ∀ pick, pick ∈ picks c → probability row ≤ probability pick).

Lemma filter_sublist {A} (f : A → bool) l : List.filter f l `sublist_of` l.
Proof. induction l as [|x l IH]; cbn; [done|]. destruct (f x); by constructor. Qed.
Lemma map_sublist {A B} (f : A → B) l l' : l `sublist_of` l' → map f l `sublist_of` map f l'.
Proof. induction 1; cbn; by constructor. Qed.
Lemma eligible_sublist r used ranked : eligible r used ranked `sublist_of` ranked.
Proof. unfold eligible. destruct (is_hit r); [done|]. apply filter_sublist. Qed.

Section selection.
Context (rows ranked : list pydict) (Hperm : ranked ≡ₚ rows)
  (Hsorted : StronglySorted (λ a b, probability b ≤ probability a) ranked)
  (Hkeys : NoDup (map combo_key ranked)).

Lemma eligible_spec r used cats row : (∀ k, k ∈ used ↔ k ∈ picked cats) →
  row ∈ eligible r used ranked ↔ row ∈ rows ∧ candidate cats r row.
Proof.
  intros Hu. unfold eligible, candidate. destruct (is_hit r).
  - rewrite Hperm. naive_solver.
  - rewrite list_elem_of_In, filter_In, <- list_elem_of_In, Hperm, andb_true_iff, negb_true_iff,
      bool_decide_eq_false, Hu. naive_solver.
Qed.

Lemma category_step r used cats : (∀ k, k ∈ used ↔ k ∈ picked cats) →
  let c := Chosen r (Z.of_nat (length (eligible r used ranked))) (firstn 3 (eligible r used ranked)) in
  best_candidates rows cats c ∧ NoDup (map combo_key (picks c)).
Proof.
  intros Hu c. pose proof (eligible_sublist r used ranked) as Hsub.
  set (E := eligible r used ranked) in *.
  assert (∀ row, row ∈ E ↔ row ∈ rows ∧ candidate cats r row) as HE by (intros row; by apply eligible_spec).
  assert (StronglySorted (λ a b, probability b ≤ probability a) E) as HsE by by eapply StronglySorted_sublist.
  assert (firstn 3 E ++ skipn 3 E = E) as Hcut by apply firstn_skipn. split.
  - split_and!; cbn [picks chosen_rule c].
    + rewrite length_firstn. lia.
    + eapply StronglySorted_sublist; [apply sublist_take|done].
    + intros row Hin. apply HE. rewrite <- Hcut. apply elem_of_app. by left.
    + intros row Hin Hc Hout. assert (row ∈ skipn 3 E) as Hrest.
      { assert (row ∈ E) as Hrow by by apply HE. rewrite <- Hcut in Hrow. by apply elem_of_app in Hrow as [?|?]. }
      split.
      * rewrite length_firstn. assert (3 < length E)%nat; [|lia].
        destruct (decide (3 < length E)%nat); [done|]. exfalso. rewrite skipn_all2 in Hrest by lia.
        by apply not_elem_of_nil in Hrest.
      * intros pick Hpick. rewrite <- Hcut in HsE. exact (StronglySorted_app_1_elem_of _ _ _ pick row HsE Hpick Hrest).
  - cbn [picks c]. eapply sublist_NoDup; [exact Hkeys|].
    assert (firstn 3 E `sublist_of` ranked) as Hs by (etrans; [apply sublist_take|done]).
    by apply map_sublist.
Qed.

(** What the loop has chosen. *)
Definition selection_ok (used : gset string) (cats : list chosen) : Prop :=
  (∀ k, k ∈ used ↔ k ∈ picked cats) ∧ NoDup (picked cats) ∧
  ∀ before c after, cats = before ++ c :: after → best_candidates rows before c.
Lemma select_category_ok r used cats : selection_ok used cats → (is_hit r = true → cats = []) →
  let '(used', cats') := select_category ranked (used, cats) r in
  selection_ok used' cats' ∧ map chosen_rule cats' = map chosen_rule cats ++ [r].
Proof.
  intros (Hu & Hn & Hc) Hhit. unfold select_category.
  destruct (category_step r used cats Hu) as [Hbest Hnp].
  set (c := Chosen r _ _) in *. change (firstn 3 (eligible r used ranked)) with (picks c).
  assert (picked (cats ++ [c]) = picked cats ++ map combo_key (picks c)) as Hp.
  { unfold picked. rewrite map_app, concat_app. cbn [map concat]. by rewrite app_nil_r, map_app. }
  split; [|by rewrite map_app]. split_and!.
  - intros k. rewrite Hp, elem_of_union, elem_of_app, elem_of_list_to_set, Hu. tauto.
  - rewrite Hp. apply list.NoDup_app. split_and!; [done| |done].
    intros k Hk (row & -> & Hrow)%list_elem_of_fmap.
    destruct Hbest as (_ & _ & Hcand & _). apply Hcand in Hrow as [_ [Hh|[_ Hnot]]]; [|done].
    rewrite (Hhit Hh) in Hk. by apply not_elem_of_nil in Hk.
  - intros before c' after E. destruct (decide (after = [])) as [->|Hne].
    + apply app_inj_2 in E as [-> [= ->]]; done.
    + destruct (exists_last Hne) as (after' & x & ->). rewrite app_comm_cons, (assoc_L (++)) in E.
      apply app_inj_2 in E as [-> _]; [|done]. by eapply Hc.
Qed.
Lemma select_rules_ok rules used cats : selection_ok used cats → Forall (λ r, is_hit r = false) rules →
  let '(used', cats') := foldl (select_category ranked) (used, cats) rules in
  selection_ok used' cats' ∧ map chosen_rule cats' = map chosen_rule cats ++ rules.
Proof.
  intros Hok HF. revert used cats Hok. induction HF as [|r rules Hr _ IH]; intros used cats Hok.
  { cbn. by rewrite app_nil_r. }
  cbn [foldl]. pose proof (select_category_ok r used cats Hok) as H. rewrite Hr in H. specialize (H ltac:(done)).
  destruct (select_category ranked (used, cats) r) as [used1 cats1]. destruct H as [H1 E1].
  specialize (IH used1 cats1 H1). destruct (foldl _ _ _) as [used2 cats2]. destruct IH as [H2 E2].
  split; [done|]. by rewrite E2, E1, <- (assoc_L (++)).
Qed.
End selection.

Lemma select_rows_ok rows : NoDup (map combo_key rows) →
  let '(used, cats) := select_rows rows in
  selection_ok rows used cats ∧ map chosen_rule cats = CATEGORY_RULES.
Proof.
  intros Hn. unfold select_rows. set (ranked := sorted_by _ rows).
  assert (ranked ≡ₚ rows) as Hp by apply sorted_by_perm.
  assert (StronglySorted (λ a b, probability b ≤ probability a) ranked) as Hs.
  { pose proof (sorted_by_sorted (λ row, - probability row) rows) as H. fold ranked in H.
    clear -H. induction H as [|x l Hl IH Hx]; constructor; [done|].
    eapply list.Forall_impl; [exact Hx|]. cbn. lia. }
  assert (NoDup (map combo_key ranked)) as Hk by by rewrite Hp.
  change CATEGORY_RULES with ([Rule "hit_priority" "的中率優先" None None] ++ tail CATEGORY_RULES).
  rewrite foldl_app. cbn [foldl].
  assert (selection_ok rows ∅ []) as H0.
  { split_and!; [|constructor|by intros [] ?]. intros k. unfold picked. cbn. set_solver. }
  pose proof (select_category_ok rows ranked Hp Hs Hk (Rule "hit_priority" "的中率優先" None None) ∅ [] H0
    (λ _, eq_refl)) as H1.
  destruct (select_category _ _ _) as [used1 cats1]. destruct H1 as [H1 E1].
  pose proof (select_rules_ok rows ranked Hp Hs Hk (tail CATEGORY_RULES) used1 cats1 H1) as H2.
  destruct (foldl _ _ _) as [used2 cats2]. destruct H2 as [H2 E2]; [by repeat constructor|].
  split; [done|]. by rewrite E2, E1.
Qed.

Lemma validated_keys rows n k : validate_model_scores rows n = Ok k → NoDup (map combo_key (table_rows rows)).
Proof.
  unfold validate_model_scores. intros H. inv_result. destruct rows; try done. inv_result.
  match goal with H : foldR _ _ _ = Ok _ |- _ => by apply check_rows_ok in H as [? _] end.
Qed.

(** C28: a selection that is made has the five categories in their order, picks no
    combination twice, and each category holds the at most three most probable of
    its candidates: of all rows for the first, of the rows in its band of confirmed
    odds that no earlier category picked for the others.  It holds fewer than three
    only when it has no more candidates, and the total it reports is that of the
    picks. *)
Theorem selection_exact rows n cats report : select_model_categories rows n = Ok (cats, report) →
  map chosen_rule cats = CATEGORY_RULES ∧ NoDup (picked cats) ∧
  (∀ before c after, cats = before ++ c :: after → best_candidates (table_rows rows) before c) ∧
  dict_get "total_picks" report = Some (VInt (Z.of_nat (length (picked cats)))).
Proof.
  intros H. unfold select_model_categories in H. inv_result.
  match goal with H : validate_model_scores _ _ = Ok _ |- _ => apply validated_keys in H as Hn end.
  pose proof (select_rows_ok _ Hn) as Hsel. destruct (select_rows _) as [used cats'].
  destruct Hsel as [(Hu & Hp & Hb) Hr]. injection H as <- <-. split_and!; [done|done|done|].
  cbn. do 3 f_equal. assert (used = list_to_set (picked cats')) as ->; [set_solver|]. by apply size_list_to_set.
Qed.

(** Seven riders: three combinations carry the whole probability. *)
Definition example_row (i : nat) (kc : string * list Z) : pyval :=
  VDict ([("combo_key", VStr kc.1);
          ("estimated_probability",
             match i with
             | 0%nat => VFloat (S754_finite false 4503599627370496 (-53))
             | 40%nat | 41%nat => VFloat (S754_finite false 4503599627370496 (-54))
             | _ => VInt 0
             end)]
         ++ if (i mod 8 =? 0)%nat then [("odds", VInt (Z.of_nat i + 18))] else []).
Definition example_rows : pyval := VList (imap example_row (table 7)).
Definition example_selection : result (list chosen * pydict) := select_model_categories example_rows (VInt 7).
Example example_picks :
  match example_selection with
  | Ok (cats, _) => map (λ c, (map combo_key (picks c), available c)) cats =
      [(["1-2-3"; "2-4-1"; "2-4-3"], 210); (["1-3-6"; "1-5-3"; "1-6-7"], 4); (["2-5-6"; "2-7-3"; "3-1-7"], 5);
       (["3-7-5"; "4-2-3"; "4-3-7"], 16); ([], 0)]
  | Err _ => False
  end.
Proof. vm_compute. reflexivity. Qed.
Lemma selection_exact_witness : ∃ cats report, example_selection = Ok (cats, report) ∧
  NoDup (picked cats) ∧ length (picked cats) = 12%nat.
Proof.
  destruct example_selection as [[cats report]|e] eqn:E; [|by vm_compute in E].
  exists cats, report. split; [done|]. destruct (selection_exact _ _ _ _ E) as (_ & Hn & _). split; [done|].
  pose proof example_picks as H. rewrite E in H. unfold picked. rewrite length_map.
  apply (f_equal (map (λ p : list string * Z, length p.1))) in H. rewrite map_map in H. cbn in H.
  rewrite length_concat, map_map.
  transitivity (sum_list [3; 3; 3; 3; 0]%nat); [|done]. rewrite <- H. f_equal. apply map_ext.
  intros c. by rewrite length_map.
Defined.
