(* ===== verification/Preview.v ===== *)
(** ml/offline_preview.py: the contract of a prediction that may be displayed.  The HTML
    it is rendered to is not modelled. *)
From Stdlib Require Import Ascii SpecFloat.
From S2P Require Import Prelude PyString PyValue PyText PyFloat Dataset History Selection.

Definition POSITIONS : list string := ["first"; "second"; "third"].
Definition EXPECTED : list (string * string) :=
  [("mode", "offline_inference_only"); ("model_version", "lightgbm-position-rankers-v1");
   ("inference_version", "lightgbm-offline-inference-v1"); ("adapter_version", "position-probability-to-trifecta-v1");
   ("probability_calibration_status", "uncalibrated")].
Definition DISABLED : list string :=
  ["production_prediction_enabled"; "db_write_enabled"; "external_fetch_enabled"; "monetary_ev_enabled";
   "odds_used_as_model_feature"].
(** [if v.get(key) is not False: raise ValueError(f'{key} must be false')] for each key *)
Fixpoint require_disabled (result : pydict) (flags : list string) : Prelude.result unit :=
  match flags with
  | [] => Ok tt
  | key :: flags' =>
      reject_if (negb (is_false (get_or_none key result))) ValueError (key ++ " must be false");;
      require_disabled result flags'
  end.

(** The body of the loop over the rows of a position: the cars seen and their mass. *)
Definition ranking_row (count : Z) (acc : gset Z * spec_float * Z) (row : pyval) : Prelude.result (gset Z * spec_float * Z) :=
  let '(seen, mass, rank) := acc in
  match row with
  | VDict d =>
      let p := get_or_none "estimated_probability" d in
      match get_or_none "car_number" d with
      | VInt car =>
          reject_if (negb ((1 <=? car) && (car <=? count)) || bool_decide (car ∈ seen)) ValueError "invalid position row";;
          reject_if (match get_or_none "rank" d with VInt r => negb (r =? rank) | _ => true end) ValueError
            "invalid position row";;
          good ← _number true p;
          reject_if (negb good) ValueError "invalid position row";;
          Ok ({[car]} ∪ seen, float_add mass (float_of p), rank + 1)
      | _ => raise ValueError "invalid position row"
      end
  | _ => raise ValueError "invalid position row"
  end.
(** The body of the loop over the positions. *)
Definition check_ranking (count : Z) (rankings : pydict) (position : string) : Prelude.result unit :=
  match get_or_none position rankings with
  | VList rows =>
      reject_if (negb (Z.of_nat (length rows) =? count)) ValueError "complete position rankings required";;
      acc ← foldR (ranking_row count) (∅, S754_zero false, 1) rows;
      reject_if (mass_is_off acc.1.2) ValueError "position probability mass must equal one"
  | _ => raise ValueError "complete position rankings required"
  end.
Fixpoint check_rankings (count : Z) (rankings : pydict) (positions : list string) : Prelude.result unit :=
  match positions with
  | [] => Ok tt
  | position :: positions' => check_ranking count rankings position;; check_rankings count rankings positions'
  end.
(** [type(v) is int and v == n] *)
Definition is_count (v : pyval) (n : Z) : bool := match v with VInt z => z =? n | _ => false end.
(** The selection a prediction carries must be the one its table gives. *)
Definition check_selection (result : pydict) (scores count : pyval) : Prelude.result unit :=
  match dict_get "selected_predictions" result with
  | Some selected =>
      expected ← select_model_categories scores count;
      shown ← canonical selected;
      wanted ← canonical (VDict expected.2);
      reject_if (negb (String.eqb shown wanted)) ValueError "category selection does not match model table"
  | None => Ok tt
  end.

Definition validate_preview (result : pyval) : Prelude.result unit :=
  match result with
  | VDict d =>
      reject_if (negb (is_true (get_or_none "success" d))) ValueError "successful offline inference result required";;
      declared_conditions d;;
      reject_if (negb (forallb (λ kv, is_text (get_or_none kv.1 d) kv.2) EXPECTED)) ValueError
        "offline result version or calibration mismatch";;
      require_disabled d DISABLED;;
      match get_or_none "input_quality" d with
      | VDict quality =>
          let count := get_or_none "rider_count" quality in
          n ← match count with
              | VInt 7 => Ok 7 | VInt 9 => Ok 9
              | _ => raise ValueError "standard seven or nine riders required"
              end;
          let scores := get_or_none "trifecta_scores" d in
          known ← validate_model_scores scores count;
          reject_if (negb (is_count (get_or_none "possible_trifecta_count" quality)
                             (match scores with VList l => Z.of_nat (length l) | _ => 0 end))
                     || negb (is_count (get_or_none "known_trifecta_odds_count" quality) known)) ValueError
            "coverage metadata does not match probability table";;
          check_selection d scores count;;
          match get_or_none "position_rankings" d with
          | VDict rankings => check_rankings n rankings POSITIONS
          | _ => raise ValueError "position rankings required"
          end
      | _ => raise ValueError "input quality required"
      end
  | _ => raise ValueError "successful offline inference result required"
  end.
