(* ===== verification/ModelHistory.v ===== *)
(** ml/probability_metrics.py and ml/model_history.py: frozen predictions, their
    settlement, and the review of settled histories; synthetic data only.

    A deep copy of a document is the document.  An integer probability (0 or 1) counts
    as its float in the metrics. *)
From Stdlib Require Import Ascii SpecFloat.
From stdpp Require Import sorting.
From S2P Require Import Prelude PyString PyValue PyText PyFloat Sha256 Rounding Itertools Dataset Settle History Selection Preview.

(** What the code takes from the standard library. *)
Class Calendar := {
  (* date.fromisoformat(s).isoformat() *)
  date_iso : string → result string;
  (* the date of an instant in the time zone +09:00 *)
  japan_date : datetime → result string }.
Class Mathematics := {
  (* math.log(x) and x ** 2 *)
  math_log : spec_float → spec_float;
  math_square : spec_float → spec_float }.

(** ** ml/probability_metrics.py *)
Record metrics := Metrics {
  rank : Z; reciprocal_rank : spec_float; log_loss : spec_float; brier_sum : spec_float;
  top : list (Z * Z) (* k, and whether the rank is at most k *) }.
Definition TOP : list Z := [1; 3; 5; 10].
(** [sorted(table, key=lambda key: (-table[key], key))] *)
Definition ranked_before (a b : string * pyval) : bool :=
  (scaled b.2 <? scaled a.2) || ((scaled a.2 =? scaled b.2) && str_le a.1 b.1).
Fixpoint insert_ranked (x : string * pyval) (l : pydict) : pydict :=
  match l with
  | [] => [x]
  | y :: l' => if ranked_before y x then y :: insert_ranked x l' else x :: l
  end.
Definition ordered (table : pydict) : pydict := foldr insert_ranked [] table.
(** [l.index(key) + 1] *)
Fixpoint position (key : string) (l : list string) : result Z :=
  match l with
  | [] => raise ValueError (repr_str key ++ " is not in list")
  | k :: l' => if String.eqb k key then Ok 1 else n ← position key l'; Ok (n + 1)
  end.
(** [1e-15], and the larger of it and a probability *)
Definition tiny : spec_float := S754_finite false 5070602400912918 (-102).
Definition at_least_tiny (p : spec_float) : spec_float := if SFltb p tiny then tiny else p.
Definition float_neg (f : spec_float) : spec_float := SFopp f.
Definition score `{Mathematics} (table : pydict) (outcome : string) : result metrics :=
  r ← position outcome (keys (ordered table));
  let p := get_or_none outcome table in
  Ok (Metrics r (true_div 1 r) (float_neg (math_log (at_least_tiny (float_of p))))
        (float_sum (map (λ kv, math_square (float_sub (float_of kv.2) (float_of (VInt (of_bool (String.eqb kv.1 outcome)))))) table))
        (map (λ k, (k, of_bool (r <=? k))) TOP)).

(** ** ml/model_history.py *)
Definition SNAPSHOT_SCHEMA : string := "ml-prediction-snapshot-v1".
Definition HISTORY_SCHEMA : string := "ml-settled-history-v1".
Definition HELD_SCHEMA : string := "ml-held-history-v1".
Definition HELD_STATUSES : list string := ["dead_heat"; "withdrawn"; "cancelled"].
Definition SAFETY : pydict :=
  [("evidence_scope", VStr "synthetic_test_only"); ("production_prediction_enabled", VBool false);
   ("db_write_enabled", VBool false); ("external_fetch_enabled", VBool false); ("monetary_ev_enabled", VBool false);
   ("promotion_eligible", VBool false); ("supervised_training_enabled", VBool false);
   ("provenance_independently_verified", VBool false)].
Definition _canonical (value : pyval) : result string := json_dumps value.
Definition _digest (value : pyval) : result string := digest value.
Definition _synthetic (enabled : bool) : result unit :=
  reject_if (negb enabled) ValueError "explicit_synthetic_mode_required".
(** [_canonical(a) != _canonical(b)] *)
Definition differs (a b : pyval) : result bool := x ← _canonical a; y ← _canonical b; Ok (negb (String.eqb x y)).
Definition _safety (value : pydict) : result unit :=
  bad ← differs (VDict (map (λ kv, (kv.1, get_or_none kv.1 value)) SAFETY)) (VDict SAFETY);
  reject_if bad ValueError "synthetic_safety_flags_mismatch".
(** [re.fullmatch('[0-9a-f]{n}', s)] *)
Definition is_hex (c : ascii) : bool := in_range 48 57 c || in_range 97 102 c.
Definition hex_text (n : nat) (v : pyval) : bool :=
  match v with VStr s => (length (chars s) =? n)%nat && forallb is_hex (chars s) | _ => false end.

Section history.
Context `{Readers} `{Calendar} `{Mathematics}.

Definition race_key (race : pyval) : result string :=
  match race with
  | VDict d =>
      let venue := get_or_none "venue" d in
      day ← match get_or_none "date" d with
            | VStr day =>
                iso ← date_iso day;
                reject_if (negb (String.eqb iso day)) ValueError "race_date_invalid";; Ok day
            | _ => raise ValueError "race_date_invalid"
            end;
      match venue with
      | VStr v => reject_if (negb (has_text venue) || negb (String.eqb v (strip_text v))) ValueError "race_venue_required"
      | _ => raise ValueError "race_venue_required"
      end;;
      match get_or_none "race_number" d with
      | VInt number =>
          reject_if (number <? 1) ValueError "race_number_invalid";;
          sha ← _digest (VList [VStr day; venue; VInt number]); Ok ("ml-race-" ++ sha)%string
      | _ => raise ValueError "race_number_invalid"
      end
  | _ => raise ValueError "race_identity_required"
  end.

(** [_iso(v.get(k), name)] *)
Definition iso_at (v : pyval) (k name : string) : result datetime := x ← get v k; Settle._iso x name.
Definition validate_snapshot (snapshot : pyval) (synthetic : bool) : result unit :=
  _synthetic synthetic;;
  match snapshot with
  | VDict d =>
      reject_if (negb (is_text (get_or_none "schema_version" d) SNAPSHOT_SCHEMA)) ValueError "ml_snapshot_schema_mismatch";;
      _safety d;;
      reject_if (negb (is_text (get_or_none "clock_source" d) "local_unverified")) ValueError
        "unverified_local_clock_required";;
      sha ← _digest (VDict (without "snapshot_sha256" d));
      reject_if (negb (is_text (get_or_none "snapshot_sha256" d) sha)) ValueError "snapshot_digest_mismatch";;
      let prediction := get_or_none "prediction" d in
      validate_preview prediction;;
      match prediction with
      | VDict p => reject_if (negb (dict_has "selected_predictions" p)) ValueError "saved_category_selection_required"
      | _ => raise TypeError "argument is not iterable"
      end;;
      artifact ← get_dict prediction "model_artifact";
      scope ← get artifact "evidence_scope";
      reject_if (negb (is_text scope "synthetic_test_only")) ValueError "synthetic_model_artifact_required";;
      artifact_sha ← get artifact "sha256";
      reject_if (negb (hex_text 64 artifact_sha)) ValueError "model_artifact_digest_required";;
      trained ← iso_at artifact "trained_at" "model_trained_at";
      generated ← iso_at prediction "generated_at" "generated_at";
      captured ← iso_at snapshot "captured_at" "captured_at";
      scheduled ← iso_at snapshot "scheduled_start" "scheduled_start";
      reject_if (negb ((instant trained <=? instant generated) && (instant generated <=? instant captured)
                       && (instant captured <? instant scheduled))) ValueError "model_snapshot_time_order_invalid";;
      race ← get prediction "race";
      key ← race_key race;
      reject_if (negb (is_text (get_or_none "race_id" d) key)) ValueError "race_identity_mismatch";;
      race_scheduled ← iso_at race "scheduled_start_jst" "race_scheduled_start";
      reject_if (negb (instant race_scheduled =? instant scheduled)) ValueError "scheduled_start_mismatch";;
      day ← japan_date scheduled;
      date ← getitem race "date";
      reject_if (negb (is_text date day)) ValueError "race_date_schedule_mismatch"
  | _ => raise ValueError "ml_snapshot_schema_mismatch"
  end.

(** [now] is [datetime.now(timezone.utc).isoformat()]. *)
Definition capture_prediction (now : string) (prediction : pyval) (synthetic : bool) : result pyval :=
  _synthetic synthetic;;
  race ← get prediction "race";
  key ← race_key race;
  r ← getitem prediction "race";
  scheduled ← get r "scheduled_start_jst";
  let snapshot := [("schema_version", VStr SNAPSHOT_SCHEMA)] ++ SAFETY
    ++ [("race_id", VStr key); ("captured_at", VStr now); ("scheduled_start", scheduled);
        ("clock_source", VStr "local_unverified"); ("prediction", prediction)] in
  sha ← _digest (VDict snapshot);
  let snapshot := VDict (snapshot ++ [("snapshot_sha256", VStr sha)]) in
  validate_snapshot snapshot true;;
  Ok snapshot.

(** ** Settlement *)
Definition same_keys (d : pydict) (fields : list string) : bool :=
  forallb (λ k, bool_decide (k ∈ fields)) (keys d) && forallb (λ k, dict_has k d) fields.
Definition settlement_fields (status : string) (settlement : pydict) : list string :=
  ["race_id"; "result_timestamp"]
  ++ (if String.eqb status "normal"
      then ["outcome_combo"; "settlement_odds"] ++ (if dict_has "result_status" settlement then ["result_status"] else [])
      else ["result_status"] ++ (if String.eqb status "withdrawn" then ["withdrawn_car_numbers"] else [])).
(** The keys of the table of a prediction. *)
Definition table_keys (prediction : pyval) : result (list pyval) :=
  scores ← getitem prediction "trifecta_scores";
  rows ← iter_text scores;
  ks ← mapR (λ row, getitem row "combo_key") rows;
  if forallb hashable ks then Ok ks else raise TypeError "unhashable type".
Definition check_normal (snapshot : pyval) (settlement : pydict) : result unit :=
  prediction ← getitem snapshot "prediction";
  valid_keys ← table_keys prediction;
  let outcome := get_or_none "outcome_combo" settlement in
  reject_if (negb (is_str outcome) || negb (in_list outcome valid_keys)) ValueError "outcome_not_in_riders";;
  good ← _number false (get_or_none "settlement_odds" settlement);
  reject_if (negb good) ValueError "settlement_odds_invalid".
(** [type(c) is int and 1 <= c <= count] *)
Definition car_within (count c : pyval) : result bool :=
  match c, count with
  | VInt z, VInt n => Ok ((1 <=? z) && (z <=? n))
  | VInt z, _ => raise TypeError "not supported between instances"
  | _, _ => Ok false
  end.
Definition check_withdrawn (snapshot : pyval) (settlement : pydict) : result unit :=
  prediction ← getitem snapshot "prediction";
  quality ← getitem prediction "input_quality";
  count ← getitem quality "rider_count";
  match get_or_none "withdrawn_car_numbers" settlement with
  | VList (c :: l) =>
      bad ← existsR (λ c, b ← car_within count c; Ok (negb b)) (c :: l);
      reject_if (bad || negb (distinct_are (length (c :: l)) (omap as_int (c :: l)))) ValueError "withdrawn_cars_invalid"
  | _ => raise ValueError "withdrawn_cars_invalid"
  end.
Definition settle_snapshot (snapshot settlement : pyval) (synthetic : bool) : result pydict :=
  validate_snapshot snapshot synthetic;;
  race_id ← getitem snapshot "race_id";
  match settlement with
  | VDict s =>
      reject_if (negb (py_eqb (get_or_none "race_id" s) race_id)) ValueError "settlement_race_mismatch";;
      let given := default (VStr "normal") (dict_get "result_status" s) in
      reject_if (negb (in_strs given ("normal" :: HELD_STATUSES))) ValueError "result_status_invalid";;
      let status := py_str given in
      reject_if (negb (same_keys s (settlement_fields status s))) ValueError "settlement_fields_invalid";;
      result_time ← Settle._iso (get_or_none "result_timestamp" s) "result_timestamp";
      c ← getitem snapshot "captured_at"; captured ← Settle._iso c "captured_at";
      reject_if (instant result_time <? instant captured) ValueError "result_before_capture";;
      (if String.eqb status "normal" || String.eqb status "dead_heat" then
         t ← getitem snapshot "scheduled_start"; scheduled ← Settle._iso t "scheduled_start";
         reject_if (instant result_time <? instant scheduled) ValueError "result_before_scheduled_start"
       else Ok tt);;
      (if String.eqb status "normal" then check_normal snapshot s else Ok tt);;
      (if String.eqb status "withdrawn" then check_withdrawn snapshot s else Ok tt);;
      prediction ← getitem snapshot "prediction"; artifact ← getitem prediction "model_artifact";
      artifact_sha ← getitem artifact "sha256";
      Ok ([("schema_version", VStr (if String.eqb status "normal" then HISTORY_SCHEMA else HELD_SCHEMA))] ++ SAFETY
          ++ [("race_id", race_id); ("prediction_timestamp", c); ("model_artifact_sha256", artifact_sha);
              ("snapshot", snapshot); ("settlement", settlement)])
  | _ => raise ValueError "settlement_race_mismatch"
  end.
Definition _validate_history (record : pyval) : result unit :=
  match record with
  | VDict d =>
      reject_if (negb (in_strs (get_or_none "schema_version" d) [HISTORY_SCHEMA; HELD_SCHEMA])) ValueError
        "ml_history_schema_mismatch";;
      expected ← settle_snapshot (get_or_none "snapshot" d) (get_or_none "settlement" d) true;
      bad ← differs record (VDict expected);
      reject_if bad ValueError "history_does_not_match_snapshot"
  | _ => raise ValueError "ml_history_schema_mismatch"
  end.

(** ** Review of settled histories *)
Definition entry_at (k : string) (v : pyval) : pyval := match v with VDict d => get_or_none k d | _ => VNone end.
Definition race_of (r : pydict) : string := py_str (get_or_none "race_id" r).
Definition is_held (r : pydict) : bool := is_text (get_or_none "schema_version" r) HELD_SCHEMA.
(** The body of the first loop: the valid records, and the reasons of the others. *)
Definition caught (e : exn) : bool :=
  existsb (isinstance e) [ValueError; TypeError; KeyError; AttributeError; OverflowError].
Definition take_history (acc : list pydict * list string) (record : pyval) : result (list pydict * list string) :=
  match _validate_history record with
  | Ok _ => Ok (acc.1 ++ match record with VDict d => [d] | _ => [] end, acc.2)
  | Err e => if caught e
             then Ok (acc.1, acc.2 ++ [if isinstance e ValueError then exn_msg e else "malformed_record"])
             else Err e
  end.
(** Explicit normal and omitted normal status mean the same event. *)
Definition normal_settlement (r : pydict) : pyval :=
  match get_or_none "settlement" r with VDict s => VDict (dict_set "result_status" (VStr "normal") s) | v => v end.
Definition normal_record (r : pydict) : pyval := VDict (dict_set "settlement" (normal_settlement r) r).
(** [len({_canonical(f(r)) for r in l}) == 1] *)
Definition one_canonical (f : pydict → pyval) (l : list pydict) : result bool :=
  texts ← mapR (λ r, _canonical (f r)) l; Ok (length (remove_dups texts) =? 1)%nat.
Definition prediction_instant (r : pydict) : result Z :=
  t ← Settle._iso (get_or_none "prediction_timestamp" r) "prediction_timestamp"; Ok (instant t).

(** The summary of a race that needs a review. *)
Record held_case := HeldCase {
  held_race : string; held_riders : pyval; held_reasons : list string; held_cars : list Z; held_records : nat }.
Definition status_of (r : pydict) : string := py_str (entry_at "result_status" (get_or_none "settlement" r)).
Definition withdrawn_of (r : pydict) : list Z :=
  match entry_at "withdrawn_car_numbers" (get_or_none "settlement" r) with VList l => omap as_int l | _ => [] end.
Definition held_case_of (id : string) (group : list pydict) : held_case :=
  let holds := List.filter is_held group in
  let quality := match group with r :: _ => entry_at "input_quality" (entry_at "prediction" (get_or_none "snapshot" r))
                 | [] => VNone end in
  HeldCase id (entry_at "rider_count" quality) (sorted (remove_dups (map status_of holds)))
    (merge_sort Z.le (remove_dups (concat (map withdrawn_of holds)))) (length group).

Record review := Review {
  chosen_records : list pydict; held : list held_case; dropped : list string; removed : nat }.
(** The body of the loop over the races. *)
Definition review_group (acc : review) (ig : string * list pydict) : result review :=
  let 'Review sel hs why dup := acc in
  let '(id, group) := ig in
  let n := length group in
  if existsb is_held group then
    Ok (Review sel (hs ++ [held_case_of id group]) (why ++ repeat "nonstandard_race_requires_review" n) dup)
  else
    same ← one_canonical normal_settlement group;
    if negb same then Ok (Review sel hs (why ++ repeat "conflicting_settlements" n) dup) else
    times ← mapR prediction_instant group;
    let latest := match times with t :: ts => foldl Z.max t ts | [] => 0 end in
    let tied := map snd (List.filter (λ tr, tr.1 =? latest) (zip times group)) in
    single ← one_canonical normal_record tied;
    if negb single then Ok (Review sel hs (why ++ repeat "conflicting_latest_snapshots" n) dup) else
    Ok match tied with
       | r :: _ => Review (sel ++ [r]) hs why (dup + (n - 1))
       | [] => acc
       end.
Definition review_of (records : list pyval) : result review :=
  taken ← foldR take_history ([], []) records;
  foldR review_group (Review [] [] taken.2 0) (group_on race_of taken.1).

(** ** The report *)
(** [(_iso(prediction_timestamp), race_id)] *)
Definition dated_le (a b : Z * pydict) : bool :=
  (a.1 <? b.1) || ((a.1 =? b.1) && str_le (race_of a.2) (race_of b.2)).
Fixpoint insert_dated (x : Z * pydict) (l : list (Z * pydict)) : list (Z * pydict) :=
  match l with
  | [] => [x]
  | y :: l' => if dated_le x y then x :: l else y :: insert_dated x l'
  end.
Definition in_time (l : list pydict) : result (list pydict) :=
  dated ← mapR (λ r, t ← prediction_instant r; Ok (t, r)) l;
  Ok (map snd (foldr insert_dated [] dated)).
(** [{r['combo_key']: r['estimated_probability'] for r in scores}] *)
Definition probabilities_of (prediction : pyval) : pydict :=
  match entry_at "trifecta_scores" prediction with
  | VList l => dict_update [] (map (λ row, (py_str (entry_at "combo_key" row), entry_at "estimated_probability" row)) l)
  | _ => []
  end.
Definition category_hits (outcome : pyval) (kc : string * pyval) : string * pyval :=
  let picks := match entry_at "picks" kc.2 with VList l => l | _ => [] end in
  (kc.1, VDict [("selected_count", VInt (Z.of_nat (length picks)));
                ("hit", VBool (existsb (λ p, py_eqb (entry_at "combo_key" p) outcome) picks))]).
Definition top_value (kv : Z * Z) : string * pyval := (("top" ++ z_str kv.1)%string, VInt kv.2).
Definition metrics_value (m : metrics) : pyval :=
  VDict ([("rank", VInt (rank m)); ("reciprocal_rank", VFloat (reciprocal_rank m)); ("log_loss", VFloat (log_loss m));
          ("brier_sum", VFloat (brier_sum m))] ++ map top_value (top m)).
Definition race_review (r : pydict) : result (metrics * pyval) :=
  let prediction := entry_at "prediction" (get_or_none "snapshot" r) in
  let outcome := entry_at "outcome_combo" (get_or_none "settlement" r) in
  m ← score (probabilities_of prediction) (py_str outcome);
  let categories := match entry_at "categories" (entry_at "selected_predictions" prediction) with VDict d => d | _ => [] end in
  Ok (m, VDict
    [("race_id", get_or_none "race_id" r); ("model_artifact_sha256", get_or_none "model_artifact_sha256" r);
     ("rider_count", entry_at "rider_count" (entry_at "input_quality" prediction));
     ("prediction_timestamp", get_or_none "prediction_timestamp" r); ("metrics", metrics_value m);
     ("categories", VDict (map (category_hits outcome) categories))]).
(** [sum(...) / len(per_race)] of floats and of integers *)
Definition mean (l : list spec_float) : result spec_float :=
  n ← float_of_Z (Z.of_nat (length l)); Ok (float_div (float_sum l) n).
Definition share (l : list Z) : spec_float := true_div (foldr Z.add 0 l) (Z.of_nat (length l)).
Definition metric_means (ms : list metrics) : result pydict :=
  match ms with
  | [] => Ok []
  | _ =>
      rr ← mean (map reciprocal_rank ms); ll ← mean (map log_loss ms); bs ← mean (map brier_sum ms);
      Ok ([("reciprocal_rank", VFloat rr); ("log_loss", VFloat ll); ("brier_sum", VFloat bs)]
          ++ map (λ k, (("top" ++ z_str k)%string,
                   VFloat (share (map (λ m, match find (λ kv, kv.1 =? k) (top m) with Some kv => kv.2 | None => 0 end) ms))))
               TOP)
  end.
Definition held_value (h : held_case) : pyval :=
  VDict [("race_id", VStr (held_race h)); ("rider_count", held_riders h); ("reasons", VList (map VStr (held_reasons h)));
         ("withdrawn_car_numbers", VList (map VInt (held_cars h))); ("excluded_records", VInt (Z.of_nat (held_records h)))].
Definition artifact_of (r : pydict) : string := py_str (get_or_none "model_artifact_sha256" r).
Definition evaluate_histories (records : list pyval) (synthetic : bool) : result pydict :=
  _synthetic synthetic;;
  rv ← review_of records;
  selected ← in_time (chosen_records rv);
  per_race ← mapR race_review selected;
  means ← metric_means (map fst per_race);
  Ok ([("evaluation_version", VStr "frozen-ml-history-review-v1")] ++ SAFETY ++
      [("status", VStr (if bool_decide (length per_race = 0%nat) then "blocked_no_valid_histories"
                        else "completed_synthetic_frozen_review"));
       ("probability_calibration_status", VStr "uncalibrated");
       ("input_records", VInt (Z.of_nat (length records))); ("evaluated_races", VInt (Z.of_nat (length per_race)));
       ("held_races", VInt (Z.of_nat (length (held rv))));
       ("held_cases", VList (map held_value (sorted_on held_race (held rv))));
       ("model_artifacts", VList (map VStr (sorted (remove_dups (map artifact_of selected)))));
       ("metrics_scope", VStr "pooled_frozen_synthetic_predictions"); ("excluded", VDict (counted (dropped rv)));
       ("duplicate_snapshots_removed", VInt (Z.of_nat (removed rv))); ("metrics", VDict means);
       ("per_race", VList (map snd per_race));
       ("note", VStr "Generated synthetic data only. Frozen predictions; no retraining, Phase32 comparison, holdout claim, monetary return or promotion. Digests detect accidental changes, not provenance or permission.")]).
End history.
