(* ===== verification/ModelHistoryFacts.v ===== *)
(** A settled prediction is a valid history, and a review of histories uses one record per
    race, never a race that needs a human review; and a document read back from its
    canonical text passes the checks that the document passes. *)
From Stdlib Require Import Ascii SpecFloat.
From stdpp Require Import sorting.
From S2P Require Import Prelude PyString PyValue PyText PyFloat Sha256 Rounding Itertools Dataset DatasetFacts Settle History HistoryFacts Selection SelectionFacts Preview ModelHistory.

Section facts.
Context `{Readers} `{Calendar} `{Mathematics}.

(** ** Settled histories *)
Definition dumps_ok (v : pyval) : bool := is_ok (json_dumps v).
Lemma digest_dumps v sha : digest v = Ok sha → dumps_ok v = true.
Proof. unfold digest, dumps_ok. by destruct (json_dumps v). Qed.
Lemma dumps_entries d : dumps_ok (VDict d) = true ↔ ∀ k v, (k, v) ∈ d → dumps_ok v = true.
Proof.
  unfold dumps_ok at 1. rewrite dumps_dict_ok, forallb_forall. split.
  - intros Hd k v Hin. apply (Hd (k, v)). by apply list_elem_of_In.
  - intros Hd [k v] Hin%list_elem_of_In. by apply (Hd k).
Qed.
Lemma iso_text v name t : Settle._iso v name = Ok t → ∃ s, v = VStr s.
Proof. destruct v; try done. by eexists. Qed.
Lemma entry_value k v d : NoDup (keys d) → (k, v) ∈ d → get_or_none k d = v.
Proof. intros Hn Hin. unfold get_or_none. by rewrite (dict_get_elem _ _ _ Hn Hin). Qed.
Lemma unique_dict d : unique_keys (VDict d) = true → NoDup (keys d).
Proof. cbn [unique_keys]. intros [Hn _]%andb_true_iff. by apply bool_decide_eq_true in Hn. Qed.
(** A digest of the other entries covers a document whose last entry is a text. *)
Lemma snapshot_dumps d sha : NoDup (keys d) → digest (VDict (without "snapshot_sha256" d)) = Ok sha →
  get_or_none "snapshot_sha256" d = VStr sha → dumps_ok (VDict d) = true.
Proof.
  intros Hn Hd%digest_dumps Hs. apply dumps_entries. intros k v Hin.
  destruct (String.eqb_spec k "snapshot_sha256") as [->|N].
  - rewrite (entry_value _ _ _ Hn Hin) in Hs. by subst.
  - rewrite dumps_entries in Hd. apply (Hd k). apply list_elem_of_In, filter_In. split; [by apply list_elem_of_In|].
    cbn. by apply negb_true_iff, String.eqb_neq.
Qed.
Lemma validated snapshot b : validate_snapshot snapshot b = Ok tt → b = true ∧ ∃ d sha key,
  snapshot = VDict d ∧ digest (VDict (without "snapshot_sha256" d)) = Ok sha ∧ get_or_none "snapshot_sha256" d = VStr sha ∧
  get_or_none "race_id" d = VStr key ∧
  (∃ artifact, field "sha256" (field "model_artifact" (get_or_none "prediction" d)) = VStr artifact).
Proof.
  unfold validate_snapshot, _synthetic. intros Hrun. inv_result. split; [done|]. destruct snapshot as [| | | | | | |d]; try done.
  inv_result. repeat match goal with H : is_text _ _ = true |- _ => apply is_text_true in H end.
  match goal with H : get_dict _ "model_artifact" = Ok _ |- _ => apply get_dict_Ok in H as (Hf & _ & _) end.
  match goal with H : get ?x "sha256" = Ok ?y, E : hex_text 64 ?y = true |- _ => apply get_Ok in H as [Es _]; rewrite Es, Hf in E end.
  eexists d, _, _. split; [done|]. unfold _digest in *. split; [eassumption|]. split; [eassumption|]. split; [eassumption|].
  unfold hex_text in *. destruct (field "sha256" (field "model_artifact" (get_or_none "prediction" d))); try done; by eexists.
Qed.
Lemma number_dumps p v : _number p v = Ok true → dumps_ok v = true.
Proof. destruct v; try done. cbn. unfold dumps_ok. cbn. by destruct (float_is_finite f). Qed.
Lemma car_int count c : car_within count c = Ok true → ∃ z, c = VInt z.
Proof. destruct c as [| |z| | | | |]; try done. intros _. by exists z. Qed.
Lemma ints_dumps count l : existsR (λ c, b ← car_within count c; Ok (negb b)) l = Ok false → dumps_ok (VList l) = true.
Proof.
  intros Hl. unfold dumps_ok. rewrite dumps_list_ok, forallb_forall. intros c Hc%list_elem_of_In.
  induction l as [|x l IH]; [by apply not_elem_of_nil in Hc|]. cbn [existsR] in Hl.
  apply bind_Ok in Hl as (b & (w & Hw & [= <-])%bind_Ok & Hl). destruct w; [|done]. cbn in Hl.
  apply elem_of_cons in Hc as [->|Hc]; [|by apply IH]. by apply car_int in Hw as [z ->].
Qed.
(** Every entry of a settlement is a text, a number or a list of integers. *)
Lemma fields_dumps status s : NoDup (keys s) → same_keys s (settlement_fields status s) = true →
  Forall (λ k, dumps_ok (get_or_none k s) = true) (settlement_fields status s) → dumps_ok (VDict s) = true.
Proof.
  intros Hn [Hk _]%andb_true_iff Hf. apply dumps_entries. intros k v Hin. rewrite forallb_forall in Hk.
  assert (k ∈ keys s) as Hks by (unfold keys; apply list_elem_of_fmap; by exists (k, v)).
  apply list_elem_of_In, Hk, bool_decide_eq_true in Hks. rewrite list.Forall_forall in Hf. apply Hf in Hks.
  by rewrite (entry_value k v) in Hks.
Qed.
Lemma text_dumps v : is_str v = true → dumps_ok v = true.
Proof. by destruct v. Qed.
Lemma iso_dumps v name t : Settle._iso v name = Ok t → dumps_ok v = true.
Proof. by intros [s ->]%iso_text. Qed.
Lemma normal_dumps snapshot s : check_normal snapshot s = Ok tt →
  dumps_ok (get_or_none "outcome_combo" s) = true ∧ dumps_ok (get_or_none "settlement_odds" s) = true.
Proof.
  unfold check_normal. intros Hrun. inv_result; subst. split; [by apply text_dumps|]. by eapply number_dumps.
Qed.
Lemma withdrawn_dumps snapshot s : check_withdrawn snapshot s = Ok tt →
  dumps_ok (get_or_none "withdrawn_car_numbers" s) = true.
Proof.
  unfold check_withdrawn. intros Hrun. inv_result.
  destruct (get_or_none "withdrawn_car_numbers" s) as [| | | | | |l|]; try done.
  destruct l as [|c l]; [done|]. inv_result; subst. by eapply ints_dumps.
Qed.
Lemma getitem_of_get k d : get_or_none k d ≠ VNone → getitem (VDict d) k = Ok (get_or_none k d).
Proof. unfold getitem, get_or_none. by destruct (dict_get k d). Qed.
Lemma same_document v : dumps_ok v = true → differs v v = Ok false.
Proof.
  unfold dumps_ok, differs, _canonical. destruct (json_dumps v) as [t|]; [|done]. intros _. cbn. by rewrite String.eqb_refl.
Qed.
(** The entries of a settlement that [settle_snapshot] accepts can be serialized. *)
Lemma settlement_dumps snapshot s synthetic d : settle_snapshot snapshot (VDict s) synthetic = Ok d →
  NoDup (keys s) → dumps_ok (VDict s) = true.
Proof.
  unfold settle_snapshot. intros Hrun Hn. inv_result. eapply fields_dumps; [done..|].
  destruct (validated _ _ Ha) as (_ & ds & sha & key & -> & _ & _ & Hkey & _).
  rewrite getitem_of_get in Ha0 by (by rewrite Hkey). injection Ha0 as <-.
  assert (dumps_ok (get_or_none "race_id" s) = true) as Hid.
  { rewrite Hkey in Ha1. apply py_eqb_str in Ha1. by rewrite Ha1. }
  assert (dumps_ok (get_or_none "result_status" s) = true) as Hstatus.
  { unfold get_or_none. destruct (dict_get "result_status" s) as [v|]; [|done]. by destruct v. }
  apply iso_dumps in Ha4. unfold settlement_fields. repeat constructor; try done. set (status := py_str _) in *.
  destruct (String.eqb status "normal").
  - apply normal_dumps in Ha9 as [? ?]. destruct (dict_has _ _); by repeat constructor.
  - constructor; [done|]. destruct (String.eqb status "withdrawn"); [|constructor].
    apply withdrawn_dumps in Ha10. by repeat constructor.
Qed.
Lemma safety_dumps : forallb (λ kv, dumps_ok kv.2) SAFETY = true.
Proof. reflexivity. Qed.
Lemma settle_shape snapshot settlement synthetic d : settle_snapshot snapshot settlement synthetic = Ok d →
  synthetic = true ∧ ∃ held c sha, d =
    [("schema_version", VStr (if held : bool then HISTORY_SCHEMA else HELD_SCHEMA))] ++ SAFETY
    ++ [("race_id", get_or_none "race_id" (match snapshot with VDict x => x | _ => [] end)); ("prediction_timestamp", c);
        ("model_artifact_sha256", sha); ("snapshot", snapshot); ("settlement", settlement)] ∧
    is_str (get_or_none "race_id" d) = true ∧ is_str c = true ∧ is_str sha = true.
Proof.
  unfold settle_snapshot. intros Hrun. inv_result. destruct settlement as [| | | | | | |s]; try done. inv_result.
  destruct (validated _ _ Ha) as (Hs & ds & sha & key & -> & _ & _ & Hkey & artifact & Hart). split; [done|].
  repeat match goal with E : getitem (VDict ds) "race_id" = Ok _ |- _ => rewrite getitem_of_get in E by (by rewrite Hkey); injection E as <- end.
  repeat match goal with E : getitem _ _ = Ok _ |- _ => apply getitem_Ok in E as [-> _] end. cbn [field] in *.
  eexists (String.eqb _ "normal"), _, _. split; [done|]. cbn. rewrite Hkey, Hart. split_and!; try done.
  match goal with E : Settle._iso (get_or_none "captured_at" ds) _ = Ok _ |- _ => by apply iso_text in E as [? ->] end.
Qed.
(** C39: the digest a snapshot carries and the entries a settlement may have are enough
    for the history to be accepted by its own validation, whatever the formats of the
    times and the calendar: a settled history that is written down validates when it is
    read back. *)
Theorem settled_history_validates snapshot settlement synthetic d : settle_snapshot snapshot settlement synthetic = Ok d →
  unique_keys snapshot = true → unique_keys settlement = true → _validate_history (VDict d) = Ok tt.
Proof.
  intros Hrun Hu Hu'. destruct (settle_shape _ _ _ _ Hrun) as (-> & held & c & sha & E & Hid & Hc & Hsha).
  assert (dumps_ok settlement = true) as Hset.
  { destruct settlement as [| | | | | | |s]; try (unfold settle_snapshot in Hrun; by inv_result).
    by eapply settlement_dumps, unique_dict. }
  assert (dumps_ok snapshot = true) as Hsnap.
  { unfold settle_snapshot in Hrun. apply bind_Ok in Hrun as ([] & (_ & ds & sha' & key & -> & ? & ? & _)%validated & _).
    eapply snapshot_dumps; [by apply unique_dict|done..]. }
  assert (dumps_ok (VDict d) = true) as Hd.
  { apply dumps_entries. intros k v Hin. subst d. rewrite !elem_of_app in Hin. destruct Hin as [Hin|[Hin|Hin]].
    - by apply list_elem_of_singleton in Hin as [= -> ->].
    - pose proof safety_dumps as Hs. rewrite forallb_forall in Hs. apply (Hs (k, v)). by apply list_elem_of_In.
    - rewrite !elem_of_cons in Hin. destruct Hin as [[= -> ->]|[[= -> ->]|[[= -> ->]|[[= -> ->]|[[= -> ->]|[]%elem_of_nil]]]]];
        try done; by apply text_dumps. }
  unfold _validate_history. replace (get_or_none "snapshot" d) with snapshot by (by subst d).
  replace (get_or_none "settlement" d) with settlement by (by subst d). rewrite Hrun.
  replace (in_strs _ _) with true by (subst d; by destruct held). cbn -[differs]. by rewrite same_document.
Qed.

(** ** The review of histories *)
(** Every record is a valid history or a reason; nothing else is kept. *)
Definition valid_history (records : list pyval) (r : pydict) : Prop :=
  VDict r ∈ records ∧ _validate_history (VDict r) = Ok tt.
Lemma taken_valid records acc taken : foldR take_history acc records = Ok taken →
  (∀ r, r ∈ taken.1 ↔ r ∈ acc.1 ∨ valid_history records r) ∧
  (length taken.1 + length taken.2 = length acc.1 + length acc.2 + length records)%nat.
Proof.
  revert acc. induction records as [|v records IH]; intros acc; cbn [foldR].
  { intros [= <-]. split; [|cbn; lia]. intros r. unfold valid_history. rewrite elem_of_nil. tauto. }
  intros (acc1 & Ht & Hrun)%bind_Ok. apply IH in Hrun as [Hin Hlen]. unfold take_history in Ht.
  assert (∀ r, valid_history (v :: records) r ↔ v = VDict r ∧ _validate_history v = Ok tt ∨ valid_history records r) as Hcons.
  { intros r. unfold valid_history. rewrite elem_of_cons. split; [intros [[<-|?] ?]; auto|intros [[-> ?]|[? ?]]; auto]. }
  destruct (_validate_history v) as [[]|e] eqn:Ev.
  - injection Ht as <-. destruct v as [| | | | | | |d]; try done. cbn [fst snd] in *. split.
    + intros r. rewrite Hin, elem_of_app, list_elem_of_singleton, Hcons. split; [|naive_solver].
      intros [[?| ->]|?]; auto.
    + rewrite Hlen, length_app. cbn. lia.
  - destruct (caught e); [|done]. injection Ht as <-. cbn [fst snd] in *. split.
    + intros r. rewrite Hin, Hcons. naive_solver.
    + rewrite Hlen, length_app. cbn. lia.
Qed.
(** What makes a record the one to choose of the records [P] of its race. *)
Record choice (P : pydict → Prop) (r : pydict) : Prop := {
  co_in : P r;
  co_unheld : ∀ r', P r' → is_held r' = false;
  co_settled : ∀ r', P r' → _canonical (normal_settlement r') = _canonical (normal_settlement r);
  co_latest : ∃ t, prediction_instant r = Ok t ∧ ∀ r', P r' → ∃ t', prediction_instant r' = Ok t' ∧ t' ≤ t ∧
    (t' = t → _canonical (normal_record r') = _canonical (normal_record r)) }.
Lemma choice_ext P Q r : (∀ r, P r ↔ Q r) → choice P r ↔ choice Q r.
Proof.
  intros E. split; intros [Hi Hu Hs (t & Ht & Hl)]; split; try (by apply E); try (intros r' ?%E; auto); exists t;
    split; try done; intros r' ?%E; auto.
Qed.
Lemma one_canonical_true f l : one_canonical f l = Ok true → ∀ r r', r ∈ l → r' ∈ l → _canonical (f r) = _canonical (f r').
Proof.
  unfold one_canonical. intros (texts & Ht & [= Hl])%bind_Ok r r' Hr Hr'. apply mapR_Ok in Ht.
  assert (∀ x, x ∈ l → ∃ y, y ∈ remove_dups texts ∧ _canonical (f x) = Ok y) as Hy.
  { intros x Hx. apply list_elem_of_lookup in Hx as [i Hi].
    destruct (Forall2_lookup_l _ _ _ _ _ Ht Hi) as (y & Hy & E). exists y. split; [|done].
    apply elem_of_remove_dups. by eapply list_elem_of_lookup_2. }
  apply Nat.eqb_eq in Hl. destruct (remove_dups texts) as [|y [|]]; try done.
  destruct (Hy r Hr) as (y1 & ->%list_elem_of_singleton & ->). by destruct (Hy r' Hr') as (y2 & ->%list_elem_of_singleton & ->).
Qed.
Lemma one_canonical_false f l r : one_canonical f l = Ok false → r ∈ l →
  ∃ r', r' ∈ l ∧ _canonical (f r') ≠ _canonical (f r).
Proof.
  unfold one_canonical. intros (texts & Ht & [= Hl])%bind_Ok Hr. apply mapR_Ok in Ht.
  apply list_elem_of_lookup in Hr as [i Hi]. destruct (Forall2_lookup_l _ _ _ _ _ Ht Hi) as (y & Hy & E).
  destruct (decide (Exists (λ y', y' ≠ y) texts)) as [(y' & [j Hj]%list_elem_of_lookup & Hne)%list.Exists_exists|Hall].
  - destruct (Forall2_lookup_r _ _ _ _ _ Ht Hj) as (r' & Hr' & E'). exists r'. split; [by eapply list_elem_of_lookup_2|congruence].
  - exfalso. assert (remove_dups texts = [y]) as Er; [|by rewrite Er in Hl].
    assert (∀ x, x ∈ remove_dups texts → x = y) as Hx.
    { intros x Hx. rewrite elem_of_remove_dups in Hx. destruct (decide (x = y)); [done|]. destruct Hall. apply list.Exists_exists. by exists x. }
    pose proof (NoDup_remove_dups texts) as Hn. assert (y ∈ remove_dups texts) as Hin by (by eapply elem_of_remove_dups, list_elem_of_lookup_2).
    destruct (remove_dups texts) as [|a [|b l']]; [by apply not_elem_of_nil in Hin|f_equal; apply Hx; left|].
    rewrite list.NoDup_cons in Hn. destruct Hn as [Hna _]. destruct Hna. rewrite (Hx a), (Hx b) by (repeat constructor). left.
Qed.
Lemma foldl_max_ge (l : list Z) a : a ≤ foldl Z.max a l ∧ ∀ x, x ∈ l → x ≤ foldl Z.max a l.
Proof.
  revert a. induction l as [|y l IH]; intros a; cbn; [split; [done|by intros ? ?%not_elem_of_nil]|].
  destruct (IH (Z.max a y)) as [H1' H2']. split; [lia|]. intros x [->|Hx]%elem_of_cons; [lia|auto].
Qed.
Lemma foldl_max_in (l : list Z) a : foldl Z.max a l ∈ a :: l.
Proof.
  revert a. induction l as [|y l IH]; intros a; cbn; [left|]. specialize (IH (Z.max a y)). rewrite !elem_of_cons in *.
  destruct (Z.max_spec a y) as [[_ E]|[_ E]]; rewrite E in *; tauto.
Qed.
(** The records of the latest time. *)
Lemma tied_latest group times latest tied : mapR prediction_instant group = Ok times →
  latest = match times with t :: ts => foldl Z.max t ts | [] => 0 end →
  tied = map snd (List.filter (λ tr : Z * pydict, tr.1 =? latest) (zip times group)) →
  (∀ r, r ∈ tied ↔ r ∈ group ∧ prediction_instant r = Ok latest) ∧
  (∀ r, r ∈ group → ∃ t, prediction_instant r = Ok t ∧ t ≤ latest) ∧ (group ≠ [] → ∃ r, r ∈ tied).
Proof.
  intros Ht%mapR_Ok El ->. assert (∀ t, t ∈ times → t ≤ latest) as Hmax.
  { intros t Hin. destruct times as [|t0 ts]; [by apply not_elem_of_nil in Hin|]. subst latest.
    destruct (foldl_max_ge ts t0) as [? ?]. apply elem_of_cons in Hin as [->|?]; auto. }
  assert (∀ r, r ∈ map snd (List.filter (λ tr : Z * pydict, tr.1 =? latest) (zip times group)) ↔
    r ∈ group ∧ prediction_instant r = Ok latest) as Htied.
  { intros r. rewrite list_elem_of_fmap. setoid_rewrite list_elem_of_In. setoid_rewrite filter_In.
    split.
    + intros ([t r'] & -> & Hin & E%Z.eqb_eq). cbn in *. subst t. apply list_elem_of_In, list_elem_of_lookup in Hin as [i Hi].
      apply lookup_zip_Some in Hi as [Hi Hj]. rewrite <- list_elem_of_In. split; [by eapply list_elem_of_lookup_2|].
      destruct (Forall2_lookup_lr _ _ _ _ _ _ Ht Hj Hi). done.
    + rewrite <- list_elem_of_In. intros [[i Hi]%list_elem_of_lookup E]. exists (latest, r). split; [done|]. cbn.
      split; [|by rewrite Z.eqb_refl]. destruct (Forall2_lookup_l _ _ _ _ _ Ht Hi) as (t & Hj & Et).
      assert (t = latest) as -> by congruence. apply list_elem_of_In, (list_elem_of_lookup_2 _ i), lookup_zip_Some. done. }
  split_and!; [exact Htied| |].
  - intros r [i Hi]%list_elem_of_lookup. destruct (Forall2_lookup_l _ _ _ _ _ Ht Hi) as (t & Hj & Et). exists t.
    split; [done|]. by apply Hmax, (list_elem_of_lookup_2 _ i).
  - intros Hne. assert (latest ∈ times) as [i Hi]%list_elem_of_lookup.
    { destruct times as [|t0 ts]; [|subst latest; apply foldl_max_in]. by inversion Ht; subst. }
    destruct (Forall2_lookup_r _ _ _ _ _ Ht Hi) as (r & Hr & E). exists r. apply Htied. split; [|done].
    by eapply list_elem_of_lookup_2.
Qed.
Definition weight (rv : review) : nat := length (chosen_records rv) + removed rv + length (dropped rv).
Lemma review_group_step acc id group acc' : review_group acc (id, group) = Ok acc' → group ≠ [] →
  weight acc' = (weight acc + length group)%nat ∧
  (chosen_records acc' = chosen_records acc ∧ (∀ r, ¬ choice (λ r, r ∈ group) r) ∨
   ∃ r, chosen_records acc' = chosen_records acc ++ [r] ∧ choice (λ r, r ∈ group) r).
Proof.
  destruct acc as [sel hs why dup]. unfold review_group, weight. intros Hrun Hne.
  destruct (existsb is_held group) eqn:Eh.
  { injection Hrun as <-; cbn; rewrite length_app, repeat_length; split; [lia|left]. split; [done|].
    intros r [_ Hu _ _]. apply existsb_exists in Eh as (r' & Hr'%list_elem_of_In & E). by rewrite Hu in E. }
  apply bind_Ok in Hrun as (same & Hsame & Hrun). destruct same; cbn in Hrun.
  2:{ injection Hrun as <-; cbn; rewrite length_app, repeat_length; split; [lia|left]. split; [done|].
    intros r [Hin _ Hs _]. destruct (one_canonical_false _ _ _ Hsame Hin) as (r' & Hr' & []). by apply Hs. }
  apply bind_Ok in Hrun as (times & Ht & Hrun). set (latest := match times with t :: _ => _ | [] => _ end) in Hrun.
  destruct (tied_latest _ _ latest _ Ht eq_refl eq_refl) as (Htied & Hmax & Hsome).
  set (tied := map snd _) in *. apply bind_Ok in Hrun as (single & Hsingle & Hrun). destruct single; cbn in Hrun.
  2:{ injection Hrun as <-; cbn; rewrite length_app, repeat_length; split; [lia|left]. split; [done|].
    intros r [Hin _ _ (t & Hti & Hl)]. destruct (Hsome Hne) as (r0 & [Hr0 E0]%Htied).
    destruct (Hl r0 Hr0) as (t' & E' & Hle & _). destruct (Hmax r Hin) as (t'' & E'' & Hle').
    assert (t = latest) as -> by (rewrite E0 in E'; rewrite Hti in E''; injection E' as ->; injection E'' as ->; lia).
    destruct (one_canonical_false _ tied r Hsingle) as (r' & [Hr' Er']%Htied & []); [by apply Htied|].
    destruct (Hl r' Hr') as (t3 & E3 & _ & Hc). apply Hc. congruence. }
  destruct tied as [|r tied'] eqn:Et.
  { exfalso. unfold one_canonical in Hsingle. cbn in Hsingle. done. }
  injection Hrun as <-. cbn. assert (length group ≠ 0%nat) by (by destruct group). rewrite length_app. cbn. split; [lia|].
  right. exists r. split; [done|]. destruct (Htied r) as [[Hin Hi] _]; [left|]. split; [done| | |].
  - intros r' Hr'. destruct (is_held r') eqn:E; [|done]. exfalso. apply not_true_iff_false in Eh. apply Eh, existsb_exists.
    exists r'. by rewrite <- list_elem_of_In.
  - intros r' Hr'. by apply (one_canonical_true _ _ Hsame).
  - exists latest. split; [done|]. intros r' Hr'. destruct (Hmax r' Hr') as (t & Hti & Hle). exists t. split_and!; [done..|].
    intros ->. apply (one_canonical_true _ _ Hsingle); [|left]. by apply Htied.
Qed.
Lemma review_groups_run groups : ∀ acc rv, foldR review_group acc groups = Ok rv → Forall (λ ig, ig.2 ≠ []) groups →
  weight rv = (weight acc + sum_list (map (λ ig, length ig.2) groups))%nat ∧
  ∃ os, chosen_records rv = chosen_records acc ++ omap id os ∧
    Forall2 (λ (ig : string * list pydict) (o : option pydict), match o with
      | Some r => choice (λ r, r ∈ ig.2) r
      | None => ∀ r, ¬ choice (λ r, r ∈ ig.2) r end) groups os.
Proof.
  induction groups as [|[id group] groups IH]; intros acc rv; cbn [foldR].
  { intros [= <-] _. split; [cbn; lia|]. exists []. by rewrite app_nil_r. }
  intros (acc1 & Hstep & Hrun)%bind_Ok [Hne Hall]%list.Forall_cons. apply IH in Hrun as (Hw & os & Hc & Hos); [|done].
  apply review_group_step in Hstep as [Hw1 Hc1]; [|done]. split; [rewrite Hw, Hw1; cbn; lia|].
  destruct Hc1 as [[Hc1 Hno]|(r & Hc1 & Hr)].
  - exists (None :: os). split; [by rewrite Hc, Hc1|by constructor].
  - exists (Some r :: os). split; [rewrite Hc, Hc1; cbn; by rewrite <- (assoc_L (++))|by constructor].
Qed.
Lemma chosen_keys {A B} (key : B → A) groups (os : list (option B)) : Forall2 (λ k o, match o with Some r => key r = k | None => True end) groups os →
  map key (omap id os) `sublist_of` groups.
Proof. induction 1 as [|k [r|] ks os Hk _ IH]; cbn; [done|rewrite Hk|]; by constructor. Qed.
(** C40: the review counts every record once and uses one record per race.  Of the races
    of the valid histories, exactly those are evaluated none of whose records needs a
    human review (a dead heat, a withdrawal, a cancellation), whose settlements are the
    same event, and whose latest predictions are one and the same; and the record used is
    such a latest one. *)
Theorem review_sound records rv : review_of records = Ok rv →
  let of_race id r := valid_history records r ∧ race_of r = id in
  NoDup (map race_of (chosen_records rv)) ∧
  (∀ r, r ∈ chosen_records rv → choice (of_race (race_of r)) r) ∧
  (∀ r, choice (of_race (race_of r)) r → race_of r ∈ map race_of (chosen_records rv)) ∧
  (length (chosen_records rv) + removed rv + length (dropped rv) = length records)%nat.
Proof.
  intros (taken & Ht & Hrun)%bind_Ok of_race. destruct (taken_valid _ _ _ Ht) as [Hin Hlen].
  pose proof (group_on_ok race_of taken.1) as [Hn Hg Ha Hl]. set (groups := group_on race_of taken.1) in *.
  assert (∀ id g, (id, g) ∈ groups → ∀ r, r ∈ g ↔ of_race id r) as Hof.
  { intros id g [-> _]%Hg r. rewrite elem_at_key, Hin. unfold of_race. cbn. rewrite elem_of_nil. tauto. }
  destruct (review_groups_run _ _ _ Hrun) as (Hw & os & Hc & Hos).
  { apply list.Forall_forall. intros [id g] Hig. by apply Hg in Hig as [_ ?]. }
  cbn in Hc. rewrite Hc.
  assert (∀ r, r ∈ omap id os → ∃ g, (race_of r, g) ∈ groups ∧ choice (λ r, r ∈ g) r) as Hfrom.
  { intros r (o & [i Hi]%list_elem_of_lookup & Ho)%list_elem_of_omap. cbn in Ho. subst o.
    destruct (Forall2_lookup_r _ _ _ _ _ Hos Hi) as ([k g] & Hig%list_elem_of_lookup_2 & Hch). exists g.
    destruct (Hof _ _ Hig r) as [Hr _]. cbn in Hch. destruct (Hr (co_in _ _ Hch)) as [_ <-]. done. }
  split_and!.
  - apply (sublist_NoDup _ (map fst groups)); [done|]. apply chosen_keys, Forall2_fmap_l. apply Forall2_same_length_lookup.
    split; [by eapply Forall2_length|]. intros i [k g] [r|] Hi Ho; [|done]. cbn.
    pose proof (Forall2_lookup_lr _ _ _ _ _ _ Hos Hi Ho) as Hr. apply list_elem_of_lookup_2 in Hi.
    by destruct (proj1 (Hof _ _ Hi r) (co_in _ _ Hr)) as [_ ?].
  - intros r (g & Hig & Hch)%Hfrom. by apply (choice_ext (λ r, r ∈ g)), Hch; apply Hof.
  - intros r Hch. destruct (co_in _ _ Hch) as [Hv _]. assert (r ∈ taken.1) as Hr by (apply Hin; by right).
    apply Ha, list_elem_of_fmap in Hr as ([k g] & Ek & Hig). cbn in Ek. subst k. pose proof (Hof _ _ Hig) as Hgr.
    apply list_elem_of_lookup in Hig as [i Hi]. destruct (Forall2_lookup_l _ _ _ _ _ Hos Hi) as ([r0|] & Ho & Hr0).
    + apply list_elem_of_fmap. exists r0. split; [|apply list_elem_of_omap; exists (Some r0); split; [by eapply list_elem_of_lookup_2|done]].
      cbn in Hr0. by destruct (proj1 (Hgr r0) (co_in _ _ Hr0)) as [_ ->].
    + destruct (Hr0 r). by apply (choice_ext (λ r, r ∈ g) (of_race (race_of r))).
  - unfold weight in Hw. rewrite Hc, <- Hl in Hw. cbn in Hw, Hlen. lia.
Qed.
End facts.

(** ** Documents read back *)
(** What [json.loads] makes of the canonical text of a document: the entries of each
    dictionary in the order of their keys.  Every check of this file sees no difference. *)
Abbreviation js := json_sorted.
Definition values_read (d : pydict) : pydict := map (λ kv, (kv.1, js kv.2)) d.
Definition entries_read (d : pydict) : pydict := sorted_on fst (values_read d).
Lemma sort_values {A B} (g : A → B) (d : list (string * A)) :
  sorted_on fst (map (λ kv, (kv.1, g kv.2)) d) = map (λ kv, (kv.1, g kv.2)) (sorted_on fst d).
Proof. by apply (sorted_on_map fst fst (λ kv, (kv.1, g kv.2))). Qed.
Lemma js_dict d : js (VDict d) = VDict (entries_read d).
Proof. done. Qed.
Lemma js_get k d : dict_get k (entries_read d) = js <$> dict_get k d.
Proof.
  unfold entries_read. rewrite get_sorted. unfold values_read. induction d as [|[k0 v] d IH]; cbn; [done|].
  by destruct (String.eqb k0 k).
Qed.
Lemma js_get_or_none k d : get_or_none k (entries_read d) = js (get_or_none k d).
Proof. unfold get_or_none. rewrite js_get. by destruct (dict_get k d). Qed.
Lemma js_has k d : dict_has k (entries_read d) = dict_has k d.
Proof. unfold dict_has. rewrite js_get. by destruct (dict_get k d). Qed.
Lemma js_keys k d : k ∈ keys (entries_read d) ↔ k ∈ keys d.
Proof. unfold entries_read. rewrite keys_sorted_elem. unfold keys, values_read. by rewrite map_map. Qed.
Lemma js_without k d : without k (entries_read d) = entries_read (without k d).
Proof.
  unfold without, entries_read. rewrite filter_sorted. f_equal. unfold values_read. induction d as [|x d IH]; cbn; [done|].
  destruct (negb _); cbn; by rewrite IH.
Qed.
Lemma js_length d : length (entries_read d) = length d.
Proof. unfold entries_read. rewrite sorted_on_perm. apply length_map. Qed.
Lemma js_js v : js (js v) = js v.
Proof.
  induction v as [|b|z|f|s|l IH|l IH|d IH] using pyval_rec_ind; try done.
  1, 2: cbn; f_equal; rewrite map_map; apply map_ext_in; intros x Hx; rewrite list.Forall_forall in IH; by apply IH, list_elem_of_In.
  rewrite !js_dict. f_equal. unfold entries_read, values_read. rewrite <- (sort_values js), sorted_on_twice, map_map. f_equal.
  apply map_ext_in. intros x Hx%list_elem_of_In. rewrite list.Forall_forall in IH. cbn. by rewrite IH.
Qed.
(** Setting entries of a document read back. *)
Lemma js_set k v d : entries_read (dict_set k v d) = sorted_on fst (dict_set k (js v) (entries_read d)).
Proof.
  unfold entries_read. rewrite sorted_set. f_equal. unfold values_read.
  induction d as [|[k0 v0] d IH]; cbn; [done|]. destruct (String.eqb k0 k); cbn; [done|]. by rewrite IH.
Qed.
Lemma js_update d d' e : entries_read d = entries_read d' → entries_read (dict_update d e) = entries_read (dict_update d' e).
Proof.
  unfold dict_update. revert d d'. induction e as [|[k v] e IH]; intros d d' E; cbn; [done|]. apply IH. by rewrite !js_set, E.
Qed.
Lemma js_update_read d e : js (VDict (dict_update (entries_read d) e)) = js (VDict (dict_update d e)).
Proof. rewrite !js_dict. f_equal. apply js_update. pose proof (js_js (VDict d)) as E. rewrite !js_dict in E. by injection E. Qed.

(** The canonical texts, with their separators and their texts of strings and floats. *)
Section texts.
Context (text : string → string) (number : spec_float → string) (comma colon : string).
Fixpoint text_with (v : pyval) : string :=
  match v with
  | VNone => "null"
  | VBool b => if b then "true" else "false"
  | VInt z => z_str z
  | VFloat f => number f
  | VStr s => text s
  | VList l | VTuple l => ("[" ++ join comma (map text_with l) ++ "]")%string
  | VDict d =>
      let items := sorted_on fst (map (λ kv, (kv.1, text_with kv.2)) d) in
      ("{" ++ join comma (map (λ ks, (text ks.1 ++ colon ++ ks.2)%string) items) ++ "}")%string
  end.
Lemma text_with_read v : text_with (js v) = text_with v.
Proof.
  induction v as [|b|z|f|s|l IH|l IH|d IH] using pyval_rec_ind; try done.
  1, 2: cbn; do 3 f_equal; rewrite map_map; apply map_ext_in; intros x Hx; rewrite list.Forall_forall in IH; by apply IH, list_elem_of_In.
  rewrite js_dict. cbn [text_with]. cbv zeta. do 4 f_equal. unfold entries_read, values_read.
  rewrite sort_values, sorted_on_twice, <- sort_values, map_map. f_equal. apply map_ext_in.
  intros x Hx%list_elem_of_In. rewrite list.Forall_forall in IH. cbn. by rewrite IH.
Qed.
End texts.
Lemma forallb_sorted f (d : pydict) : forallb f (sorted_on fst d) = forallb f d.
Proof.
  apply eq_iff_eq_true. rewrite !forallb_forall. setoid_rewrite <- list_elem_of_In. by setoid_rewrite sorted_on_perm.
Qed.
Lemma finite_read v : all_finite (js v) = all_finite v.
Proof.
  induction v as [|b|z|f|s|l IH|l IH|d IH] using pyval_rec_ind; try done.
  1, 2: cbn; induction IH as [|x l Hx _ IH]; cbn; [done|]; by rewrite Hx, IH.
  rewrite js_dict. cbn [all_finite]. unfold entries_read. rewrite forallb_sorted. unfold values_read.
  induction IH as [|x d Hx _ IH]; cbn; [done|]. cbn in Hx. by rewrite Hx, IH.
Qed.
Lemma canonical_with v : canonical v = if all_finite v then Ok (text_with json_text json_float ", " ": " v)
  else raise ValueError "Out of range float values are not JSON compliant".
Proof. done. Qed.
Lemma dumps_values l : Forall (λ v, json_dumps v = if all_finite v then Ok (text_with json_str float_repr "," ":" v)
    else raise ValueError "Out of range float values are not JSON compliant") l →
  mapR json_dumps l = if forallb all_finite l then Ok (map (text_with json_str float_repr "," ":") l)
    else raise ValueError "Out of range float values are not JSON compliant".
Proof.
  induction 1 as [|x l Hx _ IH]; cbn [mapR forallb map]; [done|]. rewrite Hx. destruct (all_finite x); [|done].
  cbn [andb]. change (Ok ?a ≫= ?f) with (f a). cbv beta. rewrite IH. by destruct (forallb all_finite l).
Qed.
Lemma dumps_with v : json_dumps v = if all_finite v then Ok (text_with json_str float_repr "," ":" v)
  else raise ValueError "Out of range float values are not JSON compliant".
Proof.
  induction v as [|b|z|f|s|l IH|l IH|d IH] using pyval_rec_ind; try done.
  1, 2: cbn [json_dumps all_finite text_with]; rewrite (dumps_values _ IH); by destruct (forallb all_finite _).
  change (json_dumps (VDict d)) with (kss ← dump_entries d;
    Ok ("{" ++ join "," (map (λ ks, (json_str ks.1 ++ ":" ++ ks.2)%string) (sorted_on fst kss)) ++ "}")%string).
  cbn [all_finite text_with]. enough (dump_entries d = if forallb (λ kv, all_finite kv.2) d
    then Ok (map (λ kv, (kv.1, text_with json_str float_repr "," ":" kv.2)) d)
    else raise ValueError "Out of range float values are not JSON compliant") as ->
    by by destruct (forallb _ d).
  induction IH as [|[k x] d Hx _ IH]; cbn [dump_entries forallb map fst snd]; [done|]. cbn [snd] in Hx. rewrite Hx. destruct (all_finite x); [|done].
  cbn [andb]. change (s ← Ok (text_with json_str float_repr "," ":" x); r ← dump_entries d; Ok ((k, s) :: r)) with
    (r ← dump_entries d; Ok ((k, text_with json_str float_repr "," ":" x) :: r)). rewrite IH. by destruct (forallb _ d).
Qed.
Lemma canonical_read v : canonical (js v) = canonical v.
Proof. by rewrite !canonical_with, finite_read, text_with_read. Qed.
Lemma dumps_read v : json_dumps (js v) = json_dumps v.
Proof. by rewrite !dumps_with, finite_read, text_with_read. Qed.
Lemma digest_read v : digest (js v) = digest v.
Proof. unfold digest. by rewrite dumps_read. Qed.
Lemma digest_entries d : digest (VDict (entries_read d)) = digest (VDict d).
Proof. apply (digest_read (VDict d)). Qed.

(** ** Checks of documents read back *)
(** When [r] returns, [r'] returns its image. *)
Definition follows {A B} (g : A → B) (r : result A) (r' : result B) : Prop := ∀ x, r = Ok x → r' = Ok (g x).
Lemma follows_same {A} (r : result A) : follows id r r.
Proof. by intros x. Qed.
Lemma follows_ok {A B} (g : A → B) x y : y = g x → follows g (Ok x) (Ok y).
Proof. by intros -> ? [= ->]. Qed.
Lemma follows_raise {A B} (g : A → B) c msg r : follows g (raise c msg) r.
Proof. by intros x. Qed.
Lemma follows_bind {A B A' B'} (g : A → A') (h : B → B') r r' f f' : follows g r r' →
  (∀ x, r = Ok x → follows h (f x) (f' (g x))) → follows h (r ≫= f) (r' ≫= f').
Proof. intros Hr Hf y (x & Hx & Hy)%bind_Ok. rewrite (Hr x Hx). by apply Hf. Qed.
Lemma follows_reject (b b' : bool) c msg : (b' = true → b = true) → follows id (reject_if b c msg) (reject_if b' c msg).
Proof. intros Hb [] ->%reject_if_Ok. by destruct b'; [discriminate Hb|]. Qed.
Lemma follows_foldR {A B C} (f : A → B → result A) (f' : A → C → result A) (g : B → C) a l :
  (∀ a x, x ∈ l → follows id (f a x) (f' a (g x))) → follows id (foldR f a l) (foldR f' a (map g l)).
Proof.
  revert a. induction l as [|x l IH]; intros a Hf; cbn; [apply follows_same|].
  apply (follows_bind id); [apply Hf; left|]. intros a' _. apply IH. intros a'' y Hy. apply Hf. by right.
Qed.
Lemma follows_mapR {A B C D} (f : A → result B) (f' : C → result D) (g : A → C) (h : B → D) l :
  (∀ x, x ∈ l → follows h (f x) (f' (g x))) → follows (map h) (mapR f l) (mapR f' (map g l)).
Proof.
  induction l as [|x l IH]; intros Hf; cbn; [by apply follows_ok|].
  apply (follows_bind h); [apply Hf; left|]. intros y _. apply (follows_bind (map h)); [apply IH; intros z Hz; apply Hf; by right|].
  intros ys _. by apply follows_ok.
Qed.
Lemma getitem_read v k : follows js (getitem v k) (getitem (js v) k).
Proof.
  destruct v as [| | | | | | |d]; try (by intros ?). rewrite js_dict. cbn [getitem]. rewrite js_get.
  destruct (dict_get k d); [by apply follows_ok|apply follows_raise].
Qed.
Lemma get_read v k : follows js (get v k) (get (js v) k).
Proof.
  destruct v as [| | | | | | |d]; try (by intros ?). rewrite js_dict. unfold get. cbn. rewrite js_get. apply follows_ok.
  by destruct (dict_get k d).
Qed.
Lemma truthy_read v : truthy (js v) = truthy v.
Proof.
  destruct v as [| | | | |l|l|d]; try done; [by destruct l..|]. rewrite js_dict. cbn.
  pose proof (js_length d). by destruct d, (entries_read _).
Qed.
Lemma get_dict_read v k : follows js (get_dict v k) (get_dict (js v) k).
Proof.
  apply (follows_bind js); [apply get_read|]. intros x _. apply follows_ok. unfold py_or. rewrite truthy_read. by destruct (truthy x).
Qed.
Lemma is_text_read v s : is_text (js v) s = is_text v s.
Proof. by destruct v. Qed.
Lemma is_true_read v : is_true (js v) = is_true v.
Proof. by destruct v. Qed.
Lemma is_false_read v : is_false (js v) = is_false v.
Proof. by destruct v. Qed.
Lemma is_none_read v : is_none (js v) = is_none v.
Proof. by destruct v. Qed.
Lemma is_str_read v : is_str (js v) = is_str v.
Proof. by destruct v. Qed.
Lemma in_strs_read v l : in_strs (js v) l = in_strs v l.
Proof. by destruct v. Qed.
Lemma hex_text_read n v : hex_text n (js v) = hex_text n v.
Proof. by destruct v. Qed.
Lemma is_count_read v n : is_count (js v) n = is_count v n.
Proof. by destruct v. Qed.
Lemma number_read p v : _number p (js v) = _number p v.
Proof. by destruct v. Qed.
Lemma float_of_read v : float_of (js v) = float_of v.
Proof. by destruct v. Qed.
Lemma scaled_read v : scaled (js v) = scaled v.
Proof. by destruct v. Qed.
Lemma as_int_read l : omap as_int (map js l) = omap as_int l.
Proof. induction l as [|x l IH]; cbn; [done|]. rewrite IH. by destruct x. Qed.
Lemma ints_read l : forallb type_is_int l = true → map js l = l.
Proof. induction l as [|x l IH]; cbn; [done|]. intros [Hx Hl]%andb_true_iff. rewrite IH by done. by destruct x. Qed.
Lemma is_list_read v : is_list v = true → is_list (js v) = true.
Proof. by destruct v. Qed.
Create HintDb read.
#[export] Hint Rewrite js_get_or_none js_get js_has js_length js_without is_text_read is_true_read is_false_read is_none_read is_str_read in_strs_read
  hex_text_read is_count_read number_read float_of_read scaled_read truthy_read canonical_read dumps_read digest_read digest_entries : read.
Ltac on_read := rewrite ?js_dict; autorewrite with read.
(** A step of a check: the same test, or one that a document read back passes as well. *)
Ltac same_test := apply (follows_bind id); [apply follows_reject; on_read; done|intros [] _].

(** *** ml/category_selection.py *)
Lemma conditions_read d : follows id (declared_conditions d) (declared_conditions (entries_read d)).
Proof.
  unfold declared_conditions. on_read. destruct (dict_get "race_conditions" d) as [v|]; [|apply follows_same]. cbn.
  destruct v as [| | | | | | |c]; try (by intros ?). on_read. unfold require_standard_conditions.
  apply (follows_bind id); [apply follows_reject|intros [] _].
  - rewrite !negb_true_iff, !andb_false_iff. intros [Hk|Hk]; [left|right; by cbn in *; revert Hk; on_read].
    apply not_true_iff_false. apply not_true_iff_false in Hk. contradict Hk. rewrite forallb_forall in *.
    intros k Hin. apply Hk. revert Hin. by rewrite <- !list_elem_of_In, js_keys.
  - same_test. cbv zeta. on_read. apply (follows_bind id); [apply follows_reject|intros [] _].
    + rewrite !negb_true_iff. intros Hl. apply not_true_iff_false. apply not_true_iff_false in Hl. contradict Hl. by apply is_list_read.
    + apply follows_reject. by on_read.
Qed.
Definition keyed (v : pyval) : Prop := ∃ row key, v = VDict row ∧ get_or_none "combo_key" row = VStr key.
Lemma check_row_read n acc v : follows id (check_row n acc v) (check_row n acc (js v)).
Proof.
  destruct v as [| | | | | | |row]; try (by intros ?). on_read. unfold check_row. cbv zeta. on_read.
  destruct (get_or_none "combo_key" row); try (by intros ?). cbn [json_sorted].
  apply (follows_bind id); [apply follows_same|]. intros [key combo] _. cbn [id].
  same_test. apply (follows_bind id); [apply follows_same|]. intros good _. same_test.
  apply (follows_bind id).
  { destruct (dict_get "combo" row) as [[| | | | |l| |]|]; try (by intros ?). cbn. intros [] Hl%reject_if_Ok%negb_false_iff.
    apply andb_true_iff in Hl as Hl'. destruct Hl' as [Hi _]. by rewrite ints_read, Hl. }
  intros [] _. apply (follows_bind id).
  { destruct (is_none (get_or_none "odds" row)); apply follows_same. }
  intros [] _. same_test. apply (follows_bind id).
  { apply follows_reject. cbn [existsb PHASE32_FIELDS]. by on_read. }
  intros [] _. apply follows_same.
Qed.
Lemma check_row_keyed n acc v acc' : check_row n acc v = Ok acc' → keyed v.
Proof.
  destruct v as [| | | | | | |row]; try done. unfold check_row. cbv zeta. destruct (get_or_none "combo_key" row) eqn:E; try done.
  intros _. by eexists _, _.
Qed.
Lemma scores_read rows count : follows id (validate_model_scores rows count) (validate_model_scores (js rows) (js count)).
Proof.
  unfold validate_model_scores.
  apply (follows_bind id).
  { destruct count; by intros ?. }
  intros n _. destruct rows as [| | | | |l| |]; try (by intros ?). cbn [json_sorted id]. rewrite length_map.
  same_test. apply (follows_bind id); [apply follows_foldR; intros; apply check_row_read|]. intros acc _. apply follows_same.
Qed.
Lemma scores_keyed rows count k : validate_model_scores rows count = Ok k → ∃ l, rows = VList l ∧ Forall keyed l.
Proof.
  unfold validate_model_scores. intros Hrun. inv_result. destruct rows as [| | | | |l| |]; try done. exists l. split; [done|]. inv_result.
  match goal with H : foldR _ ?a l = Ok _ |- _ => revert H; generalize a end. clear. induction l as [|v l IH]; intros acc Hrun; [done|].
  apply bind_Ok in Hrun as (acc' & Hv & Hl). constructor; [by eapply check_row_keyed|by eapply IH].
Qed.
(** The selection made of a table read back. *)
Lemma table_rows_read l : omap row_of (map js l) = map entries_read (omap row_of l).
Proof. induction l as [|v l IH]; cbn; [done|]. rewrite IH. by destruct v. Qed.
Lemma keyed_rows l : Forall keyed l → ∀ row, row ∈ omap row_of l → ∃ key, get_or_none "combo_key" row = VStr key.
Proof.
  intros Hl row (v & Hv & E)%list_elem_of_omap. rewrite list.Forall_forall in Hl. destruct (Hl v Hv) as (row' & key & -> & Hk).
  injection E as <-. by exists key.
Qed.
Lemma insert_by_read (key : pydict → Z) x l : (∀ row, key (entries_read row) = key row) →
  insert_by key (entries_read x) (map entries_read l) = map entries_read (insert_by key x l).
Proof. intros Hk. induction l as [|y l IH]; cbn; [done|]. rewrite !Hk, IH. by destruct (_ <=? _). Qed.
Lemma ranked_read l : sorted_by (λ row, - probability row) (map entries_read l) = map entries_read (sorted_by (λ row, - probability row) l).
Proof.
  rewrite !sorted_by_eq. induction l as [|x l IH]; cbn; [done|]. rewrite IH. apply insert_by_read.
  intros row. unfold probability. by on_read.
Qed.
Section picks.
Context (ranked : list pydict) (Hkeyed : ∀ row, row ∈ ranked → ∃ key, get_or_none "combo_key" row = VStr key).
Lemma key_read row : row ∈ ranked → combo_key (entries_read row) = combo_key row.
Proof. intros (key & Hk)%Hkeyed. unfold combo_key. on_read. by rewrite Hk. Qed.
Lemma eligible_read r used : eligible r used (map entries_read ranked) = map entries_read (eligible r used ranked).
Proof.
  unfold eligible. destruct (is_hit r); [done|]. assert (∀ row, in_band r (entries_read row) = in_band r row) as Hb.
  { intros row. unfold in_band, odds_known. by on_read. }
  assert (∀ row, row ∈ ranked → combo_key (entries_read row) = combo_key row) as Hk by apply key_read. revert Hk. clear -Hb.
  induction ranked as [|row l IH]; intros Hk; cbn; [done|]. rewrite Hb, Hk by left. rewrite IH by (intros; apply Hk; by right).
  by destruct (negb _ && _).
Qed.
Definition choice_read (c : chosen) : chosen := Chosen (chosen_rule c) (available c) (map entries_read (picks c)).
Lemma category_read used cats r : select_category (map entries_read ranked) (used, map choice_read cats) r =
  let '(used', cats') := select_category ranked (used, cats) r in (used', map choice_read cats').
Proof.
  unfold select_category. rewrite eligible_read, length_map, firstn_map, map_app. f_equal. f_equal. f_equal. rewrite map_map. apply map_ext_in.
  intros row Hin%list_elem_of_In. apply key_read. pose proof (eligible_sublist r used ranked) as Hs.
  eapply elem_of_submseteq; [|by apply sublist_submseteq]. eapply elem_of_submseteq; [exact Hin|]. apply sublist_submseteq, sublist_take.
Qed.
Lemma categories_read rules used cats : foldl (select_category (map entries_read ranked)) (used, map choice_read cats) rules =
  let '(used', cats') := foldl (select_category ranked) (used, cats) rules in (used', map choice_read cats').
Proof.
  revert used cats. induction rules as [|r rules IH]; intros used cats; [done|]. cbn [foldl]. rewrite category_read.
  destruct (select_category ranked (used, cats) r) as [used1 cats1]. apply IH.
Qed.
End picks.
Lemma selected_read rows : (∀ row, row ∈ rows → ∃ key, get_or_none "combo_key" row = VStr key) →
  select_rows (map entries_read rows) = let '(used, cats) := select_rows rows in (used, map choice_read cats).
Proof.
  intros Hk. unfold select_rows. rewrite ranked_read. apply (categories_read _) with (cats := []). intros row Hrow. apply Hk.
  by rewrite sorted_by_perm in Hrow.
Qed.
Lemma js_entry d k v w e : js v = js w → js (VDict (d ++ (k, v) :: e)) = js (VDict (d ++ (k, w) :: e)).
Proof. intros E. rewrite !js_dict. unfold entries_read, values_read. do 2 f_equal. rewrite !map_app. cbn -[json_sorted]. by rewrite E. Qed.
Lemma category_value_read k c : js (category_value k (choice_read c)) = js (category_value k c).
Proof.
  unfold category_value. cbv zeta. cbn [choice_read chosen_rule picks available]. rewrite length_map.
  assert (map js (imap (pick_value (chosen_rule c)) (map entries_read (picks c))) = map js (imap (pick_value (chosen_rule c)) (picks c))) as Ep.
  { generalize (chosen_rule c) as r. intros r. change map with (@fmap list _) at 1 3. rewrite !fmap_imap. 
    apply list_eq. intros i. rewrite !list_lookup_imap, list_lookup_fmap. destruct (picks c !! i) as [row|]; [|done].
    cbn [fmap option_fmap option_map]. unfold compose, pick_value. f_equal. apply js_update_read. }
  apply (js_entry [_; _; _; _] "picks" _ _ [_]). cbn [json_sorted]. by rewrite Ep.
Qed.
Lemma categories_value_read rows count cats d : select_model_categories rows count = Ok (cats, d) →
  ∃ cats' d', select_model_categories (js rows) (js count) = Ok (cats', d') ∧ js (VDict d') = js (VDict d).
Proof.
  unfold select_model_categories. intros (k & Hk & Hrun)%bind_Ok. rewrite (scores_read _ _ _ Hk). change (Ok ?a ≫= ?f) with (f a).
  cbv beta. destruct (scores_keyed _ _ _ Hk) as (l & -> & Hl). cbn [json_sorted table_rows id] in *. rewrite table_rows_read, selected_read by by apply keyed_rows.
  destruct (select_rows (omap row_of l)) as [used cs]. injection Hrun as <- <-. eexists _, _. split; [done|].
  assert (∀ f : nat → bool, map (λ c, VStr (category (chosen_rule c))) (List.filter (λ c, f (length (picks c))) (map choice_read cs)) =
    map (λ c, VStr (category (chosen_rule c))) (List.filter (λ c, f (length (picks c))) cs)) as Hf.
  { intros f. induction cs as [|c cs IH]; cbn; [done|]. rewrite length_map. destruct (f _); cbn; by rewrite IH. }
  pose proof (Hf (λ n, (n =? 3)%nat)) as Hc. apply (f_equal length) in Hc. rewrite !length_map in Hc.
  unfold complete. rewrite Hc, (Hf (λ n, negb (n =? 3)%nat)).
  assert (js (VDict (map (λ c, (category (chosen_rule c), category_value k c)) (map choice_read cs))) =
    js (VDict (map (λ c, (category (chosen_rule c), category_value k c)) cs))) as Hv.
  { rewrite !js_dict. unfold entries_read, values_read. do 2 f_equal. rewrite !map_map. apply map_ext. intros c. cbn -[json_sorted category_value].
    by rewrite category_value_read. }
  by apply (js_entry [_; _; _; _; _; _] "categories" _ _ [_; _; _; _]).
Qed.

(** *** ml/offline_preview.py *)
Lemma disabled_read d flags : follows id (require_disabled d flags) (require_disabled (entries_read d) flags).
Proof. induction flags as [|k flags IH]; cbn; [apply follows_same|]. same_test. apply IH. Qed.
Lemma ranking_row_read count acc v : follows id (ranking_row count acc v) (ranking_row count acc (js v)).
Proof.
  destruct acc as [[seen m] rk]. destruct v as [| | | | | | |row]; try (by intros ?). on_read. unfold ranking_row. cbv zeta. on_read.
  destruct (get_or_none "car_number" row); try (by intros ?). cbn [json_sorted].
  same_test. apply (follows_bind id); [apply follows_reject|intros [] _].
  { by destruct (get_or_none "rank" row). }
  apply (follows_bind id); [apply follows_same|]. intros good _. same_test. apply follows_same.
Qed.
Lemma rankings_read count d positions : follows id (check_rankings count d positions) (check_rankings count (entries_read d) positions).
Proof.
  induction positions as [|p positions IH]; cbn; [apply follows_same|]. apply (follows_bind id); [|intros [] _; apply IH].
  unfold check_ranking. on_read. destruct (get_or_none p d) as [| | | | |rows| |]; try (by intros ?). cbn [json_sorted]. rewrite length_map.
  same_test. apply (follows_bind id); [apply follows_foldR; intros; apply ranking_row_read|]. intros acc _. apply follows_same.
Qed.
Lemma selection_read d scores count : follows id (check_selection d scores count) (check_selection (entries_read d) (js scores) (js count)).
Proof.
  unfold check_selection. on_read. destruct (dict_get "selected_predictions" d) as [v|]; [|apply follows_same]. cbn [fmap option_fmap option_map].
  intros x ([cats e] & He & Hrun)%bind_Ok. destruct (categories_value_read _ _ _ _ He) as (cats' & e' & -> & E).
  change (Ok ?a ≫= ?f) with (f a). cbv beta. rewrite canonical_read. cbn [snd] in *. by rewrite <- (canonical_read (VDict e')), E, canonical_read.
Qed.
Lemma preview_read v : follows id (validate_preview v) (validate_preview (js v)).
Proof.
  destruct v as [| | | | | | |d]; try (by intros ?). on_read. unfold validate_preview. on_read. same_test.
  apply (follows_bind id); [apply conditions_read|]. intros [] _.
  apply (follows_bind id); [apply follows_reject; cbn [forallb EXPECTED fst snd]; on_read; done|]. intros [] _.
  apply (follows_bind id); [apply disabled_read|]. intros [] _.
  destruct (get_or_none "input_quality" d) as [| | | | | | |quality]; try (by intros ?). on_read. cbv zeta. on_read.
  apply (follows_bind id); [by destruct (get_or_none "rider_count" quality); intros ?|]. intros n _.
  apply (follows_bind id); [apply scores_read|]. intros known Hk. destruct (scores_keyed _ _ _ Hk) as (l & -> & _). cbn [id].
  apply (follows_bind id); [apply follows_reject; cbn [json_sorted]; rewrite length_map; on_read; done|]. intros [] _.
  apply (follows_bind id); [apply selection_read|]. intros [] _.
  destruct (get_or_none "position_rankings" d) as [| | | | | | |rankings]; try (by intros ?). apply rankings_read.
Qed.

(** *** ml/model_history.py *)
Lemma values_dumps d : json_dumps (VDict (values_read d)) = json_dumps (VDict d).
Proof.
  rewrite <- (dumps_read (VDict (values_read d))), <- (dumps_read (VDict d)). f_equal. rewrite !js_dict. unfold entries_read. f_equal. f_equal.
  unfold values_read. rewrite map_map. apply map_ext. intros kv. cbn. by rewrite js_js.
Qed.
Lemma differs_read a b a' b' : json_dumps a' = json_dumps a → json_dumps b' = json_dumps b → differs a' b' = differs a b.
Proof. unfold differs, _canonical. by intros -> ->. Qed.
Lemma safety_read d : _safety (entries_read d) = _safety d.
Proof.
  unfold _safety. set (e := map (λ kv, (kv.1, get_or_none kv.1 d)) SAFETY).
  assert (map (λ kv, (kv.1, get_or_none kv.1 (entries_read d))) SAFETY = values_read e) as ->.
  { unfold values_read, e. rewrite map_map. apply map_ext. intros kv. cbn -[json_sorted]. by on_read. }
  by rewrite (differs_read (VDict e) (VDict SAFETY)); [|apply values_dumps|].
Qed.
Section read_back.
Context `{Readers} `{Calendar}.
Lemma iso_read v name : Settle._iso (js v) name = Settle._iso v name.
Proof. by destruct v. Qed.
Lemma iso_at_read v k name : follows id (iso_at v k name) (iso_at (js v) k name).
Proof. apply (follows_bind js); [apply get_read|]. intros x _. rewrite iso_read. apply follows_same. Qed.
Lemma race_key_read v : follows id (race_key v) (race_key (js v)).
Proof.
  destruct v as [| | | | | | |d]; try (by intros ?). on_read. unfold race_key. cbv zeta. on_read.
  apply (follows_bind id).
  { destruct (get_or_none "date" d); by intros ?. }
  intros day _. destruct (get_or_none "venue" d); try (by intros ?). cbn [json_sorted].
  apply (follows_bind id); [apply follows_same|]. intros [] _. destruct (get_or_none "race_number" d); by intros ?.
Qed.
Lemma snapshot_read v b : follows id (validate_snapshot v b) (validate_snapshot (js v) b).
Proof.
  unfold validate_snapshot. apply (follows_bind id); [apply follows_same|]. intros [] _.
  destruct v as [| | | | | | |d]; try (by intros ?). rewrite js_dict. unfold _digest. cbv zeta. on_read.
  same_test. rewrite safety_read. apply (follows_bind id); [apply follows_same|]. intros [] _. same_test.
  apply (follows_bind id); [apply follows_same|]. intros sha _. same_test.
  apply (follows_bind id); [apply preview_read|]. intros [] _.
  apply (follows_bind id).
  { destruct (get_or_none "prediction" d); try (by intros ?). on_read. apply follows_reject. by on_read. }
  intros [] _. apply (follows_bind js); [apply get_dict_read|]. intros artifact _. apply (follows_bind js); [apply get_read|]. intros scope _.
  same_test. apply (follows_bind js); [apply get_read|]. intros asha _. same_test.
  apply (follows_bind id); [apply iso_at_read|]. intros trained _. apply (follows_bind id); [apply iso_at_read|]. intros generated _.
  rewrite <- js_dict. apply (follows_bind id); [apply iso_at_read|]. intros captured _. apply (follows_bind id); [apply iso_at_read|]. intros scheduled _.
  same_test. apply (follows_bind js); [apply get_read|]. intros race _. apply (follows_bind id); [apply race_key_read|]. intros key _.
  same_test. apply (follows_bind id); [apply iso_at_read|]. intros start _. same_test.
  apply (follows_bind id); [apply follows_same|]. intros day _. apply (follows_bind js); [apply getitem_read|]. intros date _.
  apply follows_reject. by on_read.
Qed.
(** The rows of the table of a valid prediction name their tickets. *)
Lemma preview_keyed v : validate_preview v = Ok tt → ∃ p l, v = VDict p ∧ get_or_none "trifecta_scores" p = VList l ∧ Forall keyed l.
Proof.
  destruct v as [| | | | | | |p]; try done. unfold validate_preview. intros Hrun. inv_result.
  destruct (get_or_none "input_quality" p) as [| | | | | | |quality]; try done. inv_result.
  match goal with E : validate_model_scores _ _ = Ok _ |- _ => apply scores_keyed in E as (l & ? & ?) end. by exists p, l.
Qed.
Lemma snapshot_preview v b : validate_snapshot v b = Ok tt → ∃ d, v = VDict d ∧ validate_preview (get_or_none "prediction" d) = Ok tt.
Proof.
  unfold validate_snapshot. intros Hrun. inv_result. destruct v as [| | | | | | |d]; try done. inv_result. exists d. split; [done|].
  match goal with E : validate_preview _ = Ok ?u |- _ => by destruct u end.
Qed.
Lemma same_keys_read d fields : same_keys (entries_read d) fields = same_keys d fields.
Proof.
  unfold same_keys. f_equal.
  - apply eq_iff_eq_true. rewrite !forallb_forall. setoid_rewrite <- list_elem_of_In. by setoid_rewrite js_keys.
  - induction fields as [|k fields IH]; cbn; [done|]. by rewrite js_has, IH.
Qed.
Lemma in_list_read s l : in_list (VStr s) (map js l) = in_list (VStr s) l.
Proof. unfold in_list. induction l as [|v l IH]; cbn -[py_eqb]; [done|]. rewrite IH. f_equal. by destruct v. Qed.
Lemma normal_read snapshot s : validate_snapshot snapshot true = Ok tt →
  follows id (check_normal snapshot s) (check_normal (js snapshot) (entries_read s)).
Proof.
  intros (d & -> & (p & l & Ep & El & Hl)%preview_keyed)%snapshot_preview. unfold check_normal.
  apply (follows_bind js); [apply getitem_read|]. intros prediction Hp%getitem_Ok. destruct Hp as [-> _]. cbn [field]. rewrite Ep.
  apply (follows_bind (map js)).
  { unfold table_keys. apply (follows_bind js); [apply getitem_read|]. intros scores [-> _]%getitem_Ok. cbn [field]. rewrite El.
    apply (follows_bind (map js)); [by apply follows_ok|]. intros rows [= <-]. 
    apply (follows_bind (map js)); [apply follows_mapR; intros; apply getitem_read|]. intros ks Hks%mapR_Ok.
    assert (forallb hashable (map js ks) = true) as ->; [|by destruct (forallb hashable ks); intros ? [= <-]].
    rewrite forallb_forall. intros k (k0 & <- & Hk%list_elem_of_In)%in_map_iff. apply list_elem_of_lookup in Hk as [i Hi].
    destruct (Forall2_lookup_r _ _ _ _ _ Hks Hi) as (row & Hrow & Hget). rewrite list.Forall_forall in Hl.
    destruct (Hl row) as (r & key & -> & Hkey); [by eapply list_elem_of_lookup_2|]. apply getitem_Ok in Hget as [-> _]. cbn [field]. by rewrite Hkey. }
  intros ks _. cbv zeta. on_read. apply (follows_bind id).
  { apply follows_reject. destruct (get_or_none "outcome_combo" s); try done. change (js (VStr ?t)) with (VStr t). by rewrite in_list_read. }
  intros [] _. apply (follows_bind id); [apply follows_same|]. intros good _. apply follows_reject. done.
Qed.
Lemma car_read count c : car_within (js count) (js c) = car_within count c.
Proof. by destruct c, count. Qed.
Lemma withdrawn_read snapshot s : follows id (check_withdrawn snapshot s) (check_withdrawn (js snapshot) (entries_read s)).
Proof.
  unfold check_withdrawn. apply (follows_bind js); [apply getitem_read|]. intros prediction _.
  apply (follows_bind js); [apply getitem_read|]. intros quality _. apply (follows_bind js); [apply getitem_read|]. intros count _. on_read.
  destruct (get_or_none "withdrawn_car_numbers" s) as [| | | | |l| |]; try (by intros ?). destruct l as [|c l]; [by intros ?|].
  change (js (VList (c :: l))) with (VList (js c :: map js l)). cbv iota beta. change (js c :: map js l) with (map js (c :: l)).
  generalize (c :: l). intros cs. apply (follows_bind id).
  - induction cs as [|x cs IH]; cbn [existsR map]; [apply follows_same|]. rewrite car_read. destruct (car_within count x) as [w|]; [|by intros ?].
    destruct w; [apply IH|apply follows_same].
  - intros bad _. cbn [id]. rewrite as_int_read, length_map. apply follows_same.
Qed.
Lemma settle_read snapshot settlement b :
  follows values_read (settle_snapshot snapshot settlement b) (settle_snapshot (js snapshot) (js settlement) b).
Proof.
  unfold settle_snapshot. apply (follows_bind id); [apply snapshot_read|]. intros [] Hs.
  destruct (validated _ _ Hs) as (-> & _).
  apply (follows_bind js); [apply getitem_read|]. intros race_id Hid.
  assert (∃ key, race_id = VStr key) as [key ->].
  { destruct (validated _ _ Hs) as (_ & d & _ & key & -> & _ & _ & Hk & _). exists key. apply getitem_Ok in Hid as [-> _]. done. }
  destruct settlement as [| | | | | | |s]; try (by intros ?). rewrite js_dict. cbv zeta. on_read.
  apply (follows_bind id); [apply follows_reject; by destruct (get_or_none "race_id" s)|]. intros [] _.
  assert (default (VStr "normal") (js <$> dict_get "result_status" s) = js (default (VStr "normal") (dict_get "result_status" s))) as ->.
  { by destruct (dict_get "result_status" s). }
  set (given := default (VStr "normal") (dict_get "result_status" s)). 
  apply (follows_bind id); [apply follows_reject; on_read; done|]. intros [] Hg%reject_if_Ok%negb_false_iff.
  destruct given as [| | | |status| | |] eqn:Eg; try done. change (js (VStr status)) with (VStr status). cbn [py_str].
  assert (settlement_fields status (entries_read s) = settlement_fields status s) as -> by (unfold settlement_fields; by rewrite js_has).
  rewrite same_keys_read. apply (follows_bind id); [apply follows_same|]. intros [] _.
  rewrite iso_read. apply (follows_bind id); [apply follows_same|]. intros t _.
  apply (follows_bind js); [apply getitem_read|]. intros c _. rewrite iso_read. apply (follows_bind id); [apply follows_same|]. intros captured _.
  apply (follows_bind id); [apply follows_same|]. intros [] _.
  apply (follows_bind id).
  { destruct (_ || _); [|apply follows_same]. apply (follows_bind js); [apply getitem_read|]. intros start _. rewrite iso_read. apply follows_same. }
  intros [] _. apply (follows_bind id); [destruct (String.eqb status "normal"); [by apply normal_read|apply follows_same]|]. intros [] _.
  apply (follows_bind id); [destruct (String.eqb status "withdrawn"); [by apply withdrawn_read|apply follows_same]|]. intros [] _.
  apply (follows_bind js); [apply getitem_read|]. intros prediction _. apply (follows_bind js); [apply getitem_read|]. intros artifact _.
  apply (follows_bind js); [apply getitem_read|]. intros sha _. apply follows_ok. done.
Qed.
Lemma history_read v : follows id (_validate_history v) (_validate_history (js v)).
Proof.
  destruct v as [| | | | | | |d]; try (by intros ?). rewrite js_dict. unfold _validate_history. on_read. same_test.
  apply (follows_bind values_read); [apply settle_read|]. intros e _. rewrite <- js_dict. rewrite (differs_read (VDict d) (VDict e) (js (VDict d)) (VDict (values_read e))).
  - apply follows_same.
  - apply dumps_read.
  - apply values_dumps.
Qed.
End read_back.

(** ** Examples *)
#[local] Existing Instance decimal_readers.
(** Times are decimal integers; a day is a thousand of their units. *)
#[local] Instance decimal_calendar : Calendar := {|
  date_iso s := Ok s;
  japan_date t := Ok (z_str (instant t / 1000)) |}.
Definition example_ranking : pyval :=
  VList (map (λ car, VDict [("car_number", VInt car); ("rank", VInt car); ("estimated_probability", VInt (of_bool (car =? 1)))])
           [1; 2; 3; 4; 5; 6; 7]).
Definition example_scores : pyval :=
  VList (map (λ kc, VDict [("combo_key", VStr kc.1); ("estimated_probability", VInt (of_bool (String.eqb kc.1 "1-2-3")))])
           (table 7)).
Definition example_selected : pyval :=
  match select_model_categories example_scores (VInt 7) with Ok cr => VDict cr.2 | Err _ => VNone end.
(** A prediction of seven riders for a race that starts at [start]. *)
Definition example_prediction (number : Z) (start generated : Z) : pyval :=
  VDict ([("success", VBool true)] ++ map (λ kv, (kv.1, VStr kv.2)) EXPECTED ++ map (λ k, (k, VBool false)) DISABLED ++
    [("input_quality", VDict [("rider_count", VInt 7); ("possible_trifecta_count", VInt 210); ("known_trifecta_odds_count", VInt 0)]);
     ("trifecta_scores", example_scores); ("selected_predictions", example_selected);
     ("position_rankings", VDict (map (λ p, (p, example_ranking)) POSITIONS));
     ("model_artifact", VDict [("evidence_scope", VStr "synthetic_test_only"); ("trained_at", VStr "1");
                               ("sha256", VStr "aaaaaaaaaaaaaaaaaaaaaaaaaaaaaaaaaaaaaaaaaaaaaaaaaaaaaaaaaaaaaaaa")]);
     ("generated_at", VStr (z_str generated));
     ("race", VDict [("date", VStr (z_str (start / 1000))); ("venue", VStr "SYNTHETIC"); ("race_number", VInt number);
                     ("scheduled_start_jst", VStr (z_str start))])]).
Definition RACE : string := "ml-race-98805e36a192e4bd8182fa73a1e52c383ca21f241d4edb70606f96832ef88984".
Definition example_snapshot (captured : Z) (sha : string) : pydict :=
  [("schema_version", VStr SNAPSHOT_SCHEMA)] ++ SAFETY
  ++ [("race_id", VStr RACE); ("captured_at", VStr (z_str captured)); ("scheduled_start", VStr "2000");
      ("clock_source", VStr "local_unverified"); ("prediction", example_prediction 1 2000 90); ("snapshot_sha256", VStr sha)].
Definition example_settlement (fields : pydict) : pydict :=
  [("race_id", VStr RACE); ("result_timestamp", VStr "2100"); ("outcome_combo", VStr "1-2-3"); ("settlement_odds", VInt 12)] ++ fields.
Definition example_early : pyval := VDict (example_snapshot 100 "e05f58affa36eafa8190815636c72d76dd3c484b8a6b539b2f7c009fb9ef49fc").
Definition example_late : pyval := VDict (example_snapshot 200 "f9744c67c930bbb01203715defc3b3b692db88feba6c827371d6463fa8c265b8").
Definition example_history (snapshot : pyval) (fields : pydict) : pydict :=
  [("schema_version", VStr HISTORY_SCHEMA)] ++ SAFETY
  ++ [("race_id", VStr RACE); ("prediction_timestamp", entry_at "captured_at" snapshot);
      ("model_artifact_sha256", entry_at "sha256" (entry_at "model_artifact" (entry_at "prediction" snapshot)));
      ("snapshot", snapshot); ("settlement", VDict (example_settlement fields))].
Definition example_records : list pyval :=
  [VDict (example_history example_early []); VDict (example_history example_late [("result_status", VStr "normal")]); VInt 7].
Definition reviewed (r : result review) : option (list pyval * nat * list string) :=
  match r with
  | Ok rv => Some (map (get_or_none "prediction_timestamp") (chosen_records rv), removed rv, dropped rv)
  | Err _ => None
  end.
(** The later history of the race is used. *)
Example example_reviewed : reviewed (review_of example_records) = Some ([VStr "200"], 1%nat, ["ml_history_schema_mismatch"]).
Proof. vm_compute. reflexivity. Qed.
Lemma review_sound_witness : ∃ rv, review_of example_records = Ok rv ∧ NoDup (map race_of (chosen_records rv)) ∧
  (length (chosen_records rv) = 1)%nat.
Proof.
  pose proof example_reviewed as E. unfold reviewed in E. destruct (review_of example_records) as [rv|] eqn:Er; [|discriminate E].
  exists rv. destruct (review_sound example_records rv Er) as (Hn & _ & _ & _). split; [reflexivity|]. split; [exact Hn|].
  injection E as E _ _. apply (f_equal length) in E. rewrite length_map in E. exact E.
Defined.
Definition settled_well (r : result pydict) : bool :=
  match r with Ok d => py_eqb (get_or_none "prediction_timestamp" d) (VStr "100") | Err _ => false end.
Example example_settled : settled_well (settle_snapshot example_early (VDict (example_settlement [])) true) = true.
Proof. vm_compute. reflexivity. Qed.
Lemma settled_history_validates_witness : ∃ d,
  settle_snapshot example_early (VDict (example_settlement [])) true = Ok d ∧ _validate_history (VDict d) = Ok tt.
Proof.
  pose proof example_settled as E. unfold settled_well in E.
  destruct (settle_snapshot example_early (VDict (example_settlement [])) true) as [d|] eqn:Er; [|discriminate E].
  exists d. split; [reflexivity|]. apply (settled_history_validates example_early (VDict (example_settlement [])) true d Er).
  - vm_compute. reflexivity.
  - vm_compute. reflexivity.
Defined.
