(* ===== verification/Session.v ===== *)
(** ml/synthetic_session.py: the checkpoint of a workbench session in one local file,
    replaced atomically; and the workbench of ml/synthetic_workbench.py over it.

    A directory holds the file its name leads processes to, the file it leads to after a
    loss of power, and temporary files.  A file has a content, and may or may not have been
    synchronised since it was written: if not, a loss of power leaves any content in it.  A
    system call succeeds, fails with an OSError or never returns, as a plan says; a write
    that does not succeed leaves a part of the data; and after a loss of power the name
    leads to the file of the last synchronisation of the directory or to one that was put
    there since.  The lock that keeps other processes out, and the answer a request returns
    (the state and the report), are not modelled; a SessionSaveError is a RuntimeError. *)
From Stdlib Require Import Ascii SpecFloat.
From S2P Require Import Prelude PyString PyValue PyText PyFloat Sha256 Dataset Settle History Preview ModelHistory.

Definition SCHEMA : string := "synthetic-workbench-session-v1".
Definition MAX_BYTES : Z := 32 * 1024 * 1024.
Definition MAX_SNAPSHOTS : nat := 20.
Definition SESSION_FIELDS : list string :=
  ["schema_version"; "synthetic_only"; "scheduled"; "series"; "snapshots"; "histories"; "current"].

(** ** The content of a session *)
Section content.
Context `{Readers} `{Calendar}.

(** [v[k][k'] ...] *)
Fixpoint getitems (v : pyval) (ks : list string) : result pyval :=
  match ks with [] => Ok v | k :: ks' => x ← getitem v k; getitems x ks' end.
(** The body of the loop over the snapshots. *)
Definition check_snapshot (scheduled : datetime) (series : Z) (histories : pydict) (kv : string * pyval) : result unit :=
  let '(key, snapshot) := kv in
  reject_if (negb (hex_text 32 (VStr key))) ValueError "session_snapshot_key_invalid";;
  validate_snapshot snapshot true;;
  venue ← getitems snapshot ["prediction"; "race"; "venue"];
  c ← getitems snapshot ["prediction"; "input_quality"; "rider_count"];
  n ← getitems snapshot ["prediction"; "race"; "race_number"];
  match n, c with
  | VInt number, VInt count =>
      let round := (number - count) / 10 in
      reject_if (negb (is_text venue "SYNTHETIC") || negb ((number - count) mod 10 =? 0)
                 || negb ((0 <=? round) && (round <=? series))) ValueError "generated_session_race_required";;
      (if round =? series then
         t ← getitem snapshot "scheduled_start"; start ← Settle._iso t "scheduled_start";
         reject_if (negb (instant start =? instant scheduled)) ValueError "session_schedule_mismatch"
       else Ok tt)
  | _, _ => raise TypeError "unsupported operand type(s) for -"
  end;;
  match dict_get key histories with
  | Some h =>
      _validate_history h;;
      s ← getitem h "snapshot"; bad ← differs s snapshot;
      reject_if bad ValueError "session_history_snapshot_mismatch"
  | None => Ok tt
  end.
Fixpoint check_snapshots (scheduled : datetime) (series : Z) (histories l : pydict) : result unit :=
  match l with
  | [] => Ok tt
  | kv :: l' => check_snapshot scheduled series histories kv;; check_snapshots scheduled series histories l'
  end.
Definition current_invalid (snapshots : pydict) (current : pyval) : bool :=
  match snapshots with
  | [] => negb (is_none current)
  | _ => match current with VStr k => negb (dict_has k snapshots) | _ => true end
  end.
Definition validate_session (value : pyval) : result unit :=
  match value with
  | VDict d =>
      let at_ k := get_or_none k d in
      reject_if (negb (same_keys d SESSION_FIELDS) || negb (is_text (at_ "schema_version") SCHEMA)
                 || negb (is_true (at_ "synthetic_only"))) ValueError "session_schema_invalid";;
      scheduled ← Settle._iso (at_ "scheduled") "session_scheduled";
      series ← match at_ "series" with
               | VInt n => reject_if (negb ((0 <=? n) && (n <=? 1000000))) ValueError "session_series_invalid";; Ok n
               | _ => raise ValueError "session_series_invalid"
               end;
      match at_ "snapshots", at_ "histories" with
      | VDict snapshots, VDict histories =>
          reject_if ((MAX_SNAPSHOTS <? length snapshots)%nat
                     || negb (forallb (λ k, dict_has k snapshots) (keys histories))) ValueError "session_records_invalid";;
          reject_if (current_invalid snapshots (at_ "current")) ValueError "session_current_invalid";;
          check_snapshots scheduled series histories snapshots
      | _, _ => raise ValueError "session_records_invalid"
      end
  | _ => raise ValueError "session_schema_invalid"
  end.

Definition envelope (payload : pyval) (sha : string) : pyval := VDict [("payload", payload); ("sha256", VStr sha)].
(** [(_canonical({...}) + '\n').encode('utf-8')] *)
Definition encode (payload : pyval) : result string :=
  sha ← _digest payload; text ← _canonical (envelope payload sha); Ok (text ++ String (chr 10) "")%string.
(** What [__init__] makes of the content it reads; [loads] is [json.loads]. *)
Definition decode (loads : string → result pyval) (data : string) : result pyval :=
  e ← loads data;
  match e with
  | VDict d =>
      reject_if (negb (same_keys d ["payload"; "sha256"])) ValueError "session_envelope_invalid";;
      sha ← _digest (get_or_none "payload" d);
      reject_if (negb (is_text (get_or_none "sha256" d) sha)) ValueError "session_digest_mismatch";;
      validate_session (get_or_none "payload" d);;
      Ok (get_or_none "payload" d)
  | _ => raise ValueError "session_envelope_invalid"
  end.
End content.

(** ** The directory *)
Record file := FileOf { content : string; synced : bool }.
Record directory := Directory {
  visible : option file;      (* what processes find under the name of the session file *)
  durable : option file;      (* what the name leads to after a loss of power *)
  partial : gmap string file  (* temporary files *) }.
Inductive syscall := Read | Create | Write | Sync | Replace | SyncDirectory | Unlink.
#[export] Instance syscall_eq_dec : EqDecision syscall.
Proof. solve_decision. Defined.
Inductive outcome := Fine | Fails | Invalid (* not a regular file of one link *) | Dies.
(** The power is lost: no handler runs. *)
Definition power_loss : exn := Exn BaseException "power_loss".

Record store := Store { failed : bool; expected : option string }.
Record session := Session { dir : directory; proc : store }.
Definition set_dir (f : directory → directory) : eff session unit := modify (λ s, Session (f (dir s)) (proc s)).
Definition set_proc (f : store → store) : eff session unit := modify (λ s, Session (dir s) (f (proc s))).

Section store.
Context `{Readers} `{Calendar}.
(** How each system call of an operation ends, and how many characters a write that
    does not succeed has written. *)
Context (plan : syscall → outcome) (torn : nat).

Definition end_of (o : outcome) : eff session unit :=
  match o with
  | Fine => mret tt
  | Fails => throw (Exn OSError "")
  | Invalid => throw (Exn ValueError "session_file_invalid")
  | Dies => throw power_loss
  end.
Definition system (c : syscall) (effect : directory → directory) : eff session unit :=
  end_of (plan c);; set_dir effect.
Definition put (temporary : string) (f : file) (d : directory) : directory :=
  Directory (visible d) (durable d) (<[temporary := f]> (partial d)).
Definition temporary_file (temporary : string) : eff session (option file) :=
  gets (λ s, partial (dir s) !! temporary).
(** [os.open(temporary, O_CREAT | O_EXCL)] *)
Definition create_temporary (temporary : string) : eff session unit :=
  found ← temporary_file temporary;
  match found with
  | Some _ => throw (Exn OSError "File exists")
  | None => system Create (put temporary (FileOf "" false))
  end.
(** [handle.write(data)] and [handle.flush()] *)
Definition write_temporary (temporary data : string) : eff session unit :=
  let written := match plan Write with Fine => data | _ => of_chars (firstn torn (chars data)) end in
  set_dir (put temporary (FileOf written false));; end_of (plan Write).
(** [os.fsync(handle.fileno())] *)
Definition sync_temporary (temporary : string) : eff session unit :=
  found ← temporary_file temporary;
  match found with
  | Some f => system Sync (put temporary (FileOf (content f) true))
  | None => throw (Exn OSError "")
  end.
(** [os.replace(temporary, FILENAME)] *)
Definition replace_by (temporary : string) : eff session unit :=
  found ← temporary_file temporary;
  match found with
  | Some f => system Replace (λ d, Directory (Some f) (durable d) (delete temporary (partial d)))
  | None => throw (Exn OSError "No such file or directory")
  end.
Definition _read : eff session (option string) :=
  system Read id;;
  s ← Prelude.get;
  match visible (dir s) with
  | Some f => lift (reject_if (MAX_BYTES <? slen (content f)) ValueError "session_file_invalid");; mret (Some (content f))
  | None => mret None
  end.

(** [try: body except (OSError, ValueError)] and the [finally] clause of [save]; a lost
    power skips both. *)
Definition is_loss (e : exn) : bool := bool_decide (e = power_loss).
Definition remove_temporary (temporary : string) : eff session unit :=
  found ← temporary_file temporary;
  match found with
  | Some _ => system Unlink (λ d, Directory (visible d) (durable d) (delete temporary (partial d)))
  | None => mret tt (* FileNotFoundError *)
  end.
(** The progress of a save: whether the temporary file was created and moved. *)
Record progress := Progress { created : bool; replaced : bool }.
Definition write_file (temporary data : string) : eff (session * progress) unit :=
  let run {A} (m : eff session A) : eff (session * progress) A :=
    λ w, let '(r, s) := m w.1 in (r, (s, w.2)) in
  let mark f : eff (session * progress) unit := modify (λ w, (w.1, f w.2)) in
  found ← run _read;
  s ← run Prelude.get;
  lift (reject_if (negb (bool_decide (found = expected (proc s)))) ValueError "session_changed_outside_workbench");;
  run (create_temporary temporary);;
  mark (λ p, Progress true (replaced p));;
  run (write_temporary temporary data);;
  run (sync_temporary temporary);;
  run (replace_by temporary);;
  mark (λ p, Progress (created p) true);;
  run (system SyncDirectory (λ d, Directory (visible d) (visible d) (partial d)));;
  run (set_proc (λ st, Store (failed st) (Some data))).
Definition handle_failure (p : progress) (e : exn) : eff session unit :=
  if isinstance e OSError || isinstance e ValueError then
    set_proc (λ st, Store true (expected st));;
    throw (Exn RuntimeError (if replaced p then "session_save_uncertain_restart_required"
                             else "session_save_failed_restart_required"))
  else throw e.
Definition cleanup (p : progress) (temporary : string) : eff session unit :=
  if created p then remove_temporary temporary else mret tt.
Definition write_checkpoint (temporary data : string) : eff session unit := λ s0,
  let '(r, (s1, p)) := write_file temporary data (s0, Progress false false) in
  match r with
  | Ok _ => cleanup p temporary s1
  | Err e =>
      if is_loss e then (Err e, s1) else
      let '(r', s2) := handle_failure p e s1 in
      let '(f, s3) := cleanup p temporary s2 in
      (match f with Ok _ => r' | Err e' => Err e' end, s3)
  end.
Definition save (temporary : string) (payload : pyval) : eff session unit :=
  s ← Prelude.get;
  (if failed (proc s) then throw (Exn RuntimeError "session_restart_required") else mret tt);;
  lift (validate_session payload);;
  data ← lift (encode payload);
  lift (reject_if (MAX_BYTES <? slen data) ValueError "session_too_large");;
  write_checkpoint temporary data.

(** [SessionStore(directory)]: a fresh store and the payload it restores. *)
Definition open_store (loads : string → result pyval) (d : directory) : result (store * option pyval) :=
  match plan Read with
  | Fine =>
      match visible d with
      | Some f =>
          reject_if (MAX_BYTES <? slen (content f)) ValueError "session_file_invalid";;
          payload ← decode loads (content f); Ok (Store false (Some (content f)), Some payload)
      | None => Ok (Store false None, None)
      end
  | Fails => raise OSError ""
  | Dies => Err power_loss
  | Invalid => raise ValueError "session_file_invalid"
  end.
End store.
(** The directory after the machine restarts: a file that was not synchronised may have any
    content. *)
Inductive settles : option file → option file → Prop :=
  | SettlesNone : settles None None
  | SettlesSynced c : settles (Some (FileOf c true)) (Some (FileOf c true))
  | SettlesTorn c c' : settles (Some (FileOf c false)) (Some (FileOf c' true)).
Inductive restarted (d : directory) : directory → Prop :=
  | Restarted f f' partial' : f = visible d ∨ f = durable d → settles f f' →
      restarted d (Directory f' f' partial').

(** ** The workbench: ml/synthetic_workbench.py *)
Record memory := Memory {
  scheduled : datetime; series : Z; snapshots : pydict; histories : pydict; current : pyval }.
Record workbench := Workbench { mem : memory; disk : session }.

Section workbench.
Context `{Readers} `{Calendar}.
(** [d.isoformat()], and of ten minutes later *)
Context (isoformat : datetime → string) (ten_minutes_later : datetime → result string).
(** Whether a directory was given; how the system calls of the operation end; the name of
    its temporary file. *)
Context (attached : bool) (plan : syscall → outcome) (torn : nat) (temporary : string).

(** The document of a session, with some entries changed. *)
Definition _payload (m : memory) (changes : pydict) : pyval :=
  VDict (dict_update
    [("schema_version", VStr SCHEMA); ("synthetic_only", VBool true); ("scheduled", VStr (isoformat (scheduled m)));
     ("series", VInt (series m)); ("snapshots", VDict (snapshots m)); ("histories", VDict (histories m));
     ("current", current m)] changes).
Definition as_pydict (v : pyval) : pydict := match v with VDict d => d | _ => [] end.
Definition _apply (payload : pyval) : result memory :=
  s ← getitem payload "scheduled"; scheduled ← Settle._iso s "session_scheduled";
  n ← getitem payload "series"; ss ← getitem payload "snapshots"; hs ← getitem payload "histories";
  c ← getitem payload "current";
  Ok (Memory scheduled (match n with VInt z => z | _ => 0 end) (as_pydict ss) (as_pydict hs) c).
(** Saved first, then applied. *)
Definition _commit (payload : pyval) : eff workbench unit := λ w,
  let '(r, s) := if attached then save plan torn temporary payload (disk w) else (Ok tt, disk w) in
  match r with
  | Ok _ => match _apply payload with
            | Ok m => (Ok tt, Workbench m s)
            | Err e => (Err e, Workbench (mem w) s)
            end
  | Err e => (Err e, Workbench (mem w) s)
  end.
Definition select (key : string) : eff workbench unit :=
  w ← Prelude.get;
  lift (reject_if (negb (dict_has key (snapshots (mem w)))) ValueError "snapshot_not_found");;
  _commit (_payload (mem w) [("current", VStr key)]).
(** The schedule and the series of the next race; [later] is an hour after [now]. *)
Definition next_race (now later : datetime) (m : memory) : datetime * Z :=
  if instant (scheduled m) <=? instant now then (later, series m + 1) else (scheduled m, series m).
(** [prediction] is what the models gave for that race; [captured] and [key] are the text
    of the clock and the new key. *)
Definition ready_to_predict (count : pyval) : eff workbench unit :=
  w ← Prelude.get;
  lift (reject_if (match count with VInt n => negb ((n =? 7) || (n =? 9)) | _ => true end) ValueError
          "seven_or_nine_required");;
  (if attached && failed (proc (disk w)) then throw (Exn RuntimeError "session_restart_required") else mret tt);;
  lift (reject_if (MAX_SNAPSHOTS <=? length (snapshots (mem w)))%nat ValueError "session_limit_export_and_restart").
Definition predict (count : pyval) (now later : datetime) (prediction : pyval) (captured key : string) : eff workbench unit :=
  ready_to_predict count;;
  w ← Prelude.get;
  let next := next_race now later (mem w) in
  snapshot ← lift (capture_prediction captured prediction true);
  _commit (_payload (mem w) [("snapshots", VDict (dict_set key snapshot (snapshots (mem w)))); ("current", VStr key);
                             ("scheduled", VStr (isoformat next.1)); ("series", VInt next.2)]).
Definition _record (key : string) (fields : pydict) : eff workbench unit :=
  w ← Prelude.get;
  match dict_get key (snapshots (mem w)) with
  | Some snapshot =>
      lift (reject_if (dict_has key (histories (mem w))) ValueError "snapshot_already_settled");;
      race_id ← lift (getitem snapshot "race_id");
      t ← lift (getitem snapshot "scheduled_start");
      start ← lift (Settle._iso t "scheduled_start");
      result_time ← lift (ten_minutes_later start);
      history ← lift (settle_snapshot snapshot
                  (VDict (dict_update (dict_update [("race_id", race_id)] fields) [("result_timestamp", VStr result_time)])) true);
      _commit (_payload (mem w) [("histories", VDict (dict_set key (VDict history) (histories (mem w)))); ("current", VStr key)])
  | None => throw (Exn ValueError "snapshot_not_found")
  end.
Definition settle (key : string) (outcome odds : pyval) : eff workbench unit :=
  _record key [("outcome_combo", outcome); ("settlement_odds", odds)].
Definition hold (key : string) (status withdrawn : pyval) : eff workbench unit :=
  lift (reject_if (negb (in_strs status HELD_STATUSES)) ValueError "result_status_invalid");;
  fields ← lift (if is_text status "withdrawn" then Ok [("withdrawn_car_numbers", withdrawn)]
                 else if is_none withdrawn then Ok [] else raise ValueError "settlement_fields_invalid");
  _record key (("result_status", status) :: fields).

(** The requests a client can make. *)
Inductive request :=
  | Select (key : string)
  | Predict (count : pyval) (now later : datetime) (prediction : pyval) (captured key : string)
  | Settle (key : string) (outcome odds : pyval)
  | Hold (key : string) (status withdrawn : pyval).
Definition perform (q : request) : eff workbench unit :=
  match q with
  | Select key => select key
  | Predict count now later prediction captured key => predict count now later prediction captured key
  | Settle key outcome odds => settle key outcome odds
  | Hold key status withdrawn => hold key status withdrawn
  end.
End workbench.
(** [__init__]: the memory a restored session starts from. *)
Definition start_workbench `{Readers} (fresh : memory) (restored : option pyval) : result memory :=
  match restored with Some payload => _apply payload | None => Ok fresh end.
