(* ===== verification/SessionFacts.v ===== *)
(** The session file is never torn: whatever fails, it holds a whole checkpoint that was
    accepted; a save that returns is durable, and what it saved is what the next store
    opens; and the workbench shows only what is saved. *)
From Stdlib Require Import Ascii SpecFloat.
From S2P Require Import Prelude PyString PyValue PyText PyFloat Sha256 Dataset DatasetFacts Settle History HistoryFacts Preview ModelHistory ModelHistoryFacts Session.

(** Run the monad up to the next system call. *)
Ltac run := cbv beta iota zeta delta [id mbind eff_bind mret eff_ret lift Prelude.get gets modify throw set_dir set_proc];
  cbn [fst snd dir proc visible durable partial created replaced failed expected].
Create HintDb turned.
Section facts.
Context `{Readers} `{Calendar}.

(** ** The system calls *)
(** An exception that [save] turns into one of its own, or the loss of power. *)
Definition turned (e : exn) : Prop := e = power_loss ∨ isinstance e OSError || isinstance e ValueError = true.
Lemma turned_os msg : turned (Exn OSError msg).
Proof. by right. Qed.
Lemma turned_value msg : turned (Exn ValueError msg).
Proof. by right. Qed.
Lemma turned_loss : turned power_loss.
Proof. by left. Qed.
Hint Resolve turned_os turned_value turned_loss : turned.
(** What a call leaves of the directory and of the store. *)
Lemma end_of_run o s : end_of o s = match o with Fine => (Ok tt, s) | _ => end_of o s end ∧
  match end_of o s with (Ok _, s') => o = Fine ∧ s' = s | (Err e, s') => s' = s ∧ turned e end.
Proof. destruct o; cbn; auto with turned. Qed.
Lemma system_run plan c effect s :
  match system plan c effect s with
  | (Ok _, s') => s' = Session (effect (dir s)) (proc s)
  | (Err e, s') => s' = s ∧ turned e
  end.
Proof.
  unfold system. rewrite bind_run. destruct (end_of_run (plan c) s) as [_ He].
  destruct (end_of (plan c) s) as [[[]|e] s']; [|done]. by destruct He as [_ ->].
Qed.
Lemma create_run plan t s :
  match create_temporary plan t s with
  | (Ok _, s') => s' = Session (put t (FileOf "" false) (dir s)) (proc s)
  | (Err e, s') => s' = s ∧ turned e
  end.
Proof.
  unfold create_temporary, temporary_file. rewrite bind_run. cbn [gets].
  destruct (partial (dir s) !! t); [by split; [|auto with turned]|apply system_run].
Qed.
Lemma write_temporary_run plan torn t data s :
  match write_temporary plan torn t data s with
  | (Ok _, s') => s' = Session (put t (FileOf data false) (dir s)) (proc s)
  | (Err e, s') => (∃ f, s' = Session (put t f (dir s)) (proc s)) ∧ turned e
  end.
Proof.
  unfold write_temporary. rewrite bind_run. cbn [set_dir modify].
  match goal with |- context [end_of _ ?s1] => destruct (end_of_run (plan Write) s1) as [_ He]; destruct (end_of (plan Write) s1) as [[[]|e] s'] end.
  - by destruct He as [-> ->].
  - destruct He as [-> ?]. eauto.
Qed.
Lemma sync_run plan t s f : partial (dir s) !! t = Some f →
  match sync_temporary plan t s with
  | (Ok _, s') => s' = Session (put t (FileOf (content f) true) (dir s)) (proc s)
  | (Err e, s') => s' = s ∧ turned e
  end.
Proof. intros Hf. unfold sync_temporary, temporary_file. rewrite bind_run. cbn [gets]. rewrite Hf. apply system_run. Qed.
Lemma replace_run plan t s f : partial (dir s) !! t = Some f →
  match replace_by plan t s with
  | (Ok _, s') => s' = Session (Directory (Some f) (durable (dir s)) (delete t (partial (dir s)))) (proc s)
  | (Err e, s') => s' = s ∧ turned e
  end.
Proof. intros Hf. unfold replace_by, temporary_file. rewrite bind_run. cbn [gets]. rewrite Hf. apply system_run. Qed.
Lemma cleanup_run plan p t s : ∃ r ps,
  cleanup plan p t s = (r, Session (Directory (visible (dir s)) (durable (dir s)) ps) (proc s)) ∧
  (partial (dir s) !! t = None → r = Ok tt).
Proof.
  unfold cleanup, remove_temporary, temporary_file. destruct s as [[v d ps] st]. destruct (created p); [|by eexists _, _].
  rewrite bind_run. cbn [gets dir proc visible durable partial]. destruct (ps !! t); [|by eexists _, _].
  match goal with |- context [system plan Unlink ?f ?s] => pose proof (system_run plan Unlink f s) as Hs; destruct (system plan Unlink f s) as [r s'] end.
  destruct r; [subst s'|destruct Hs as [-> _]]; by eexists _, _.
Qed.

(** ** One save *)
Definition data_of (f : option file) : option string := content <$> f.
(** How far a write got: nothing is replaced, or the whole new file is visible. *)
Inductive written (data : string) (s : session) : session → progress → Prop :=
  | NotReplaced ps c : written data s (Session (Directory (visible (dir s)) (durable (dir s)) ps) (proc s)) (Progress c false)
  | JustReplaced dur ps : data_of (visible (dir s)) = expected (proc s) →
      dur = durable (dir s) ∨ dur = Some (FileOf data true) →
      written data s (Session (Directory (Some (FileOf data true)) dur ps) (proc s)) (Progress true true).
Lemma session_eta s : s = Session (Directory (visible (dir s)) (durable (dir s)) (partial (dir s))) (proc s).
Proof. by destruct s as [[] ]. Qed.

Lemma read_session_run plan s :
  match _read plan s with
  | (Ok r, s') => r = data_of (visible (dir s)) ∧ s' = s
  | (Err e, s') => s' = s ∧ turned e
  end.
Proof.
  unfold _read. rewrite bind_run. pose proof (system_run plan Read id s) as Hr.
  destruct (system plan Read id s) as [[[]|e] s']; [|done]. assert (s' = s) as -> by (subst; by destruct s).
  rewrite bind_run. cbn [Prelude.get]. destruct (visible (dir s)) as [f|] eqn:E; [|done]. rewrite bind_run. unfold lift, reject_if.
  destruct (MAX_BYTES <? slen (content f)); [by split; [|auto with turned]|]. done.
Qed.
Lemma write_file_run plan torn t data s :
  match write_file plan torn t data (s, Progress false false) with
  | (Ok _, (s', p)) => data_of (visible (dir s)) = expected (proc s) ∧ p = Progress true true ∧
      ∃ ps, ps !! t = None ∧
        s' = Session (Directory (Some (FileOf data true)) (Some (FileOf data true)) ps) (Store (failed (proc s)) (Some data))
  | (Err e, (s', p)) => written data s s' p ∧ turned e
  end.
Proof.
  assert (∀ s0 c, visible (dir s0) = visible (dir s) → durable (dir s0) = durable (dir s) → proc s0 = proc s →
    written data s s0 (Progress c false)) as Hnot.
  { intros s0 c Ev Ed Ep. rewrite (session_eta s0), Ev, Ed, Ep. apply NotReplaced. }
  unfold write_file. run. pose proof (read_session_run plan s) as Hr. destruct (_read plan s) as [[found|e] s0].
  2: { destruct Hr as [-> He]. split; [by apply Hnot|done]. }
  destruct Hr as [-> ->]. run. unfold reject_if. case_bool_decide as Hsame; cbn [negb raise]; [|split; [by apply Hnot|auto with turned]].
  pose proof (create_run plan t s) as Hc. destruct (create_temporary plan t s) as [[[]|e] s1];
    [subst s1; run|destruct Hc as [-> He]; split; [by apply Hnot|done]].
  match goal with |- context [write_temporary _ _ _ _ ?s1] => pose proof (write_temporary_run plan torn t data s1) as Hw;
    destruct (write_temporary plan torn t data s1) as [[[]|e] s2]; [subst s2; run|] end.
  2: { destruct Hw as [[f ->] He]. split; [by apply Hnot|done]. }
  match goal with |- context [sync_temporary _ _ ?s1] => pose proof (sync_run plan t s1 (FileOf data false) (lookup_insert_eq _ _ _)) as Hs;
    destruct (sync_temporary plan t s1) as [[[]|e] s3]; [subst s3; run|] end.
  2: { destruct Hs as [-> He]. split; [by apply Hnot|done]. }
  match goal with |- context [replace_by _ _ ?s1] => pose proof (replace_run plan t s1 (FileOf data true) (lookup_insert_eq _ _ _)) as Hp;
    destruct (replace_by plan t s1) as [[[]|e] s4]; [subst s4; run|] end.
  2: { destruct Hp as [-> He]. split; [by apply Hnot|done]. }
  match goal with |- context [system plan SyncDirectory ?f ?s1] => pose proof (system_run plan SyncDirectory f s1) as Hd;
    destruct (system plan SyncDirectory f s1) as [[[]|e] s5]; [subst s5; run|] end.
  2: { destruct Hd as [-> He]. split; [by apply JustReplaced; [|left]|done]. }
  split_and!; [done|done|]. eexists. split; [apply lookup_delete_eq|done].
Qed.
(** The payload is a valid session, and its file is [data]. *)
Definition accepted (payload : pyval) (data : string) : Prop :=
  validate_session payload = Ok tt ∧ encode payload = Ok data ∧ slen data ≤ MAX_BYTES.
(** The file changed from [s] to [s'], if at all, from what the store knew to the whole of
    [data]. *)
Definition kept (s s' : session) : Prop := visible (dir s') = visible (dir s) ∧ durable (dir s') = durable (dir s).
Definition moved (data : string) (s s' : session) : Prop :=
  data_of (visible (dir s)) = expected (proc s) ∧ visible (dir s') = Some (FileOf data true) ∧
  (durable (dir s') = durable (dir s) ∨ durable (dir s') = Some (FileOf data true)).
Definition stopped (s s' : session) : Prop := proc s' = Store true (expected (proc s)).
Lemma write_checkpoint_run plan torn t data s :
  match write_checkpoint plan torn t data s with
  | (Ok _, s') => data_of (visible (dir s)) = expected (proc s) ∧ visible (dir s') = Some (FileOf data true) ∧
      durable (dir s') = Some (FileOf data true) ∧ proc s' = Store (failed (proc s)) (Some data)
  | (Err e, s') => (kept s s' ∨ moved data s s') ∧ (e = power_loss ∧ proc s' = proc s ∨ stopped s s')
  end.
Proof.
  unfold write_checkpoint. pose proof (write_file_run plan torn t data s) as Hw.
  destruct (write_file _ _ _ _ _) as [[[]|e] [s1 p]].
  - destruct Hw as (Hv & -> & ps & Hps & ->).
    match goal with |- context [cleanup plan ?p t ?s1] => destruct (cleanup_run plan p t s1) as (r & ps' & -> & Hr) end.
    by rewrite (Hr Hps).
  - destruct Hw as [Hw Ht]. unfold is_loss. case_bool_decide as El.
    { split; [|left; split; [done|by destruct Hw]]. destruct Hw; [by left|right; done]. }
    destruct Ht as [->|Ht]; [done|]. unfold handle_failure. rewrite Ht. run.
    match goal with |- context [cleanup plan p t ?s2] => destruct (cleanup_run plan p t s2) as (f & ps & -> & _) end.
    cbn [dir proc]. destruct f; (split; [|right; by destruct Hw]); destruct Hw; try (by left); right; done.
Qed.

(** A save either takes effect whole or not at all.  When it returns, the file was
    what the store had last read or written, it now holds exactly the accepted payload,
    also after a loss of power, and the store knows it.  When it raises, the file is
    unchanged or holds the whole accepted payload, and the store refuses further saves
    unless the payload was refused before anything was tried; a store that refuses
    changes nothing. *)
Theorem save_outcome plan torn t payload s :
  match save plan torn t payload s with
  | (Ok _, s') => ∃ data, accepted payload data ∧ failed (proc s) = false ∧ data_of (visible (dir s)) = expected (proc s) ∧
      dir s' = Directory (Some (FileOf data true)) (Some (FileOf data true)) (partial (dir s')) ∧ proc s' = Store false (Some data)
  | (Err e, s') => (s' = s ∧ (∀ data, ¬ accepted payload data) ∨ s' = s ∧ failed (proc s) = true) ∨
      (∃ data, accepted payload data ∧ failed (proc s) = false ∧ (kept s s' ∨ moved data s s')) ∧
      (e = power_loss ∧ proc s' = proc s ∨ stopped s s')
  end.
Proof.
  unfold save, accepted. run. destruct (failed (proc s)) eqn:Ef; [by left; right|]. run.
  destruct (validate_session payload) as [[]|e]; [|by left; left; split; [|intros data (? & _)]].
  destruct (encode payload) as [data|e]; [|by left; left; split; [|intros data (? & ? & _)]].
  unfold reject_if. destruct (Z.ltb_spec MAX_BYTES (slen data)) as [Hlt|Hle].
  { left; left; split; [done|]. intros data' (_ & [= <-] & ?). lia. }
  pose proof (write_checkpoint_run plan torn t data s) as Hw. rewrite Ef in Hw.
  destruct (write_checkpoint plan torn t data s) as [[[]|e] s'].
  - destruct Hw as (? & Hv & Hd & ->). exists data. split_and!; try done. destruct (dir s'); cbn in *; by subst.
  - right. destruct Hw as [Hw Hp]. split; [exists data; split_and!; done|done].
Qed.
(** What a save does to the file, however it ends. *)
Lemma save_outcome_kept plan torn t payload s :
  let s' := (save plan torn t payload s).2 in kept s s' ∨ ∃ data, accepted payload data ∧ moved data s s'.
Proof.
  cbv zeta. pose proof (save_outcome plan torn t payload s) as Ho. destruct (save plan torn t payload s) as [[[]|e] s']; cbn [snd].
  - destruct Ho as (data & Ha & _ & Hv & Hd & _). right. exists data. split; [done|]. unfold moved. rewrite Hd. auto.
  - destruct Ho as [[[-> _]|[-> _]]|[(data & Ha & _ & [Hk|Hm]) _]]; [by left..|right; eauto].
Qed.

(** ** Any sequence of saves, losses of power and restarts *)
Context (loads : string → result pyval).
(** [lived saved outside s s']: from [s] to [s'] the payloads [saved] were given to [save],
    and other programs put the contents [outside] under the name of the session file. *)
Inductive lived (s : session) : list pyval → list (option string) → session → Prop :=
  | LivedNone : lived s [] [] s
  | LivedSave saved outside s1 plan torn t payload r s2 : lived s saved outside s1 →
      save plan torn t payload s1 = (r, s2) → r ≠ Err power_loss → lived s (payload :: saved) outside s2
  | LivedLoss saved outside s1 plan torn t payload s2 d plan' st restored : lived s saved outside s1 →
      save plan torn t payload s1 = (Err power_loss, s2) → restarted (dir s2) d →
      open_store plan' loads d = Ok (st, restored) → lived s (payload :: saved) outside (Session d st)
  | LivedKilled saved outside s1 plan torn t payload s2 plan' st restored : lived s saved outside s1 →
      save plan torn t payload s1 = (Err power_loss, s2) →
      open_store plan' loads (dir s2) = Ok (st, restored) → lived s (payload :: saved) outside (Session (dir s2) st)
  | LivedRestart saved outside s1 d plan st restored : lived s saved outside s1 → restarted (dir s1) d →
      open_store plan loads d = Ok (st, restored) → lived s saved outside (Session d st)
  | LivedReopen saved outside s1 plan st restored : lived s saved outside s1 →
      open_store plan loads (dir s1) = Ok (st, restored) → lived s saved outside (Session (dir s1) st)
  | LivedOutside saved outside s1 c : lived s saved outside s1 →
      lived s saved (c :: outside)
        (Session (Directory ((λ data, FileOf data true) <$> c) ((λ data, FileOf data true) <$> c) (partial (dir s1))) (proc s1)).
(** The files the name leads to, now or after a loss of power, are synchronised. *)
Definition at_rest (d : directory) : Prop := ∀ f, visible d = Some f ∨ durable d = Some f → synced f = true.
(** Where a content comes from. *)
Definition from (s : session) (saved : list pyval) (outside : list (option string)) (c : option string) : Prop :=
  c = data_of (visible (dir s)) ∨ c = data_of (durable (dir s)) ∨ c ∈ outside ∨
  ∃ payload data, payload ∈ saved ∧ accepted payload data ∧ c = Some data.
Lemma from_more s saved outside payload c : from s saved outside c → from s (payload :: saved) outside c.
Proof.
  intros [?|[?|[?|(p & data & ? & ?)]]]; unfold from; [auto|auto|auto|]. right; right; right. exists p, data. split; [by right|done].
Qed.
Lemma from_outside s saved outside o c : from s saved outside c → from s saved (o :: outside) c.
Proof. intros [?|[?|[?|?]]]; unfold from; set_solver. Qed.
(** Both files are synchronised and have a content of known origin. *)
Definition sound (s : session) (saved : list pyval) (outside : list (option string)) (d : directory) : Prop :=
  at_rest d ∧ from s saved outside (data_of (visible d)) ∧ from s saved outside (data_of (durable d)).
Lemma checkpoint_sound s saved outside plan torn t payload s1 r s2 : save plan torn t payload s1 = (r, s2) →
  sound s saved outside (dir s1) → sound s (payload :: saved) outside (dir s2).
Proof.
  intros Hrun (Hr & Hv%(from_more _ _ _ payload) & Hd%(from_more _ _ _ payload)).
  pose proof (save_outcome_kept plan torn t payload s1) as Ho.
  rewrite Hrun in Ho. cbn [snd] in Ho. destruct Ho as [[Ev Ed]|(data & Ha & _ & Ev & Ed)].
  { unfold sound, at_rest. by rewrite Ev, Ed. }
  assert (from s (payload :: saved) outside (Some data)) as Hf.
  { do 3 right. exists payload, data. split; [left|done]. }
  unfold sound, at_rest. rewrite Ev. destruct Ed as [->| ->]; (split; [|done]).
  - intros f [[= <-]|Hf']; [done|]. apply Hr. by right.
  - intros f [[= <-]|[= <-]]; done.
Qed.
Lemma restart_sound s saved outside d d' : restarted d d' → sound s saved outside d → sound s saved outside d'.
Proof.
  intros [f f' ps Hf Hs] (Hr & Hv & Hd). assert (from s saved outside (data_of f)) as Hfrom by (by destruct Hf as [->| ->]).
  unfold sound, at_rest. cbn [visible durable]. destruct Hs as [|c|c c'].
  - split; [|done]. by intros ? [?|?].
  - split; [|done]. intros ? [[= <-]|[= <-]]; done.
  - exfalso. assert (synced (FileOf c false) = true) as E; [|done]. apply Hr. destruct Hf as [->| ->]; auto.
Qed.
Lemma lived_sound s saved outside s' : at_rest (dir s) → lived s saved outside s' → sound s saved outside (dir s').
Proof.
  intros Hs. induction 1; cbn [dir].
  - split; [done|]. unfold from. auto.
  - by eapply checkpoint_sound.
  - by eapply restart_sound, checkpoint_sound.
  - by eapply checkpoint_sound.
  - by eapply restart_sound.
  - done.
  - split; [by intros f [Hf|Hf]; destruct c; cbn in Hf; simplify_eq|].
    assert (from s saved (c :: outside) c) as Hc by (do 2 right; left; left). by destruct c.
Qed.
(** C36: the session file is never torn, and nobody's content is overwritten unseen.  After
    any sequence of saves that return, fail at any system call or are cut off by a loss of
    power or a kill, of restarts, of reopenings, and of changes by other programs, the
    content, now or after a loss of power, is whole: one of those at the start, one that
    another program put there, or the file of an accepted payload saved since.  And a save
    changes the content only when it is what this store last read or wrote. *)
Theorem checkpoints_never_torn s saved outside s' : at_rest (dir s) → lived s saved outside s' →
  (∀ d, d = dir s' ∨ restarted (dir s') d → from s saved outside (data_of (visible d))) ∧
  ∀ plan torn t payload, let s'' := (save plan torn t payload s').2 in
    visible (dir s'') = visible (dir s') ∧ durable (dir s'') = durable (dir s') ∨
    data_of (visible (dir s')) = expected (proc s').
Proof.
  intros Hs Hl%lived_sound; [|done]. split.
  - intros d [->|Hd]; [apply Hl|]. by apply (restart_sound _ _ _ _ _ Hd).
  - intros plan torn t payload. destruct (save_outcome_kept plan torn t payload s') as [Hk|(data & _ & He & _)]; auto.
Qed.

(** ** A session read back *)
Lemma getitems_read v ks : follows js (getitems v ks) (getitems (js v) ks).
Proof.
  revert v. induction ks as [|k ks IH]; intros v; cbn; [by apply follows_ok|]. apply (follows_bind js); [apply getitem_read|]. intros x _. apply IH.
Qed.
Lemma check_snapshot_read start n histories k v :
  follows id (check_snapshot start n histories (k, v)) (check_snapshot start n (entries_read histories) (k, js v)).
Proof.
  unfold check_snapshot. apply (follows_bind id); [apply follows_same|]. intros [] _.
  apply (follows_bind id); [apply snapshot_read|]. intros [] _.
  apply (follows_bind js); [apply getitems_read|]. intros venue _. apply (follows_bind js); [apply getitems_read|]. intros c _.
  apply (follows_bind js); [apply getitems_read|]. intros r _. apply (follows_bind id).
  { destruct r as [| |number| | | | |]; try (by intros ?). destruct c as [| |count| | | | |]; try (by intros ?). cbn [json_sorted]. cbv zeta.
    same_test. destruct (_ =? n); [|apply follows_same]. apply (follows_bind js); [apply getitem_read|]. intros t _. rewrite iso_read. apply follows_same. }
  intros [] _. on_read. destruct (dict_get k histories) as [h|]; [|apply follows_same]. cbn [fmap option_fmap option_map].
  apply (follows_bind id); [apply history_read|]. intros [] _. apply (follows_bind js); [apply getitem_read|]. intros s _.
  rewrite (differs_read s v (js s) (js v)) by apply dumps_read. apply follows_same.
Qed.
Lemma check_snapshots_ok start n histories l :
  check_snapshots start n histories l = Ok tt ↔ ∀ k v, (k, v) ∈ l → check_snapshot start n histories (k, v) = Ok tt.
Proof.
  induction l as [|[k v] l IH]; cbn -[check_snapshot]; [split; [by intros _ ? ? ?%not_elem_of_nil|done]|]. rewrite bind_Ok. setoid_rewrite elem_of_cons. split.
  - intros ([] & Hk & Hl) k' v' [[= -> ->]|Hin]; [done|by apply IH].
  - intros Hl. exists tt. split; [apply Hl; by left|]. apply IH. intros k' v' Hin. apply Hl. by right.
Qed.
Lemma current_read snapshots v : current_invalid (entries_read snapshots) (js v) = current_invalid snapshots v.
Proof.
  unfold current_invalid. pose proof (js_length snapshots) as El. destruct snapshots as [|kv l].
  - destruct (entries_read []); [|done]. by on_read.
  - destruct (entries_read (kv :: l)) as [|kv' l'] eqn:E; [done|]. destruct v; try done. cbn [json_sorted]. by rewrite <- E, js_has.
Qed.
Lemma session_read v : follows id (validate_session v) (validate_session (js v)).
Proof.
  destruct v as [| | | | | | |d]; try (by intros ?). rewrite js_dict. unfold validate_session. cbv zeta. on_read. rewrite same_keys_read.
  apply (follows_bind id); [apply follows_same|]. intros [] _. rewrite iso_read. apply (follows_bind id); [apply follows_same|]. intros start _.
  apply (follows_bind id); [by destruct (get_or_none "series" d); intros ?|]. intros n _.
  destruct (get_or_none "snapshots" d) as [| | | | | | |ss]; try (by intros ?).
  destruct (get_or_none "histories" d) as [| | | | | | |hs]; try (by intros ?). rewrite !js_dict. on_read. rewrite current_read.
  apply (follows_bind id).
  { apply follows_reject. rewrite !orb_true_iff, !negb_true_iff. intros [?|Hk]; [by left|right].
    apply not_true_iff_false. apply not_true_iff_false in Hk. contradict Hk. rewrite forallb_forall in *. intros k Hin. rewrite js_has.
    apply Hk. revert Hin. by rewrite <- !list_elem_of_In, js_keys. }
  intros [] _. apply (follows_bind id); [apply follows_same|]. intros [] _ [] Hs. cbn [id] in *. rewrite check_snapshots_ok in *.
  intros k v. unfold entries_read. rewrite sorted_on_perm. intros ([k0 v0] & [= -> ->] & Hin)%list_elem_of_fmap.
  apply check_snapshot_read, Hs, Hin.
Qed.
(** A payload that is saved is read back: [json.loads] gives the entries of its text in
    the order of their keys. *)
Lemma decode_saved payload data sha : validate_session payload = Ok tt → _digest payload = Ok sha →
  loads data = Ok (js (envelope payload sha)) → decode loads data = Ok (js payload).
Proof.
  intros Hv Hd Hl. unfold decode. rewrite Hl. change (js (envelope payload sha)) with (VDict [("payload", js payload); ("sha256", VStr sha)]).
  change (Ok ?a ≫= ?f) with (f a). cbv iota beta.
  change (same_keys [("payload", js payload); ("sha256", VStr sha)] ["payload"; "sha256"]) with true.
  change (get_or_none "payload" [("payload", js payload); ("sha256", VStr sha)]) with (js payload).
  unfold _digest in *. rewrite digest_read, Hd. cbn -[json_sorted validate_session]. rewrite String.eqb_refl. cbn -[json_sorted validate_session].
  by rewrite (session_read _ _ Hv).
Qed.
Lemma accepted_read payload data : accepted payload data → accepted (js payload) data.
Proof.
  intros (Hv & He & Hle). split_and!; [by apply session_read in Hv| |done]. unfold encode, _digest, _canonical in *. rewrite digest_read.
  destruct (digest payload) as [sha|]; [|done]. change (Ok ?a ≫= ?f) with (f a) in *. cbv beta in *.
  rewrite <- (dumps_read (envelope (js payload) sha)). change (js (envelope (js payload) sha)) with (VDict [("payload", js (js payload)); ("sha256", VStr sha)]).
  rewrite js_js. change (VDict [("payload", js payload); ("sha256", VStr sha)]) with (js (envelope payload sha)). by rewrite dumps_read.
Qed.

(** ** A save where the system calls work *)
Lemma system_works plan c effect s : plan c = Fine → system plan c effect s = (Ok tt, Session (effect (dir s)) (proc s)).
Proof. unfold system. by intros ->. Qed.
Lemma write_file_works plan torn t data s : (∀ c, plan c = Fine) → partial (dir s) !! t = None →
  data_of (visible (dir s)) = expected (proc s) → (∀ f, visible (dir s) = Some f → slen (content f) ≤ MAX_BYTES) →
  ∃ w, write_file plan torn t data (s, Progress false false) = (Ok tt, w).
Proof.
  intros Hp Ht Hv Hsize. assert (_read plan s = (Ok (data_of (visible (dir s))), s)) as Hread.
  { unfold _read. rewrite bind_run, system_works by done. unfold id. destruct s as [[[f|] dur ps] st]; [|done]. cbn in *.
    run. unfold reject_if. by rewrite (proj2 (Z.ltb_ge _ _) (Hsize f eq_refl)). }
  unfold write_file. run. rewrite Hread. unfold reject_if. rewrite bool_decide_true by done. cbn [negb]. run.
  unfold create_temporary, temporary_file. run. rewrite Ht, system_works by done. unfold write_temporary. run. rewrite Hp. cbn [end_of]. run.
  unfold sync_temporary, temporary_file. run. unfold put. cbn [partial]. rewrite lookup_insert_eq, system_works by done. run.
  unfold replace_by, temporary_file. run. unfold put. cbn [partial]. rewrite lookup_insert_eq, system_works by done. run.
  rewrite system_works by done. by eexists.
Qed.
Lemma save_works plan torn t payload data s : (∀ c, plan c = Fine) → partial (dir s) !! t = None → failed (proc s) = false →
  data_of (visible (dir s)) = expected (proc s) → (∀ f, visible (dir s) = Some f → slen (content f) ≤ MAX_BYTES) →
  accepted payload data → ∃ s', save plan torn t payload s = (Ok tt, s').
Proof.
  intros Hp Ht Hf Hv Hsize (Hval & He & Hle). unfold save. run. rewrite Hf. run. rewrite Hval, He. unfold reject_if.
  rewrite (proj2 (Z.ltb_ge _ _) Hle). unfold write_checkpoint. pose proof (write_file_run plan torn t data s) as Hw.
  destruct (write_file_works plan torn t data s Hp Ht Hv Hsize) as [[s1 p] E]. rewrite E in *. destruct Hw as (_ & _ & ps & Hps & ->).
  match goal with |- context [cleanup plan ?p t ?s1] => destruct (cleanup_run plan p t s1) as (r & ps' & -> & Hr) end.
  rewrite (Hr Hps). by eexists.
Qed.
(** C37: a session that opens can go on, and a restart resumes it.  When the store opens on
    a directory, its system calls work and the name of the temporary file is free, saving
    any accepted payload returns; and the store that opens next, on this directory or on
    what a loss of power leaves of it, decodes the file to that payload, its entries in the
    order of their keys, which is itself accepted and would be saved as the same file. *)
Theorem save_progress plan d st restored torn t payload data sha :
  open_store plan loads d = Ok (st, restored) → (∀ c, plan c = Fine) → partial d !! t = None →
  accepted payload data → _digest payload = Ok sha →
  loads data = Ok (json_sorted (envelope payload sha)) →
  ∃ s', save plan torn t payload (Session d st) = (Ok tt, s') ∧
    visible (dir s') = Some (FileOf data true) ∧ durable (dir s') = Some (FileOf data true) ∧ proc s' = Store false (Some data) ∧
    accepted (json_sorted payload) data ∧
    ∀ d' plan', d' = dir s' ∨ restarted (dir s') d' → plan' Read = Fine →
      open_store plan' loads d' = Ok (Store false (Some data), Some (json_sorted payload)).
Proof.
  intros Ho Hp Ht Ha Hsha Hl. unfold open_store in Ho. rewrite Hp in Ho.
  assert (st = Store false (data_of (visible d)) ∧ ∀ f, visible d = Some f → slen (content f) ≤ MAX_BYTES) as [-> Hsize].
  { destruct (visible d) as [f|]; [|by injection Ho as <- _]. inv_result. split; [done|]. intros ? [= <-]. by apply Z.ltb_ge. }
  destruct (save_works plan torn t payload data (Session d (Store false (data_of (visible d))))) as [s' Hs]; [done..|].
  pose proof (save_outcome plan torn t payload (Session d (Store false (data_of (visible d))))) as Hout. rewrite Hs in *.
  destruct Hout as (data' & (_ & He & _) & _ & _ & Hd & Hpr). assert (data' = data) as ->.
  { destruct Ha as (_ & He' & _). congruence. }
  exists s'. rewrite Hd. split_and!; try done; [by apply accepted_read|]. intros d' plan' Hr Hplan.
  assert (visible d' = Some (FileOf data true)) as Hv.
  { destruct Hr as [->|Hr]; [done|]. destruct Hr as [f f' ps Hf Hset]. cbn [visible durable] in *. destruct Hf as [->| ->]; by inversion Hset. }
  unfold open_store. rewrite Hplan, Hv. cbn [content]. unfold reject_if. destruct Ha as (Hval & _ & Hle). rewrite (proj2 (Z.ltb_ge _ _) Hle).
  change (Ok ?a ≫= ?f) with (f a). cbv beta. by rewrite (decode_saved payload data sha).
Qed.
End facts.

(** ** The workbench *)
Section workbench.
Context `{Readers} `{Calendar}.
Context (isoformat : datetime → string) (ten_minutes_later : datetime → result string) (attached : bool).
Implicit Types (w : workbench) (m : memory).

Lemma commit_run plan torn temporary payload w :
  match _commit attached plan torn temporary payload w with
  | (Ok _, w') => _apply payload = Ok (mem w') ∧
      (attached = true → ∃ data, accepted payload data ∧ visible (dir (disk w')) = Some (FileOf data true) ∧ durable (dir (disk w')) = Some (FileOf data true))
  | (Err _, w') => mem w' = mem w
  end.
Proof.
  unfold _commit. destruct attached.
  - pose proof (save_outcome plan torn temporary payload (disk w)) as Hs.
    destruct (save _ _ _ _) as [[[]|e] s]; [|done]. destruct Hs as (data & Ha & _ & _ & Hd & _).
    destruct (_apply payload); [|done]. split; [done|]. intros _. exists data. cbn [disk]. by rewrite Hd.
  - destruct (_apply payload); done.
Qed.
Lemma update_get k (d e : pydict) : dict_get k (dict_update d e) =
  match dict_get k (rev e) with Some v => Some v | None => dict_get k d end.
Proof.
  unfold dict_update. revert d. induction e as [|[k' v] e IH] using rev_ind; intros d; [done|].
  rewrite fold_left_app, rev_app_distr. cbn [fold_left rev app dict_get fst snd]. rewrite dict_get_set.
  destruct (String.eqb k' k); [done|]. apply IH.
Qed.
(** What was recorded stays. *)
Definition grows m m' : Prop :=
  (∀ k v, dict_get k (snapshots m) = Some v → dict_get k (snapshots m') = Some v) ∧
  (∀ k v, dict_get k (histories m) = Some v → dict_get k (histories m') = Some v).
(** The snapshots and histories an applied payload gives. *)
Lemma apply_payload m changes m' : _apply (_payload isoformat m changes) = Ok m' →
  snapshots m' = match dict_get "snapshots" (rev changes) with Some v => as_pydict v | None => snapshots m end ∧
  histories m' = match dict_get "histories" (rev changes) with Some v => as_pydict v | None => histories m end.
Proof.
  unfold _apply, _payload, getitem. rewrite !update_get. intros Hrun. inv_result. cbn [snapshots histories].
  repeat match goal with H : match match ?x with _ => _ end with _ => _ end = Ok _ |- _ => destruct x eqn:?; try (injection H as <-) end.
  all: try done.
Qed.
Lemma set_keeps k v (d : pydict) key x : dict_get key d = None → dict_get k d = Some v → dict_get k (dict_set key x d) = Some v.
Proof.
  intros Hn Hk. rewrite dict_get_set. destruct (String.eqb_spec key k) as [->|]; [by rewrite Hk in Hn|done].
Qed.
(** What the memory shows is a saved session, when there is a directory. *)
Definition shown_saved (w : workbench) : Prop := attached = true → ∃ payload data, accepted payload data ∧
  visible (dir (disk w)) = Some (FileOf data true) ∧ durable (dir (disk w)) = Some (FileOf data true) ∧ _apply payload = Ok (mem w).
Definition committed w (run : result unit * workbench) : Prop :=
  match run with
  | (Ok _, w') => grows (mem w) (mem w') ∧ shown_saved w'
  | (Err _, w') => mem w' = mem w
  end.
Lemma commit_committed plan torn temporary w changes :
  (∀ m', _apply (_payload isoformat (mem w) changes) = Ok m' → grows (mem w) m') →
  committed w (_commit attached plan torn temporary (_payload isoformat (mem w) changes) w).
Proof.
  intros Hg. pose proof (commit_run plan torn temporary (_payload isoformat (mem w) changes) w) as Hc. unfold committed.
  destruct (_commit _ _ _ _ _) as [[[]|e] w']; [|done]. destruct Hc as [Ha Hs]. split; [by apply Hg|].
  intros (data & ? & ? & ?)%Hs. by eexists _, data.
Qed.
Lemma record_committed plan torn temporary key fields w :
  committed w (_record isoformat ten_minutes_later attached plan torn temporary key fields w).
Proof.
  unfold _record. run. destruct (dict_get key (snapshots (mem w))) as [snapshot|] eqn:Ek; [|done]. unfold reject_if.
  destruct (dict_has key (histories (mem w))) eqn:Eh; [done|].
  do 5 match goal with |- committed _ (match ?r with _ => _ end) => destruct r; [|done] end.
  apply commit_committed. intros m' [Es Eh']%apply_payload. unfold grows. rewrite Es, Eh'. cbn. split; [done|].
  intros k v. apply set_keeps. unfold dict_has in Eh. by destruct (dict_get key (histories (mem w))).
Qed.
(** The key of a new snapshot is new. *)
Definition fresh_request w (q : request) : Prop :=
  match q with Predict _ _ _ _ _ key => dict_get key (snapshots (mem w)) = None | _ => True end.
Lemma ready_same count w r w' : ready_to_predict attached count w = (r, w') → w' = w.
Proof.
  unfold ready_to_predict. run. destruct (reject_if _ ValueError "seven_or_nine_required"); [|by intros [= <-]].
  destruct (attached && failed (proc (disk w))); run; by intros [= <-].
Qed.
(** C38: the workbench shows only what is saved and forgets nothing.  A request that
    succeeds leaves a memory read back from an accepted session that the directory now
    holds durably, in which every earlier snapshot and history is unchanged; a request
    that fails, in the check, in the save or in the reading back, leaves the memory as
    it was. *)
Theorem workbench_shows_saved plan torn temporary q w : fresh_request w q →
  committed w (perform isoformat ten_minutes_later attached plan torn temporary q w).
Proof.
  intros Hq. destruct q as [key|count now later prediction captured key|key outcome odds|key status withdrawn]; cbn [perform].
  - unfold select. run. unfold reject_if. destruct (negb _); [done|]. apply commit_committed.
    intros m' [Es Eh]%apply_payload. unfold grows. by rewrite Es, Eh.
  - unfold predict. run. destruct (ready_to_predict attached count w) as [[[]|e] w1] eqn:Er;
      apply ready_same in Er as ->; [|done]. run.
    destruct (capture_prediction captured prediction true) as [snapshot|e]; [|done].
    apply commit_committed. intros m' [Es Eh]%apply_payload. unfold grows. rewrite Es, Eh. cbn. split; [|done].
    intros k v. by apply set_keeps.
  - apply record_committed.
  - unfold hold. run. unfold reject_if. destruct (negb _); [done|].
    destruct (is_text status "withdrawn"); [apply record_committed|]. destruct (is_none withdrawn); [apply record_committed|done].
Qed.
End workbench.

(** ** Examples *)
#[local] Existing Instance decimal_readers.
#[local] Instance example_calendar : Calendar := {| date_iso s := Ok s; japan_date t := Ok (z_str (instant t / 1000)) |}.
Definition example_memory (series : Z) : memory := Memory (Datetime true 1000 (Ok 1000)) series [] [] VNone.
Definition example_iso (t : datetime) : string := z_str (instant t).
Definition example_payload (series : Z) : pyval := _payload example_iso (example_memory series) [].
Definition example_data (series : Z) : string := match encode (example_payload series) with Ok s => s | Err _ => "" end.
Lemma example_accepted : accepted (example_payload 1) (example_data 1) ∧ accepted (example_payload 2) (example_data 2).
Proof. vm_compute. repeat split; discriminate. Qed.
Definition works (c : syscall) : outcome := Fine.
Definition empty_directory : directory := Directory None None ∅.
Definition example_sha : string := match _digest (example_payload 1) with Ok s => s | Err _ => "" end.
(** [json.loads] of the one text these examples read. *)
Definition example_loads (s : string) : result pyval :=
  if String.eqb s (example_data 1) then Ok (json_sorted (envelope (example_payload 1) example_sha)) else raise ValueError "".
Lemma save_progress_witness : accepted (example_payload 1) (example_data 1) ∧
  ∃ s', save works 0 "tmp" (example_payload 1) (Session empty_directory (Store false None)) = (Ok tt, s') ∧
    ∀ d, restarted (dir s') d →
      open_store works example_loads d = Ok (Store false (Some (example_data 1)), Some (json_sorted (example_payload 1))).
Proof.
  destruct example_accepted as [Ha _]. split; [exact Ha|].
  destruct (save_progress example_loads works empty_directory (Store false None) None 0 "tmp" (example_payload 1) (example_data 1) example_sha)
    as (s' & Hs & _ & _ & _ & _ & Hd);
    [reflexivity|reflexivity|reflexivity|exact Ha|vm_compute; reflexivity|unfold example_loads; rewrite String.eqb_refl; reflexivity|].
  exists s'. split; [exact Hs|]. intros d Hr. exact (Hd d works (or_intror Hr) eq_refl).
Defined.
(** A save is cut off before the directory is synchronised; the content is lost with the
    power, and the next save works. *)
Definition power_cut (c : syscall) : outcome := match c with SyncDirectory => Dies | _ => Fine end.
Definition start : session := Session empty_directory (Store false None).
Definition cut : result unit * session := save power_cut 0 "tmp" (example_payload 1) start.
Definition again : result unit * session := save works 0 "tmp" (example_payload 2) start.
Lemma checkpoints_never_torn_witness : at_rest empty_directory ∧
  ∃ s', lived example_loads start [example_payload 2; example_payload 1] [] s' ∧
    from start [example_payload 2; example_payload 1] [] (data_of (visible (dir s'))).
Proof.
  assert (at_rest (dir start)) as Hr by (intros f [[=]|[=]]). split; [exact Hr|].
  assert (lived example_loads start [example_payload 2; example_payload 1] [] again.2) as Hl.
  { eapply (LivedSave _ _ _ _ start works 0 "tmp" _ again.1); [|reflexivity|vm_compute; discriminate].
    eapply (LivedLoss _ _ [] [] start power_cut 0 "tmp" _ cut.2 empty_directory works _ None);
      [apply LivedNone|vm_compute; reflexivity|vm_compute; eapply Restarted; [right; reflexivity|apply SettlesNone]|reflexivity]. }
  exists again.2. split; [exact Hl|]. destruct (checkpoints_never_torn example_loads _ _ _ _ Hr Hl) as [Hd _]. apply Hd. left. reflexivity.
Defined.
Definition example_workbench : workbench := Workbench (example_memory 1) start.
Definition example_request : request :=
  Predict (VInt 7) (Datetime true 2000 (Ok 2000)) (Datetime true 5000 (Ok 5000)) (VDict []) "3000" "k".
Lemma workbench_shows_saved_witness : fresh_request example_workbench example_request ∧
  committed true example_workbench (perform example_iso (λ t, Ok (z_str (instant t + 600))) true works 0 "tmp" example_request example_workbench).
Proof. split; [reflexivity|]. apply workbench_shows_saved. reflexivity. Defined.
