(* ===== verification/Preparation.v ===== *)
(** agent_core/historical_preparation.py: a historical plan (ml/historical_training.py)
    prepared through the shared runner: the adapter with its two actions, the report
    written once, and the reconciliation of an interrupted task.

    The outside world of the runner is what a local disk holds outside the state directory
    [root/state]: files and symbolic links; paths are resolved ASCII texts.  That directory
    has the state files and the ledger of StateStore.v, without its lock and temporary
    files; the guard against inputs inside it is that of [run_preparation].  The n-th
    creation of a file completes, is refused, or is cut off and leaves part of the content,
    as [fate] says. *)
From Stdlib Require Import Ascii SpecFloat.
From S2P Require Import Prelude PyString PyValue PyText PyFloat Sha256 Dataset History TaskModel TaskStore StateStore Runner Registry.

Definition TASK_ID : string := "historical-preparation".
Definition RECONCILIATION_NOTE : string := "historical_preparation_exact_output_verified_no_action_replay".
Definition INTERRUPTED : string := "interrupted_step_requires_reconciliation:prepare".

(** ** The disk *)
(** A link reads as the file it leads to, if there is one. *)
Inductive entry := File (content : string) | Link (target : option string).
Record local := Local { disk : gmap string entry; creations : nat }.
Inductive write_fate := Complete | Refused (e : exn) | CutOff (partial : string) (e : exn).

(** [json.dumps(value, sort_keys=True, ensure_ascii=False, indent=2, allow_nan=False)] *)
Definition line (pad : string) : string := String (chr 10) pad.
Fixpoint json_indented (pad : string) (v : pyval) : result string :=
  let inner := (pad ++ "  ")%string in
  let block (opening closing : string) (items : list string) : string :=
    match items with
    | [] => opening ++ closing
    | _ => opening ++ line inner ++ join ("," ++ line inner) items ++ line pad ++ closing
    end%string in
  match v with
  | VList l | VTuple l => ss ← mapR (json_indented inner) l; Ok (block "[" "]" ss)%string
  | VDict d =>
      kss ← (fix go d := match d with
             | [] => Ok []
             | (k, x) :: d' => s ← json_indented inner x; r ← go d'; Ok ((k, s) :: r)
             end) d;
      Ok (block "{" "}" (map (λ ks, (json_str ks.1 ++ ": " ++ ks.2)%string) (sorted_on fst kss)))
  | _ => json_dumps v
  end.
Definition encoded (value : pyval) : result string :=
  text ← json_indented "" value; Ok (text ++ String (chr 10) "")%string.
(** [hashlib.sha256(content).hexdigest()] *)
Definition bytes_hash (content : string) : string := hex (sha256 (map code (chars content))).

Section disk.
Context (fate : nat → write_fate).

Definition content_of (e : entry) : option string := match e with File c => Some c | Link target => target end.
Definition is_link (e : option entry) : bool := match e with Some (Link _) => true | _ => false end.
Definition read_bytes (path : string) : eff local string :=
  w ← Prelude.get;
  match disk w !! path ≫= content_of with
  | Some content => mret content
  | None => throw (Exn OSError "No such file or directory")
  end.
Definition file_hash (path : string) : eff local string := content ← read_bytes path; mret (bytes_hash content).
(** [os.open(path, O_WRONLY | O_CREAT | O_EXCL)] and the write to it *)
Definition create (path content : string) : eff local unit := λ w,
  let put c := Local (<[path := File c]> (disk w)) (S (creations w)) in
  match fate (creations w) with
  | Complete => (Ok tt, put content)
  | Refused e => (Err e, Local (disk w) (S (creations w)))
  | CutOff partial e => (Err e, put partial)
  end.
Definition write_once (path : string) (value : pyval) : eff local unit :=
  content ← lift (encoded value);
  w ← Prelude.get;
  match disk w !! path with
  | Some (File c) =>
      if String.eqb c content then mret tt else throw (Exn BlockedAction "historical_output_conflict")
  | Some (Link _) => throw (Exn BlockedAction "historical_output_conflict")
  | None => create path content
  end.
End disk.

(** ** The adapter *)
Record adapter := Adapter {
  records : string; reviews : string; output : string;
  records_sha256 : string; reviews_sha256 : string; validation_start : string; test_start : string }.
Definition inputs (a : adapter) : pydict :=
  [("records_sha256", VStr (records_sha256 a)); ("reviews_sha256", VStr (reviews_sha256 a));
   ("validation_start", VStr (validation_start a)); ("test_start", VStr (test_start a));
   ("split_purpose", VStr "diagnostic_only"); ("training_enabled", VBool false)].
Definition blocked {A} (code : string) : result A := raise BlockedAction code.

Section adapter.
Context `{Readers}.
(** [json.loads], and the float of a time held as its multiple of 2^-1074 *)
Context (loads : string → result pyval) (time_value : Z → pyval).
Context (fate : nat → write_fate).

Definition new_adapter (records reviews output validation_start test_start : string) : eff local adapter :=
  v ← lift (timestamp (VStr validation_start));
  t ← lift (timestamp (VStr test_start));
  lift (reject_if (t <=? v) ValueError "validation_must_precede_test");;
  records_sha256 ← file_hash records;
  reviews_sha256 ← file_hash reviews;
  mret (Adapter records reviews output records_sha256 reviews_sha256 validation_start test_start).

(** [{r["race_id"]: digest(r) for r in rows}]; a key that is no text is not one of a
    JSON object. *)
Definition record_hash (r : pyval) : result (pyval * string) :=
  k ← getitem r "race_id";
  sha ← digest r;
  if hashable k then Ok (k, sha) else raise TypeError "unhashable type".
Definition record_hashes (rows : list pyval) : result (option pydict) :=
  hs ← mapR record_hash rows;
  Ok (if forallb (λ h, is_str h.1) hs then Some (dict_update [] (map (λ h, (py_str h.1, VStr h.2)) hs)) else None).
Definition STAGES : list string := ["quarantined_records"; "detail_quarantined_records"; "orphan_entrant_races"].
Definition stage_count (data : pydict) (stage : string) : result (string * pyval) :=
  match dict_get stage data with
  | Some (VList l) => Ok (stage, VInt (Z.of_nat (length l)))
  | Some _ => blocked "historical_intake_stage_array_required"
  | None => Ok (stage, VNone)
  end.
(** What [expected_report] makes of the two inputs: the report, and the counts it keeps in
    [self.intake_counts]. *)
Definition report_of (a : adapter) (data reviews : pyval) : result (pydict * pydict) :=
  match data with
  | VDict d =>
      match get_or_none "records" d with
      | VList rows =>
          if negb (is_text (get_or_none "schema_version" d) "historical-review-records-v1")
          then blocked "historical_review_records_required" else
          hashes ← record_hashes rows;
          match hashes with
          | Some hs =>
              if negb (length hs =? length rows)%nat || negb (py_eqb (get_or_none "record_hashes" d) (VDict hs))
              then blocked "historical_record_hashes_mismatch" else
              counts ← mapR (stage_count d) STAGES;
              pl ← History.prepare (VList rows) reviews (VStr (validation_start a)) (VStr (test_start a));
              Ok (plan_entries time_value pl (VStr (validation_start a)) (VStr (test_start a))
                    ++ [("preparation_inputs", VDict (inputs a))],
                  ("converted_records", VInt (Z.of_nat (length rows))) :: counts)
          | None => blocked "historical_record_hashes_mismatch"
          end
      | _ => blocked "historical_review_records_required"
      end
  | _ => blocked "historical_review_records_required"
  end.
Definition checked_input (path sha : string) : eff local pyval :=
  raw ← read_bytes path;
  (if negb (String.eqb (bytes_hash raw) sha) then lift (blocked "historical_input_changed") else mret tt);;
  lift (loads raw).
Definition expected_report (a : adapter) : eff local (pydict * pydict) :=
  data ← checked_input (records a) (records_sha256 a);
  reviews ← checked_input (reviews a) (reviews_sha256 a);
  lift (report_of a data reviews).

Definition sum_counts (v : pyval) : Z :=
  match v with VDict d => foldr Z.add 0 (map (λ kv, match kv.2 with VInt z => z | _ => 0 end) d) | _ => 0 end.
Definition excluded_count (report : pydict) : Z :=
  match get_or_none "excluded" report with VList l => Z.of_nat (length l) | _ => 0 end.
Definition accounting (report counts : pydict) : pydict :=
  let prepared := sum_counts (get_or_none "partition_counts" report) in
  let excluded := excluded_count report in
  dict_update counts
    [("partitioned_records", VInt prepared); ("preparation_excluded_records", VInt excluded);
     ("converted_records_accounted_for", VBool (py_eqb (VInt (prepared + excluded)) (get_or_none "converted_records" counts)));
     ("scope", VStr "supplied_stage_entries_not_unique_race_total")].

Definition check (a : adapter) : eff local (pydict * pydict) :=
  expected ← expected_report a;
  w ← Prelude.get;
  let mismatch := throw (Exn BlockedAction "historical_preparation_readback_mismatch") in
  if is_link (disk w !! output a) then mismatch else
  content ← read_bytes (output a);
  wanted ← lift (encoded (VDict expected.1));
  if String.eqb content wanted then mret expected else mismatch.
Definition verified_artifact (a : adapter) : eff local ArtifactUpdate.t :=
  check a;;
  sha ← file_hash (output a);
  mret {| ArtifactUpdate.artifact_id := VStr "historical-preparation-plan"; ArtifactUpdate.kind := VStr "historical-plan";
          ArtifactUpdate.locator := VStr (output a); ArtifactUpdate.created := VBool true;
          ArtifactUpdate.verified := VBool true; ArtifactUpdate.persistent_saved := VBool false;
          ArtifactUpdate.device_saved := VNone; ArtifactUpdate.ui_loaded := VNone;
          ArtifactUpdate.metadata := VDict [("sha256", VStr sha); ("storage_scope", VStr "local_host_only");
                                            ("training_runs", VInt 0)] |}.
(** [run(args, context)] and [verify(args, context)] *)
Definition run_action (a : adapter) : Action local := λ args context,
  lift (if negb (bool_decide (args = [])) || is_true (get_or_none "dry_run" context)
        then blocked "historical_preparation_write_not_authorized" else Ok tt);;
  expected ← expected_report a;
  write_once fate (output a) (VDict expected.1);;
  checked ← check a;
  artifact ← verified_artifact a;
  mret (RetResult
    {| ActionResult.message := "offline preparation report verified; no training performed";
       ActionResult.artifacts := [artifact];
       ActionResult.data :=
         [("partition_counts", get_or_none "partition_counts" expected.1);
          ("excluded_records", VInt (excluded_count expected.1)); ("training_runs", VInt 0);
          ("input_accounting", VDict (accounting expected.1 checked.2))] |}).
Definition verify_action (a : adapter) : Action local := λ args context,
  check a;; mret (RetDict None [("verified", VBool true)]).
Definition tool_adapter (a : adapter) : ToolAdapter local :=
  MkAdapter "historical-offline-preparation"
    [MkCapability "historical.prepare" "write" ["historical:local:prepare"] false "";
     MkCapability "historical.verify_preparation" "read" ["historical:local:read"] true ""]
    {["historical.prepare" := run_action a; "historical.verify_preparation" := verify_action a]}.
End adapter.

(** ** One run of the task *)
(** [p.is_relative_to(base)] of resolved paths *)
Definition is_relative_to (p base : string) : bool := String.eqb p base || String.prefix (base ++ "/")%string p.
Definition below (root name : string) : string := (root ++ "/" ++ name)%string.

Record receipt := Receipt {
  outcome : RunOutcome.t; receipt_inputs : pydict; partition_counts : option pyval; excluded_records : option Z;
  input_accounting : option pydict; preparation_sha256 : option string }.

(** [set(attempts) == {"prepare"}] with a count of at least one *)
Definition one_attempt (attempts : gmap string Z) : bool :=
  match attempts !! "prepare" with
  | Some n => bool_decide (dom attempts = {["prepare"]}) && (1 <=? n)
  | None => false
  end.
Definition one_attempt_value (v : pyval) : bool :=
  match v with
  | VDict d => negb (bool_decide (d = [])) && forallb (String.eqb "prepare") (keys d)
               && match get_or_none "prepare" d with VInt n => 1 <=? n | _ => false end
  | _ => false
  end.
Definition expected_record : pydict :=
  [("step_id", VStr "prepare"); ("resolution", VStr "applied_and_verified"); ("note", VStr RECONCILIATION_NOTE);
   ("previous_blocked_reason", VStr INTERRUPTED); ("previous_last_error", VNone)].
Definition reconciliation_committed (state : TaskState.t) : result bool :=
  active ← in_str_set (TaskState.status state) ["pending"; "running"];
  Ok (active && py_eqb (VList (TaskState.completed_steps state)) (VList [VStr "prepare"])
      && is_none (TaskState.blocked_reason state) && is_none (TaskState.last_error state)
      && one_attempt (TaskState.attempts state)
      && match TaskState.reconciliations state with
         | [VDict record] => forallb (λ kv, py_eqb (get_or_none kv.1 record) kv.2) expected_record
         | _ => false
         end).

Section run.
Context `{Readers}.
Context (loads : string → result pyval) (time_value : Z → pyval).
Context (fate : nat → write_fate) (now : nat → string) (io_fault : nat → bool) (type_name : exn → string).
(** The directory of the checkout. *)
Context (repository : string).
Abbreviation E := (eff (host local)).
#[local] Instance store : TaskStore (host local) local := file_store now io_fault.

Definition spec_of (a : adapter) : TaskSpec.t := {|
  TaskSpec.task_id := TASK_ID; TaskSpec.title := "Historical preparation diagnostic";
  TaskSpec.goal := "Verify private preparation output without collecting, approving or training";
  TaskSpec.allowed_actions := ["historical.prepare"; "historical.verify_preparation"];
  TaskSpec.steps := [StepSpec.mk "prepare" "historical.prepare" [] (Some "historical.verify_preparation") false 1];
  TaskSpec.inputs := inputs a ++ [("records_path", VStr (records a)); ("reviews_path", VStr (reviews a))];
  TaskSpec.completion_conditions := ["preparation bytes verified"; "training remains off"];
  TaskSpec.schema_version := TASK_SCHEMA_VERSION |}.
Definition check_ : adapter → eff local (pydict * pydict) := check loads time_value.

(** What an explicit reconciliation requires before the task is touched. *)
Definition require_saved_attempt (root : string) : E unit :=
  h ← Prelude.get;
  (if bool_decide (is_Some (files h !! TASK_ID))
      && match disk (world h) !! below root "task.json" ≫= content_of with Some _ => true | None => false end
   then mret tt else lift (blocked "historical_reconciliation_existing_task_required"));;
  attempts ← lift (py_get (default VNone (files h !! TASK_ID)) "attempts");
  if one_attempt_value (default VNone attempts) then mret tt
  else lift (blocked "historical_reconciliation_interruption_required").
(** The reconciliation itself: a matching report never authorizes another task. *)
Definition reconcile_output (a : adapter) (spec : TaskSpec.t) (state : TaskState.t) : E unit :=
  fingerprint ← lift (TaskSpec.fingerprint spec);
  (if py_eqb (TaskState.spec_fingerprint state) (VStr fingerprint) then mret tt
   else lift (blocked "historical_reconciliation_task_mismatch"));;
  committed ← lift (reconciliation_committed state);
  if committed : bool then on_world (check_ a);; mret tt
  else if is_text (TaskState.status state) "completed" then mret tt
  else
    (if is_text (TaskState.status state) "blocked" && is_text (TaskState.blocked_reason state) INTERRUPTED
        && bool_decide (TaskState.completed_steps state = []) && one_attempt (TaskState.attempts state)
     then mret tt else lift (blocked "historical_reconciliation_interruption_required"));;
    artifact ← on_world (verified_artifact loads time_value a);
    _reconcile_blocked_step_locked now io_fault TASK_ID "prepare" "applied_and_verified" RECONCILIATION_NOTE [artifact];;
    mret tt.
(** The body of [with store.task_lock(TASK_ID)]. *)
Definition prepare_locked (a : adapter) (root : string) (spec : TaskSpec.t) (reconcile : bool) : E unit :=
  (if reconcile then require_saved_attempt root else mret tt);;
  on_world (write_once fate (below root "task.json") (TaskSpec.to_dict spec));;
  state ← load_state now TASK_ID;
  (if reconcile then reconcile_output a spec state else mret tt);;
  if is_text (TaskState.status state) "completed" then on_world (check_ a);; mret tt else mret tt.
Definition receipt_of (a : adapter) (outcome : RunOutcome.t) : E receipt :=
  if is_text (RunOutcome.status outcome) "completed" then
    report ← on_world (check_ a);
    sha ← on_world (file_hash (output a));
    mret (Receipt outcome (inputs a) (Some (get_or_none "partition_counts" report.1)) (Some (excluded_count report.1))
            (Some (accounting report.1 report.2)) (Some sha))
  else mret (Receipt outcome (inputs a) None None None None).
Definition run_preparation (records reviews root validation_start test_start : string) (reconcile : bool) : E receipt :=
  lift (reject_if (is_relative_to root repository) ValueError "historical_run_directory_must_be_outside_repository");;
  let output := below root "preparation.json" in
  lift (reject_if (existsb (λ p, String.eqb p output || is_relative_to p (below root "state")
                                 || String.eqb p (below root "task.json")) [records; reviews])
          ValueError "historical_input_output_overlap");;
  a ← on_world (new_adapter records reviews output validation_start test_start);
  on_world (expected_report loads time_value a);;
  registry ← lift (ToolRegistry.register ToolRegistry.empty (tool_adapter loads time_value fate a));
  let spec := spec_of a in
  task_lock TASK_ID (prepare_locked a root spec reconcile);;
  outcome ← Runner.run (TS:=store) (ToolRegistry.actions registry) None type_name spec [];
  receipt_of a outcome.
End run.
