(* ===== verification/PreparationFacts.v ===== *)
(** The preparation of a historical plan never replaces a file, reports only what it has
    just read back, and reconciles an interrupted task without repeating its action. *)
From Stdlib Require Import Ascii SpecFloat.
From S2P Require Import Prelude PyString PyValue PyText PyFloat Sha256 Dataset DatasetFacts History HistoryFacts TaskModel TaskModelFacts TaskStore StateStore StoreFacts Runner RunnerFacts Registry Diagnostics Preparation.

(** ** What only reads *)
Definition readonly {S A} (m : eff S A) : Prop := ∀ s, (m s).2 = s.
Section readonly.
Context {S : Type}.
Lemma readonly_bind {A B} (m : eff S A) (f : A → eff S B) : readonly m → (∀ a, readonly (f a)) → readonly (m ≫= f).
Proof.
  intros Hm Hf s. rewrite bind_run. specialize (Hm s). destruct (m s) as [[a|e] s1]; cbn in *; subst; [apply Hf|done].
Qed.
Lemma readonly_ret {A} (a : A) : readonly (S:=S) (mret a).
Proof. done. Qed.
Lemma readonly_lift {A} (r : result A) : readonly (S:=S) (lift r).
Proof. done. Qed.
Lemma readonly_throw {A} e : readonly (S:=S) (throw (A:=A) e).
Proof. done. Qed.
Lemma readonly_get : readonly (S:=S) Prelude.get.
Proof. done. Qed.
Lemma readonly_preserves {A} (m : eff S A) I : readonly m → preserves I m.
Proof. intros Hm s Hs. by rewrite Hm. Qed.
Lemma readonly_run {A} (m : eff S A) s r s' : readonly m → m s = (r, s') → s' = s.
Proof. intros Hm E. specialize (Hm s). by rewrite E in Hm. Qed.
End readonly.
#[local] Hint Resolve readonly_bind readonly_ret readonly_lift readonly_throw readonly_get : readonly.
Ltac readonly_tac := repeat first [apply readonly_bind; [|intros ?] | case_match | progress cbv zeta | solve [auto with readonly]].

(** ** A step that is done is not repeated *)
Section skipping.
Context {S W : Type} `{TS : !TaskStore S W} `{TL : !TaskStoreLaws S W}.
Context (actions : gmap string (Action W)) (sink : option (ActionDiagnosticEvent → eff W unit)) (type_name : exn → string).
Definition step_done (st : TaskState.t) (step : StepSpec.t) : Prop :=
  in_list (VStr (StepSpec.step_id step)) (TaskState.completed_steps st) = true.
(** A relation that saves and events other than the start of a step keep. *)
Context (R : S → S → Prop) `{!PreOrder R} (id : string).
Hypothesis R_save : ∀ st h st' h', TaskState.task_id st = id → ts_save st h = (Ok st', h') → R h h' ∧ TaskState.task_id st' = id.
Hypothesis R_append : ∀ i ty msg sid data h ev h', ty ≠ "step_started" → ts_append i ty msg sid data h = (Ok ev, h') → R h h'.
Lemma run_steps_skip base spec steps : ∀ st ex sk (h : S) o h', Forall (step_done st) steps →
  run_steps actions sink type_name base spec steps st ex sk h = (Ok o, h') → R h h' ∧ ∃ sk', o = inr (st, ex, sk').
Proof.
  induction steps as [|step steps IH]; intros st ex sk h o h' Hs; cbn [run_steps]; [intros [= <- <-]; split; [done|by eexists]|].
  apply list.Forall_cons in Hs as [Hd Hs]. intros (o1 & h1 & Hr & Hrun)%eff_bind_Ok. unfold run_step in Hr. rewrite Hd in Hr.
  apply eff_bind_Ok in Hr as (v & h2 & Ha & [= <- <-]). apply R_append in Ha; [|done]. apply IH in Hrun as [HR Ho]; [|done].
  split; [by etrans|done].
Qed.
(** A run from a state that is completed, or whose steps are, executes none. *)
Definition settled (spec : TaskSpec.t) (st : TaskState.t) : Prop :=
  TaskState.status st = VStr "completed" ∨ Forall (step_done st) (TaskSpec.steps spec).
Lemma run_locked_skips spec ctx (h : S) o h' :
  _run_locked actions sink type_name spec ctx h = (Ok o, h') →
  (∀ st h1, bind_state spec h = (Ok st, h1) → R h h1 ∧ TaskState.task_id st = id ∧ settled spec st) →
  R h h' ∧ RunOutcome.executed_steps o = [].
Proof.
  intros Hrun Hst. unfold _run_locked in Hrun. apply eff_bind_Ok in Hrun as (st & h1 & Hb & Hrun).
  destruct (Hst _ _ Hb) as (HR1 & Hid & Hs). apply eff_bind_Ok in Hrun as (terminal & h2 & [Ht ->]%lift_Ok & Hrun).
  destruct terminal.
  { apply eff_bind_Ok in Hrun as (v & h3 & Ha & [= <- <-]). apply R_append in Ha; [|done]. split; [by etrans|done]. }
  destruct (unresolved_steps st).
  2:{ apply eff_bind_Ok in Hrun as (st1 & h3 & Hblock & [= <- <-]). unfold _block in Hblock.
      apply eff_bind_Ok in Hblock as (st2 & h4 & [Hsave _]%R_save & Hblock); [|done].
      apply eff_bind_Ok in Hblock as (v & h5 & Ha & [= <- <-]). apply R_append in Ha; [|done].
      split; [by do 2 (etrans; [eassumption|])|done]. }
  destruct Hs as [Hc|Hs]; [by rewrite Hc in Ht|].
  apply eff_bind_Ok in Hrun as (st1 & h3 & Hsave & Hrun).
  assert (TaskState.completed_steps st1 = TaskState.completed_steps st) as Ec.
  { pose proof (save_touches (TaskState.set_last_error VNone (TaskState.set_blocked_reason VNone (TaskState.set_status "running" st))) h1 st1) as Hx.
    rewrite Hsave in Hx. by destruct (Hx eq_refl) as [t ->]. }
  apply R_save in Hsave as [HR3 Hid1]; [|done].
  apply eff_bind_Ok in Hrun as (v & h4 & Ha & Hrun). apply R_append in Ha; [|done]. cbv zeta in Hrun.
  apply eff_bind_Ok in Hrun as (o1 & h5 & Hr & Hrun). apply run_steps_skip in Hr as [HR5 [sk' ->]].
  2:{ eapply list.Forall_impl; [exact Hs|]. intros step. unfold step_done. by rewrite Ec. }
  apply eff_bind_Ok in Hrun as (st2 & h6 & [HR6 _]%R_save & Hrun); [|done].
  apply eff_bind_Ok in Hrun as (v' & h7 & Ha' & [= <- <-]). apply R_append in Ha'; [|done].
  split; [|done]. do 5 (etrans; [eassumption|]). done.
Qed.
End skipping.

Section facts.
Context `{Readers} (loads : string → result pyval) (time_value : Z → pyval).
Context (fate : nat → write_fate).

Lemma readonly_read_bytes path : readonly (read_bytes path).
Proof. unfold read_bytes. readonly_tac. Qed.
Hint Resolve readonly_read_bytes : readonly.
Lemma readonly_file_hash path : readonly (file_hash path).
Proof. unfold file_hash. readonly_tac. Qed.
Lemma readonly_checked_input path sha : readonly (checked_input loads path sha).
Proof. unfold checked_input. readonly_tac. Qed.
Hint Resolve readonly_file_hash readonly_checked_input : readonly.
Lemma readonly_expected a : readonly (expected_report loads time_value a).
Proof. unfold expected_report. readonly_tac. Qed.
Hint Resolve readonly_expected : readonly.
Lemma readonly_check a : readonly (check loads time_value a).
Proof. unfold check. readonly_tac. Qed.
Hint Resolve readonly_check : readonly.
Lemma readonly_artifact a : readonly (verified_artifact loads time_value a).
Proof. unfold verified_artifact. readonly_tac. Qed.
Lemma readonly_new_adapter rs vs out v t : readonly (new_adapter rs vs out v t).
Proof. unfold new_adapter. readonly_tac. Qed.
Hint Resolve readonly_artifact readonly_new_adapter : readonly.

(** ** Nothing is replaced *)
(** The disk keeps every entry it had, and has new ones at the paths [new] only. *)
Definition only_new (new : list string) (d d' : gmap string entry) : Prop :=
  d ⊆ d' ∧ ∀ p, p ∉ new → d' !! p = d !! p.
Lemma create_new new path d w c : path ∈ new → disk w !! path = None → only_new new d (disk w) →
  only_new new d (<[path := c]> (disk w)).
Proof.
  intros Hp Hn [Hs Ho]. split.
  - etrans; [exact Hs|]. by apply insert_subseteq.
  - intros p Hnp. rewrite lookup_insert_ne by set_solver. by apply Ho.
Qed.
Lemma write_once_new new path value d : path ∈ new → preserves (λ w, only_new new d (disk w)) (write_once fate path value).
Proof.
  intros Hp w Hw. unfold write_once. rewrite bind_run. unfold lift at 1. destruct (encoded value) as [content|e]; [|done].
  rewrite bind_run. unfold Prelude.get at 1. destruct (disk w !! path) as [[c|]|] eqn:E; [by destruct (String.eqb c content)|done|].
  unfold create. destruct (fate (creations w)); cbn [snd disk]; [by apply create_new|done|by apply create_new].
Qed.
Section grows.
Context (new : list string) (d : gmap string entry).
Definition grown (w : local) : Prop := only_new new d (disk w).
Lemma run_action_new a args ctx : output a ∈ new → preserves grown (run_action loads time_value fate a args ctx).
Proof.
  intros Ho. unfold run_action. repeat first
    [ by apply write_once_new | apply readonly_preserves; solve [auto with readonly]
    | apply preserves_bind; [|intros ?] ].
Qed.
Lemma verify_action_new a args ctx : preserves grown (verify_action loads time_value a args ctx).
Proof.
  unfold verify_action. apply readonly_preserves. readonly_tac.
Qed.
End grows.

(** ** The store around the disk *)
Section around.
Context (now : nat → string) (io_fault : nat → bool) (type_name : exn → string).
Context (P : local → Prop) (l : list pyval).
Definition inside (h : host local) : Prop := P (world h) ∧ ledger_from l h.
Lemma inside_world {A} (m : eff local A) : preserves P m → preserves inside (on_world m).
Proof. intros Hm h [Hh Hl]. unfold on_world. specialize (Hm (world h) Hh). by destruct (m (world h)). Qed.
Lemma inside_save st : preserves inside (save_state now io_fault st).
Proof.
  intros h [Hh Hl]. split; [|by apply preserves_ledger_save].
  destruct (safe_id (TaskState.task_id st)) eqn:Hs; [|by rewrite save_state_unsafe].
  pose proof (wp_save_state now io_fault st (λ _ h', P (world h')) h Hs) as Hw. unfold wp in Hw.
  destruct (save_state _ _ st h) as [r h']. apply Hw.
  - intros h1 []. by replace (world h1) with (world h).
  - intros h1 t _ _ E _. by replace (world h1) with (world h).
Qed.
Lemma inside_append id ty msg sid data : preserves inside (append_event now io_fault id ty msg sid data).
Proof.
  intros h [Hh Hl]. split; [|by apply preserves_ledger_append].
  destruct (safe_id id) eqn:Hs; [|by rewrite append_event_unsafe].
  pose proof (wp_append_event now io_fault id ty msg sid data (λ _ h', P (world h')) h Hs) as Hw. unfold wp in Hw.
  destruct (append_event _ _ id ty msg sid data h) as [r h'].
  apply Hw; [intros h1 []|intros h1 ev []]; by replace (world h1) with (world h).
Qed.
Lemma inside_load id : preserves inside (load_state now id).
Proof.
  intros h [Hh Hl]. split; [|by apply preserves_ledger_load].
  destruct (load_state_spec now id h) as (h' & -> & [] & _). cbn. by replace (world h') with (world h).
Qed.
Lemma inside_clock : preserves inside (utc_now_iso (W:=local) now).
Proof. by intros h. Qed.
Lemma inside_locked id sid res note us : preserves inside (_reconcile_blocked_step_locked now io_fault id sid res note us).
Proof. apply preserves_reconcile_locked; auto using inside_save, inside_append, inside_load, inside_clock. Qed.
Lemma inside_lock {A} id (body : eff (host local) A) : preserves inside body → preserves inside (task_lock id body).
Proof. by apply preserves_lock. Qed.
Lemma inside_run actions spec ctx : (∀ name act args ctx, action_named actions name = Some act → preserves P (act args ctx)) →
  preserves inside (Runner.run (TS:=file_store now io_fault) actions None type_name spec ctx).
Proof.
  intros Ha. apply keeps_preserves.
  apply (keeps_run (TS:=file_store now io_fault) actions None type_name inside inside (λ _ Hh, Hh)) with (calm := λ A, preserves P);
    try done; intros; cbn; apply keeps_preserves;
    first [apply inside_save | apply inside_append | apply inside_load | by apply preserves_exists | by apply inside_world
          | by eapply Ha | by apply inside_lock, keeps_preserves].
Qed.
End around.

(** ** The whole run *)
Context (now : nat → string) (io_fault : nat → bool) (type_name : exn → string) (repository : string).
Abbreviation run_preparation := (run_preparation loads time_value fate now io_fault type_name repository).
Implicit Types h : host local.

Lemma registered a reg : ToolRegistry.register ToolRegistry.empty (tool_adapter loads time_value fate a) = Ok reg →
  ToolRegistry.actions reg = adapter_actions (tool_adapter loads time_value fate a).
Proof.
  unfold ToolRegistry.register. intros Hr. inv_result. cbn [ToolRegistry.actions ToolRegistry.empty].
  by rewrite (right_id_L ∅ (∪)).
Qed.
Lemma new_adapter_fields rs vs out v t w a w' : new_adapter rs vs out v t w = (Ok a, w') →
  records a = rs ∧ reviews a = vs ∧ output a = out ∧ validation_start a = v ∧ test_start a = t.
Proof. unfold new_adapter. intros Hr. inv_eff. by subst. Qed.
Lemma preserves_when {S A} (I : S → Prop) (b : bool) (m m' : eff S A) : preserves I m → preserves I m' →
  preserves I (if b then m else m').
Proof. by destruct b. Qed.
Section one_run.
Context (new : list string) (d : gmap string entry).
Context (l : list pyval).
Abbreviation inside_grown := (inside (grown new d) l).
Lemma reconcile_new a spec st : preserves inside_grown (reconcile_output loads time_value now io_fault a spec st).
Proof.
  unfold reconcile_output, check_. repeat first
    [ apply inside_locked | apply inside_world, readonly_preserves; solve [auto with readonly]
    | apply preserves_lift | apply preserves_ret | apply preserves_when | apply preserves_bind; [|intros ?] ].
Qed.
Lemma prepare_locked_new a root spec reconcile : below root "task.json" ∈ new →
  preserves inside_grown (prepare_locked loads time_value fate now io_fault a root spec reconcile).
Proof.
  intros Ht. unfold prepare_locked, check_. repeat first
    [ apply reconcile_new | apply inside_load | apply readonly_preserves; unfold require_saved_attempt; solve [readonly_tac]
    | apply inside_world; first [by apply write_once_new | apply readonly_preserves; solve [auto with readonly]]
    | apply preserves_lift | apply preserves_ret | apply preserves_when | apply preserves_bind; [|intros ?] ].
Qed.
Lemma receipt_new a o : preserves inside_grown (receipt_of loads time_value a o).
Proof.
  unfold receipt_of, check_. repeat first
    [ apply inside_world, readonly_preserves; solve [auto with readonly]
    | apply preserves_ret | apply preserves_when | apply preserves_bind; [|intros ?] ].
Qed.
End one_run.

Lemma preserves_bind_run {S A B} (I : S → Prop) (m : eff S A) (f : A → eff S B) : preserves I m →
  (∀ s a s', m s = (Ok a, s') → I s' → I (f a s').2) → preserves I (m ≫= f).
Proof.
  intros Hm Hf s Hs. rewrite bind_run. specialize (Hm s Hs). destruct (m s) as [[a|e] s'] eqn:E; [by eapply Hf|done].
Qed.
Lemma on_world_Ok {A} (m : eff local A) h x h' : on_world m h = (Ok x, h') →
  ∃ w, m (world h) = (Ok x, w) ∧ h' = Host (files h) (ledger h) (locked h) (ticks h) (writes h) w.
Proof. unfold on_world. destruct (m (world h)) as [r w]. intros [= -> <-]. by exists w. Qed.
Lemma run_new rs vs root v t reconcile d l :
  preserves (inside (grown [below root "preparation.json"; below root "task.json"] d) l) (run_preparation rs vs root v t reconcile).
Proof.
  set (new := [_; _]). unfold Preparation.run_preparation.
  do 2 (apply preserves_bind; [apply preserves_lift|intros _]).
  apply preserves_bind_run; [apply inside_world, readonly_preserves; auto with readonly|].
  intros h a h' (w & Ha & _)%on_world_Ok Hh'. apply new_adapter_fields in Ha as (_ & _ & Ho & _).
  revert h' Hh'. change (preserves (inside (grown new d) l) (λ h', ((on_world (expected_report loads time_value a);;
    registry ← lift (ToolRegistry.register ToolRegistry.empty (tool_adapter loads time_value fate a));
    let spec := spec_of a in
    task_lock TASK_ID (prepare_locked loads time_value fate now io_fault a root spec reconcile);;
    outcome ← Runner.run (TS:=file_store now io_fault) (ToolRegistry.actions registry) None type_name spec [];
    receipt_of loads time_value a outcome) h'))).
  apply preserves_bind; [apply inside_world, readonly_preserves; auto with readonly|intros _].
  apply preserves_bind_run; [apply preserves_lift|]. intros h1 reg h2 [Hreg _]%lift_Ok. apply registered in Hreg as Hacts.
  revert h2. apply preserves_bind; [apply inside_lock, prepare_locked_new; subst new; set_solver|intros _].
  apply preserves_bind; [|intros ?; apply receipt_new].
  apply inside_run. intros name act args ctx Hact. unfold action_named in Hact. rewrite Hacts in Hact. cbn in Hact.
  apply lookup_insert_Some in Hact as [[_ <-]|[_ [_ <-]%lookup_singleton_Some]].
  - apply run_action_new. rewrite Ho. subst new. set_solver.
  - apply verify_action_new.
Qed.
Lemma preparation_inside rs vs root v t reconcile h :
  inside (grown [below root "preparation.json"; below root "task.json"] (disk (world h))) (ledger h)
    (run_preparation rs vs root v t reconcile h).2.
Proof. apply run_new. split; [|by unfold ledger_from]. split; [done|]. by intros. Qed.
Lemma preparation_only_new rs vs root v t reconcile h :
  only_new [below root "preparation.json"; below root "task.json"] (disk (world h))
    (disk (world (run_preparation rs vs root v t reconcile h).2)).
Proof. apply preparation_inside. Qed.

(** What a path leads to: below the state directory of the run the state files and the
    ledger of the store, which are not told apart; elsewhere an entry of the disk. *)
Definition held_at (root p : string) (h : host local) : option entry + gmap string pyval * list pyval :=
  if is_relative_to p (below root "state") then inr (files h, ledger h) else inl (disk (world h) !! p).
(** A file of the run directory is below the repository only when the directory is. *)
Lemma prefix_app (a b : string) : String.prefix a b = true → ∃ c, b = (a ++ c)%string.
Proof.
  revert b. induction a as [|x a IH]; intros b; [by exists b|]. destruct b as [|y b]; [done|]. cbn.
  destruct (Ascii.ascii_dec x y) as [->|]; [|done]. intros [c ->]%IH. by exists c.
Qed.
Lemma app_prefix (a c : string) : String.prefix a (a ++ c) = true.
Proof.
  induction a as [|x a IH]; [by destruct c|].
  change (String x a ++ c)%string with (String x (a ++ c)). cbn [String.prefix].
  destruct (Ascii.ascii_dec x x) as [_|[]]; [exact IH|done].
Qed.
Lemma split_at_slash (a n b c : list ascii) : "/"%char ∉ n → a ++ "/"%char :: n = b ++ "/"%char :: c →
  a = b ∨ ∃ u, a = b ++ "/"%char :: u.
Proof.
  intros Hn [(u & -> & Hu)|(u & -> & Hu)]%app_eq_inv; (destruct u as [|x u]; cbn in Hu; [left; by rewrite ?app_nil_r|]).
  - injection Hu as <- _. right. by exists u.
  - exfalso. injection Hu as <- ->. set_solver.
Qed.
Lemma not_below root repo name : is_relative_to root repo = false → "/"%char ∉ chars name →
  String.prefix (repo ++ "/") (below root name) = false.
Proof.
  intros Hr Hn. apply not_true_iff_false. intros [c Hc]%prefix_app. apply not_true_iff_false in Hr. apply Hr.
  unfold below in Hc. assert (chars root ++ "/"%char :: chars name = chars repo ++ "/"%char :: chars c) as E.
  { pose proof (f_equal chars Hc) as E. rewrite !chars_app, <- app_assoc in E. exact E. }
  unfold is_relative_to. apply split_at_slash in E as [E|[u E]]; [| |done].
  - apply chars_inj in E as ->. by rewrite String.eqb_refl.
  - assert (root = (repo ++ "/") ++ of_chars u)%string as ->.
    { apply chars_inj. rewrite E, !chars_app. by rewrite chars_of_chars, <- app_assoc. }
    rewrite app_prefix. apply orb_true_r.
Qed.
(** C9: a preparation overwrites nothing.  However it ends, and whatever the inputs, the
    task directory and the store hold: outside its state directory every entry of the disk
    is afterwards what it was, and new ones are at most the report and the task
    definition; nothing changes below the checkout; in the state directory, where the
    state file of the task is replaced, every record of the ledger stays; and neither
    input is touched, wherever it is, since one that lies in the state directory is
    refused. *)
Theorem preparation_never_overwrites records reviews root v t reconcile h :
  let h' := (run_preparation records reviews root v t reconcile h).2 in
  only_new [below root "preparation.json"; below root "task.json"] (disk (world h)) (disk (world h')) ∧
  (∀ p, String.prefix (repository ++ "/") p = true → disk (world h') !! p = disk (world h) !! p) ∧
  ledger h `prefix_of` ledger h' ∧
  ∀ p, p ∈ [records; reviews] → held_at root p h' = held_at root p h.
Proof.
  intros h'. destruct (preparation_inside records reviews root v t reconcile h) as [Hnew Hl]. fold h' in Hnew, Hl.
  enough ((∀ p, String.prefix (repository ++ "/") p = true → disk (world h') !! p = disk (world h) !! p) ∧
    ∀ p, p ∈ [records; reviews] → held_at root p h' = held_at root p h) as [? ?] by done.
  subst h'. revert Hnew. unfold Preparation.run_preparation. rewrite bind_run. unfold lift at 1, reject_if at 1.
  destruct (is_relative_to root repository) eqn:Eroot; [done|]. rewrite bind_run. unfold lift at 1, reject_if at 1.
  destruct (existsb _ [records; reviews]) eqn:Ein; [done|]. match goal with |- context [(?m h).2] => set (h' := (m h).2) end.
  intros [_ Hother]. split.
  - intros p Hp. apply Hother. intros Hin. assert (String.prefix (repository ++ "/") p = false) as Hp'; [|congruence].
    rewrite !elem_of_cons in Hin. destruct Hin as [->|[->|[]%elem_of_nil]]; apply not_below; try done; vm_compute; set_solver.
  - intros p Hp. assert (¬ (String.eqb p (below root "preparation.json") || is_relative_to p (below root "state")
      || String.eqb p (below root "task.json") = true)) as Hno.
    { intros Hb. apply not_true_iff_false in Ein. apply Ein, existsb_exists. exists p. split; [by apply list_elem_of_In|done]. }
    apply not_true_iff_false in Hno. apply orb_false_iff in Hno as [[E1%String.eqb_neq E2]%orb_false_iff E3%String.eqb_neq].
    unfold held_at. rewrite E2. f_equal. apply Hother. set_solver.
Qed.

(** ** Receipts *)
Lemma read_bytes_Ok path w c w' : read_bytes path w = (Ok c, w') → w' = w ∧ disk w !! path ≫= content_of = Some c.
Proof.
  intros Hr. pose proof (readonly_run _ _ _ _ (readonly_read_bytes path) Hr) as ->. split; [done|]. revert Hr.
  unfold read_bytes. rewrite bind_run. cbn. destruct (disk w !! path ≫= content_of); [by intros [= ->]|done].
Qed.
(** The inputs as they are on a disk, and the report made of them. *)
Record prepared (a : adapter) (d : gmap string entry) (report counts : pydict) : Prop := {
  pr_records : ∃ raw, d !! records a ≫= content_of = Some raw ∧ bytes_hash raw = records_sha256 a ∧
    ∃ raw', d !! reviews a ≫= content_of = Some raw' ∧ bytes_hash raw' = reviews_sha256 a ∧
    ∃ data revs, loads raw = Ok data ∧ loads raw' = Ok revs ∧ report_of time_value a data revs = Ok (report, counts) }.
Lemma checked_input_Ok path sha w v w' : checked_input loads path sha w = (Ok v, w') →
  w' = w ∧ ∃ raw, disk w !! path ≫= content_of = Some raw ∧ bytes_hash raw = sha ∧ loads raw = Ok v.
Proof.
  unfold checked_input. intros (raw & w1 & [-> Hraw]%read_bytes_Ok & Hr)%eff_bind_Ok.
  destruct (String.eqb_spec (bytes_hash raw) sha) as [<-|]; cbn in Hr; [|done]. unfold lift in Hr. injection Hr as Hl <-.
  split; [done|]. by exists raw.
Qed.
Lemma expected_Ok a w rc w' : expected_report loads time_value a w = (Ok rc, w') → w' = w ∧ prepared a (disk w) rc.1 rc.2.
Proof.
  unfold expected_report. intros Hr. inv_eff.
  repeat match goal with E : checked_input _ _ _ _ = _ |- _ => apply checked_input_Ok in E as (-> & ? & ? & ? & ?) end.
  split; [done|]. split. destruct rc. eauto 15.
Qed.
Lemma check_Ok a w rc w' : check loads time_value a w = (Ok rc, w') → w' = w ∧ prepared a (disk w) rc.1 rc.2 ∧
  ∃ text, encoded (VDict rc.1) = Ok text ∧ disk w !! output a = Some (File text).
Proof.
  unfold check. intros Hr. apply eff_bind_Ok in Hr as (rc' & w1 & [-> Hp]%expected_Ok & Hr).
  apply eff_bind_Ok in Hr as (w2 & w3 & [= <- <-] & Hr). cbv zeta in Hr.
  destruct (is_link (disk w !! output a)) eqn:El; [done|].
  apply eff_bind_Ok in Hr as (content & w3 & [-> Hc]%read_bytes_Ok & Hr).
  apply eff_bind_Ok in Hr as (text & w4 & [Ht ->]%lift_Ok & Hr).
  destruct (String.eqb_spec content text) as [->|]; [|done]. injection Hr as -> <-. split_and!; try done.
  exists text. split; [done|]. destruct (disk w !! output a) as [[c|]|]; try done. by injection Hc as ->.
Qed.
Lemma file_hash_Ok path w sha w' : file_hash path w = (Ok sha, w') →
  w' = w ∧ ∃ raw, disk w !! path ≫= content_of = Some raw ∧ bytes_hash raw = sha.
Proof.
  unfold file_hash. intros (raw & w1 & [-> Hraw]%read_bytes_Ok & Hr)%eff_bind_Ok. injection Hr as <- <-. split; [done|]. by exists raw.
Qed.
Lemma read_kept new (d d' : gmap string entry) p c : only_new new d d' → d !! p ≫= content_of = Some c → d' !! p ≫= content_of = Some c.
Proof.
  intros [Hs _] Hp. destruct (d !! p) as [e|] eqn:E; [|done]. by rewrite (lookup_weaken _ _ _ _ E Hs).
Qed.
(** What was read on a disk that only grew since is what was there. *)
Lemma prepared_kept new (d d' : gmap string entry) a report counts : only_new new d d' → prepared a d' report counts →
  is_Some (d !! records a ≫= content_of) → is_Some (d !! reviews a ≫= content_of) → prepared a d report counts.
Proof.
  intros Hn [(raw & Hraw & Hh & raw' & Hraw' & Hh' & Hp)] [c Hc] [c' Hc']. pose proof (read_kept _ _ _ _ _ Hn Hc) as E.
  pose proof (read_kept _ _ _ _ _ Hn Hc') as E'. split. exists raw. split; [congruence|]. split; [done|].
  exists raw'. split; [congruence|]. done.
Qed.
Lemma new_adapter_Ok rs vs out v t w a w' : new_adapter rs vs out v t w = (Ok a, w') →
  w' = w ∧ is_Some (disk w !! rs ≫= content_of) ∧ is_Some (disk w !! vs ≫= content_of).
Proof.
  intros Hr. split; [by eapply readonly_run, Hr; auto with readonly|]. revert Hr. unfold new_adapter. intros Hr. inv_eff.
  repeat match goal with E : file_hash _ _ = _ |- _ => apply file_hash_Ok in E as (-> & ? & ? & ?) end. eauto.
Qed.
Lemma receipt_of_Ok a o h rc h' : receipt_of loads time_value a o h = (Ok rc, h') →
  outcome rc = o ∧ receipt_inputs rc = inputs a ∧ (is_text (RunOutcome.status o) "completed" = true →
    ∃ report counts text, prepared a (disk (world h')) report counts ∧ encoded (VDict report) = Ok text ∧
      disk (world h') !! output a = Some (File text) ∧
      rc = Receipt o (inputs a) (Some (get_or_none "partition_counts" report)) (Some (excluded_count report))
             (Some (accounting report counts)) (Some (bytes_hash text))).
Proof.
  unfold receipt_of. destruct (is_text (RunOutcome.status o) "completed"); [|by intros [= <- <-]].
  intros (rep & h1 & (w1 & [-> (Hp & text & Ht & Ho)]%check_Ok & ->)%on_world_Ok & Hr)%eff_bind_Ok.
  apply eff_bind_Ok in Hr as (sha & h2 & (w2 & (-> & raw & Hraw & <-)%file_hash_Ok & ->)%on_world_Ok & Hr).
  injection Hr as <- <-. split; [done|]. split; [done|]. intros _. cbn [world]. exists rep.1, rep.2, text.
  cbn [world] in Hraw. rewrite Ho in Hraw. injection Hraw as <-. done.
Qed.
(** The length of an optional stage of the intake. *)
Definition stage_entries (d : pydict) (stage : string) : pyval :=
  match dict_get stage d with Some (VList l) => VInt (Z.of_nat (length l)) | _ => VNone end.
Definition placed_count (pl : plan) : nat :=
  length (group pl Train) + length (group pl Validation) + length (group pl Test).
(** The counts of a plan made of the rows of the document [d]. *)
Definition true_counts (d : pydict) (rows : list pyval) (pl : plan) : pydict :=
  [("converted_records", VInt (Z.of_nat (length rows)));
   ("quarantined_records", stage_entries d "quarantined_records");
   ("detail_quarantined_records", stage_entries d "detail_quarantined_records");
   ("orphan_entrant_races", stage_entries d "orphan_entrant_races");
   ("partitioned_records", VInt (Z.of_nat (placed_count pl)));
   ("preparation_excluded_records", VInt (Z.of_nat (length (excluded pl))));
   ("converted_records_accounted_for", VBool (placed_count pl + length (excluded pl) =? length rows)%nat);
   ("scope", VStr "supplied_stage_entries_not_unique_race_total")].
Definition plan_report (a : adapter) (pl : plan) : pydict :=
  plan_entries time_value pl (VStr (validation_start a)) (VStr (test_start a)) ++ [("preparation_inputs", VDict (inputs a))].
Lemma stage_count_Ok d stage kv : stage_count d stage = Ok kv → kv = (stage, stage_entries d stage).
Proof. unfold stage_count, stage_entries. by destruct (dict_get stage d) as [[]|]; intros [= <-]. Qed.
(** The report and its counts, for a document whose hashes are right. *)
Lemma report_of_Ok a data revs report counts : report_of time_value a data revs = Ok (report, counts) →
  ∃ d rows hs pl, data = VDict d ∧ get_or_none "records" d = VList rows ∧
    record_hashes rows = Ok (Some hs) ∧ length hs = length rows ∧ py_eqb (get_or_none "record_hashes" d) (VDict hs) = true ∧
    History.prepare (VList rows) revs (VStr (validation_start a)) (VStr (test_start a)) = Ok pl ∧
    report = plan_report a pl ∧ accounting report counts = true_counts d rows pl ∧
    excluded_count report = Z.of_nat (length (excluded pl)).
Proof.
  unfold report_of. destruct data as [| | | | | | |d]; try done. destruct (get_or_none "records" d) as [| | | | |rows| |] eqn:Er; try done.
  destruct (negb (is_text _ _)); [done|]. intros (hashes & Hh & Hr)%bind_Ok. destruct hashes as [hs|]; [|done].
  destruct (negb _ || negb _) eqn:Eb; [done|]. apply orb_false_iff in Eb as [El%negb_false_iff Ep%negb_false_iff].
  apply bind_Ok in Hr as (cs & Hc & (pl & Hp & [= <- <-])%bind_Ok).
  exists d, rows, hs, pl. split_and!; try done; [by apply Nat.eqb_eq| |by cbn; rewrite length_map].
  assert (cs = map (λ st, (st, stage_entries d st)) STAGES) as ->.
  { unfold STAGES in Hc. cbn [mapR] in Hc. inv_result.
    repeat match goal with E : stage_count _ _ = Ok _ |- _ => apply stage_count_Ok in E as -> end. done. }
  unfold accounting, true_counts, excluded_count, placed_count. cbn -[Z.of_nat stage_entries Nat.add Z.add].
  rewrite length_map. assert (∀ x y z e r : nat, Z.of_nat x + (Z.of_nat y + (Z.of_nat z + 0)) = Z.of_nat (x + y + z) ∧
    (Z.of_nat (x + y + z) + Z.of_nat e =? Z.of_nat r) = (x + y + z + e =? r)%nat) as Hz.
  { intros. split; [lia|]. apply eq_true_iff_eq. rewrite Z.eqb_eq, Nat.eqb_eq. lia. }
  rewrite (proj1 (Hz _ _ _ 0%nat 0%nat)). by rewrite (proj2 (Hz _ _ _ _ _)).
Qed.
(** C10: a receipt of a completed task is true.  The report it names is the plan of exactly
    the inputs that were on the disk when the run began, under the hashes the receipt
    lists, for records whose own hashes are right; the report file holds that report, byte
    for byte, when the run returns; its hash is that of the receipt; and every count of
    the receipt is that of the plan and of the records: the partitions, the exclusions,
    and the accounting of the supplied stages. *)
Theorem receipt_verified rs vs root v t reconcile h rc h' : run_preparation rs vs root v t reconcile h = (Ok rc, h') →
  is_text (RunOutcome.status (outcome rc)) "completed" = true →
  ∃ a raw raw' d rows hs revs pl text, a = Adapter rs vs (below root "preparation.json") (bytes_hash raw) (bytes_hash raw') v t ∧
    disk (world h) !! rs ≫= content_of = Some raw ∧ loads raw = Ok (VDict d) ∧ get_or_none "records" d = VList rows ∧
    record_hashes rows = Ok (Some hs) ∧ length hs = length rows ∧ py_eqb (get_or_none "record_hashes" d) (VDict hs) = true ∧
    disk (world h) !! vs ≫= content_of = Some raw' ∧ loads raw' = Ok revs ∧
    History.prepare (VList rows) revs (VStr v) (VStr t) = Ok pl ∧
    encoded (VDict (plan_report a pl)) = Ok text ∧ disk (world h') !! below root "preparation.json" = Some (File text) ∧
    rc = Receipt (outcome rc) (inputs a)
           (Some (VDict (map (λ p, (partition_name p, VInt (Z.of_nat (length (group pl p))))) [Train; Validation; Test])))
           (Some (Z.of_nat (length (excluded pl)))) (Some (true_counts d rows pl)) (Some (bytes_hash text)).
Proof.
  intros Hrun Hc. pose proof (preparation_only_new rs vs root v t reconcile h) as Hnew. rewrite Hrun in Hnew. cbn [snd] in Hnew.
  revert Hrun. unfold Preparation.run_preparation.
  intros ([] & h0 & [_ ->]%lift_Ok & ([] & h1 & [_ ->]%lift_Ok & (a & h2 & (w & Ha & ->)%on_world_Ok & Hr)%eff_bind_Ok)%eff_bind_Ok)%eff_bind_Ok.
  destruct (new_adapter_fields _ _ _ _ _ _ _ _ Ha) as (Er & Ev & Eo & Es & Et). apply new_adapter_Ok in Ha as (-> & Hrec & Hrev).
  repeat match goal with E : (_ ≫= _) _ = (Ok rc, _) |- _ => apply eff_bind_Ok in E as (? & ? & _ & E) end.
  apply receipt_of_Ok in Hr as (<- & Hi & Hr). destruct (Hr Hc) as (report & counts & text & Hp & Ht & Ho & Erc).
  eapply prepared_kept in Hp as [(raw & Hraw & Hh & raw' & Hraw' & Hh' & data & revs & Hl & Hl' & Hrep)];
    [|exact Hnew|by rewrite Er|by rewrite Ev].
  apply report_of_Ok in Hrep as (d & rows & hs & pl & -> & Hrows & Hhs & Hlen & Heq & Hpl & -> & Eacc & Eexc).
  exists a, raw, raw', d, rows, hs, revs, pl, text. rewrite Eacc, Eexc in Erc.
  destruct a as [rs' vs' out' h1' h2' v' t']. cbn in *. subst. split_and!; try done.
Qed.

(** ** Reconciliation *)
(** The record of an attempt to run a step. *)
Definition started (ev : pyval) : bool :=
  match ev with VDict d => is_text (get_or_none "event_type" d) "step_started" | _ => false end.
(** Of the state directory, at most the state file of the task is replaced, and the ledger
    has new records, none of which starts a step. *)
Record quiet h h' : Prop := Quiet {
  quiet_ledger : ∃ evs, ledger h' = ledger h ++ evs ∧ Forall (λ ev, started ev = false) evs;
  quiet_files : ∀ id, id ≠ TASK_ID → files h' !! id = files h !! id }.
#[local] Instance quiet_preorder : PreOrder quiet.
Proof.
  split.
  - intros h. split; [exists []; by rewrite app_nil_r|done].
  - intros h1 h2 h3 [(e & E & He) Hf] [(e' & E' & He') Hf']. split.
    + exists (e ++ e'). rewrite E', E. split; [by rewrite <- app_assoc|by apply list.Forall_app].
    + intros id Hid. by rewrite Hf', Hf.
Qed.
Lemma quiet_same h h' : ledger h' = ledger h → files h' = files h → quiet h h'.
Proof. intros El Ef. split; [exists []; by rewrite El, app_nil_r|by rewrite Ef]. Qed.
Lemma quiet_save st h st' h' : TaskState.task_id st = TASK_ID → save_state now io_fault st h = (Ok st', h') →
  quiet h h' ∧ TaskState.task_id st' = TASK_ID.
Proof.
  intros Hid Hs. pose proof (save_state_cases now io_fault st h) as Hc. rewrite Hs in Hc.
  destruct Hc as (Hf & [t ->] & Hl). split; [|done]. split; [exists []; by rewrite Hl, app_nil_r|].
  intros id Hne. rewrite Hf, Hid. by rewrite lookup_insert_ne.
Qed.
Lemma started_event t id sid ty msg data :
  started (json_sorted (VDict [("timestamp", t); ("task_id", id); ("step_id", sid); ("event_type", VStr ty);
                               ("message", msg); ("data", data)])) = String.eqb ty "step_started".
Proof. reflexivity. Qed.
Lemma quiet_append id ty msg sid data h ev h' : ty ≠ "step_started" →
  append_event now io_fault id ty msg sid data h = (Ok ev, h') → quiet h h'.
Proof.
  intros Hty. unfold append_event, _safe_task_id. destruct (safe_id id); [|done]. unfold utc_now_iso, durable. eff_eval.
  cbn [writes]. destruct (io_fault (writes h)); intros Hr; [done|]. injection Hr as _ <-. split; [|done].
  exists [json_sorted (VDict [("timestamp", VStr (now (ticks h))); ("task_id", VStr id); ("step_id", opt_str sid);
                              ("event_type", VStr ty); ("message", VStr msg); ("data", VDict data)])].
  split; [reflexivity|]. apply list.Forall_cons. split; [|done].
  etransitivity; [apply started_event|by apply String.eqb_neq].
Qed.
Lemma quiet_world {A} (m : eff local A) h x h' : on_world m h = (Ok x, h') → quiet h h'.
Proof. intros (w & _ & ->)%on_world_Ok. by apply quiet_same. Qed.
Lemma quiet_load h st h' : load_state now TASK_ID h = (Ok st, h') → quiet h h' ∧ TaskState.task_id st = TASK_ID.
Proof.
  destruct (load_state_spec now TASK_ID h) as (h1 & -> & [Hf _ _] & Hl & _). intros [= Hst <-]. split; [by apply quiet_same|].
  unfold loaded in Hst. cbn -[TaskState.from_dict] in Hst. destruct (files h !! TASK_ID); [|by injection Hst as <-].
  apply bind_Ok in Hst as (st1 & _ & Hst). destruct (String.eqb_spec (TaskState.task_id st1) TASK_ID); [|done]. by injection Hst as <-.
Qed.
Lemma from_dict_same n n' doc st st' : TaskState.from_dict n doc = Ok st → TaskState.from_dict n' doc = Ok st' →
  ∃ t, st' = TaskState.touch t st.
Proof.
  unfold TaskState.from_dict. intros Hs Hs'. inv_result.
  repeat match goal with A : ?x = Ok _, B : ?x = Ok _ |- _ => rewrite A in B; injection B as -> end.
  by eexists.
Qed.
Lemma load_state_Ok h st h' doc : files h !! TASK_ID = Some doc → load_state now TASK_ID h = (Ok st, h') →
  (∃ n, TaskState.from_dict n doc = Ok st) ∧ same_disk h h'.
Proof.
  intros Hf Hl. destruct (load_state_spec now TASK_ID h) as (h1 & E & Hd & _). rewrite E in Hl. injection Hl as Hl <-.
  split; [|done]. unfold loaded in Hl. rewrite Hf in Hl. cbn -[TaskState.from_dict] in Hl.
  apply bind_Ok in Hl as (st1 & Hd1 & Hl). destruct (String.eqb _ _); [|done]. injection Hl as <-. eauto.
Qed.
Lemma bind_state_Ok spec h st h' doc : TaskSpec.task_id spec = TASK_ID → files h !! TASK_ID = Some doc →
  bind_state (TS:=file_store now io_fault) spec h = (Ok st, h') →
  (∃ n, TaskState.from_dict n doc = Ok st) ∧ quiet h h' ∧ TaskState.task_id st = TASK_ID.
Proof.
  intros Hid Hf Hb. unfold bind_state in Hb. rewrite Hid in Hb. cbn [ts_exists ts_load ts_save file_store] in Hb.
  apply eff_bind_Ok in Hb as (existed & h1 & He & Hb).
  assert (existed = true ∧ h1 = h) as [-> ->].
  { unfold state_exists in He. apply eff_bind_Ok in He as (p & h2 & [Hp ->]%lift_Ok & He). injection He as <- <-.
    injection Hp as <-. by rewrite Hf. }
  apply eff_bind_Ok in Hb as (st1 & h2 & Hl & Hb). pose proof (quiet_load _ _ _ Hl) as Hq.
  apply load_state_Ok with (doc := doc) in Hl as [Hn _]; [|done].
  repeat (apply eff_bind_Ok in Hb as (? & ? & [_ ->]%lift_Ok & Hb)). by injection Hb as <- <-.
Qed.
(** The task is completed, or its step is done. *)
Definition done_state (st : TaskState.t) : Prop :=
  TaskState.status st = VStr "completed" ∨ VStr "prepare" ∈ TaskState.completed_steps st.
Lemma done_settled a spec st : detach (spec_of a) = Ok spec → done_state st →
  TaskSpec.task_id spec = TASK_ID ∧ settled spec st.
Proof.
  unfold detach. intros Hd Hst. inv_result. match goal with A : json_detach _ = Ok _, B : TaskSpec.from_dict _ = Ok _ |- _ =>
    pose proof (read_detached _ _ _ A B) as [Hid _ Hsteps] end.
  split; [done|]. destruct Hst as [Hc|Hin]; [by left|right]. cbn [spec_of TaskSpec.steps] in Hsteps.
  apply Forall2_cons_inv_l in Hsteps as (s' & l' & [args ->] & Hnil & ->). apply Forall2_nil_inv_l in Hnil as ->.
  apply list.Forall_cons. split; [|done]. unfold step_done. cbn. by apply in_list_str.
Qed.
Lemma run_skips a reg h doc n st o h' : files h !! TASK_ID = Some doc → TaskState.from_dict n doc = Ok st → done_state st →
  Runner.run (TS:=file_store now io_fault) reg None type_name (spec_of a) [] h = (Ok o, h') →
  quiet h h' ∧ RunOutcome.executed_steps o = [].
Proof.
  intros Hf Hn Hst Hrun. unfold Runner.run in Hrun. apply eff_bind_Ok in Hrun as (spec & h1 & [Hd ->]%lift_Ok & Hrun).
  destruct (done_settled a spec st Hd Hst) as [Hid _]. cbn [ts_lock file_store] in Hrun. rewrite Hid in Hrun.
  destruct (decide (TASK_ID ∈ locked h)) as [Hl|Hl]; [by rewrite task_lock_held in Hrun|].
  rewrite task_lock_eq in Hrun by done.
  match type of Hrun with context [_run_locked ?acts ?sk ?tn ?sp ?c ?hh] => destruct (_run_locked acts sk tn sp c hh) as [r h2] eqn:E end.
  injection Hrun as -> <-.
  enough (quiet (set_locked ({[TASK_ID]} ∪ locked h) h) h2 ∧ RunOutcome.executed_steps o = []) as [[Ql Qf] Hx] by done.
  eapply (run_locked_skips (TS:=file_store now io_fault) _ _ _ quiet TASK_ID); [|apply quiet_append|exact E|].
  { intros *. apply quiet_save. }
  intros st1 h3 Hb. apply bind_state_Ok with (doc := doc) in Hb as ([n' Hn'] & Hq & Hid1); [|done..].
  destruct (from_dict_same _ _ _ _ _ Hn Hn') as [t ->]. split_and!; [done..|by apply (done_settled a)].
Qed.
Lemma updates_frame us : ∀ st st', foldR apply_artifact_update st us = Ok st' → ∃ m, st' = TaskState.set_artifacts m st.
Proof.
  induction us as [|u us IH]; intros st st'; cbn [foldR].
  { intros [= <-]. exists (TaskState.artifacts st). by destruct st. }
  intros (st1 & Hu & (m & ->)%IH)%bind_Ok. unfold apply_artifact_update in Hu. inv_result. by eexists.
Qed.
Lemma resolve_done st : TaskState.task_id (resolve "applied_and_verified" "prepare" st) = TaskState.task_id st ∧
  TaskState.schema_version (resolve "applied_and_verified" "prepare" st) = TaskState.schema_version st ∧
  VStr "prepare" ∈ TaskState.completed_steps (resolve "applied_and_verified" "prepare" st).
Proof.
  unfold resolve. change (String.eqb "applied_and_verified" "not_applied") with false.
  change (String.eqb "applied_and_verified" "applied_and_verified") with true. cbv iota.
  destruct (in_list (VStr "prepare") (TaskState.completed_steps st)) eqn:E.
  - cbn. split_and!; [done..|]. by apply in_list_str.
  - cbn. split_and!; [done..|]. set_solver.
Qed.
(** The resolved state is saved with the step among those that are done. *)
Lemma reconcile_locked_done us h st h' doc : files h !! TASK_ID = Some doc →
  _reconcile_blocked_step_locked now io_fault TASK_ID "prepare" "applied_and_verified" RECONCILIATION_NOTE us h = (Ok st, h') →
  quiet h h' ∧ ∃ doc' n st', files h' !! TASK_ID = Some doc' ∧ TaskState.from_dict n doc' = Ok st' ∧ done_state st'.
Proof.
  intros Hf Hr. unfold _reconcile_blocked_step_locked in Hr.
  repeat (apply eff_bind_Ok in Hr as ([] & ? & [_ ->]%lift_Ok & Hr)).
  apply eff_bind_Ok in Hr as (st0 & h1 & Hl & Hr).
  destruct (quiet_load _ _ _ Hl) as [Q1 Hid].
  destruct (load_state_Ok _ _ _ _ Hf Hl) as [[n Hn] Hd].
  assert (TaskState.schema_version st0 = STATE_SCHEMA_VERSION) as Hv.
  { clear -Hn. unfold TaskState.from_dict in Hn. inv_result. cbn.
    match goal with E : py_eqb _ (VStr _) = true |- _ => apply py_eqb_str in E; by rewrite E end. }
  apply eff_bind_Ok in Hr as ([] & ? & [_ ->]%lift_Ok & Hr).
  apply eff_bind_Ok in Hr as (st1 & ? & [(m & ->)%updates_frame ->]%lift_Ok & Hr).
  apply eff_bind_Ok in Hr as (t & h2 & Hc & Hr). cbv zeta in Hr.
  match type of Hr with context [save_state _ _ ?x] => set (st2 := x) in Hr end.
  apply eff_bind_Ok in Hr as (st3 & h3 & Hs & Hr). apply eff_bind_Ok in Hr as (v & h4 & Ha & [= <- <-]).
  pose proof (save_state_cases now io_fault st2 h2) as Hcase. rewrite Hs in Hcase. destruct Hcase as (Hfiles & (t' & ->) & _).
  assert (TaskState.task_id st2 = TASK_ID ∧ TaskState.schema_version st2 = STATE_SCHEMA_VERSION ∧
          VStr "prepare" ∈ TaskState.completed_steps st2) as (Hid2 & Hv2 & Hin).
  { subst st2. match goal with |- context [resolve _ _ ?x] => destruct (resolve_done x) as (-> & -> & ?) end. done. }
  assert (quiet h h4) as Hq.
  { etrans; [exact Q1|]. etrans; [|etrans; [eapply quiet_save, Hs; done|eapply quiet_append, Ha; done]].
    revert Hc. unfold utc_now_iso. intros [= _ <-]. by apply quiet_same. }
  split; [exact Hq|]. assert (files h4 = files h3) as ->.
  { revert Ha. pose proof (wp_append_event now io_fault TASK_ID "step_reconciled" "applied_and_verified" (Some "prepare")
      [("note", VStr RECONCILIATION_NOTE)] (λ _ hx, files hx = files h3) h3 eq_refl) as Hw. unfold wp in Hw. intros Ha. rewrite Ha in Hw.
    apply Hw; [by intros hx []|by intros hx ev []]. }
  rewrite Hfiles, Hid2. eexists _, "", _. split; [apply lookup_insert_eq|]. unfold saved. split; [by apply state_from_saved|].
  right. cbn. apply list_elem_of_fmap. by exists (VStr "prepare").
Qed.
Lemma artifact_Ok a w u w' : verified_artifact loads time_value a w = (Ok u, w') → is_Some (disk w !! output a).
Proof.
  unfold verified_artifact. intros (rc & w1 & (_ & _ & text & _ & Ho)%check_Ok & _)%eff_bind_Ok. eauto.
Qed.
Lemma committed_done st : reconciliation_committed st = Ok true → done_state st.
Proof.
  unfold reconciliation_committed. intros (active & _ & Hc)%bind_Ok. right.
  match type of Hc with Ok ?b = Ok true => assert (b = true) as Hb by congruence end. clear Hc.
  repeat match goal with E : _ && _ = true |- _ => apply andb_true_iff in E as [? ?] end.
  match goal with E : py_eqb (VList _) _ = true |- _ => revert E end.
  destruct (TaskState.completed_steps st) as [|c [|c' l]]; cbn; try (by destruct c); [done| |].
  - rewrite andb_true_r. intros ->%py_eqb_str. left.
  - by rewrite andb_false_r.
Qed.
Lemma host_eta h : Host (files h) (ledger h) (locked h) (ticks h) (StateStore.writes h) (world h) = h.
Proof. by destruct h. Qed.
Lemma reconcile_world a spec st h : world (reconcile_output loads time_value now io_fault a spec st h).2 = world h.
Proof.
  enough (preserves (inside (λ w, w = world h) (ledger h)) (reconcile_output loads time_value now io_fault a spec st)) as Hp
    by (apply (Hp h); by split; [|unfold ledger_from]).
  unfold reconcile_output, check_. repeat first
    [ apply inside_locked | apply inside_world, readonly_preserves; solve [auto with readonly]
    | apply preserves_lift | apply preserves_ret | apply preserves_when | apply preserves_bind; [|intros ?] ].
Qed.
Lemma reconcile_done a spec st h h' doc n : files h !! TASK_ID = Some doc → TaskState.from_dict n doc = Ok st →
  reconcile_output loads time_value now io_fault a spec st h = (Ok tt, h') →
  (TaskState.status st = VStr "completed" → is_Some (disk (world h) !! output a)) →
  is_Some (disk (world h) !! output a) ∧ world h' = world h ∧ quiet h h' ∧
  ∃ doc' n st', files h' !! TASK_ID = Some doc' ∧ TaskState.from_dict n doc' = Ok st' ∧ done_state st'.
Proof.
  intros Hf Hn Hr Hcomp. unfold reconcile_output in Hr. apply eff_bind_Ok in Hr as (fp & ? & [_ ->]%lift_Ok & Hr).
  destruct (py_eqb _ (VStr fp)); [|done]. apply eff_bind_Ok in Hr as ([] & ? & [= <-] & Hr).
  apply eff_bind_Ok in Hr as (committed & ? & [Hc ->]%lift_Ok & Hr). destruct committed.
  { apply eff_bind_Ok in Hr as (rc & h1 & (w & (-> & _ & text & _ & Ho)%check_Ok & ->)%on_world_Ok & [= <-]).
    split; [eauto|]. split; [done|]. split; [by apply quiet_same|]. eexists _, _, _. split; [exact Hf|]. split; [exact Hn|]. by apply committed_done. }
  destruct (is_text (TaskState.status st) "completed") eqn:Es.
  { injection Hr as <-. apply is_text_true in Es. split; [by apply Hcomp|]. split; [done|]. split; [done|].
    eexists _, _, _. split; [exact Hf|]. split; [exact Hn|]. by left. }
  destruct (_ && _); [|done]. apply eff_bind_Ok in Hr as ([] & ? & [= <-] & Hr).
  apply eff_bind_Ok in Hr as (u & h1 & (w & Hu & ->)%on_world_Ok & Hr). pose proof (artifact_Ok _ _ _ _ Hu) as Ho.
  apply (readonly_run _ _ _ _ (readonly_artifact a)) in Hu as ->.
  apply eff_bind_Ok in Hr as (st' & h2 & Hrec & [= <-]). split; [done|].
  pose proof (inside_locked now io_fault (λ w, w = world h) (ledger h) TASK_ID "prepare" "applied_and_verified" RECONCILIATION_NOTE [u]) as Hw.
  rewrite host_eta in Hrec. split; [|by eapply reconcile_locked_done, Hrec].
  specialize (Hw h (conj eq_refl (reflexivity _))). by rewrite Hrec in Hw; destruct Hw.
Qed.
Lemma write_once_same path value w w' e : disk w !! path = Some e → write_once fate path value w = (Ok tt, w') → w' = w.
Proof.
  intros He. unfold write_once. intros (content & ? & [_ ->]%lift_Ok & Hr)%eff_bind_Ok.
  apply eff_bind_Ok in Hr as (? & ? & [= <- <-] & Hr). rewrite He in Hr. destruct e as [c|]; [|done].
  destruct (String.eqb c content); [|done]. by injection Hr as <-.
Qed.
Lemma locked_done a root spec h h' : prepare_locked loads time_value fate now io_fault a root spec true h = (Ok tt, h') →
  is_Some (disk (world h) !! output a) ∧ is_Some (disk (world h) !! below root "task.json") ∧ world h' = world h ∧ quiet h h' ∧
  ∃ doc n st, files h' !! TASK_ID = Some doc ∧ TaskState.from_dict n doc = Ok st ∧ done_state st.
Proof.
  unfold prepare_locked. intros ([] & h1 & Hreq & Hr)%eff_bind_Ok.
  assert (h1 = h ∧ is_Some (files h !! TASK_ID) ∧ is_Some (disk (world h) !! below root "task.json")) as (-> & [doc Hf] & [e He]).
  { unfold require_saved_attempt in Hreq. apply eff_bind_Ok in Hreq as (? & ? & [= <- <-] & Hreq).
    case_bool_decide as Hf; [|done]. cbn [andb] in Hreq. destruct (disk (world h) !! below root "task.json") as [e|] eqn:He; [|done].
    cbn [mbind option_bind] in Hreq. destruct (content_of e); [|done].
    apply eff_bind_Ok in Hreq as ([] & ? & [= <-] & Hreq). apply eff_bind_Ok in Hreq as (at_ & ? & [_ ->]%lift_Ok & Hreq).
    destruct (one_attempt_value _); [|done]. injection Hreq as <-. eauto. }
  apply eff_bind_Ok in Hr as ([] & h2 & (w & Hw & ->)%on_world_Ok & Hr). apply write_once_same with (e := e) in Hw as ->; [|done].
  rewrite host_eta in Hr.
  apply eff_bind_Ok in Hr as (st & h3 & Hl & Hr). destruct (load_state_Ok _ _ _ doc Hf Hl) as [[n Hn] [Hf3 _ Hw3]].
  destruct (quiet_load _ _ _ Hl) as [Q3 _]. cbn in Hf3, Hw3.
  apply eff_bind_Ok in Hr as ([] & h4 & Hrec & Hr).
  assert (TaskState.status st = VStr "completed" → is_Some (disk (world h4) !! output a)) as Hcomp.
  { intros E. rewrite E in Hr. cbn in Hr. apply eff_bind_Ok in Hr as (rc & h5 & (w & (_ & _ & text & _ & Ho)%check_Ok & _)%on_world_Ok & _).
    eauto. }
  assert (world h4 = world h3) as Hw4.
  { pose proof (reconcile_world a spec st h3) as Hx. by rewrite Hrec in Hx. }
  apply reconcile_done with (doc := doc) (n := n) in Hrec as (Ho & Hw4' & Q4 & Hdone); [|by rewrite Hf3|done|by rewrite <- Hw4].
  assert (world h' = world h4 ∧ files h' = files h4 ∧ quiet h4 h') as (-> & -> & Q5).
  { destruct (is_text _ "completed"); [|injection Hr as <-; done].
    apply eff_bind_Ok in Hr as (rc & h5 & (w & (-> & _)%check_Ok & ->)%on_world_Ok & [= <-]).
    split_and!; [done..|by apply quiet_same]. }
  rewrite Hw3 in *. split; [done|]. split; [eauto|]. split; [by rewrite Hw4|]. split; [|done].
  by do 2 (etrans; [eassumption|]).
Qed.
(** C11: a reconciliation never repeats the action.  When a run that was asked to reconcile
    returns, no step was executed, the report and the task definition were already there,
    and nothing outside the state directory changed; in it, only the state file of this
    task may have been replaced, and the ledger only has new records, none of which is the
    start of a step. *)
Theorem reconciled_not_repeated rs vs root v t h rc h' : run_preparation rs vs root v t true h = (Ok rc, h') →
  RunOutcome.executed_steps (outcome rc) = [] ∧ disk (world h') = disk (world h) ∧
  is_Some (disk (world h) !! below root "preparation.json") ∧ is_Some (disk (world h) !! below root "task.json") ∧
  (∃ evs, ledger h' = ledger h ++ evs ∧ Forall (λ ev, started ev = false) evs) ∧
  ∀ id, id ≠ TASK_ID → files h' !! id = files h !! id.
Proof.
  intros Hrun. pose proof (preparation_only_new rs vs root v t true h) as [Hsub Hother]. rewrite Hrun in Hsub, Hother. cbn [snd] in *.
  revert Hrun. unfold Preparation.run_preparation.
  intros ([] & h0 & [_ ->]%lift_Ok & ([] & h1 & [_ ->]%lift_Ok & (a & h2 & (w & Ha & ->)%on_world_Ok & Hr)%eff_bind_Ok)%eff_bind_Ok)%eff_bind_Ok.
  destruct (new_adapter_fields _ _ _ _ _ _ _ _ Ha) as (_ & _ & Eo & _). apply new_adapter_Ok in Ha as (-> & _ & _).
  apply eff_bind_Ok in Hr as (rep & h3 & (w & [-> _]%expected_Ok & ->)%on_world_Ok & Hr).
  apply eff_bind_Ok in Hr as (reg & h4 & [_ ->]%lift_Ok & Hr). cbv zeta in Hr. cbn [world] in *.
  apply eff_bind_Ok in Hr as ([] & h5 & Hlock & Hr). apply eff_bind_Ok in Hr as (o & h6 & Hrun & Hr).
  assert (quiet h6 h') as Q6.
  { revert Hr. unfold receipt_of. destruct (is_text _ "completed"); [|intros [= _ <-]; done].
    intros (rep' & h8 & Q8%quiet_world & (sha & h9 & Q9%quiet_world & [= _ <-])%eff_bind_Ok)%eff_bind_Ok. by etrans. }
  apply receipt_of_Ok in Hr as (<- & _ & _).
  match type of Hlock with task_lock _ _ ?hh = _ => set (hb := hh) in Hlock end.
  destruct (decide (TASK_ID ∈ locked hb)) as [Hl|Hl]; [by rewrite task_lock_held in Hlock|]. rewrite task_lock_eq in Hlock by done.
  destruct (prepare_locked _ _ _ _ _ _ _ _ _ _) as [r h7] eqn:El. injection Hlock as -> <-.
  apply locked_done in El as (Ho & Ht & _ & Q7 & doc & n & st & Hf & Hn & Hdone). rewrite Eo in Ho. cbn in Ho, Ht.
  eapply run_skips in Hrun as [Q8 Hexec]; [|exact Hf|exact Hn|exact Hdone].
  assert (quiet h h') as [Ql Qf].
  { transitivity (set_locked ({[TASK_ID]} ∪ locked hb) hb); [by apply quiet_same|]. etrans; [exact Q7|]. etrans; [|exact Q6]. etrans; [|exact Q8]. by apply quiet_same. }
  split; [done|]. split; [|done]. apply map_eq. intros p.
  destruct (decide (p ∈ [below root "preparation.json"; below root "task.json"])) as [Hp|Hp]; [|by apply Hother].
  rewrite !elem_of_cons in Hp. assert (is_Some (disk (world h) !! p)) as [x Hx] by (destruct Hp as [->|[->|[]%elem_of_nil]]; done).
  rewrite Hx. by apply (lookup_weaken _ _ _ _ Hx).
Qed.
End facts.

(** ** Examples *)
#[local] Existing Instance decimal_readers.
Definition example_rows : list pyval := map VDict example_races.
Definition example_hashes : pydict :=
  map (λ d, (py_str (get_or_none "race_id" d), match digest (VDict d) with Ok sha => VStr sha | Err _ => VNone end)) example_races.
Definition example_document : pyval :=
  VDict [("schema_version", VStr "historical-review-records-v1"); ("records", VList example_rows);
         ("record_hashes", VDict example_hashes); ("quarantined_records", VList [VInt 1; VInt 2])].
(** The two input files of the example and what they decode to. *)
Definition example_loads (raw : string) : result pyval :=
  if String.eqb raw "R" then Ok example_document
  else if String.eqb raw "V" then Ok (VList (map example_review example_races))
  else raise ValueError "Expecting value".
Definition example_time (t : Z) : pyval := VFloat float_one.
Definition example_start : host (local) :=
  Host ∅ [] ∅ 0 0 (Local {["/in/records" := File "R"; "/in/reviews" := File "V"]} 0).
Definition whole (n : nat) : write_fate := Complete.
Definition example_run (fault : nat → bool) (reconcile : bool) (h : host local) : result receipt * host local :=
  run_preparation example_loads example_time whole (λ _, "now") fault (λ _, "Error") "/repo"
    "/in/records" "/in/reviews" "/run" "100" "200" reconcile h.
Definition steady (n : nat) : bool := false.
(** The state after the action cannot be saved. *)
Definition faulty (n : nat) : bool := (5 <=? n)%nat.
Definition summary (r : result receipt) : option (pyval * list string) :=
  match r with
  | Ok rc => Some (RunOutcome.status (outcome rc), RunOutcome.executed_steps (outcome rc))
  | Err _ => None
  end.
Definition interrupted : host local := (example_run faulty false example_start).2.
Definition blocked_run : result receipt * host local := example_run steady false interrupted.
Definition reconciled_run : result receipt * host local := example_run steady true blocked_run.2.
(** A run completes; an interrupted one is blocked, and its reconciliation completes it
    without the action. *)
Example example_completes : summary (example_run steady false example_start).1 = Some (VStr "completed", ["prepare"]).
Proof. vm_compute. reflexivity. Qed.
Example example_reconciles : summary blocked_run.1 = Some (VStr "blocked", []) ∧ summary reconciled_run.1 = Some (VStr "completed", []).
Proof. vm_compute. split; reflexivity. Qed.
Lemma receipt_verified_witness : ∃ rc h' text, example_run steady false example_start = (Ok rc, h') ∧
  disk (world h') !! "/run/preparation.json" = Some (File text) ∧ preparation_sha256 rc = Some (bytes_hash text).
Proof.
  pose proof example_completes as E. unfold summary in E. destruct (example_run steady false example_start) as [[rc|e] h'] eqn:Er;
    [|discriminate E]. cbn [fst] in E. injection E as Es _.
  destruct (receipt_verified example_loads example_time whole (λ _, "now") steady (λ _, "Error") "/repo"
    "/in/records" "/in/reviews" "/run" "100" "200" false example_start rc h' Er)
    as (a & raw & raw' & d & rows & hs & revs & pl & text & _ & _ & _ & _ & _ & _ & _ & _ & _ & _ & _ & Ho & Erc).
  { rewrite Es. reflexivity. }
  exists rc, h', text. split; [reflexivity|]. split; [exact Ho|]. rewrite Erc. reflexivity.
Defined.
Lemma reconciled_not_repeated_witness : ∃ rc h', example_run steady true blocked_run.2 = (Ok rc, h') ∧
  RunOutcome.executed_steps (outcome rc) = [] ∧ disk (world h') = disk (world blocked_run.2).
Proof.
  pose proof example_reconciles as [_ E]. unfold summary, reconciled_run in E.
  destruct (example_run steady true blocked_run.2) as [[rc|e] h'] eqn:Er; [|discriminate E].
  exists rc, h'. destruct (reconciled_not_repeated example_loads example_time whole (λ _, "now") steady (λ _, "Error") "/repo"
    "/in/records" "/in/reviews" "/run" "100" "200" blocked_run.2 rc h' Er) as (Hx & Hd & _ & _ & _ & _).
  split_and!; [reflexivity|exact Hx|exact Hd].
Defined.
