(* ===== verification/Inference.v ===== *)
(** ml/trifecta_adapter.py, ml/predict_position_models.py, the softmax of
    ml/train_position_models.py and the odds of ml/feature_extraction.py: the inference of
    one race from three position models.

    The boosters of LightGBM, NumPy's [max], [exp] and [sum], the texts of the model
    directory and the clock are arguments.  A dictionary whose keys are cars is an
    association list; in a document its keys are the texts JSON gives them. *)
From Stdlib Require Import Ascii SpecFloat.
From stdpp Require Import sorting.
From S2P Require Import Prelude PyString PyValue PyText PyFloat Itertools Rounding Dataset Selection.

Definition float_mul (a b : spec_float) : spec_float := SFmul 53 1024 a b.
Definition float_zero : spec_float := S754_zero false.

(** ** ml/trifecta_adapter.py *)
Definition ADAPTER_VERSION : string := "position-probability-to-trifecta-v1".
Abbreviation distribution := (list (Z * spec_float)).
Definition car_value (d : distribution) (car : Z) : result spec_float :=
  match find (λ cp, cp.1 =? car) d with Some cp => Ok cp.2 | None => raise KeyError (z_str car) end.
(** [0 <= value <= 1] of a finite number *)
Definition is_probability (f : spec_float) : bool :=
  float_is_finite f && in_bounds true (VFloat f).
Definition _clean_probabilities (values : distribution) (riders : gset Z) (label : string) : result distribution :=
  reject_if (negb (bool_decide (list_to_set (map fst values) = riders))) ValueError (label ++ " rider set does not match")%string;;
  mapR (λ cp : Z * spec_float,
    reject_if (negb (is_probability cp.2)) ValueError
      (label ++ "[" ++ z_str cp.1 ++ "] must be a finite probability in [0, 1]")%string;; Ok cp) values.

Record trow := TRow { combo : list Z; trow_key : string; model_score : spec_float; estimated_probability : spec_float }.
Definition combo_text (c : list Z) : string := join "-" (map z_str c).
Definition raw_row (p1 p2 p3 : distribution) (c : list Z) : result (list Z * spec_float) :=
  match c with
  | [a; b; d] => x ← car_value p1 a; y ← car_value p2 b; z ← car_value p3 d; Ok (c, float_mul (float_mul x y) z)
  | _ => raise ValueError "not enough values to unpack"
  end.
(** [key=lambda row: (-row["estimated_probability"], row["combo_key"])] *)
Definition row_before (a b : trow) : bool :=
  let p := estimated_probability a in let q := estimated_probability b in
  SFltb q p || (SFeqb p q && str_le (trow_key a) (trow_key b)).
Fixpoint insert_row (x : trow) (l : list trow) : list trow :=
  match l with
  | [] => [x]
  | y :: l' => if row_before y x then y :: insert_row x l' else x :: l
  end.
Definition sort_rows (l : list trow) : list trow := foldl (λ acc x, insert_row x acc) [] l.
Definition sorted_cars (d : distribution) : list Z := merge_sort Z.le (remove_dups (map fst d)).
Definition combine_position_probabilities (first second third : distribution) : result (list trow) :=
  let riders : gset Z := list_to_set (map fst first) in
  reject_if (size riders <? 3)%nat ValueError "at least three riders are required";;
  p1 ← _clean_probabilities first riders "first";
  p2 ← _clean_probabilities second riders "second";
  p3 ← _clean_probabilities third riders "third";
  raw_rows ← mapR (raw_row p1 p2 p3) (permutations 3 (sorted_cars first));
  let total := float_sum (map snd raw_rows) in
  reject_if (negb (float_is_finite total) || SFleb total float_zero) ValueError
    "position probabilities produce zero or invalid trifecta mass";;
  Ok (sort_rows (map (λ cs, TRow cs.1 (combo_text cs.1) cs.2 (float_div cs.2 total)) raw_rows)).

(** [1e-12] *)
Definition trillionth : spec_float := S754_finite false 4951760157141521 (-92).
Record validation := Validation {
  expected_combinations : Z; actual_combinations : Z; unique_combinations : Z; probability_mass : spec_float }.
Definition validate_trifecta_table (rows : list trow) (rider_count : Z) : validation :=
  Validation (rider_count * (rider_count - 1) * (rider_count - 2)) (Z.of_nat (length rows))
    (Z.of_nat (length (remove_dups (map trow_key rows)))) (float_sum (map estimated_probability rows)).
Definition combination_count_ok (v : validation) : bool := actual_combinations v =? expected_combinations v.
Definition unique_ok (v : validation) : bool := unique_combinations v =? expected_combinations v.
Definition probability_mass_ok (v : validation) : bool := SFleb (SFabs (float_sub (probability_mass v) float_one)) trillionth.

(** ** ml/train_position_models.py *)
Class Numpy := { np_max : list spec_float → spec_float; np_exp : spec_float → spec_float; np_sum : list spec_float → spec_float }.
Definition sixty (negative : bool) : spec_float := S754_finite negative 8444249301319680 (-47).
(** [np.clip(x, -60, 60)] *)
Definition clip (x : spec_float) : spec_float :=
  if SFltb x (sixty true) then sixty true else if SFltb (sixty false) x then sixty false else x.
Definition _softmax `{Numpy} (scores : list spec_float) : result (list spec_float) :=
  reject_if (bool_decide (scores = [])) ValueError "scores must be a non-empty one-dimensional array";;
  let top := np_max scores in
  let exp := map (λ s, np_exp (clip (float_sub s top))) scores in
  let total := np_sum exp in
  reject_if (negb (float_is_finite total) || SFleb total float_zero) ValueError "invalid softmax mass";;
  Ok (map (λ e, float_div e total) exp).

(** ** The odds: ml/feature_extraction.py *)
(** A character without its case, as [re.IGNORECASE] compares it: the Kelvin sign is a
    [k], the long s an [s]. *)
Definition fold_case (c : string) : string :=
  if String.eqb c (of_bytes [226; 132; 170]) then "k" else if String.eqb c (of_bytes [197; 191]) then "s"
  else match chars c with [a] => if is_upper a then String (chr (code a + 32)) "" else c | _ => c end.
Fixpoint starts_with (w l : list string) : bool :=
  match w, l with
  | [], _ => true
  | c :: w', d :: l' => String.eqb c d && starts_with w' l'
  | _, [] => false
  end.
Definition kdreams_here (l : list string) : bool :=
  existsb (λ w, starts_with (characters w) l) ["kdreams"; "kドリームス"; "ケイドリームス"]
  || match l with
     | k :: c :: l' => String.eqb k "k" && (String.eqb c "-" || is_white c) && starts_with (characters "dreams") l'
     | _ => false
     end.
Fixpoint kdreams_in (l : list string) : bool :=
  kdreams_here l || match l with [] => false | _ :: l' => kdreams_in l' end.
(** [_KDREAMS.search(source)] *)
Definition _KDREAMS (source : string) : bool := kdreams_in (map fold_case (characters source)).

Section inference.
Context `{Readers}.

Definition car_text (p : pyval) : result string := c ← getitem p "car_number"; n ← int_value c; Ok (z_str n).
(** The body of the loop over the table of odds: the clean odds and the combinations
    ignored. *)
Definition clean_entry (cars : list string) (marked : bool) (acc : pydict * list string) (kv : string * pyval) :
    result (pydict * list string) :=
  let '(key, raw_value) := kv in
  let parts := split_on "-" key in
  if negb (length parts =? 3)%nat || negb (length (remove_dups parts) =? 3)%nat
     || negb (forallb (λ p, bool_decide (p ∈ cars)) parts) then Ok acc else
  match raw_value with
  | VBool _ => Ok acc
  | _ =>
      match py_float raw_value with
      | Err e => if isinstance e TypeError || isinstance e ValueError then Ok acc else Err e
      | Ok value =>
          if negb (float_is_finite value) || SFleb value float_zero then Ok acc
          else if marked && SFeqb value no_ticket then Ok (acc.1, acc.2 ++ [key])
          else Ok (dict_set key (VFloat value) acc.1, acc.2)
      end
  end.
Definition sanitize_prediction_odds (race_data : pyval) : result (pydict * pydict) :=
  odds ← get_dict race_data "odds";
  trifecta ← get odds "trifecta";
  let policy := ("policy", VStr "kdreams_9999_9_unbet_as_unavailable") in
  match py_or trifecta (VDict []) with
  | VDict raw =>
      context ← get_dict race_data "prediction_context";
      s ← match context with VDict _ => get context "source" | _ => Ok (VStr "") end;
      let source := py_str (py_or s (VStr "")) in
      let marked := _KDREAMS source in
      players ← py_get race_data "players";
      items ← iter_text (default (VList []) players);
      cars ← mapR car_text items;
      acc ← foldR (clean_entry cars marked) ([], []) raw;
      Ok (acc.1, [policy; ("source_matched", VBool marked); ("source", VStr source);
                  ("ignored_combos", VList (map VStr (sorted acc.2))); ("known_odds_count", VInt (Z.of_nat (length acc.1)))])
  | _ => Ok ([], [policy; ("source_matched", VBool false); ("ignored_combos", VList []); ("known_odds_count", VInt 0)])
  end.

(** ** ml/predict_position_models.py *)
Definition MODEL_VERSION : string := "lightgbm-position-rankers-v1".
Definition INFERENCE_VERSION : string := "lightgbm-offline-inference-v1".
Definition VALID_STYLES : list string := ["逃"; "両"; "追"].
Definition POSITIONS : list string := ["first"; "second"; "third"].
Definition player_label (index : Z) (rest : string) : string := ("players[" ++ z_str index ++ "]" ++ rest)%string.
(** The body of the loop over the players: the errors and the cars seen. *)
Definition check_player (count : Z) (acc : list string * gset Z * Z) (player : pyval) : result (list string * gset Z * Z) :=
  let '(errors, cars, index) := acc in
  match player with
  | VDict p =>
      match get_or_none "car_number" p with
      | VInt car =>
          if negb ((1 <=? car) && (car <=? count)) then
            Ok (errors ++ [player_label index (".car_number must be an integer in 1.." ++ z_str count)], cars, index + 1)
          else
            let errors := if bool_decide (car ∈ cars) then errors ++ [("duplicate car_number: " ++ z_str car)%string] else errors in
            known ← in_str_set (get_or_none "style" p) VALID_STYLES;
            Ok (if (known : bool) then errors else errors ++ [player_label index ".style must be one of 逃, 両, 追"],
                {[car]} ∪ cars, index + 1)
      | _ => Ok (errors ++ [player_label index (".car_number must be an integer in 1.." ++ z_str count)], cars, index + 1)
      end
  | _ => Ok (errors ++ [player_label index " must be an object"], cars, index + 1)
  end.
Definition validate_race_data (race_data : pyval) : result (list string) :=
  match race_data with
  | VDict d =>
      declared ← match declared_conditions d with
                 | Ok _ => Ok []
                 | Err e => if isinstance e ValueError then Ok [exn_msg e] else Err e
                 end;
      let race := match get_or_none "race" d with VDict _ => [] | _ => ["race is required"] end in
      match get_or_none "players" d with
      | VList players =>
          let n := Z.of_nat (length players) in
          if negb ((n =? 7) || (n =? 9)) then Ok (declared ++ race ++ ["players must contain seven or nine riders"]) else
          acc ← foldR (check_player n) (declared ++ race, ∅, 0) players;
          Ok (sorted (remove_dups acc.1.1))
      | _ => Ok (declared ++ race ++ ["players must contain seven or nine riders"])
      end
  | _ => Ok ["race_data must be an object"]
  end.

(** The files of a model directory as [load_models] reads them: two documents, the
    feature names of the three boosters and the digest over the five files. *)
Record model_files := ModelFiles {
  schema_file : option pyval; metrics_file : option pyval; booster_features : string → option (list string);
  files_sha256 : string }.
Record artifact := Artifact { training_metrics : pyval; artifact_sha256 : string }.
Definition feature_list : pyval := VList (map VStr FEATURE_COLUMNS).
Definition check_booster (files : model_files) (position : string) : result unit :=
  match booster_features files position with
  | None => raise OSError "missing position model"
  | Some names => reject_if (negb (bool_decide (names = FEATURE_COLUMNS))) ValueError
                    (position ++ " model feature names do not match runtime schema")
  end.
Definition load_models (files : model_files) : result artifact :=
  match schema_file files, metrics_file files with
  | Some schema, Some metrics =>
      v ← get schema "model_version";
      reject_if (negb (is_text v MODEL_VERSION)) ValueError "model version does not match runtime";;
      c ← get schema "feature_columns";
      reject_if (negb (py_eqb c feature_list)) ValueError "model feature schema does not match runtime";;
      mv ← get metrics "model_version"; mc ← get metrics "feature_columns";
      reject_if (negb (is_text mv MODEL_VERSION) || negb (py_eqb mc feature_list)) ValueError
        "model metrics do not match runtime schema";;
      status ← get metrics "status";
      reject_if (negb (is_text status "trained_offline_validation_only")) ValueError
        "model artifact is not a completed offline validation artifact";;
      production ← get metrics "production_enabled";
      reject_if (negb (is_false production)) ValueError "offline runtime refuses production-enabled artifacts";;
      calibration ← get metrics "probability_calibration_status";
      reject_if (negb (is_text calibration "uncalibrated")) ValueError "unexpected probability calibration status";;
      mapR (check_booster files) POSITIONS;;
      Ok (Artifact metrics (files_sha256 files))
  | None, _ => raise OSError "missing model feature schema"
  | _, None => raise OSError "missing model metrics"
  end.

(** [booster.predict(x)] of each position *)
Context `{Numpy} (predict : string → list (list spec_float) → result (list spec_float)).
Definition set_car (d : distribution) (cp : Z * spec_float) : distribution :=
  if existsb (λ x, x.1 =? cp.1) d then map (λ x, if x.1 =? cp.1 then cp else x) d else d ++ [cp].
Definition row_car (row : pydict) : result Z := c ← getitem (VDict row) "car_number"; int_value c.
Definition position_distribution (x : list (list spec_float)) (cars : list Z) (position : string) : result distribution :=
  raw ← predict position x;
  probabilities ← _softmax raw;
  reject_if (negb (length cars =? length probabilities)%nat) ValueError "zip() arguments differ in length";;
  Ok (foldl set_car [] (zip cars probabilities)).
Definition _position_distributions (player_rows : list pydict) : result (list (string * distribution)) :=
  x ← mapR row_to_features player_rows;
  cars ← mapR row_car player_rows;
  mapR (λ position, d ← position_distribution x cars position; Ok (position, d)) POSITIONS.
Definition distribution_at (ds : list (string * distribution)) (position : string) : distribution :=
  default [] (snd <$> find (λ kd, String.eqb kd.1 position) ds).

(** [sorted(items, key=lambda item: (-item[1], item[0]))] *)
Definition car_before (a b : Z * spec_float) : bool :=
  SFltb b.2 a.2 || (SFeqb a.2 b.2 && (a.1 <=? b.1)).
Fixpoint insert_car (x : Z * spec_float) (l : distribution) : distribution :=
  match l with
  | [] => [x]
  | y :: l' => if car_before y x then y :: insert_car x l' else x :: l
  end.
Definition ranked_cars (d : distribution) : distribution := foldl (λ acc x, insert_car x acc) [] d.
Definition ranking_entry (i : nat) (cp : Z * spec_float) : pyval :=
  VDict [("rank", VInt (Z.of_nat i + 1)); ("car_number", VInt cp.1); ("estimated_probability", VFloat cp.2)].
Definition _rank_positions (ds : list (string * distribution)) : pydict :=
  map (λ p, (p, VList (imap ranking_entry (ranked_cars (distribution_at ds p))))) POSITIONS.

Definition score_value (clean_odds : pydict) (row : trow) : pyval :=
  VDict [("combo", VList (map VInt (combo row))); ("combo_key", VStr (trow_key row)); ("model_score", VFloat (model_score row));
         ("estimated_probability", VFloat (estimated_probability row)); ("probability_calibration_status", VStr "uncalibrated");
         ("adapter_version", VStr ADAPTER_VERSION); ("odds", get_or_none (trow_key row) clean_odds);
         ("monetary_expected_value", VNone)].
Definition validation_entries (v : validation) : pydict :=
  [("expected_combinations", VInt (expected_combinations v)); ("actual_combinations", VInt (actual_combinations v));
   ("unique_combinations", VInt (unique_combinations v)); ("probability_mass", VFloat (probability_mass v));
   ("combination_count_ok", VBool (combination_count_ok v)); ("unique_ok", VBool (unique_ok v));
   ("probability_mass_ok", VBool (probability_mass_ok v)); ("calibration_status", VStr "uncalibrated");
   ("adapter_version", VStr ADAPTER_VERSION)].
(** The players in the order of their cars, whose numbers are integers by then. *)
Definition car_of (player : pyval) : Z :=
  match player with VDict p => match get_or_none "car_number" p with VInt n => n | _ => 0 end | _ => 0 end.
Definition by_car (players : list pyval) : list pyval := sorted_by car_of players.
(** [now] is [datetime.now(timezone.utc).isoformat()]. *)
Definition predict_race (now : string) (race_data : pyval) (files : model_files) : result pydict :=
  errors ← validate_race_data race_data;
  reject_if (negb (bool_decide (errors = []))) ValueError (join "; " errors);;
  art ← load_models files;
  ps ← getitem race_data "players";
  players ← iter_text ps;
  player_rows ← mapR extract_player_model_fields (by_car players);
  distributions ← _position_distributions player_rows;
  table ← combine_position_probabilities (distribution_at distributions "first") (distribution_at distributions "second")
            (distribution_at distributions "third");
  let n := Z.of_nat (length player_rows) in
  let v := validate_trifecta_table table n in
  reject_if (negb (combination_count_ok v && unique_ok v && probability_mass_ok v)) ValueError
    "trifecta adapter validation failed";;
  odds ← sanitize_prediction_odds race_data;
  let scores := VList (map (score_value odds.1) table) in
  let possible := Z.of_nat (length table) in
  known ← getitem (VDict odds.2) "known_odds_count";
  scope ← py_get (training_metrics art) "evidence_scope"; trained ← get (training_metrics art) "trained_at";
  race ← get race_data "race";
  conditions ← py_get race_data "race_conditions";
  selected ← select_model_categories scores (VInt n);
  status ← get (training_metrics art) "status";
  Ok ([("success", VBool true); ("mode", VStr "offline_inference_only"); ("inference_version", VStr INFERENCE_VERSION);
       ("generated_at", VStr now);
       ("model_artifact", VDict [("evidence_scope", default (VStr "not_verified") scope);
                                 ("sha256", VStr (artifact_sha256 art)); ("trained_at", trained)]);
       ("model_version", VStr MODEL_VERSION); ("adapter_version", VStr ADAPTER_VERSION);
       ("production_prediction_enabled", VBool false); ("db_write_enabled", VBool false);
       ("external_fetch_enabled", VBool false); ("probability_calibration_status", VStr "uncalibrated");
       ("monetary_ev_enabled", VBool false); ("odds_used_as_model_feature", VBool false);
       ("position_score_conversion", VStr "softmax_within_race"); ("race", race)]
      ++ match conditions with Some c => [("race_conditions", c)] | None => [] end
      ++ [("position_probabilities",
             VDict (map (λ pd, (pd.1, VDict (map (λ cp, (z_str cp.1, VFloat cp.2)) pd.2))) distributions));
          ("position_rankings", VDict (_rank_positions distributions)); ("trifecta_scores", scores);
          ("selected_predictions", VDict selected.2);
          ("input_quality", VDict
             [("rider_count", VInt n); ("known_trifecta_odds_count", known); ("possible_trifecta_count", VInt possible);
              ("trifecta_odds_coverage",
                 VFloat (match known with VInt k => if possible =? 0 then float_zero else true_div k possible | _ => float_zero end))]);
          ("odds_sanitization", VDict odds.2);
          ("validation", VDict (validation_entries v ++ [("no_result_fields_required", VBool true); ("model_artifact_status", status)]));
          ("warning", VStr "Offline ML candidate only. Scores are uncalibrated; monetary EV and production prediction remain disabled.")]).
End inference.
