(* ===== verification/InferenceFacts.v ===== *)
(** Whatever the models answer, a prediction that inference returns satisfies the contract
    of a displayable prediction, but for a mass of position probabilities. *)
From Stdlib Require Import Ascii SpecFloat.
From stdpp Require Import sorting.
From S2P Require Import Prelude PyString PyValue PyText PyFloat Itertools Rounding Dataset DatasetFacts Selection SelectionFacts History HistoryFacts Preview PrepareFacts Inference.

(** ** The players *)
Definition has_car (v : pyval) (c : Z) : Prop := ∃ p, v = VDict p ∧ get_or_none "car_number" p = VInt c.
Lemma check_player_step n acc v acc' : check_player n acc v = Ok acc' → acc'.1.1 = [] →
  acc.1.1 = [] ∧ ∃ c, has_car v c ∧ 1 ≤ c ≤ n ∧ c ∉ acc.1.2 ∧ acc'.1.2 = {[c]} ∪ acc.1.2.
Proof.
  destruct acc as [[errors cars] index]. unfold check_player.
  assert (∀ x : string, errors ++ [x] ≠ []) as Hne by (intros x; by destruct errors).
  destruct v as [| | | | | | |p]; try by (intros [= <-] E; cbn in E; exfalso; eapply Hne).
  destruct (get_or_none "car_number" p) as [| |c| | | | |] eqn:Ec; try by (intros [= <-] E; cbn in E; exfalso; eapply Hne).
  destruct (negb ((1 <=? c) && (c <=? n))) eqn:Eb; [by (intros [= <-] E; cbn in E; exfalso; eapply Hne)|].
  intros (known & _ & [= <-])%bind_Ok. cbn [fst snd]. apply negb_false_iff, andb_true_iff in Eb as [?%Z.leb_le ?%Z.leb_le].
  case_bool_decide as Hin; destruct known; intros E; try (by exfalso; eapply Hne); try (by destruct errors); [].
  split; [done|]. exists c. split; [by exists p|]. done.
Qed.
Lemma check_players_ok n players : ∀ acc acc', foldR (check_player n) acc players = Ok acc' → acc'.1.1 = [] →
  acc.1.1 = [] ∧ ∃ cars, Forall2 has_car players cars ∧ Forall (λ c, 1 ≤ c ≤ n) cars ∧ NoDup cars ∧ ∀ c, c ∈ cars → c ∉ acc.1.2.
Proof.
  induction players as [|v players IH]; intros acc acc'; cbn [foldR].
  { intros [= <-] E. split; [done|]. exists []. split_and!; try constructor. by intros c ?%not_elem_of_nil. }
  intros (acc1 & Hstep & Hrun)%bind_Ok E. destruct (IH _ _ Hrun E) as (E1 & cars & Hc & Hr & Hn & Hnew).
  destruct (check_player_step _ _ _ _ Hstep E1) as (E0 & c & Hv & Hb & Hnc & Hseen). split; [done|]. exists (c :: cars).
  rewrite Hseen in Hnew. split_and!; try by constructor.
  - apply list.NoDup_cons. split; [|done]. intros Hin. apply Hnew in Hin. set_solver.
  - intros c' [->|Hin]%elem_of_cons; [done|]. apply Hnew in Hin. set_solver.
Qed.
Lemma no_errors (l : list string) : sorted (remove_dups l) = [] → l = [].
Proof.
  intros E. destruct l as [|x l]; [done|]. exfalso. assert (x ∈ sorted (remove_dups (x :: l))) as Hx.
  { rewrite sorted_perm. apply elem_of_remove_dups. left. }
  rewrite E in Hx. by apply not_elem_of_nil in Hx.
Qed.
(** What data without errors are: seven or nine players with the cars from 1 on. *)
Record race_ok (race_data : pyval) (n : Z) (players : list pyval) : Prop := {
  ro_dict : ∃ d, race_data = VDict d ∧ get_or_none "players" d = VList players ∧ declared_conditions d = Ok tt;
  ro_count : n = 7 ∨ n = 9;
  ro_cars : ∃ cars, Forall2 has_car players cars ∧ cars ≡ₚ riders n }.
Lemma riders_elem n c : c ∈ riders n ↔ 1 ≤ c ≤ n.
Proof.
  unfold riders. rewrite list_elem_of_fmap. setoid_rewrite elem_of_seq. split.
  - intros (k & -> & ?). lia.
  - intros ?. exists (Z.to_nat c). lia.
Qed.
Lemma riders_NoDup n : NoDup (riders n).
Proof. unfold riders. apply NoDup_fmap_2; [intros ? ?; lia|apply NoDup_seq]. Qed.
Lemma race_data_ok race_data : validate_race_data race_data = Ok [] → ∃ n players, race_ok race_data n players.
Proof.
  unfold validate_race_data. destruct race_data as [| | | | | | |d]; try done. intros (declared & Hd & Hrun)%bind_Ok. cbv zeta in Hrun.
  set (race := match get_or_none "race" d with VDict _ => _ | _ => _ end) in Hrun.
  assert (∀ x : string, declared ++ race ++ [x] ≠ []) as Hne by (intros x; destruct declared; [by destruct race|done]).
  destruct (get_or_none "players" d) as [| | | | |players| |] eqn:Ep; try by (injection Hrun as E; exfalso; eapply Hne).
  set (n := Z.of_nat (length players)) in Hrun.
  destruct (negb ((n =? 7) || (n =? 9))) eqn:En; [by (injection Hrun as E; exfalso; eapply Hne)|].
  apply bind_Ok in Hrun as (acc & Hfold & [= Hs]). apply no_errors in Hs.
  destruct (check_players_ok _ _ _ _ Hfold Hs) as ([-> _]%app_nil & cars & Hcars & Hb & Hn & _).
  apply negb_false_iff, orb_true_iff in En. exists n, players. split.
  - exists d. split_and!; try done. destruct (declared_conditions d) as [[]|e]; [done|]. by destruct (isinstance e ValueError).
  - destruct En as [?%Z.eqb_eq|?%Z.eqb_eq]; auto.
  - exists cars. split; [done|]. apply submseteq_length_Permutation.
    + apply NoDup_submseteq; [done|]. intros c Hc. rewrite riders_elem. rewrite list.Forall_forall in Hb. auto.
    + unfold riders. rewrite length_map, length_seq. apply Forall2_length in Hcars. lia.
Qed.


(** ** The texts of combinations *)
Lemma join_split (sep : ascii) s : join (String sep "") (split_on sep s) = s.
Proof.
  induction s as [|c s IH]; cbn [split_on]; [done|].
  destruct (split_on sep s) as [|w ws] eqn:E; [by destruct (split_on_not_nil sep s)|].
  destruct (Ascii.eqb_spec c sep) as [->|_].
  - change (String sep (join (String sep "") (w :: ws)) = String sep s). by rewrite IH.
  - destruct ws; cbn [join] in *; by rewrite <- IH.
Qed.
Lemma texts_of (cars : list Z) parts : Forall (λ p, p ∈ map z_str cars) parts → ∃ cs, parts = map z_str cs ∧ Forall (λ c, c ∈ cars) cs.
Proof.
  induction 1 as [|p parts Hp _ (cs & -> & Hcs)]; [by exists []|]. apply list_elem_of_fmap in Hp as (c & -> & Hc).
  exists (c :: cs). split; [done|]. by constructor.
Qed.
(** A key of three distinct cars is the key of a row of the table. *)
Lemma key_in_table n cars key : cars ≡ₚ riders n → length (split_on "-" key) = 3%nat →
  NoDup (split_on "-" key) → Forall (λ p, p ∈ map z_str cars) (split_on "-" key) → key ∈ map fst (table n).
Proof.
  intros Hcars Hlen Hn Hin. destruct (texts_of _ _ Hin) as (cs & E & Hcs). rewrite E in Hn, Hlen.
  apply NoDup_fmap_1 in Hn. rewrite length_map in Hlen.
  apply list_elem_of_fmap. exists (key, cs). split; [done|]. apply list_elem_of_fmap. exists cs. split.
  - rewrite <- E. f_equal. symmetry. apply (join_split "-").
  - apply permutations_spec. split; [done|]. apply NoDup_submseteq; [done|]. intros c Hc.
    rewrite <- Hcars. rewrite list.Forall_forall in Hcs. auto.
Qed.

(** ** The odds kept *)
Lemma dict_set_keys k v d : keys (dict_set k v d) = if dict_has k d then keys d else keys d ++ [k].
Proof.
  unfold dict_has, keys. induction d as [|[k' v'] d IH]; cbn; [done|]. destruct (String.eqb_spec k' k) as [->|]; [done|].
  cbn. rewrite IH. by destruct (dict_get k d).
Qed.
Lemma dict_has_keys k d : dict_has k d = true ↔ k ∈ keys d.
Proof.
  unfold dict_has. split.
  - intros E. apply dec_stable. intros Hn. by rewrite dict_get_not_in in E.
  - intros [v ->]%dict_get_in. done.
Qed.
Definition clean (n : Z) (odds : pydict) : Prop :=
  NoDup (keys odds) ∧ (∀ k, k ∈ keys odds → k ∈ map fst (table n)) ∧ ∀ k v, dict_get k odds = Some v → v ≠ VNone.
Lemma clean_set n key f odds : clean n odds → key ∈ map fst (table n) → clean n (dict_set key (VFloat f) odds).
Proof.
  intros (Hn & Hk & Hv) Hkey. split_and!.
  - rewrite dict_set_keys. destruct (dict_has key odds) eqn:E; [done|]. apply list.NoDup_app. split_and!; [done| |by apply NoDup_singleton].
    intros k Hin ->%list_elem_of_singleton. apply dict_has_keys in Hin. congruence.
  - intros k. rewrite dict_set_keys. destruct (dict_has key odds); [auto|].
    intros [?| ->%list_elem_of_singleton]%elem_of_app; auto.
  - intros k v. rewrite dict_get_set. destruct (String.eqb key k); [by intros [= <-]|eauto].
Qed.

Section inference.
Context `{Readers}.
Lemma clean_entry_ok n cars marked acc kv acc' : (∃ cs, cars = map z_str cs ∧ cs ≡ₚ riders n) →
  clean_entry cars marked acc kv = Ok acc' → clean n acc.1 → clean n acc'.1.
Proof.
  intros (cs & -> & Hcs) Hrun Hc. destruct kv as [key v]. unfold clean_entry in Hrun. cbv zeta in Hrun.
  destruct (_ || _ || _) eqn:E in Hrun; [by injection Hrun as <-|].
  apply orb_false_iff in E as [[E1 E2]%orb_false_iff E3]. apply negb_false_iff in E1, E2, E3.
  apply Nat.eqb_eq in E1, E2.
  assert (key ∈ map fst (table n)) as Hkey.
  { apply (key_in_table n cs); [done|done|apply remove_dups_full; congruence|].
    apply list.Forall_forall. intros p Hp. rewrite forallb_forall in E3. apply list_elem_of_In, E3 in Hp.
    by apply bool_decide_eq_true in Hp. }
  assert (∀ r : result (pydict * list string), r = Ok acc' →
    (r = Ok acc ∨ (∃ e, r = Err e) ∨ (∃ l, r = Ok (acc.1, l)) ∨ ∃ f, r = Ok (dict_set key (VFloat f) acc.1, acc.2)) →
    clean n acc'.1) as Hcases.
  { intros r -> [[= ->]|[[e [=]]|[[l [= ->]]|[f [= ->]]]]]; [done|done|]. by apply clean_set. }
  refine (Hcases _ Hrun _).
  assert (∀ r, (∃ e, py_float v = Err e ∧ r = (if isinstance e TypeError || isinstance e ValueError then Ok acc else Err e)) ∨
     (∃ value, py_float v = Ok value ∧ r = (if negb (float_is_finite value) || SFleb value float_zero then Ok acc
          else if marked && SFeqb value no_ticket then Ok (acc.1, acc.2 ++ [key])
          else Ok (dict_set key (VFloat value) acc.1, acc.2))) →
    r = Ok acc ∨ (∃ e, r = Err e) ∨ (∃ l, r = Ok (acc.1, l)) ∨ ∃ f, r = Ok (dict_set key (VFloat f) acc.1, acc.2)) as Hread.
  { intros r [(e & _ & ->)|(value & _ & ->)]; repeat case_match; eauto. }
  destruct v; try (by left); apply Hread; destruct (py_float _); eauto.
Qed.
Lemma car_texts players cars cs : mapR car_text players = Ok cars → Forall2 has_car players cs → cars = map z_str cs.
Proof.
  intros Hrun%mapR_Ok Hc. revert cars Hrun. induction Hc as [|p c players cs (d & -> & Hd) _ IH]; intros cars Hrun.
  { by inversion Hrun. }
  inversion Hrun as [|? t ? ts Ht Hts]; subst. unfold car_text in Ht. inv_reads. cbn [field] in *.
  match goal with H : int_value _ = Ok _ |- _ => rewrite Hd in H; injection H as <- end. cbn. f_equal. by apply IH.
Qed.
Lemma entries_clean n cars marked raw acc acc' : (∃ cs, cars = map z_str cs ∧ cs ≡ₚ riders n) →
  foldR (clean_entry cars marked) acc raw = Ok acc' → clean n acc.1 → clean n acc'.1.
Proof.
  intros Hcars. revert acc. induction raw as [|kv raw IH]; intros acc; cbn; [by intros [= <-]|].
  intros (acc1 & Hstep & Hrun)%bind_Ok Hc. eapply IH; [exact Hrun|]. by eapply clean_entry_ok.
Qed.
Lemma clean_nil n : clean n [].
Proof. split_and!; [constructor|by intros k ?%not_elem_of_nil|done]. Qed.
Lemma sanitize_ok race_data n players odds : race_ok race_data n players → sanitize_prediction_odds race_data = Ok odds →
  clean n odds.1 ∧ getitem (VDict odds.2) "known_odds_count" = Ok (VInt (Z.of_nat (length odds.1))).
Proof.
  intros [(d & -> & Hp & _) _ (cs & Hcs & Hperm)] Hrun. unfold sanitize_prediction_odds in Hrun. cbv zeta in Hrun. inv_result.
  destruct (py_or _ _) as [| | | | | | |raw]; try (injection Hrun as <-; by split; [apply clean_nil|]). inv_result.
  match goal with Hg : py_get _ _ = Ok _ |- _ => cbn [py_get] in Hg; injection Hg as <- end.
  assert (dict_get "players" d = Some (VList players)) as Ed.
  { unfold get_or_none in Hp. destruct (dict_get "players" d); cbn in Hp; congruence. }
  match goal with Hi : iter_text _ = Ok _ |- _ => rewrite Ed in Hi; cbn in Hi; injection Hi as <- end.
  match goal with H : mapR car_text _ = Ok _ |- _ => apply (car_texts _ _ cs) in H; [subst|done] end.
  split; [|done]. eapply entries_clean; [|eassumption|apply clean_nil]. eauto.
Qed.
End inference.

(** ** The rows of the table *)
Lemma number_finite b v : _number b v = Ok true → all_finite v = true.
Proof. destruct v; cbn; try done. by intros [= [? _]%andb_true_iff]. Qed.
Lemma check_row_reads n acc row acc' : check_row n acc (VDict row) = Ok acc' →
  combo_key row ∈ map fst (table n) ∧ all_finite (get_or_none "estimated_probability" row) = true ∧
  all_finite (get_or_none "odds" row) = true ∧ known acc' = known acc + of_bool (odds_known row).
Proof.
  unfold check_row. cbv zeta. intros Hrun. inv_result.
  match goal with Hr : (let '(_, _) := ?x in _) = Ok _ |- _ => destruct x as [key cb] end. inv_result.
  match goal with Hr : context [dict_get "combo" row] |- _ => clear Hr end.
  assert (combo_key row ∈ map fst (table n)) as Hkey.
  { unfold combo_key. destruct (get_or_none "combo_key" row); try done.
    destruct (combo_of n s) as [c|] eqn:Ec; [|done]. unfold combo_of in Ec.
    destruct (find _ (table n)) as [kc|] eqn:Ef; [|done]. apply find_some in Ef as [Hin E%String.eqb_eq].
    apply list_elem_of_fmap. exists kc. split; [done|]. by apply list_elem_of_In. }
  subst. split; [done|split; [by eapply number_finite|split; [|done]]].
  destruct (is_none (get_or_none "odds" row)) eqn:Eo; [by destruct (get_or_none "odds" row)|]. inv_result.
  subst. by eapply number_finite.
Qed.
(** What a validated table knows: the odds of its keys. *)
Lemma rows_read n odds table' : ∀ acc acc', foldR (check_row n) acc (map (score_value odds) table') = Ok acc' →
  known acc' = known acc + Z.of_nat (length (List.filter (λ k, negb (is_none (get_or_none k odds))) (map trow_key table'))) ∧
  Forall (λ row, trow_key row ∈ map fst (table n) ∧ float_is_finite (estimated_probability row) = true
                 ∧ all_finite (get_or_none (trow_key row) odds) = true) table'.
Proof.
  induction table' as [|row table' IH]; intros acc acc'; cbn [map foldR].
  { intros [= <-]. split; [cbn; lia|constructor]. }
  intros (acc1 & Hstep & (Hk & Hf)%IH)%bind_Ok. apply check_row_reads in Hstep as (Hkey & Hp & Ho & Hk1).
  split; [|by constructor]. rewrite Hk, Hk1. cbn [List.filter].
  change (get_or_none "odds" _) with (get_or_none (trow_key row) odds) in *.
  unfold odds_known. change (get_or_none "odds" _) with (get_or_none (trow_key row) odds).
  destruct (is_none _); cbn; lia.
Qed.
(** Clean odds are those the rows of a complete table name. *)
Lemma clean_count n odds ks : clean n odds → NoDup ks → (∀ k, k ∈ ks → k ∈ map fst (table n)) → length ks = length (table n) →
  length (List.filter (λ k, negb (is_none (get_or_none k odds))) ks) = length odds.
Proof.
  intros (Hn & Hin & Hv) Hks Hsub Hlen.
  assert (ks ≡ₚ map fst (table n)) as Hperm.
  { apply submseteq_length_Permutation; [by apply NoDup_submseteq|by rewrite length_map, Hlen]. }
  trans (length (keys odds)); [|by unfold keys; rewrite length_map]. apply Permutation_length.
  apply NoDup_Permutation; [|done|].
  - eapply sublist_NoDup; [exact Hks|apply filter_sublist].
  - intros k. rewrite list_elem_of_In, filter_In, <- list_elem_of_In, Hperm. unfold get_or_none. split.
    + intros [_ Hk]. apply dec_stable. intros Hnot. by rewrite dict_get_not_in in Hk.
    + intros Hk. split; [auto|]. destruct (dict_get_in _ _ Hk) as [v Ev]. rewrite Ev. specialize (Hv _ _ Ev). by destruct v.
Qed.
Lemma scores_known odds table' rider_count k : validate_model_scores (VList (map (score_value odds) table')) rider_count = Ok k →
  ∃ n, rider_count = VInt n ∧ (n = 7 ∨ n = 9) ∧
    Forall (λ row, float_is_finite (estimated_probability row) = true ∧ all_finite (get_or_none (trow_key row) odds) = true) table' ∧
    (clean n odds → k = Z.of_nat (length odds)).
Proof.
  unfold validate_model_scores. intros (n & Hn & Hrun)%bind_Ok. cbv zeta in Hrun. inv_result.
  assert (rider_count = VInt n ∧ (n = 7 ∨ n = 9)) as [-> Hn'] by (repeat case_match; naive_solver).
  match goal with Hr : foldR _ _ _ = Ok _ |- _ => pose proof (check_rows_ok _ _ _ _ Hr) as [Hdup _]; apply rows_read in Hr as [Hk Hf] end.
  exists n. split_and!; [done|done|by eapply list.Forall_impl; [exact Hf|]; intros row (_ & ?)|].
  intros Hc. rewrite Hk. cbn [known]. rewrite Z.add_0_l. f_equal.
  match goal with Hl : (_ =? _)%nat = true |- _ => apply Nat.eqb_eq in Hl; rename Hl into Hlen end. rewrite length_map in Hlen.
  apply (clean_count n); [done| | |by rewrite length_map].
  - assert (omap row_of (map (score_value odds) table') = map (λ row, match score_value odds row with VDict d => d | _ => [] end) table') as E.
    { clear. induction table' as [|row table' IH]; cbn; [done|]. by rewrite IH. }
    rewrite E, map_map in Hdup. exact Hdup.
  - intros key (row & -> & Hrow)%list_elem_of_fmap. rewrite list.Forall_forall in Hf. by apply Hf.
Qed.

(** ** A selection has finite numbers when its table has *)
Definition finite_row (row : pydict) : Prop := all_finite (VDict row) = true.
Lemma finite_set k v d : finite_row d → all_finite v = true → finite_row (dict_set k v d).
Proof.
  unfold finite_row. cbn. intros Hd Hv. induction d as [|[k' v'] d IH]; cbn in *; [by rewrite Hv|].
  apply andb_true_iff in Hd as [? ?]. destruct (String.eqb k' k); cbn; apply andb_true_iff; auto.
Qed.
Lemma finite_update e : ∀ d, finite_row d → finite_row e → finite_row (dict_update d e).
Proof.
  unfold finite_row, dict_update. induction e as [|[k v] e IH]; intros d Hd; cbn; [done|].
  intros [Hv He]%andb_true_iff. apply IH; [by apply finite_set|done].
Qed.
Lemma finite_category k c : Forall finite_row (picks c) → all_finite (category_value k c) = true.
Proof.
  intros Hp. unfold category_value. cbv zeta. cbn [all_finite forallb snd].
  assert (forallb all_finite (imap (pick_value (chosen_rule c)) (picks c)) = true) as ->.
  { apply forallb_forall. intros v Hv%list_elem_of_In. apply elem_of_lookup_imap in Hv as (i & row & -> & Hrow).
    apply finite_update; [|by vm_compute]. rewrite list.Forall_forall in Hp. apply Hp. by eapply list_elem_of_lookup_2. }
  unfold category_note. by repeat case_match.
Qed.
Lemma selection_finite scores count sel : select_model_categories scores count = Ok sel →
  Forall finite_row (table_rows scores) → finite_row sel.2.
Proof.
  intros Hrun Hrows. unfold select_model_categories in Hrun. inv_result.
  match goal with Hv : validate_model_scores _ _ = Ok _ |- _ => apply validated_keys in Hv as Hn end.
  pose proof (select_rows_ok _ Hn) as Hsel. destruct (select_rows _) as [used cats]. destruct Hsel as [(_ & _ & Hb) _].
  injection Hrun as <-. cbn [snd]. unfold finite_row. cbn [all_finite forallb snd].
  assert (∀ l : list chosen, forallb all_finite (map (λ c, VStr (category (chosen_rule c))) l) = true) as ->.
  { induction l; by cbn. }
  rewrite !andb_true_r. apply forallb_forall. intros kv Hkv%list_elem_of_In. apply list_elem_of_fmap in Hkv as (c & -> & Hc).
  apply list_elem_of_split in Hc as (before & after & E). specialize (Hb _ _ _ E) as (_ & _ & Hpick & _).
  apply finite_category. apply list.Forall_forall. intros row Hrow. apply Hpick in Hrow as [Hrow _].
  rewrite list.Forall_forall in Hrows. auto.
Qed.

(** ** The adapter *)
Lemma insert_table_row_perm x l : insert_row x l ≡ₚ x :: l.
Proof. induction l as [|y l IH]; cbn; [done|]. destruct (row_before y x); [|done]. rewrite IH. apply Permutation_swap. Qed.
Lemma sort_rows_perm l : sort_rows l ≡ₚ l.
Proof.
  unfold sort_rows. rewrite <- (app_nil_r l) at 2. generalize (@nil trow) as acc.
  induction l as [|x l IH]; intros acc; cbn; [done|]. rewrite IH, insert_table_row_perm. by rewrite Permutation_middle.
Qed.
Lemma insert_car_perm x l : insert_car x l ≡ₚ x :: l.
Proof. induction l as [|y l IH]; cbn; [done|]. destruct (car_before y x); [|done]. rewrite IH. apply Permutation_swap. Qed.
Lemma ranked_cars_perm l : ranked_cars l ≡ₚ l.
Proof.
  unfold ranked_cars. rewrite <- (app_nil_r l) at 2. generalize (@nil (Z * spec_float)) as acc.
  induction l as [|x l IH]; intros acc; cbn; [done|]. rewrite IH, insert_car_perm. by rewrite Permutation_middle.
Qed.
Lemma quotient_finite a b : float_is_finite b = true → float_is_finite (float_div a b) = true → float_is_finite a = true.
Proof. by destruct a, b. Qed.
Definition probabilities (d : distribution) : Prop := Forall (λ cp, is_probability cp.2 = true) d.
Lemma clean_probabilities_ok d riders label p : _clean_probabilities d riders label = Ok p → probabilities d.
Proof.
  unfold _clean_probabilities, probabilities. intros (_ & _ & Hrun%mapR_Ok)%bind_Ok.
  induction Hrun as [|cp ? d ? Hcp _ IH]; constructor; [|done]. inv_result. done.
Qed.
Lemma combine_ok d1 d2 d3 table' : combine_position_probabilities d1 d2 d3 = Ok table' →
  probabilities d1 ∧ probabilities d2 ∧ probabilities d3 ∧
  Forall (λ row, float_is_finite (estimated_probability row) = true → float_is_finite (model_score row) = true) table'.
Proof.
  unfold combine_position_probabilities. cbv zeta. intros Hrun. inv_result.
  split_and!; try by eapply clean_probabilities_ok.
  rewrite sort_rows_perm. apply list.Forall_forall. intros row (cs & -> & _)%list_elem_of_fmap. by apply quotient_finite.
Qed.

(** ** The rankings *)
Lemma imap_shift {A B} (f : nat → A → B) i x l : imap (λ j, f (i + j)%nat) (x :: l) = f i x :: imap (λ j, f (S i + j)%nat) l.
Proof. cbn. rewrite Nat.add_0_r. f_equal. apply imap_ext. intros j y _. cbn. f_equal. lia. Qed.
Lemma ranking_step n cars m i c p : 1 ≤ c ≤ n → c ∉ cars → is_probability p = true →
  ranking_row n (cars, m, Z.of_nat i + 1) (ranking_entry i (c, p)) = Ok ({[c]} ∪ cars, float_add m p, Z.of_nat i + 1 + 1).
Proof.
  intros Hc Hnew Hp. unfold ranking_row, ranking_entry. cbv zeta. cbn [fst snd].
  change (get_or_none "car_number" _) with (VInt c). change (get_or_none "rank" _) with (VInt (Z.of_nat i + 1)).
  change (get_or_none "estimated_probability" _) with (VFloat p). cbv match.
  rewrite (proj2 (Z.leb_le _ _)), (proj2 (Z.leb_le _ _)), (bool_decide_false _ Hnew), Z.eqb_refl by lia. cbn [_number negb andb orb reject_if mbind result_bind].
  unfold is_probability in Hp. by rewrite Hp.
Qed.
Lemma ranking_rows n l : ∀ i cars m, NoDup (map fst l) → Forall (λ c, 1 ≤ c ≤ n ∧ c ∉ cars) (map fst l) → probabilities l →
  ∃ acc, foldR (ranking_row n) (cars, m, Z.of_nat i + 1) (imap (λ j, ranking_entry (i + j)) l) = Ok acc.
Proof.
  induction l as [|[c p] l IH]; intros i cars m Hn Hc Hp; [by eexists|].
  rewrite imap_shift. cbn [foldR]. cbn [map fst] in Hn, Hc. apply list.NoDup_cons in Hn as [Hnot Hn].
  apply list.Forall_cons in Hc as [[Hb Hnew] Hc]. apply list.Forall_cons in Hp as [Hp0 Hp].
  rewrite ranking_step by done. cbn [mbind result_bind].
  destruct (IH (S i) ({[c]} ∪ cars) (float_add m p) Hn) as [acc Hacc]; [|done|].
  { apply list.Forall_forall. rewrite list.Forall_forall in Hc. intros c' Hin. destruct (Hc c' Hin). split; [done|]. set_solver. }
  exists acc. rewrite <- Hacc. do 2 f_equal. lia.
Qed.
(** Success, or the refusal of the mass of a position. *)
Definition mass_refused (r : result unit) : Prop := r = Ok tt ∨ r = raise ValueError "position probability mass must equal one".
Lemma check_ranking_ok n position ds : position ∈ POSITIONS → map fst (distribution_at ds position) ≡ₚ riders n →
  probabilities (distribution_at ds position) → 0 ≤ n → mass_refused (check_ranking n (_rank_positions ds) position).
Proof.
  intros Hpos Hcars Hp Hn. unfold check_ranking.
  assert (get_or_none position (_rank_positions ds) = VList (imap ranking_entry (ranked_cars (distribution_at ds position)))) as ->.
  { unfold POSITIONS in Hpos. rewrite !elem_of_cons in Hpos. destruct Hpos as [->|[->|[->|[]%elem_of_nil]]]; done. }
  pose proof (ranked_cars_perm (distribution_at ds position)) as Hperm. set (l := ranked_cars _) in *.
  rewrite length_imap. rewrite <- Hperm in Hcars.
  assert (Z.of_nat (length l) = n) as ->.
  { rewrite <- (length_map fst l), Hcars. unfold riders. rewrite length_map, length_seq. lia. }
  rewrite Z.eqb_refl. cbn [negb reject_if mbind result_bind].
  destruct (ranking_rows n l 0 ∅ (S754_zero false)) as [acc Hacc].
  - rewrite Hcars. apply riders_NoDup.
  - rewrite Hcars. apply list.Forall_forall. intros c Hc%riders_elem. split; [done|set_solver].
  - unfold probabilities. by rewrite Hperm.
  - change (imap ranking_entry l) with (imap (λ j, ranking_entry (0 + j)) l). change 1 with (Z.of_nat 0 + 1). rewrite Hacc.
    cbn [mbind result_bind]. destruct (mass_is_off _); [by right|by left].
Qed.
Lemma check_rankings_ok n ds : 0 ≤ n → (∀ position, position ∈ POSITIONS →
    map fst (distribution_at ds position) ≡ₚ riders n ∧ probabilities (distribution_at ds position)) →
  mass_refused (check_rankings n (_rank_positions ds) POSITIONS).
Proof.
  intros Hn Hds. assert (∀ ps, (∀ p, p ∈ ps → p ∈ POSITIONS) → mass_refused (check_rankings n (_rank_positions ds) ps)) as Hall; [|by apply Hall].
  induction ps as [|p ps IH]; intros Hps; cbn [check_rankings]; [by left|].
  destruct (Hds p) as [Hc Hp]; [apply Hps; left|]. destruct (check_ranking_ok n p ds) as [-> | ->]; [apply Hps; left|done..| |by right].
  apply IH. intros p' Hp'. apply Hps. by right.
Qed.

(** ** The distributions *)
Lemma set_cars_zip l : ∀ acc, NoDup (map fst (acc ++ l)) → foldl set_car acc l = acc ++ l.
Proof.
  induction l as [|[c p] l IH]; intros acc Hn; cbn [foldl]; [by rewrite app_nil_r|].
  assert (set_car acc (c, p) = acc ++ [(c, p)]) as ->.
  { unfold set_car. destruct (existsb _ acc) eqn:E; [|done]. exfalso. apply existsb_exists in E as (x & Hx & Ex%Z.eqb_eq).
    rewrite map_app in Hn. apply list.NoDup_app in Hn as (_ & Hd & _). apply (Hd c); [|cbn; left].
    apply list_elem_of_fmap. exists x. split; [done|]. by apply list_elem_of_In. }
  rewrite IH; rewrite <- (assoc_L (++)); done.
Qed.
Section distributions.
Context `{Readers, Numpy} (predict : string → list (list spec_float) → result (list spec_float)).
Lemma distribution_cars x cars position d : NoDup cars → position_distribution predict x cars position = Ok d → map fst d = cars.
Proof.
  intros Hn Hrun. unfold position_distribution in Hrun. inv_result.
  match goal with Hl : (_ =? _)%nat = true |- _ => apply Nat.eqb_eq in Hl; rename Hl into Hlen end.
  assert (map fst (zip cars a0) = cars) as E by (apply fst_zip; lia). rewrite set_cars_zip; cbn [app]; by rewrite ?E.
Qed.
Lemma distributions_cars rows ds : _position_distributions predict rows = Ok ds → ∃ cars, mapR row_car rows = Ok cars ∧
  (NoDup cars → ∀ position, position ∈ POSITIONS → map fst (distribution_at ds position) = cars).
Proof.
  intros Hrun. unfold _position_distributions in Hrun. inv_result. exists a0. split; [done|]. intros Hn position Hpos.
  cbn [mapR POSITIONS] in Hrun. inv_result. unfold POSITIONS in Hpos. rewrite !elem_of_cons in Hpos.
  destruct Hpos as [->|[->|[->|[]%elem_of_nil]]]; cbn; by eapply distribution_cars.
Qed.
End distributions.
Lemma player_cars `{Readers} race_data n players rows cars : race_ok race_data n players →
  mapR extract_player_model_fields (by_car players) = Ok rows → mapR row_car rows = Ok cars →
  cars ≡ₚ riders n ∧ Z.of_nat (length rows) = n.
Proof.
  intros [_ Hcount (cs & Hcs & Hperm)] Hrows Hcars.
  assert (cs = map car_of players) as ->.
  { clear -Hcs. induction Hcs as [|p c players cs (d & -> & Hd) _ IH]; cbn; [done|]. by rewrite Hd, IH. }
  assert (Forall (λ p, has_car p (car_of p)) (by_car players)) as Hall.
  { unfold by_car. rewrite (sorted_by_perm car_of players). clear -Hcs. apply list.Forall_forall. intros p Hp.
    apply list_elem_of_lookup in Hp as [i Hi]. destruct (Forall2_lookup_l _ _ _ _ _ Hcs Hi) as (c & Hc & Hh).
    rewrite list_lookup_fmap, Hi in Hc. by injection Hc as <-. }
  assert (cars = map car_of (by_car players)) as ->.
  { apply mapR_Ok in Hrows, Hcars. revert cars Hcars. induction Hrows as [|p row ps rows Hrow _ IH]; intros cars Hcars.
    { by inversion Hcars. }
    inversion Hcars as [|? c ? cs' Hc Hcs']; subst. apply list.Forall_cons in Hall as [(d & -> & Hd) Hall]. cbn [map].
    f_equal; [|by apply IH].
    destruct (fields_shape _ _ Hrow) as (_ & x & car & Hx & Hcar & Hget). unfold row_car in Hc. cbn [getitem] in Hc. rewrite Hget in Hc.
    apply getitem_Ok in Hx as [-> _]. cbn [field] in Hcar. rewrite Hd in Hcar. injection Hc as <-. by injection Hcar as <-. }
  assert (map car_of (by_car players) ≡ₚ riders n) as Hr by (unfold by_car; by rewrite sorted_by_perm). split; [done|].
  apply mapR_length in Hrows. apply Permutation_length in Hr. unfold riders in Hr. rewrite !length_map, length_seq in Hr. lia.
Qed.

(** ** The contract, read from its fields *)
Lemma preview_accepts d quality n l k sel rankings :
  get_or_none "success" d = VBool true → declared_conditions d = Ok tt →
  forallb (λ kv, is_text (get_or_none kv.1 d) kv.2) EXPECTED = true → require_disabled d DISABLED = Ok tt →
  get_or_none "input_quality" d = VDict quality → get_or_none "rider_count" quality = VInt n → n = 7 ∨ n = 9 →
  get_or_none "trifecta_scores" d = VList l → validate_model_scores (VList l) (VInt n) = Ok k →
  get_or_none "possible_trifecta_count" quality = VInt (Z.of_nat (length l)) →
  get_or_none "known_trifecta_odds_count" quality = VInt k →
  dict_get "selected_predictions" d = Some (VDict sel.2) → select_model_categories (VList l) (VInt n) = Ok sel → finite_row sel.2 →
  get_or_none "position_rankings" d = VDict rankings → mass_refused (check_rankings n rankings POSITIONS) →
  mass_refused (validate_preview (VDict d)).
Proof.
  intros Hs Hd He Hdis Hq Hc Hn Hl Hk Hp Hkn Hsel Hrun Hfin Hr Hm. unfold validate_preview. cbv zeta.
  rewrite Hs, Hd, He, Hdis, Hq, Hc, Hl. cbn [negb is_true reject_if mbind result_bind].
  assert (match n with 7 => Ok 7 | 9 => Ok 9 | _ => raise ValueError "standard seven or nine riders required" end = Ok n) as ->
    by (by destruct Hn as [-> | ->]).
  cbn [mbind result_bind]. rewrite Hk. cbn [mbind result_bind]. rewrite Hp, Hkn. cbn [Preview.is_count]. rewrite !Z.eqb_refl.
  cbn [negb orb reject_if mbind result_bind]. unfold check_selection. rewrite Hsel, Hrun. cbn [mbind result_bind].
  unfold canonical, finite_row in *. rewrite Hfin. cbn [mbind result_bind]. rewrite String.eqb_refl.
  cbn [negb reject_if mbind result_bind]. by rewrite Hr.
Qed.
Lemma score_rows_finite odds table' : Forall (λ row, float_is_finite (estimated_probability row) = true → float_is_finite (model_score row) = true) table' →
  Forall (λ row, float_is_finite (estimated_probability row) = true ∧ all_finite (get_or_none (trow_key row) odds) = true) table' →
  Forall finite_row (table_rows (VList (map (score_value odds) table'))).
Proof.
  intros Hscore Hrest. induction table' as [|row table' IH]; cbn; [constructor|].
  apply list.Forall_cons in Hscore as [Hs Hscore], Hrest as [[Hp Ho] Hrest]. constructor; [|by apply IH].
  unfold finite_row. cbn [all_finite forallb snd]. rewrite Hp, Ho, (Hs Hp). rewrite !andb_true_r.
  induction (combo row); [done|by cbn].
Qed.

Section prediction.
Context `{Readers, Numpy} (predict : string → list (list spec_float) → result (list spec_float)).
(** C29: a prediction that inference returns satisfies the contract of a prediction that
    may be displayed, whatever the models, the odds of the race and the host's functions
    on numbers: it is displayed, unless the probabilities of a position miss mass one by
    more than 1e-6, which inference itself does not check. *)
Theorem prediction_displayable now race_data files r : predict_race predict now race_data files = Ok r →
  validate_preview (VDict r) = Ok tt ∨
  validate_preview (VDict r) = raise ValueError "position probability mass must equal one".
Proof.
  intros Hrun. unfold predict_race in Hrun. cbv zeta in Hrun. inv_result.
  subst. match goal with He : validate_race_data _ = Ok [] |- _ => apply race_data_ok in He as (n & players & Hrace) end.
  pose proof Hrace as [(d & -> & Hplayers & Hconds) Hcount _].
  match goal with Hp : getitem (VDict d) "players" = Ok _ |- _ => apply getitem_Ok in Hp as [-> _]; cbn [field] in *; rewrite Hplayers in * end.
  match goal with Hi : iter_text _ = Ok _ |- _ => injection Hi as <- end.
  match goal with Hd : _position_distributions _ _ = Ok _ |- _ => destruct (distributions_cars _ _ _ Hd) as (cars & Hcars & Hds) end.
  match goal with Hx : mapR extract_player_model_fields _ = Ok _ |- _ => destruct (player_cars _ _ _ _ _ Hrace Hx Hcars) as [Hperm Hlen] end. subst n.
  match goal with Hx : combine_position_probabilities _ _ _ = Ok _ |- _ => destruct (combine_ok _ _ _ _ Hx) as (Hp1 & Hp2 & Hp3 & Hscore) end.
  match goal with Hx : sanitize_prediction_odds _ = Ok _ |- _ => destruct (sanitize_ok _ _ _ _ Hrace Hx) as [Hclean Hknown] end.
  rewrite Hknown in *. inv_result.
  match goal with Hx : select_model_categories _ _ = Ok _ |- _ => pose proof Hx as Hsel; apply bind_Ok in Hx as (k & Hvalid & _) end.
  destruct (scores_known _ _ _ _ Hvalid) as (n' & [= <-] & _ & Hfin & Hk). specialize (Hk Hclean). subst k.
  assert (∀ position, position ∈ Inference.POSITIONS →
    map fst (distribution_at a5 position) ≡ₚ riders (Z.of_nat (length a4)) ∧ probabilities (distribution_at a5 position)) as Hpos.
  { intros position Hin. split.
    - rewrite Hds by (done || by rewrite Hperm; apply riders_NoDup). done.
    - unfold Inference.POSITIONS in Hin. rewrite !elem_of_cons in Hin. by destruct Hin as [->|[->|[->|[]%elem_of_nil]]]. }
  assert (finite_row a14.2) as Hfinite by (eapply selection_finite; [exact Hsel|by apply score_rows_finite]).
  match goal with Hx : py_get (VDict d) "race_conditions" = Ok _ |- _ => injection Hx as Hx; rewrite <- Hx; clear Hx end.
  unfold declared_conditions in Hconds. destruct (dict_get "race_conditions" d) as [c|].
  all: eapply preview_accepts; [reflexivity|first [exact Hconds|reflexivity]|reflexivity..|exact Hcount|reflexivity|exact Hvalid
    |cbn; by rewrite length_map|reflexivity|reflexivity|exact Hsel|exact Hfinite|reflexivity|apply check_rankings_ok; [lia|done]].
Qed.
End prediction.

(** ** Seven riders of a race whose odds mark what nobody bought *)
(** Boosters that answer the score of the rider, and powers of two for [exp]. *)
#[local] Instance plain_numpy : Numpy := {|
  np_max l := foldl (λ a b, if SFltb a b then b else a) (default float_zero (head l)) l;
  np_exp f := S754_finite false 4503599627370496 (-52 + float_trunc f);
  np_sum := float_sum |}.
Definition by_score (position : string) (rows : list (list spec_float)) : result (list spec_float) :=
  Ok (map (λ row, default float_zero (head row)) rows).
Definition example_player (car : Z) : pyval :=
  VDict [("car_number", VInt car); ("style", VStr "逃"); ("race_score", VInt (car * 3 mod 7))].
Definition example_race : pyval :=
  VDict [("race", VDict [("venue", VStr "川崎")]); ("players", VList (map example_player [3; 1; 2; 7; 6; 5; 4]));
         ("race_conditions", VDict [("race_status", VStr "scheduled"); ("withdrawn_car_numbers", VList [])]);
         ("prediction_context", VDict [("source", VStr "K-Dreams")]);
         ("odds", VDict [("trifecta", VDict [("1-2-3", VInt 12); ("1-2-9", VInt 3); ("2-2-3", VInt 8); ("4-2-7", VFloat no_ticket);
                                             ("7-6-5", VStr "none"); ("2-4-6", VInt 150)])])].
Definition example_files : model_files :=
  ModelFiles (Some (VDict [("model_version", VStr MODEL_VERSION); ("feature_columns", feature_list)]))
    (Some (VDict [("model_version", VStr MODEL_VERSION); ("feature_columns", feature_list);
                  ("status", VStr "trained_offline_validation_only"); ("production_enabled", VBool false);
                  ("probability_calibration_status", VStr "uncalibrated")]))
    (λ _, Some FEATURE_COLUMNS) "0a1b".
Definition example_prediction : result pydict :=
  @predict_race decimal_readers plain_numpy by_score "2026-01-01T00:00:00+00:00" example_race example_files.
Definition first_row (v : pyval) : pyval := match v with VList (x :: _) => x | _ => VNone end.
(** The best combination, the one ignored, the number of known odds, and the contract. *)
Definition predicts (r : pydict) : bool :=
  is_text (field "combo_key" (first_row (get_or_none "trifecta_scores" r))) "2-4-6"
  && py_eqb (field "ignored_combos" (get_or_none "odds_sanitization" r)) (VList [VStr "4-2-7"])
  && py_eqb (field "known_trifecta_odds_count" (get_or_none "input_quality" r)) (VInt 2)
  && is_ok (validate_preview (VDict r)).
Example example_predicts : match example_prediction with Ok r => predicts r | Err _ => false end = true.
Proof. vm_compute. reflexivity. Qed.
Lemma returned {A} (r : result A) : is_ok r = true → ∃ a, r = Ok a.
Proof. destruct r; [by eexists|done]. Qed.
Lemma example_returns : is_ok example_prediction = true.
Proof. pose proof example_predicts as E. by destruct example_prediction. Qed.
Lemma prediction_displayable_witness : ∃ r, example_prediction = Ok r ∧
  (validate_preview (VDict r) = Ok tt ∨ validate_preview (VDict r) = raise ValueError "position probability mass must equal one").
Proof.
  destruct (returned _ example_returns) as [r Er]. exists r. split; [exact Er|]. unfold example_prediction in Er.
  exact (@prediction_displayable decimal_readers plain_numpy by_score _ example_race example_files r Er).
Defined.
