(* ===== verification/Training.v ===== *)
(** ml/train_position_models.py: the races of a table of riders, their split, the three
    position models, their evaluation, and the model directory.

    [lgb.train] is an argument: with its fixed parameters it gets two sets of features,
    labels and groups, the training set and the validation set that stops the boosting
    early, and gives a booster.  The rows are those [csv.DictReader] gives, the
    directory's writes succeed, and the clock is a text. *)
From Stdlib Require Import Ascii SpecFloat.
From stdpp Require Import sorting.
From S2P Require Import Prelude PyString PyValue PyText PyFloat Itertools Rounding Dataset Inference.

Definition TARGET_COLUMNS : list string := ["target_first"; "target_second"; "target_third"].
Abbreviation race := (string * list pydict)%type.
Abbreviation booster := (list (list spec_float) → result (list spec_float)).
Record lgb_data := LgbData { data_x : list (list spec_float); data_y : list Z; data_groups : list Z }.

Definition load_rows (rows : list pydict) : result (list pydict) :=
  match rows with
  | [] => raise ValueError "training CSV is empty"
  | row :: _ =>
      let missing := List.filter (λ k, negb (dict_has k row))
        (["race_id"; "prediction_timestamp"; "car_number"; "style"] ++ TARGET_COLUMNS) in
      reject_if (negb (bool_decide (missing = []))) ValueError
        ("training CSV missing columns: " ++ join ", " (sorted missing));;
      Ok rows
  end.

(** [(str(rows[0].get("prediction_timestamp") or ""), race_id)], in the order of texts *)
Definition stamp_of (r : race) : string :=
  match r.2 with row :: _ => py_str (py_or (get_or_none "prediction_timestamp" row) (VStr "")) | [] => "" end.
Definition by_stamp (a b : race) : Prop :=
  if String.eqb (stamp_of a) (stamp_of b) then str_le a.1 b.1 = true else str_le (stamp_of a) (stamp_of b) = true.
#[export] Instance by_stamp_dec a b : Decision (by_stamp a b).
Proof. unfold by_stamp. destruct (String.eqb _ _); apply _. Defined.

Definition half : spec_float := S754_finite false 4503599627370496 (-53).
(** [round(f)] of a finite number, half to even *)
Definition py_round (f : spec_float) : Z :=
  match f with
  | S754_finite s m e =>
      let x := if 0 <=? e then Zpos m * 2 ^ e else div_half_even (Zpos m) (2 ^ (- e)) in if s then - x else x
  | _ => 0
  end.
Definition split_size (n : nat) (validation_fraction : spec_float) : result Z :=
  x ← float_of_Z (Z.of_nat n);
  let split := py_round (float_mul x (float_sub float_one validation_fraction)) in
  Ok (Z.max 2 (Z.min split (Z.of_nat n - 1))).

Section training.
Context `{Readers}.

(** [int(float(v))] *)
Definition int_float (v : pyval) : result Z := f ← py_float v; py_int (VFloat f).
Definition int_cell (k : string) (row : pydict) : result Z := v ← getitem (VDict row) k; int_float v.
Definition row_race (row : pydict) : result string :=
  let id := strip_text (py_str (py_or (get_or_none "race_id" row) (VStr ""))) in
  reject_if (negb (truthy_s id)) ValueError "race_id is required for every rider row";; Ok id.
Definition check_target (r : race) (target : string) : result unit :=
  ns ← mapR (int_cell target) r.2;
  reject_if (negb (foldr Z.add 0 ns =? 1)) ValueError
    ("race " ++ r.1 ++ " must have exactly one positive for " ++ target).
(** The body of the loop over the races. *)
Definition check_race (r : race) : result unit :=
  cars ← mapR (int_cell "car_number") r.2;
  reject_if ((length cars <? 4)%nat || negb (bool_decide (NoDup cars))) ValueError
    ("race " ++ r.1 ++ " has invalid or duplicate riders");;
  mapR (check_target r) TARGET_COLUMNS;; Ok tt.
Definition group_rows (ids : list string) (rows : list pydict) : list race :=
  map (λ g, (g.1, map snd g.2)) (group_on fst (zip ids rows)).
Definition grouped_races (rows : list pydict) : result (list race) :=
  ids ← mapR row_race rows;
  let races := merge_sort by_stamp (group_rows ids rows) in
  mapR check_race races;; Ok races.

(** [np.asarray(..., dtype=np.int32)] of one label *)
Definition int32_label (target : string) (row : pydict) : result Z :=
  n ← int_cell target row;
  reject_if (negb ((- 2 ^ 31 <=? n) && (n <? 2 ^ 31))) OverflowError "Python integer out of bounds for int32";; Ok n.
Definition _matrix (races : list race) (target : string) : result lgb_data :=
  let flat := concat (map snd races) in
  x ← mapR row_to_features flat;
  y ← mapR (int32_label target) flat;
  Ok (LgbData x y (map (λ r, Z.of_nat (length r.2)) races)).

(** [lgb.train] with the fixed parameters, of a training and a validation set *)
Context (lgb_train : lgb_data → lgb_data → result booster).
Definition _train_one (train_races valid_races : list race) (target : string) : result booster :=
  x ← _matrix train_races target; y ← _matrix valid_races target; lgb_train x y.

(** ** Evaluation *)
Record position_metric := PositionMetric { actual_car : Z; position_rank : Z }.
(** [next(car for r in rows if int(float(r[target])) == 1)] *)
Fixpoint actual_of (target : string) (rows : list pydict) : result Z :=
  match rows with
  | [] => raise StopIteration ""
  | row :: rows' => n ← int_cell target row; if n =? 1 then int_cell "car_number" row else actual_of target rows'
  end.
(** [next(i + 1 for i, x in enumerate(l) if f(x))] *)
Fixpoint next_rank {A} (f : A → bool) (l : list A) : result Z :=
  match l with
  | [] => raise StopIteration ""
  | x :: l' => if f x then Ok 1 else n ← next_rank f l'; Ok (n + 1)
  end.
Definition target_of (position : string) : string := ("target_" ++ position)%string.
Definition rank_metric (race_rows : list pydict) (probabilities : list (string * distribution)) (position : string) :
    result (string * position_metric) :=
  actual ← actual_of (target_of position) race_rows;
  rank ← next_rank (λ cp, cp.1 =? actual) (ranked_cars (distribution_at probabilities position));
  Ok (position, PositionMetric actual rank).
Definition _position_rank_metrics (race_rows : list pydict) (probabilities : list (string * distribution)) :
    result (list (string * position_metric)) :=
  mapR (rank_metric race_rows probabilities) POSITIONS.
Definition metric_value (m : position_metric) : pyval :=
  VDict [("actual_car", VInt (actual_car m)); ("rank", VInt (position_rank m)); ("top1_hit", VBool (position_rank m =? 1));
         ("top3_hit", VBool (position_rank m <=? 3)); ("reciprocal_rank", VFloat (true_div 1 (position_rank m)))].

(** What the loop over the races accumulates, race by race. *)
Record race_result := RaceResult {
  result_id : string; actual_combo : string; trifecta_rank : Z; position_metrics : list (string * position_metric) }.
Definition evaluate_race `{Numpy} (models : list (string * booster)) (r : race) : result race_result :=
  x ← mapR row_to_features r.2;
  cars ← mapR (int_cell "car_number") r.2;
  let predict position x := match find (λ kb, String.eqb kb.1 position) models with
                            | Some kb => kb.2 x | None => raise KeyError position end in
  probabilities ← mapR (λ position, d ← position_distribution predict x cars position; Ok (position, d)) POSITIONS;
  pos ← _position_rank_metrics r.2 probabilities;
  let actual_combo := join "-" (map (λ pm, z_str (actual_car pm.2)) pos) in
  table ← combine_position_probabilities (distribution_at probabilities "first") (distribution_at probabilities "second")
            (distribution_at probabilities "third");
  let v := validate_trifecta_table table (Z.of_nat (length cars)) in
  reject_if (negb (combination_count_ok v && unique_ok v && probability_mass_ok v)) ValueError
    ("adapter validation failed for race " ++ r.1);;
  rank ← next_rank (λ row, String.eqb (trow_key row) actual_combo) table;
  Ok (RaceResult r.1 actual_combo rank pos).
Definition race_value (r : race_result) : pyval :=
  VDict [("race_id", VStr (result_id r)); ("actual_combo", VStr (actual_combo r)); ("trifecta_rank", VInt (trifecta_rank r));
         ("position_metrics", VDict (map (λ pm, (pm.1, metric_value pm.2)) (position_metrics r)))].
(** [top[k]] and [position_acc[position]] *)
Definition top_count (k : Z) (rs : list race_result) : Z := foldr Z.add 0 (map (λ r, of_bool (trifecta_rank r <=? k)) rs).
Definition metric_at (position : string) (r : race_result) : Z :=
  match find (λ pm, String.eqb pm.1 position) (position_metrics r) with Some pm => position_rank pm.2 | None => 0 end.
Definition hit_count (position : string) (rs : list race_result) : Z :=
  foldr Z.add 0 (map (λ r, of_bool (metric_at position r =? 1)) rs).
(** [mrr += 1.0 / rank] over the races *)
Definition reciprocal_sum (ranks : list Z) : spec_float := foldl (λ acc n, float_add acc (true_div 1 n)) float_zero ranks.
Definition over (x : spec_float) (n : nat) : result pyval := d ← float_of_Z (Z.of_nat n); Ok (VFloat (float_div x d)).
Definition evaluate `{Numpy} (models : list (string * booster)) (valid_races : list race) : result pydict :=
  rs ← mapR (evaluate_race models) valid_races;
  let n := length valid_races in
  reject_if (n =? 0)%nat ZeroDivisionError "division by zero";;
  let share k := VFloat (true_div k (Z.of_nat n)) in
  mrr ← over (reciprocal_sum (map trifecta_rank rs)) n;
  position_mrr ← mapR (λ p, x ← over (reciprocal_sum (map (metric_at p) rs)) n; Ok (p, x)) POSITIONS;
  Ok [("validation_races", VInt (Z.of_nat n)); ("trifecta_top1_accuracy", share (top_count 1 rs));
      ("trifecta_top3_accuracy", share (top_count 3 rs)); ("trifecta_top5_accuracy", share (top_count 5 rs));
      ("trifecta_top10_accuracy", share (top_count 10 rs)); ("trifecta_mean_reciprocal_rank", mrr);
      ("position_top1_accuracy", VDict (map (λ p, (p, share (hit_count p rs))) POSITIONS));
      ("position_mean_reciprocal_rank", VDict position_mrr); ("per_race", VList (map race_value rs))].

(** ** The model directory *)
(** A saved booster keeps the feature names of the data it was trained with. *)
Record model_dir := ModelDir {
  schema_doc : option pyval; metrics_doc : option pyval; boosters : gmap string (list string * booster) }.
Definition write_metrics (v : pyval) : eff model_dir unit :=
  modify (λ d, ModelDir (schema_doc d) (Some v) (boosters d)).
Definition write_schema (v : pyval) : eff model_dir unit :=
  modify (λ d, ModelDir (Some v) (metrics_doc d) (boosters d)).
Definition save_model (kb : string * booster) : eff model_dir unit :=
  modify (λ d, ModelDir (schema_doc d) (metrics_doc d) (<[kb.1 := (FEATURE_COLUMNS, kb.2)]> (boosters d))).
Fixpoint save_models (models : list (string * booster)) : eff model_dir unit :=
  match models with [] => mret tt | kb :: models' => save_model kb;; save_models models' end.
Definition feature_schema : pyval :=
  VDict [("model_version", VStr MODEL_VERSION); ("feature_columns", feature_list);
         ("style_encoding", VDict [("逃", VStr "style_nige"); ("両", VStr "style_ryo"); ("追", VStr "style_oi")]);
         ("missing_numeric_policy", VStr "NaN passed to LightGBM"); ("odds_used_as_model_feature", VBool false)].
Definition NOTES : list string :=
  ["Only rider-level rows built from supervised-training-eligible prospective history are accepted upstream.";
   "LightGBM ranker scores are softmax-normalized within each race but remain uncalibrated.";
   "The three position distributions are combined by the existing trifecta adapter.";
   "This artifact is not connected to predict-engine-dev."].
Definition training_entries (total training validation : nat) (now : string) : pydict :=
  [("status", VStr "trained_offline_validation_only"); ("model_version", VStr MODEL_VERSION);
   ("production_enabled", VBool false); ("promotion_eligible", VBool false);
   ("probability_calibration_status", VStr "uncalibrated"); ("position_score_conversion", VStr "softmax_within_race");
   ("adapter", VStr "position-probability-to-trifecta-v1"); ("total_races", VInt (Z.of_nat total));
   ("training_races", VInt (Z.of_nat training)); ("validation_races", VInt (Z.of_nat validation));
   ("split_policy", VStr "chronological_by_prediction_timestamp"); ("feature_columns", feature_list);
   ("odds_used_as_model_feature", VBool false); ("trained_at", VStr now); ("notes", VList (map VStr NOTES))].
Definition blocked_entries (races : nat) (min_races : Z) : pydict :=
  [("status", VStr "blocked_insufficient_races"); ("race_count", VInt (Z.of_nat races));
   ("technical_minimum_races", VInt min_races); ("production_enabled", VBool false); ("promotion_eligible", VBool false);
   ("note", VStr "The minimum is only a technical development guardrail and is not a production sufficiency claim.")].
Definition train `{Numpy} (now : string) (csv : list pydict) (min_races : Z) (validation_fraction : spec_float) :
    eff model_dir pydict :=
  rows ← lift (load_rows csv);
  races ← lift (grouped_races rows);
  let n := length races in
  if Z.of_nat n <? min_races then
    let result := blocked_entries n min_races in write_metrics (VDict result);; mret result
  else
    lift (reject_if (negb (SFltb float_zero validation_fraction && SFltb validation_fraction half)) ValueError
            "validation_fraction must be between 0 and 0.5");;
    split ← lift (split_size n validation_fraction);
    let train_races := take (Z.to_nat split) races in
    let valid_races := drop (Z.to_nat split) races in
    models ← lift (mapR (λ p, b ← _train_one train_races valid_races (target_of p); Ok (p, b)) POSITIONS);
    metrics ← lift (evaluate models valid_races);
    let metrics := dict_update metrics (training_entries n (length train_races) (length valid_races) now) in
    save_models models;;
    write_schema feature_schema;;
    write_metrics (VDict metrics);;
    mret metrics.
End training.

(** The directory as [load_models] reads it; [sha256] is the digest over its five files. *)
Definition files_of (sha256 : model_dir → string) (d : model_dir) : model_files :=
  ModelFiles (schema_doc d) (metrics_doc d) (λ p, fst <$> boosters d !! p) (sha256 d).
