(* ===== verification/TrainingFacts.v ===== *)
(** What a training writes is what inference accepts, and its metrics are those of races
    kept out of the training. *)
From Stdlib Require Import Ascii SpecFloat.
From stdpp Require Import sorting.
From S2P Require Import Prelude PyString PyValue PyText PyFloat Itertools Rounding Dataset DatasetFacts Inference InferenceFacts Training.

(** ** The order of the races *)
Lemma str_le_antisym a b : str_le a b = true → str_le b a = true → a = b.
Proof.
  unfold str_le, String.leb. pose proof (String.compare_antisym a b) as E.
  destruct (String.compare a b) eqn:Eab, (String.compare b a); try done. intros _ _. by apply String.compare_eq_iff.
Qed.
#[export] Instance by_stamp_total : Total by_stamp.
Proof. intros a b. unfold by_stamp. rewrite (String.eqb_sym (stamp_of b)). destruct (String.eqb _ _); apply str_le_total. Qed.
#[export] Instance by_stamp_trans : Transitive by_stamp.
Proof.
  intros a b c. unfold by_stamp. intros Hab Hbc.
  destruct (String.eqb_spec (stamp_of a) (stamp_of b)) as [Eab|Nab], (String.eqb_spec (stamp_of b) (stamp_of c)) as [Ebc|Nbc],
    (String.eqb_spec (stamp_of a) (stamp_of c)) as [Eac|Nac]; try congruence; try (by eapply str_le_trans).
  rewrite Eac in Hab, Nab. by destruct Nab; apply str_le_antisym.
Qed.

Section training.
Context `{Readers, Numpy} (lgb_train : lgb_data → lgb_data → result booster).
Definition trained (m : pydict) : Prop := is_text (get_or_none "status" m) "trained_offline_validation_only" = true.
(** The boosters of the three positions. *)
Definition learned (train_races valid_races : list race) : result (list (string * booster)) :=
  mapR (λ p, b ← _train_one lgb_train train_races valid_races (target_of p); Ok (p, b)) POSITIONS.

Definition save_in (bs : gmap string (list string * booster)) (kb : string * booster) := <[kb.1 := (FEATURE_COLUMNS, kb.2)]> bs.
(** ** One run *)
Lemma save_models_run models : ∀ d : model_dir, save_models models d =
  (Ok tt, ModelDir (schema_doc d) (metrics_doc d) (foldl save_in (boosters d) models)).
Proof. induction models as [|kb models IH]; intros d; cbn [save_models]; [by destruct d|]. unfold save_model. rewrite bind_run. cbn. by rewrite IH. Qed.
(** How a training that returns has gone. *)
Lemma train_run now csv min_races fraction d m d' : train lgb_train now csv min_races fraction d = (Ok m, d') →
  ∃ races, load_rows csv = Ok csv ∧ grouped_races csv = Ok races ∧
  ((m = blocked_entries (length races) min_races ∧ d' = ModelDir (schema_doc d) (Some (VDict m)) (boosters d)) ∨
   ∃ s models metrics, split_size (length races) fraction = Ok s ∧
     learned (take (Z.to_nat s) races) (drop (Z.to_nat s) races) = Ok models ∧
     evaluate models (drop (Z.to_nat s) races) = Ok metrics ∧
     m = dict_update metrics (training_entries (length races) (length (take (Z.to_nat s) races)) (length (drop (Z.to_nat s) races)) now) ∧
     d' = ModelDir (Some feature_schema) (Some (VDict m)) (foldl save_in (boosters d) models)).
Proof.
  unfold train. intros (rows & d0 & [Hload ->]%lift_Ok & (races & d1 & [Hraces ->]%lift_Ok & Hrun)%eff_bind_Ok)%eff_bind_Ok.
  assert (rows = csv) as -> by (unfold load_rows in *; destruct csv; [done|]; by inv_result).
  exists races. split; [done|]. split; [done|]. cbv zeta in Hrun. destruct (_ <? _).
  - left. rewrite bind_run in Hrun. by injection Hrun as <- <-.
  - right. apply eff_bind_Ok in Hrun as ([] & d2 & [_ ->]%lift_Ok & (s & d3 & [Hs ->]%lift_Ok &
      (models & d4 & [Hm ->]%lift_Ok & (metrics & d5 & [He ->]%lift_Ok & Hrun)%eff_bind_Ok)%eff_bind_Ok)%eff_bind_Ok).
    rewrite bind_run, save_models_run in Hrun. injection Hrun as <- <-. eauto 10.
Qed.
Lemma learned_keys train_races valid_races models : learned train_races valid_races = Ok models →
  ∃ a b c, models = [("first", a); ("second", b); ("third", c)].
Proof. unfold learned, POSITIONS. cbn [mapR]. intros Hrun. inv_result. eauto. Qed.
Lemma evaluate_keys models races metrics : evaluate models races = Ok metrics →
  keys metrics = ["validation_races"; "trifecta_top1_accuracy"; "trifecta_top3_accuracy"; "trifecta_top5_accuracy";
    "trifecta_top10_accuracy"; "trifecta_mean_reciprocal_rank"; "position_top1_accuracy"; "position_mean_reciprocal_rank"; "per_race"].
Proof. unfold evaluate. intros Hrun. inv_result. done. Qed.

Lemma load_accepts files schema metrics : schema_file files = Some schema → metrics_file files = Some metrics →
  get schema "model_version" = Ok (VStr MODEL_VERSION) → get schema "feature_columns" = Ok feature_list →
  get metrics "model_version" = Ok (VStr MODEL_VERSION) → get metrics "feature_columns" = Ok feature_list →
  get metrics "status" = Ok (VStr "trained_offline_validation_only") → get metrics "production_enabled" = Ok (VBool false) →
  get metrics "probability_calibration_status" = Ok (VStr "uncalibrated") →
  (∀ p, p ∈ POSITIONS → booster_features files p = Some FEATURE_COLUMNS) →
  load_models files = Ok (Artifact metrics (files_sha256 files)).
Proof.
  intros Hs Hm Hsv Hsc Hmv Hmc Hst Hp Hc Hb. unfold load_models. rewrite Hs, Hm.
  rewrite Hsv, Hsc, Hmv, Hmc, Hst, Hp, Hc.
  change (py_eqb feature_list feature_list) with true. cbn [mbind result_bind reject_if].
  assert (mapR (check_booster files) POSITIONS = Ok [tt; tt; tt]) as ->; [|done].
  assert (∀ p, p ∈ POSITIONS → check_booster files p = Ok tt) as Hcheck.
  { intros p Hin. unfold check_booster. rewrite Hb by done. by rewrite bool_decide_true by done. }
  unfold POSITIONS in *. cbn [mapR]. rewrite !Hcheck by set_solver. done.
Qed.
Lemma saved_boosters bs models p b : NoDup (map fst models) → (p, b) ∈ models → foldl save_in bs models !! p = Some (FEATURE_COLUMNS, b).
Proof.
  revert bs. induction models as [|[p' b'] models IH] using rev_ind; intros bs Hn; [by intros ?%not_elem_of_nil|].
  rewrite foldl_app. cbn [foldl]. unfold save_in at 1. cbn [fst snd]. rewrite map_app in Hn.
  apply list.NoDup_app in Hn as (Hn & Hd & _). intros [Hin|[= -> ->]%list_elem_of_singleton]%elem_of_app.
  - rewrite lookup_insert_ne; [by apply IH|]. intros ->. apply (Hd p); [|left]. apply list_elem_of_fmap. by exists (p, b).
  - apply lookup_insert_eq.
Qed.
(** C31: what a training writes is what inference accepts.  After a training that returns
    metrics, loading the model directory succeeds and gives exactly these metrics; after a
    training that was blocked, whatever models the directory held before are still there
    but are refused. *)
Theorem trained_artifact_loads sha256 now csv min_races fraction d m d' :
  train lgb_train now csv min_races fraction d = (Ok m, d') →
  (trained m ∧ load_models (files_of sha256 d') = Ok (Artifact (VDict m) (sha256 d'))) ∨
  (is_text (get_or_none "status" m) "blocked_insufficient_races" = true ∧ boosters d' = boosters d ∧ schema_doc d' = schema_doc d ∧
   is_ok (load_models (files_of sha256 d')) = false).
Proof.
  intros (races & _ & _ & [[-> ->]|(s & models & metrics & _ & Hmodels & Hmetrics & -> & ->)])%train_run.
  - right. split; [done|]. split; [done|]. split; [done|]. unfold load_models. cbn [files_of schema_file metrics_file].
    cbn [schema_doc metrics_doc]. destruct (schema_doc d) as [schema|]; [|done].
    destruct (get schema "model_version") as [v|]; [|done]. cbn [mbind result_bind]. destruct (is_text v MODEL_VERSION); [|done].
    destruct (get schema "feature_columns") as [c|]; [|done]. cbn [mbind result_bind reject_if negb]. by destruct (py_eqb c feature_list).
  - left. apply learned_keys in Hmodels as (a & b & c & ->). unfold evaluate in Hmetrics. inv_result. split; [done|].
    match goal with |- load_models (files_of _ ?d2) = Ok (Artifact ?m _) => apply (load_accepts (files_of sha256 d2) feature_schema m) end;
      [reflexivity..|].
    intros p Hin. cbn [files_of booster_features boosters]. 
    assert (∃ x, (p, x) ∈ [("first", a); ("second", b); ("third", c)]) as [x Hx].
    { unfold POSITIONS in Hin. rewrite !elem_of_cons in Hin. destruct Hin as [->|[->|[->|[]%elem_of_nil]]]; eexists; [left|right; left|right; right; left]. }
    erewrite saved_boosters; [done| |exact Hx]. by apply (bool_decide_unpack _).
Qed.

(** ** The metrics *)
Lemma next_rank_bound {A} (f : A → bool) l : ∀ n, next_rank f l = Ok n → 1 ≤ n ≤ Z.of_nat (length l).
Proof.
  induction l as [|x l IH]; intros n; cbn [next_rank length]; [done|]. destruct (f x).
  - intros [= <-]. lia.
  - intros (k & Hk%IH & [= <-])%bind_Ok. lia.
Qed.
Lemma set_car_length l : ∀ d, (length (foldl set_car d l) ≤ length d + length l)%nat.
Proof.
  induction l as [|cp l IH]; intros d; cbn [foldl length]; [lia|]. etrans; [apply IH|].
  assert (length (set_car d cp) ≤ S (length d))%nat; [|lia]. unfold set_car. destruct (existsb _ d).
  - rewrite length_map. lia.
  - rewrite length_app. cbn. lia.
Qed.
(** The ranks of a race are ranks among its riders and their ordered triples. *)
Definition ranks_ok (r : race) (x : race_result) : Prop :=
  let n := Z.of_nat (length r.2) in
  result_id x = r.1 ∧ 1 ≤ trifecta_rank x ≤ n * (n - 1) * (n - 2) ∧
  map fst (position_metrics x) = POSITIONS ∧ Forall (λ pm, 1 ≤ position_rank pm.2 ≤ n) (position_metrics x).
Lemma distribution_length predict x cars position d : position_distribution predict x cars position = Ok d → (length d ≤ length cars)%nat.
Proof.
  unfold position_distribution. intros Hrun. inv_result. etrans; [apply set_car_length|]. rewrite length_zip. cbn. lia.
Qed.
Lemma rank_metric_ok rows n ds position y : (∀ position, (length (distribution_at ds position) ≤ n)%nat) →
  rank_metric rows ds position = Ok y → y.1 = position ∧ 1 ≤ position_rank y.2 ≤ Z.of_nat n.
Proof.
  intros Hds Hrun. unfold rank_metric in Hrun. inv_result. split; [done|]. cbn [snd position_rank].
  match goal with Hr : next_rank _ _ = Ok _ |- _ => apply next_rank_bound in Hr; rewrite ranked_cars_perm in Hr end.
  specialize (Hds position). lia.
Qed.
Lemma rank_metrics_ok rows n ds ps ys : (∀ position, (length (distribution_at ds position) ≤ n)%nat) →
  mapR (rank_metric rows ds) ps = Ok ys → map fst ys = ps ∧ Forall (λ pm, 1 ≤ position_rank pm.2 ≤ Z.of_nat n) ys.
Proof.
  intros Hds Hrun%mapR_Ok. induction Hrun as [|p y ps ys Hy _ [IH Hb]]; [by split|].
  destruct (rank_metric_ok _ _ _ _ _ Hds Hy) as [E Hy']. cbn [map]. rewrite E, IH. split; [done|by constructor].
Qed.
Lemma evaluate_race_ok models r x : evaluate_race models r = Ok x → ranks_ok r x.
Proof.
  unfold evaluate_race. cbv zeta. intros Hrun. inv_result. unfold ranks_ok. cbn [result_id trifecta_rank position_metrics].
  match goal with Hc : mapR (int_cell _) _ = Ok _ |- _ => pose proof (mapR_length _ _ _ Hc) as Hlen end. rewrite <- Hlen.
  split; [done|]. split; [|].
  - match goal with Hr : next_rank _ _ = Ok _ |- _ => apply next_rank_bound in Hr as Hb end.
    match goal with Hv : _ && _ && _ = true |- _ => apply andb_true_iff in Hv as [[Hcount%Z.eqb_eq _]%andb_true_iff _] end.
    cbn [actual_combinations expected_combinations validate_trifecta_table] in Hcount. lia.
  - match goal with Hd : mapR _ POSITIONS = Ok ?ds, Hm : _position_rank_metrics _ ?ds = Ok ?ms |- _ =>
      assert (∀ position, (length (distribution_at ds position) ≤ length a0)%nat) as Hds;
      [unfold POSITIONS in Hd; cbn [mapR] in Hd; inv_result|unfold _position_rank_metrics in Hm; clear Hd] end.
    + intros position. unfold distribution_at. cbn [find fst snd].
      repeat match goal with |- context [String.eqb ?a ?b] => destruct (String.eqb a b) end; cbn; try lia;
        by eapply distribution_length.
    + by eapply rank_metrics_ok.
Qed.

(** ** The partitions *)
Lemma grouped_races_ok csv races : grouped_races csv = Ok races → NoDup (map fst races) ∧ StronglySorted by_stamp races.
Proof.
  unfold grouped_races. intros Hrun. inv_result. split; [|apply StronglySorted_merge_sort; apply _].
  rewrite (merge_sort_Permutation by_stamp). unfold group_rows. rewrite map_map.
  change (λ x, _) with (λ x : string * list (string * pydict), x.1). apply gr_nodup with (key := fst) (l := zip a csv). apply group_on_ok.
Qed.
Lemma split_size_ok n fraction s : split_size n fraction = Ok s → 2 ≤ s ∧ ((3 ≤ n)%nat → s < Z.of_nat n).
Proof. unfold split_size. cbv zeta. intros Hrun. inv_result. lia. Qed.

Lemma top_count_mono k k' rs : k ≤ k' → 0 ≤ top_count k rs ≤ top_count k' rs ∧ top_count k' rs ≤ Z.of_nat (length rs).
Proof.
  intros Hk. induction rs as [|r rs IH]; cbn -[Z.of_nat]; [lia|]. unfold top_count in IH. cbn in IH. rewrite Nat2Z.inj_succ.
  destruct (Z.leb_spec (trifecta_rank r) k), (Z.leb_spec (trifecta_rank r) k'); cbn [of_bool]; lia.
Qed.
(** The reported accuracies of the trifecta. *)
Definition accuracies (m : pydict) (a1 a3 a5 a10 : spec_float) : Prop :=
  get_or_none "trifecta_top1_accuracy" m = VFloat a1 ∧ get_or_none "trifecta_top3_accuracy" m = VFloat a3 ∧
  get_or_none "trifecta_top5_accuracy" m = VFloat a5 ∧ get_or_none "trifecta_top10_accuracy" m = VFloat a10.
(** The partition of the races of a training. *)
Record partition (csv : list pydict) (train_races valid_races : list race) : Prop := {
  pn_races : grouped_races csv = Ok (train_races ++ valid_races);
  pn_distinct : NoDup (map fst (train_races ++ valid_races));
  pn_order : ∀ a b, a ∈ train_races → b ∈ valid_races → by_stamp a b;
  pn_train : train_races ≠ []; pn_valid : valid_races ≠ [] }.

(** A set of data for [lgb.train] holds exactly the riders of these races, labelled for the
    target. *)
Record holds (races : list race) (target : string) (x : lgb_data) : Prop := {
  hl_features : Forall2 (λ row f, row_to_features row = Ok f) (concat (map snd races)) (data_x x);
  hl_labels : Forall2 (λ row n, int_cell target row = Ok n) (concat (map snd races)) (data_y x);
  hl_groups : data_groups x = map (λ r, Z.of_nat (length r.2)) races }.
(** The booster of a position is what [lgb.train] makes of the first races as its training
    set and the others as its validation set. *)
Definition fitted (train_races valid_races : list race) (pb : string * booster) : Prop :=
  ∃ x y, holds train_races (target_of pb.1) x ∧ holds valid_races (target_of pb.1) y ∧ lgb_train x y = Ok pb.2.
Lemma matrix_holds races target x : _matrix races target = Ok x → holds races target x.
Proof.
  unfold _matrix. cbv zeta. intros (fs & Hf%mapR_Ok & (ys & Hy%mapR_Ok & [= <-])%bind_Ok)%bind_Ok.
  split; [done| |done]. eapply list.Forall2_impl; [exact Hy|]. intros row n Hn. cbn. unfold int32_label in Hn. by inv_result.
Qed.
Lemma learned_fitted train_races valid_races models : learned train_races valid_races = Ok models →
  map fst models = POSITIONS ∧ Forall (fitted train_races valid_races) models.
Proof.
  intros Hm. split; [by apply learned_keys in Hm as (? & ? & ? & ->)|]. apply mapR_Ok in Hm.
  induction Hm as [|p pb ps models Hp _ IH]; [done|]. apply list.Forall_cons. split; [|done].
  unfold _train_one in Hp. inv_result. eexists _, _. cbn [fst snd]. split_and!; [by apply matrix_holds..|done].
Qed.

(** C30: a training that returns metrics has cut the races of the table in two, none on
    both sides, the first part first in the order of the time stamps' texts.  Each of its
    three models is what [lgb.train] fits to exactly the riders of the first part, those of
    the second being its validation set, by which it stops early; the saved boosters are
    these models; the report names each race of the second part, once and in order, with
    ranks among its riders and their ordered triples; and the reported accuracies are
    ordered between 0 and 1. *)
Theorem training_sound now csv min_races fraction d m d' :
  train lgb_train now csv min_races fraction d = (Ok m, d') → trained m →
  ∃ train_races valid_races models rs, partition csv train_races valid_races ∧
    map fst models = POSITIONS ∧ Forall (fitted train_races valid_races) models ∧
    (∀ p b, (p, b) ∈ models → boosters d' !! p = Some (FEATURE_COLUMNS, b)) ∧
    mapR (evaluate_race models) valid_races = Ok rs ∧ Forall2 ranks_ok valid_races rs ∧
    get_or_none "per_race" m = VList (map race_value rs) ∧
    ∃ a1 a3 a5 a10, accuracies m a1 a3 a5 a10 ∧ 0 ≤ scaled_float a1 ≤ scaled_float a3 ∧
      scaled_float a3 ≤ scaled_float a5 ≤ scaled_float a10 ∧ scaled_float a10 ≤ unit_.
Proof.
  intros (races & _ & Hraces & [[-> _]|(s & models & metrics & Hs & Hmodels & Hmetrics & -> & ->)])%train_run; [done|].
  intros _. destruct (grouped_races_ok _ _ Hraces) as [Hn Hsorted]. destruct (split_size_ok _ _ _ Hs) as [Hs2 _].
  unfold evaluate in Hmetrics. cbv zeta in Hmetrics. inv_result.
  set (train_races := take _ _) in *. set (valid_races := drop _ _) in *. assert (train_races ++ valid_races = races) as Ecut by apply take_drop.
  match goal with Hz : (_ =? 0)%nat = false |- _ => apply Nat.eqb_neq in Hz as Hv end.
  match goal with Hr : mapR (evaluate_race _) _ = Ok ?rs |- _ => exists train_races, valid_races, models, rs;
    pose proof (mapR_length _ _ _ Hr) as Hlen end.
  destruct (learned_fitted _ _ _ Hmodels) as [Hkeys Hfit].
  split; [|split; [done|split; [done|split; [|split; [done|split; [|split; [done|]]]]]]].
  - split; [by rewrite Ecut|by rewrite Ecut| | |].
    + rewrite <- Ecut in Hsorted. intros x y Hx Hy. exact (StronglySorted_app_1_elem_of _ _ _ x y Hsorted Hx Hy).
    + intros E. apply (f_equal length) in E. unfold train_races in E. rewrite length_take in E. subst valid_races.
      rewrite length_drop in Hv. cbn in E. lia.
    + intros E. by rewrite E in Hv.
  - intros p b Hin. cbn [boosters]. apply saved_boosters; [|done]. apply learned_keys in Hmodels as (? & ? & ? & ->). by apply (bool_decide_unpack _).
  - match goal with Hr : mapR (evaluate_race _) _ = Ok _ |- _ => apply mapR_Ok in Hr; eapply list.Forall2_impl; [exact Hr|] end.
    intros r x. apply evaluate_race_ok.
  - match goal with Hr : mapR (evaluate_race _) _ = Ok ?rs |- _ =>
      destruct (top_count_mono 1 3 rs) as [H1 _], (top_count_mono 3 5 rs) as [H2 _], (top_count_mono 5 10 rs) as [H3 H4]; try lia end.
    do 4 eexists. split; [by split_and!|]. rewrite <- (Z.mul_0_l unit_). change (0 * unit_) with (scaled_float (true_div 0 1)).
    change unit_ with (scaled_float (true_div 1 1)). repeat split; apply true_div_mono; first [lia|nia].
Qed.
End training.

(** ** Four races of four riders *)
#[local] Instance integer_readers : Readers := {|
  fromisoformat := @fromisoformat decimal_readers;
  read_float s := match parse_int s with Some z => float_of_Z z | None => raise ValueError "could not convert string to float" end;
  read_int := @read_int decimal_readers; decimal_digit := @decimal_digit decimal_readers |}.
#[local] Existing Instance plain_numpy.
(** The winner of race [i] is car [i]; the score of a rider is 5 for the first, else the car. *)
Definition csv_row (race stamp : string) (winner car : Z) : pydict :=
  [("race_id", VStr race); ("prediction_timestamp", VStr stamp); ("car_number", VStr (z_str car)); ("style", VStr "逃");
   ("race_score", VStr (if car =? winner then "5" else z_str car));
   ("target_first", VStr (if car =? winner then "1" else "0")); ("target_second", VStr (if car =? winner mod 4 + 1 then "1" else "0"));
   ("target_third", VStr (if car =? (winner + 1) mod 4 + 1 then "1" else "0"))].
Definition csv_race (race stamp : string) (winner : Z) : list pydict := map (csv_row race stamp winner) [1; 2; 3; 4].
Definition example_csv : list pydict :=
  csv_race "r3" "2026-01-03" 3 ++ csv_race "r1" "2026-01-01" 1 ++ csv_race "r4" "2026-01-04" 4 ++ csv_race "r2" "2026-01-02" 2.
Definition quarter : spec_float := S754_finite false 4503599627370496 (-54).
Definition plain_train (x y : lgb_data) : result booster := Ok (by_score "").
Definition example_training (min_races : Z) : result pydict * model_dir :=
  train plain_train "2026-02-01T00:00:00+00:00" example_csv min_races quarter (ModelDir None None ∅).
Definition answer (r : result pydict * model_dir) : option pydict := match r.1 with Ok m => Some m | Err _ => None end.
Example example_trains : match answer (example_training 3) with
  | Some m => get_or_none "status" m = VStr "trained_offline_validation_only" ∧ get_or_none "training_races" m = VInt 3 ∧
      get_or_none "trifecta_top1_accuracy" m = VFloat float_zero
  | None => False
  end.
Proof. vm_compute. done. Qed.
Lemma train_returned (r : result pydict * model_dir) status :
  match r.1 with Ok m => is_text (get_or_none "status" m) status | Err _ => false end = true →
  ∃ m d', r = (Ok m, d') ∧ is_text (get_or_none "status" m) status = true.
Proof. destruct r as [[m|e] d']; [|done]. intros Hm. by exists m, d'. Qed.
Lemma example_trained : ∃ m d', example_training 3 = (Ok m, d') ∧ trained m.
Proof. apply train_returned. vm_compute. reflexivity. Qed.
Lemma example_blocked : ∃ m d', example_training 5 = (Ok m, d') ∧ is_text (get_or_none "status" m) "blocked_insufficient_races" = true.
Proof. apply train_returned. vm_compute. reflexivity. Qed.
Lemma training_sound_witness : ∃ train_races valid_races models, partition example_csv train_races valid_races ∧
  Forall (fitted plain_train train_races valid_races) models.
Proof.
  destruct example_trained as (m & d' & Hrun & Hm). unfold example_training in Hrun.
  destruct (training_sound plain_train _ example_csv 3 quarter _ m d' Hrun Hm) as (x & y & models & _ & Hp & _ & Hf & _).
  exists x, y, models. split; [exact Hp|exact Hf].
Defined.
Lemma trained_artifact_loads_witness : ∃ m d', example_training 5 = (Ok m, d') ∧
  ((trained m ∧ load_models (files_of (λ _, "sha") d') = Ok (Artifact (VDict m) "sha")) ∨
   is_ok (load_models (files_of (λ _, "sha") d')) = false).
Proof.
  destruct example_blocked as (m & d' & Hrun & Hm). exists m, d'. split; [exact Hrun|]. unfold example_training in Hrun.
  destruct (trained_artifact_loads plain_train (λ _, "sha") _ example_csv 5 quarter _ m d' Hrun) as [?|(_ & _ & _ & ?)]; [by left|by right].
Defined.
