(* ===== verification/Holdout.v ===== *)
(** ml/build_training_dataset.py (the records of history files), ml/collection_status.py
    and ml/evaluate_offline.py: the progress of a collection, and the paired evaluation of
    new models against the saved baseline on a chronological holdout.

    [lgb.train], the texts of times and the logarithm are arguments. *)
From Stdlib Require Import Ascii SpecFloat.
From stdpp Require Import sorting.
From S2P Require Import Prelude PyString PyValue PyText PyFloat Rounding Dataset Selection Evaluation ModelHistory Inference Training.

(** ** The records of a document *)
Definition dicts_in (l : list pyval) : list pyval := List.filter is_dict l.
Fixpoint _records_from_json (data : pyval) : list pyval :=
  match data with
  | VDict d =>
      if is_text (get_or_none "mode" d) "dry_run" && is_dict (get_or_none "payload" d) then
        (fix payload (kvs : pydict) := match kvs with
         | [] => []
         | (k, v) :: kvs' => if String.eqb k "payload" then _records_from_json v else payload kvs'
         end) d
      else match get_or_none "records" d with
           | VList l => dicts_in l
           | _ => match get_or_none "history_record" d with
                  | VDict r => [VDict r]
                  | _ => if dict_has "race_id" d then [data] else []
                  end
           end
  | VList l => dicts_in l
  | _ => []
  end.
(** The files in their order, with what reading and decoding each gives. *)
Fixpoint load_records (files : list (string * result pyval)) : result (list pyval) :=
  match files with
  | [] => Ok []
  | (file, Ok data) :: files' => rest ← load_records files'; Ok (_records_from_json data ++ rest)
  | (file, Err e) :: _ =>
      if isinstance e OSError || isinstance e JSONDecodeError
      then raise RuntimeError ("failed to read " ++ file ++ ": " ++ exn_text e) else Err e
  end.

Section holdout.
Context `{Readers} (utc_iso : Z → string).

(** ** ml/collection_status.py *)
Definition MIN_DISTINCT_PREDICTION_TIMES : Z := 5.
Definition odds_count (c : candidate) : result (list Z) :=
  training ← get_dict (record c) "training_input";
  odds ← get_dict training "odds";
  trifecta ← get_dict odds "trifecta";
  Ok (match trifecta with VDict d => [Z.of_nat (length d)] | _ => [] end).
(** [statistics.median] of integers, some *)
Definition median (l : list Z) : pyval :=
  let s := merge_sort Z.le l in
  let n := length s in
  if (n mod 2 =? 1)%nat then VInt (nth (n / 2) s 0)
  else VFloat (true_div (nth (n / 2 - 1) s 0 + nth (n / 2) s 0) 2).
Definition if_any (f : list Z → pyval) (l : list Z) : pyval := match l with [] => VNone | _ => f l end.
Definition minimum_of (l : list Z) : pyval := VInt (foldl Z.min (nth 0 l 0) l).
Definition maximum_of (l : list Z) : pyval := VInt (foldl Z.max (nth 0 l 0) l).
Definition collection_status (records : list pyval) : result pydict :=
  prepared ← prepare false records;
  protocol ← readiness utc_iso false records;
  counts ← mapR odds_count prepared.1;
  let counts := concat counts in
  let quality k := getitem (VDict prepared.2) k in
  distinct ← getitem (VDict protocol) "distinct_prediction_times";
  remaining ← getitem (VDict protocol) "remaining_distinct_prediction_times";
  met ← getitem (VDict protocol) "technical_time_minimum_met";
  ready ← getitem (VDict protocol) "chronological_partitions_ready";
  reason ← getitem (VDict protocol) "blocked_reason";
  split ← getitem (VDict protocol) "split";
  excluded ← quality "excluded"; removed ← quality "duplicate_snapshots_removed";
  missing ← quality "missing_feature_counts"; fractions ← quality "missing_feature_fraction";
  note ← getitem (VDict protocol) "note";
  Ok [("input_records", VInt (Z.of_nat (length records)));
      ("eligible_unique_races", VInt (Z.of_nat (length prepared.1))); ("eligible_race_ids", race_ids prepared.1);
      ("distinct_prediction_times", distinct);
      ("minimum_distinct_prediction_times", VInt MIN_DISTINCT_PREDICTION_TIMES);
      ("remaining_distinct_prediction_times", remaining); ("collection_threshold_met", met);
      ("chronological_evaluation_may_run", ready); ("blocked_reason", reason); ("split", split); ("excluded", excluded);
      ("duplicate_snapshots_removed", removed); ("missing_feature_counts", missing); ("missing_feature_fraction", fractions);
      ("known_trifecta_odds_count",
         VDict [("min", if_any minimum_of counts); ("median", if_any median counts); ("max", if_any maximum_of counts)]);
      ("prediction_times_utc", VList (map (λ t, VStr (utc_iso t)) (distinct_times prepared.1))); ("note", note)].

(** ** ml/evaluate_offline.py *)
Context `{Numpy} `{Mathematics} (lgb_train : lgb_data → lgb_data → result booster).
Definition races_of (l : list candidate) : list race := map (λ c, (race_id c, rows c)) l.
Definition train_models (p : partitions) : result (list (string * booster)) :=
  mapR (λ position, b ← _train_one lgb_train (races_of (Evaluation.train p)) (races_of (valid p)) (target_of position); Ok (position, b))
    POSITIONS.
Definition booster_at (models : list (string * booster)) (position : string) : booster :=
  λ x, match find (λ kb, String.eqb kb.1 position) models with Some kb => kb.2 x | None => raise KeyError position end.
(** The probabilities the models give a race. *)
Definition candidate_table (models : list (string * booster)) (riders : list pydict) : result pydict :=
  ds ← _position_distributions (booster_at models) riders;
  table ← combine_position_probabilities (distribution_at ds "first") (distribution_at ds "second") (distribution_at ds "third");
  Ok (dict_update [] (map (λ row, (trow_key row, VFloat (estimated_probability row))) table)).
Record scored := Scored { scored_race : string; candidate_score : metrics; baseline_score : metrics }.
Definition holdout_race (models : list (string * booster)) (c : candidate) : result scored :=
  table ← candidate_table models (rows c);
  ours ← score table (outcome_combo c);
  theirs ← score (baseline c) (outcome_combo c);
  Ok (Scored (race_id c) ours theirs).
Definition scored_value (s : scored) : pyval :=
  VDict [("race_id", VStr (scored_race s)); ("candidate", metrics_value (candidate_score s));
         ("baseline", metrics_value (baseline_score s))].
Definition difference (ours theirs : pydict) : pydict :=
  map (λ kv, (kv.1, VFloat (float_sub (float_of kv.2) (float_of (get_or_none kv.1 theirs))))) ours.
Definition evaluation_head (synthetic : bool) (quality : pydict) : pydict :=
  [("status", VStr "blocked_insufficient_eligible_data"); ("evaluation_version", VStr "offline-paired-holdout-v1");
   ("evidence_scope", VStr (if synthetic then "synthetic_test_only" else "provided_prospective_history_offline_holdout"));
   ("provenance_independently_verified", VBool false); ("production_prediction_enabled", VBool false);
   ("db_write_enabled", VBool false); ("external_fetch_enabled", VBool false); ("promotion_eligible", VBool false);
   ("monetary_ev_enabled", VBool false); ("probability_calibration_status", VStr "uncalibrated");
   ("data_quality", VDict quality); ("baseline_version", VStr BASELINE); ("protocol_source", VStr "ml.evaluation_protocol");
   ("note", VStr "Technical checks do not prove timestamp authenticity, calibration, or live profitability. Holdout reuse requires a new untouched evaluation period.")].
Definition evaluate_records (synthetic : bool) (records : list pyval) : result pydict :=
  prepared ← prepare synthetic records;
  let head := evaluation_head synthetic prepared.2 in
  match split_records prepared.1 with
  | Err e => if isinstance e ValueError then Ok (dict_set "blocked_reason" (VStr (exn_msg e)) head) else Err e
  | Ok p =>
      models ← train_models p;
      per_race ← mapR (holdout_race models) (test p);
      reject_if (bool_decide (length per_race = 0%nat)) ZeroDivisionError "division by zero";;
      ours ← metric_means (map candidate_score per_race);
      theirs ← metric_means (map baseline_score per_race);
      Ok (dict_update head
        [("status", VStr "completed_offline_holdout"); ("split", VDict (split_entries utc_iso p));
         ("test_races", VInt (Z.of_nat (length (test p))));
         ("metrics", VDict [("candidate", VDict ours); ("baseline", VDict theirs);
                            ("candidate_minus_baseline", VDict (difference ours theirs))]);
         ("per_race", VList (map scored_value per_race))])
  end.
End holdout.
