(* ===== verification/HoldoutFacts.v ===== *)
(** The holdout is honest, and the progress report says when it can be evaluated. *)
From Stdlib Require Import Ascii SpecFloat.
From stdpp Require Import sorting.
From S2P Require Import Prelude PyString PyValue PyText PyFloat Rounding Dataset DatasetFacts Selection Evaluation EvaluationFacts PrepareFacts ModelHistory Inference InferenceFacts Training TrainingFacts Holdout.

Section holdout.
Context `{!Readers, !ReaderLaws} (utc_iso : Z → string) `{Numpy} `{Mathematics} (lgb_train : lgb_data → lgb_data → result booster).
Definition completed (r : pydict) : Prop := is_text (get_or_none "status" r) "completed_offline_holdout" = true.

Lemma cars_without_labels rows : mapR row_car (map without_labels rows) = mapR row_car rows.
Proof.
  induction rows as [|row rows IH]; [done|]. cbn [map mapR]. rewrite IH. unfold row_car, getitem.
  by rewrite without_labels_get by (by apply (bool_decide_unpack _)).
Qed.
Lemma table_without_labels models rows : candidate_table models (map without_labels rows) = candidate_table models rows.
Proof. unfold candidate_table, _position_distributions. by rewrite matrix_without_labels, cars_without_labels. Qed.
(** How an evaluation that returns has gone. *)
Lemma evaluate_run synthetic records r : evaluate_records utc_iso lgb_train synthetic records = Ok r →
  ∃ chosen quality, prepare synthetic records = Ok (chosen, quality) ∧
  ((∃ e, split_records chosen = Err e ∧ isinstance e ValueError = true ∧
     r = dict_set "blocked_reason" (VStr (exn_msg e)) (evaluation_head synthetic quality)) ∨
   ∃ p models per_race metrics, split_records chosen = Ok p ∧ train_models lgb_train p = Ok models ∧
     mapR (holdout_race models) (test p) = Ok per_race ∧
     r = dict_update (evaluation_head synthetic quality)
        [("status", VStr "completed_offline_holdout"); ("split", VDict (split_entries utc_iso p));
         ("test_races", VInt (Z.of_nat (length (test p)))); ("metrics", metrics);
         ("per_race", VList (map scored_value per_race))]).
Proof.
  unfold evaluate_records. intros ([chosen quality] & Hp & Hrun)%bind_Ok. exists chosen, quality. split; [done|].
  cbn [fst snd] in Hrun. destruct (split_records chosen) as [p|e].
  - right. inv_result. eauto 10.
  - left. exists e. destruct (isinstance e ValueError); [|done]. by injection Hrun as <-.
Qed.
(** C32: a completed evaluation is an honest, paired holdout.  The models were learned from
    the training and validation races of a split that does not look ahead: every result
    they learned from was known before each prediction that is tested.  Each tested race
    has one entry, in order: the score of the probabilities the models give its rows
    stripped of their labels, and the score of the baseline saved with that very
    prediction, against the same outcome. *)
Theorem holdout_honest synthetic records r : Z.of_nat (length records) < 2 ^ 50 →
  evaluate_records utc_iso lgb_train synthetic records = Ok r → completed r →
  ∃ chosen quality p models per_race, prepare synthetic records = Ok (chosen, quality) ∧ split_records chosen = Ok p ∧
    no_peeking chosen p ∧
    Forall2 (λ position kb, kb.1 = position ∧
      _train_one lgb_train (races_of (Evaluation.train p)) (races_of (valid p)) (target_of position) = Ok kb.2) POSITIONS models ∧
    dict_get "per_race" r = Some (VList (map scored_value per_race)) ∧
    Forall2 (λ c s, scored_race s = race_id c ∧ score (baseline c) (outcome_combo c) = Ok (baseline_score s) ∧
      ∃ table, candidate_table models (map without_labels (rows c)) = Ok table ∧
        score table (outcome_combo c) = Ok (candidate_score s)) (test p) per_race.
Proof.
  intros Hlen (chosen & quality & Hprep & [(e & _ & _ & ->)|(p & models & per_race & metrics & Hp & Hm & Hraces & ->)])%evaluate_run; [done|].
  intros _. destruct (prepared_no_peeking _ _ _ _ _ Hlen Hprep Hp) as [_ Hn]. exists chosen, quality, p, models, per_race.
  split; [done|]. split; [done|]. split; [done|]. split.
  { unfold train_models in Hm. apply mapR_Ok in Hm. eapply list.Forall2_impl; [exact Hm|]. intros position kb Hkb. cbn beta in Hkb.
    apply bind_Ok in Hkb as (b & Hb & [= <-]). by split. }
  split; [done|]. apply mapR_Ok in Hraces. eapply list.Forall2_impl; [exact Hraces|]. intros c s Hc.
  unfold holdout_race in Hc. inv_result. cbn [scored_race baseline_score candidate_score]. split; [done|]. split; [done|].
  eexists. rewrite table_without_labels. done.
Qed.
(** C33: the report on a collection and the evaluation cannot drift apart.  On the same
    records the report says that the evaluation may run exactly when the evaluation is
    completed, and gives the reason of the evaluation when it is blocked. *)
Theorem readiness_agrees records s r : collection_status utc_iso records = Ok s → evaluate_records utc_iso lgb_train false records = Ok r →
  (get_or_none "chronological_evaluation_may_run" s = VBool true ↔ completed r) ∧
  (¬ completed r → get_or_none "blocked_reason" s = get_or_none "blocked_reason" r).
Proof.
  intros Hs (chosen & quality & Hprep & Hr)%evaluate_run. unfold collection_status, readiness in Hs. rewrite Hprep in Hs.
  cbn [mbind result_bind fst snd] in Hs. unfold readiness_of in Hs. cbv zeta in Hs.
  destruct Hr as [(e & He & Hv & ->)|(p & models & per_race & metrics & Hp & _ & _ & ->)].
  - rewrite He, Hv in Hs. inv_reads. split; [|done]. split; [|done]. intros E. discriminate E.
  - rewrite Hp in Hs. inv_reads. split; [done|]. intros Hnot. by destruct Hnot.
Qed.
End holdout.

(** ** Seven races *)
#[local] Existing Instance decimal_readers.
#[local] Existing Instance decimal_laws.
#[local] Existing Instance plain_numpy.
#[local] Instance plain_mathematics : Mathematics := {| math_log f := f; math_square f := float_mul f f |}.
Abbreviation example_evaluation := (evaluate_records z_str plain_train false example_records).
Abbreviation example_status := (collection_status z_str example_records).
Lemma holdout_completes : ∃ r, example_evaluation = Ok r ∧ completed r.
Proof.
  assert (∀ x : result pydict, match x with Ok r => is_text (get_or_none "status" r) "completed_offline_holdout" | Err _ => false end = true →
    ∃ r, x = Ok r ∧ completed r) as Hx; [|apply Hx; vm_compute; reflexivity].
  intros [r|e]; [by exists r|done].
Qed.
Lemma example_reports : ∃ s, example_status = Ok s.
Proof. apply returned. vm_compute. reflexivity. Qed.
Lemma holdout_honest_witness : ∃ r chosen p, example_evaluation = Ok r ∧ split_records chosen = Ok p ∧ no_peeking chosen p.
Proof.
  destruct holdout_completes as (r & Hr & Hc). 
  destruct (holdout_honest z_str plain_train false example_records r eq_refl Hr Hc) as (chosen & _ & p & _ & _ & _ & Hp & Hn & _).
  exists r, chosen, p. split; [exact Hr|]. split; [exact Hp|exact Hn].
Defined.
Lemma readiness_agrees_witness : ∃ s r, example_status = Ok s ∧ example_evaluation = Ok r ∧
  get_or_none "chronological_evaluation_may_run" s = VBool true.
Proof.
  destruct holdout_completes as (r & Hr & Hc). destruct example_reports as (s & Hs). exists s, r.
  split; [exact Hs|]. split; [exact Hr|].
  apply (readiness_agrees z_str plain_train example_records s r Hs Hr). exact Hc.
Defined.
