(* ===== verification/Entrants.v ===== *)
(** ml/historical_entrants.py and ml/historical_records.py: the rows of entrants joined to
    payout candidates, and the historical review records made of them.

    The cells of a raw table are texts, the participants and the results of a candidate
    lists; another shape is a TypeError.  A copy of a document is the document. *)
From Stdlib Require Import Ascii SpecFloat.
From stdpp Require Import sorting.
From S2P Require Import Prelude PyString PyValue PyText PyFloat Sha256 Itertools Dataset History Payouts.

Definition REQUIRED : list string :=
  ["Race_ID"; "Car"; "Player_ID"; "Player_Name"; "Status"; "Style"; "Points"; "S"; "H"; "B"].
(** The columns and the features they give. *)
Definition MAPPING : list (string * string) := [("Points", "race_score"); ("S", "S"); ("H", "H"); ("B", "B")].
(** [re.fullmatch(r"[0-9]+", s)] and [re.fullmatch(r"[0-9]+(?:\.[0-9]+)?", s)] *)
Definition all_digits (l : list ascii) : bool := negb (bool_decide (l = [])) && forallb is_digit l.
Fixpoint decimal_pattern (l : list ascii) : bool :=
  match l with
  | [] => false
  | c :: l' => is_digit c && match l' with [] => true | d :: f => if Ascii.eqb d "." then all_digits f else decimal_pattern l' end
  end.
(** ["".join(s.split())] *)
Definition without_spaces (s : string) : string :=
  String.concat "" (List.filter (λ c, negb (is_white c)) (characters s)).
Definition the_list (v : pyval) : result (list pyval) :=
  match v with VList l => Ok l | _ => raise TypeError "not a list" end.
Definition str_of (v : pyval) : result string := match v with VStr s => Ok s | _ => raise TypeError "not a text" end.

Section entrants.
Context `{Readers}.

Definition _numeric (raw column : string) : result pyval :=
  if String.eqb raw "" then Ok VNone
  else
    let points := String.eqb column "Points" in
    let invalid {A} : result A := raise ValueError ("invalid_entrant_numeric:" ++ column) in
    if negb (if points then decimal_pattern (chars raw) else all_digits (chars raw)) then invalid
    else if points then f ← read_float raw; if float_is_finite f then Ok (VFloat f) else invalid
    else n ← int_of_digits (chars raw); float_of_Z n;; Ok (VInt n).
(** [{p["car_number"]: p for p in participants}] and [{int(r["Car"]): r for r in results}] *)
Definition by_number (p : pyval) : result (pyval * pyval) :=
  k ← getitem p "car_number"; if hashable k then Ok (k, p) else raise TypeError "unhashable type".
Definition by_car_cell (r : pyval) : result (Z * pyval) := c ← getitem r "Car"; n ← int_value c; Ok (n, r).
Definition last_where {A} (f : A → bool) (l : list A) : option A := find f (rev l).
Definition expected_at (expected : list (pyval * pyval)) (car : Z) : option pyval :=
  snd <$> last_where (λ kp, py_eqb kp.1 (VInt car)) expected.
Definition result_at (results : list (Z * pyval)) (car : Z) : option pyval := snd <$> last_where (λ nr, nr.1 =? car) results.

Definition numeric_entry (row : pydict) (st : string * string) : result (string * pyval) :=
  raw ← getitem (VDict row) st.1; s ← str_of raw; v ← _numeric s st.1; Ok (st.2, v).
(** The car and the identity of a row. *)
Definition row_identity (row : pydict) : result (Z * string) :=
  reject_if (negb (forallb (λ k, dict_has k row) REQUIRED) || negb (forallb (λ kv, is_str kv.2) row)) ValueError
    "invalid_entrant_row";;
  match chars (py_str (get_or_none "Car" row)) with
  | [c] =>
      if one_to_nine c then
        let identity := py_str (get_or_none "Player_ID" row) in
        reject_if (negb (all_digits (chars identity))) ValueError "entrant_identity_missing_or_invalid";;
        Ok (digit_of c, identity)
      else raise ValueError "entrant_car_missing_or_invalid"
  | _ => raise ValueError "entrant_car_missing_or_invalid"
  end.
(** The checks of a row against the participant and the result of its car. *)
Definition check_entrant (p : pyval) (results : list (Z * pyval)) (car : Z) (identity : string) (row : pydict) : result unit :=
  let cell k := py_str (get_or_none k row) in
  rider ← getitem p "rider_id";
  reject_if (negb (is_text rider ("keirindb:" ++ identity))) ValueError "entrant_result_identity_mismatch";;
  result ← match result_at results car with Some r => Ok r | None => raise KeyError (z_str car) end;
  shown ← py_get result "Player_Name";
  let name := cell "Player_Name" in
  match default (VStr "") shown with
  | VStr result_name =>
      reject_if (negb (truthy_s (strip_text name)) || negb (truthy_s (strip_text result_name))
                 || negb (String.eqb (without_spaces name) (without_spaces result_name))) ValueError "entrant_result_name_mismatch"
  | _ => if truthy_s (strip_text name) then raise AttributeError "strip" else raise ValueError "entrant_result_name_mismatch"
  end;;
  let status := cell "Status" in
  let withdrawn := String.eqb status "欠場" in
  reject_if (negb (String.eqb status "" || withdrawn)) ValueError "entrant_result_withdrawal_mismatch";;
  finish ← getitem p "status";
  reject_if (negb (Bool.eqb withdrawn (is_text finish "DNS"))) ValueError "entrant_result_withdrawal_mismatch";;
  reject_if (negb (bool_decide (cell "Style" ∈ ["逃"; "両"; "追"]))) ValueError "entrant_style_missing_or_invalid".
Record joined := Joined { seen_cars : gset Z; seen_ids : gset string; features : list (Z * pydict) }.
(** The body of the loop over the rows. *)
Definition join_row (expected : list (pyval * pyval)) (results : list (Z * pyval)) (acc : joined) (v : pyval) : result joined :=
  match v with
  | VDict row =>
      ci ← row_identity row;
      let '(car, identity) := ci in
      reject_if (bool_decide (car ∈ seen_cars acc) || bool_decide (identity ∈ seen_ids acc)) ValueError
        "duplicate_entrant_car_or_identity";;
      p ← match expected_at expected car with Some p => Ok p | None => raise ValueError "entrant_result_identity_mismatch" end;
      check_entrant p results car identity row;;
      numbers ← mapR (numeric_entry row) MAPPING;
      Ok (Joined ({[car]} ∪ seen_cars acc) ({[identity]} ∪ seen_ids acc)
            (features acc ++ [(car, [("car_number", VInt car); ("style", get_or_none "Style" row)] ++ numbers)]))
  | _ => raise ValueError "invalid_entrant_row"
  end.
Definition is_seen (cars : gset Z) (k : pyval) : bool := existsb (λ c, py_eqb k (VInt c)) (elements cars).
Definition _features (record : pydict) (rows : list pyval) : result (list pyval) :=
  reject_if (negb (is_text (get_or_none "normalization_status" record) "internally_consistent_candidate")) ValueError
    "payout_candidate_not_normalized";;
  ps ← getitem (VDict record) "participants";
  participants ← the_list ps;
  let n := length rows in
  reject_if (negb ((3 <=? n) && (n <=? 9))%nat || negb (n =? length participants)%nat) ValueError "entrant_roster_incomplete";;
  expected ← mapR by_number participants;
  raw ← getitem (VDict record) "raw"; rs ← getitem raw "results"; results ← the_list rs;
  numbered ← mapR by_car_cell results;
  acc ← foldR (join_row expected numbered) (Joined ∅ ∅ []) rows;
  (* every seen car is expected *)
  reject_if (negb (forallb (λ kp, is_seen (seen_cars acc) kp.1) expected)) ValueError "entrant_roster_mismatch";;
  Ok (map (λ cf, VDict cf.2) (sorted_by fst (features acc))).

(** ** [enrich] *)
(** The rows without their identical repetitions, and the number of those. *)
Definition add_entrant (acc : gset string * list (string * pyval) * Z) (v : pyval) :
    result (gset string * list (string * pyval) * Z) :=
  let '(seen, kept, repeated) := acc in
  match v with
  | VDict row =>
      let id := get_or_none "Race_ID" row in
      reject_if (negb (has_text id)) ValueError "entrant_race_id_missing";;
      fingerprint ← digest v;
      if bool_decide (fingerprint ∈ seen) then Ok (seen, kept, repeated + 1)
      else Ok ({[fingerprint]} ∪ seen, kept ++ [(py_str id, v)], repeated)
  | _ => raise ValueError "entrant_race_id_missing"
  end.
Definition entrants_of (kept : list (string * pyval)) (key : string) : list pyval :=
  map snd (List.filter (λ ir, String.eqb ir.1 key) kept).
Definition caught_join (e : exn) : bool := existsb (isinstance e) [ValueError; KeyError; TypeError; OverflowError].
(** The check of the digest a candidate states. *)
Definition digest_matches (d : pydict) : result bool :=
  sha ← digest (VDict (without "candidate_sha256" d)); Ok (is_text (get_or_none "candidate_sha256" d) sha).
(** The item of one candidate. *)
Definition join_item (source : pydict) (rows : list pyval) : result (list pyval * pydict) :=
  sha ← digest (VList rows);
  let item := dict_update source
    [("parent_candidate_sha256", get_or_none "candidate_sha256" source); ("raw_entrants", VList rows);
     ("raw_entrants_sha256", VStr sha); ("entrant_join_status", VStr "quarantined"); ("entrant_join_reasons", VList []);
     ("pre_race_features", VList []); ("training_approved", VBool false); ("pre_race_state_verified", VBool false)] in
  tried ← match (reject_if (bool_decide (rows = [])) ValueError "entrant_rows_missing";; _features item rows) with
          | Ok fs => Ok (fs, dict_update item [("pre_race_features", VList fs);
                                               ("entrant_join_status", VStr "matched_unverified_features")])
          | Err e => if caught_join e then Ok ([], dict_set "entrant_join_reasons" (VList [VStr (exn_text e)]) item) else Err e
          end;
  let item := without "candidate_sha256" tried.2 in
  parent ← digest (VDict item);
  Ok (tried.1, item ++ [("candidate_sha256", VStr parent)]).
(** The body of the loop over the candidates. *)
Definition join_source (kept : list (string * pyval)) (acc : gset string * list (list pyval * pydict)) (v : pyval) :
    result (gset string * list (list pyval * pydict)) :=
  let '(keys_, output) := acc in
  match v with
  | VDict source =>
      key ← match get_or_none "race_id" source with
            | VStr key => if truthy_s key && negb (bool_decide (key ∈ keys_)) then Ok key
                          else raise ValueError "missing_or_duplicate_candidate_race_id"
            | _ => raise ValueError "missing_or_duplicate_candidate_race_id"
            end;
      good ← digest_matches source;
      reject_if (negb good) ValueError "payout_candidate_digest_mismatch";;
      reject_if (truthy (get_or_none "pre_race_features" source)) ValueError "refusing_to_overwrite_existing_features";;
      item ← join_item source (entrants_of kept key);
      Ok ({[key]} ∪ keys_, output ++ [item])
  | _ => raise AttributeError "get"
  end.
Definition orphan (kept : list (string * pyval)) (key : string) : result pyval :=
  sha ← digest (VList (entrants_of kept key));
  Ok (VDict [("race_id", VStr key); ("raw_entrants", VList (entrants_of kept key)); ("raw_entrants_sha256", VStr sha)]).
Definition text_at (k : string) (d : pydict) : string := py_str (get_or_none k d).
Definition texts_at (k : string) (d : pydict) : list string :=
  match get_or_none k d with VList l => map py_str l | _ => [] end.
Definition missing_count (fs : list pyval) (st : string * string) : string * pyval :=
  (st.2, VInt (Z.of_nat (length (List.filter (λ f, is_none (match f with VDict d => get_or_none st.2 d | _ => VNone end)) fs)))).
Definition enrich (candidates entrants : pyval) : result pydict :=
  version ← get candidates "schema_version";
  reject_if (negb (is_text version "historical-payout-candidates-v1")) ValueError "payout_candidate_report_required";;
  records ← get candidates "records";
  match records, entrants with
  | VList records, VList entrants =>
      acc ← foldR add_entrant (∅, [], 0) entrants;
      let '(_, kept, repeated) := acc in
      joined ← foldR (join_source kept) (∅, []) records;
      let '(keys_, output) := joined in
      let strays := List.filter (λ k, negb (bool_decide (k ∈ keys_))) (sorted (remove_dups (map fst kept))) in
      orphans ← mapR (orphan kept) strays;
      let fs := concat (map fst output) in
      let items := map snd output in
      Ok [("schema_version", VStr "historical-entrant-candidates-v1"); ("records", VList (map VDict items));
          ("orphan_entrant_races", VList orphans);
          ("summary", VDict
             [("unique_races", VInt (Z.of_nat (length output))); ("input_entrant_rows", VInt (Z.of_nat (length entrants)));
              ("identical_duplicate_rows_ignored", VInt repeated);
              ("join_status_counts", VDict (counted (map (text_at "entrant_join_status") items)));
              ("exclusion_reason_counts", VDict (counted (concat (map (texts_at "entrant_join_reasons") items))));
              ("matched_rider_rows", VInt (Z.of_nat (length fs))); ("orphan_entrant_races", VInt (Z.of_nat (length orphans)));
              ("missing_numeric_values", VDict (map (missing_count fs) MAPPING));
              ("training_eligible_races", VInt 0); ("training_runs", VInt 0)]);
          ("feature_mapping", VDict (map (λ st, (st.1, VStr st.2)) MAPPING)); ("feature_time_verified", VBool false);
          ("source_use_verified", VBool false); ("production_enabled", VBool false);
          ("automatic_collection_enabled", VBool false)]
  | _, _ => raise ValueError "records_and_entrants_must_be_arrays"
  end.

(** ** ml/historical_records.py *)
(** A raw table as [normalize] takes it. *)
Definition text_cell (kv : string * pyval) : result (string * string) := s ← str_of kv.2; Ok (kv.1, s).
Definition text_row (v : pyval) : result Payouts.row :=
  match v with VDict d => mapR text_cell d | _ => raise TypeError "not a row" end.
Definition raw_table (raw : pyval) (k : string) : result (list Payouts.row) :=
  v ← getitem raw k; l ← the_list v; mapR text_row l.
Context (strptime_error : string → string).
Definition REPLAYED : list string :=
  ["normalization_status"; "entrant_join_status"; "participants"; "settlements"; "pre_race_features"; "race_date"; "venue";
   "race_number"; "actual_starters"; "raw_sha256"; "raw_entrants_sha256"; "parent_candidate_sha256"].
(** The candidate again, from its raw rows. *)
Definition replay (candidate : pydict) : result (list pyval) :=
  let raw := default (VDict []) (dict_get "raw" candidate) in
  info ← raw_table raw "info"; results ← raw_table raw "results"; payoffs ← raw_table raw "payoffs";
  normal ← normalize strptime_error info results payoffs;
  entrants ← getitem (VDict candidate) "raw_entrants";
  joined ← enrich normal.2 entrants;
  match get_or_none "records" joined with VList l => Ok l | _ => Ok [] end.
Definition concat_lists (a b : pyval) : result (list pyval) :=
  match a, b with VList x, VList y => Ok (x ++ y) | _, _ => raise TypeError "can only concatenate list" end.
Definition list_at (k : string) (d : pydict) : pyval := default (VList []) (dict_get k d).
Definition quarantined_value (candidate : pydict) : result pyval :=
  reasons ← concat_lists (list_at "reasons" candidate) (list_at "entrant_join_reasons" candidate);
  Ok (VDict [("race_id", get_or_none "race_id" candidate); ("candidate_sha256", get_or_none "candidate_sha256" candidate);
             ("reasons", VList [VStr "normalized_matched_candidate_required"]); ("upstream_reasons", VList reasons)]).
Definition review_record (key : string) (candidate expected : pydict) (input_hash : string) : result pydict :=
  settlements ← getitem (VDict expected) "settlements"; settlement ← getitem settlements "3連単";
  date ← getitem (VDict expected) "race_date"; venue ← getitem (VDict expected) "venue";
  number ← getitem (VDict expected) "race_number";
  ps ← getitem (VDict expected) "participants"; riders ← the_list ps;
  starters ← getitem (VDict expected) "actual_starters"; fs ← getitem (VDict expected) "pre_race_features";
  os ← getitem settlement "outcomes"; outs ← the_list os;
  combinations ← mapR (λ x, getitem x "combination") outs;
  status ← getitem settlement "status";
  raw_sha ← getitem (VDict candidate) "raw_sha256"; entrants_sha ← getitem (VDict candidate) "raw_entrants_sha256";
  Ok [("race_id", VStr key); ("race_date", date); ("venue", venue); ("race_number", number);
      ("rider_count", VInt (Z.of_nat (length riders))); ("riders", VList riders); ("actual_starters", starters);
      ("pre_race_features", fs); ("trifecta_outcomes", VList combinations); ("trifecta_settlement", settlement);
      ("dead_heat", VBool (is_text status "dead_heat")); ("feature_as_of", get_or_none "feature_as_of" candidate);
      ("listed_scheduled_start_jst", get_or_none "listed_scheduled_start_jst" candidate);
      ("result_available_at", get_or_none "result_available_at" candidate);
      ("sources", VList [VDict [("kind", VStr "unverified_keirindb_import_candidate");
                                ("candidate_sha256", get_or_none "candidate_sha256" candidate);
                                ("input_report_sha256", VStr input_hash); ("raw_sha256", raw_sha);
                                ("raw_entrants_sha256", entrants_sha)]]);
      ("prospective", VBool false); ("pre_race_state_verified", VBool false);
      ("training_use_status", VStr "unconfirmed"); ("training_approved", VBool false);
      ("conversion_status", VStr "unapproved_historical_review_record")].
Definition convertible (candidate : pydict) : bool :=
  is_text (get_or_none "normalization_status" candidate) "internally_consistent_candidate"
  && is_text (get_or_none "entrant_join_status" candidate) "matched_unverified_features".
(** A candidate that is not converted is quarantined. *)
Definition convert_candidate (input_hash : string) (key : string) (candidate : pydict) : result (pydict + pyval) :=
  good ← digest_matches candidate;
  reject_if (negb good) ValueError "candidate_digest_mismatch";;
  if negb (convertible candidate) then q ← quarantined_value candidate; Ok (inr q)
  else
    replayed ← replay candidate;
    match replayed with
    | [VDict expected] =>
        reject_if (negb (is_text (get_or_none "race_id" expected) key)) ValueError "candidate_raw_replay_identity_mismatch";;
        reject_if (negb (forallb (λ k, py_eqb (get_or_none k candidate) (get_or_none k expected)) REPLAYED)) ValueError
          "candidate_raw_replay_mismatch";;
        r ← review_record key candidate expected input_hash; Ok (inl r)
    | _ => raise ValueError "candidate_raw_replay_identity_mismatch"
    end.
(** The body of the loop: the keys seen, the records and the quarantine. *)
Definition convert_step (input_hash : string) (acc : list string * list pydict * list pyval) (v : pyval) :
    result (list string * list pydict * list pyval) :=
  let '(seen, records, quarantine) := acc in
  match v with
  | VDict candidate =>
      key ← match get_or_none "race_id" candidate with
            | VStr key => if has_text (VStr key) && negb (bool_decide (key ∈ seen)) then Ok key
                          else raise ValueError "missing_or_duplicate_candidate_race_id"
            | _ => raise ValueError "missing_or_duplicate_candidate_race_id"
            end;
      c ← convert_candidate input_hash key candidate;
      Ok match c with
         | inl r => (seen ++ [key], records ++ [r], quarantine)
         | inr q => (seen ++ [key], records, quarantine ++ [q])
         end
  | _ => raise ValueError "invalid_candidate"
  end.
Definition record_sha (r : pydict) : result (string * pyval) := sha ← digest (VDict r); Ok (text_at "race_id" r, VStr sha).
Definition settled_as (r : pydict) : string :=
  match get_or_none "trifecta_settlement" r with VDict s => py_str (get_or_none "status" s) | _ => "" end.
Definition convert (report : pyval) : result pydict :=
  match report with
  | VDict d =>
      reject_if (negb (is_text (get_or_none "schema_version" d) "historical-entrant-candidates-v1")) ValueError
        "entrant_candidate_report_required";;
      match get_or_none "records" d with
      | VList candidates =>
          input_hash ← digest report;
          acc ← foldR (convert_step input_hash) ([], [], []) candidates;
          let '(_, records, quarantine) := acc in
          hashes ← mapR record_sha records;
          Ok [("schema_version", VStr "historical-review-records-v1"); ("records", VList (map VDict records));
              ("record_hashes", VDict (dict_update [] hashes)); ("quarantined_records", VList quarantine);
              ("input_report_sha256", VStr input_hash); ("orphan_entrant_races", list_at "orphan_entrant_races" d);
              ("summary", VDict
                 [("input_races", VInt (Z.of_nat (length candidates))); ("converted_records", VInt (Z.of_nat (length records)));
                  ("quarantined_races", VInt (Z.of_nat (length quarantine)));
                  ("settlement_counts", VDict (counted (map settled_as records)));
                  ("rider_count_distribution", VDict (counted (map (text_at "rider_count") records)));
                  ("training_eligible_races", VInt 0); ("training_runs", VInt 0)]);
              ("production_enabled", VBool false); ("automatic_collection_enabled", VBool false)]
      | _ => raise ValueError "candidate_records_array_required"
      end
  | _ => raise ValueError "entrant_candidate_report_required"
  end.
End entrants.
