(* ===== verification/EntrantsFacts.v ===== *)
(** The intake of historical records: what the normaliser and the join of entrants produce
    is converted, by a replay that finds the same candidate, and the records it gives pass
    the checks of the preparation. *)
From Stdlib Require Import Ascii SpecFloat.
From stdpp Require Import sorting.
From S2P Require Import Prelude PyString PyValue PyText PyFloat Sha256 Itertools Dataset DatasetFacts SelectionFacts PrepareFacts InferenceFacts History HistoryFacts Preparation Payouts PayoutsFacts Entrants.

(** ** Tables without repetitions *)
Section dedup.
Context {A : Type} (ident fp : A → result string).
Definition dedup_step (acc : gset string * list (string * A) * Z) (a : A) : result (gset string * list (string * A) * Z) :=
  let '(seen, kept, n) := acc in
  id ← ident a; f ← fp a;
  Ok (if bool_decide (f ∈ seen) then (seen, kept, n + 1) else ({[f]} ∪ seen, kept ++ [(id, a)], n)).
(** The rows kept have their identifiers, and fingerprints of their own. *)
Definition fresh (kept : list (string * A)) : Prop :=
  Forall (λ ia, ident ia.2 = Ok ia.1 ∧ is_ok (fp ia.2) = true) kept ∧ NoDup (map (λ ia, fp ia.2) kept).
Lemma dedup_fresh l : ∀ acc acc', foldR dedup_step acc l = Ok acc' →
  fresh acc.1.2 → (∀ f, f ∈ acc.1.1 ↔ Ok f ∈ map (λ ia, fp ia.2) acc.1.2) → fresh acc'.1.2.
Proof.
  induction l as [|a l IH]; intros [[seen kept] n] acc'; cbn [foldR]; [by intros [= <-]|].
  intros (acc1 & Hstep & Hrun)%bind_Ok [Hf Hn] Hs. refine (IH _ _ Hrun _ _); cbn [fst snd] in *; clear IH Hrun.
  all: cbn [dedup_step] in Hstep; apply bind_Ok in Hstep as (id & Hid & (f & Hfp & [= <-])%bind_Ok).
  all: case_bool_decide as Hin; [done|cbn [fst snd]].
  - split; [apply Forall_app; split; [done|constructor; [by cbn [fst snd]; rewrite Hid, Hfp|constructor]]|].
    rewrite map_app. apply list.NoDup_app. split_and!; [done| |by apply NoDup_singleton].
    intros x Hx ->%list_elem_of_singleton. cbn [snd] in Hx. rewrite Hfp in Hx. by apply Hs in Hx.
  - intros g. rewrite map_app, elem_of_union, elem_of_app, elem_of_singleton, Hs. cbn [map snd]. rewrite list_elem_of_singleton, Hfp.
    split; [intros [->|?]; auto|intros [?|[= ->]]; auto].
Qed.
Lemma dedup_again l : ∀ seen kept n, fresh l → (∀ ia f, ia ∈ l → fp ia.2 = Ok f → f ∉ seen) →
  ∃ seen', foldR dedup_step (seen, kept, n) (map snd l) = Ok (seen', kept ++ l, n).
Proof.
  induction l as [|[id a] l IH]; intros seen kept n [Hf Hn] Hnew; cbn [map foldR].
  { exists seen. by rewrite app_nil_r. }
  apply list.Forall_cons in Hf as [[Hid Hok] Hf]. cbn [map fst snd] in *. apply list.NoDup_cons in Hn as [Hnot Hn].
  destruct (fp a) as [f|] eqn:Ef; [|done]. cbn [dedup_step]. rewrite Hid, Ef. cbn [mbind result_bind].
  rewrite bool_decide_false by (by apply (Hnew (id, a) f); [left|]).
  destruct (IH ({[f]} ∪ seen) (kept ++ [(id, a)]) n) as (seen' & Hrun).
  - by split.
  - intros ia g Hin Hg. rewrite not_elem_of_union, not_elem_of_singleton. split; [|eapply Hnew; [by right|done]].
    intros ->. apply Hnot. apply list_elem_of_fmap. by exists ia.
  - exists seen'. rewrite Hrun. by rewrite <- (assoc_L (++)).
Qed.
Lemma dedup_all_fresh l acc : foldR dedup_step (∅, [], 0) l = Ok acc → fresh acc.1.2.
Proof.
  intros Hrun. eapply dedup_fresh; [exact Hrun|split; [by constructor|by apply NoDup_nil_2]|]. cbn. set_solver.
Qed.
Lemma dedup_kept kept : fresh kept → ∃ seen, foldR dedup_step (∅, [], 0) (map snd kept) = Ok (seen, kept, 0).
Proof. intros Hf. apply (dedup_again kept ∅ [] 0 Hf). set_solver. Qed.
Lemma fresh_filter (p : string * A → bool) kept : fresh kept → fresh (List.filter p kept).
Proof.
  intros [Hf Hn]. split.
  - rewrite list.Forall_forall in *. intros ia Hin. apply Hf. eapply elem_of_submseteq; [exact Hin|apply sublist_submseteq, filter_sublist].
  - eapply sublist_NoDup; [exact Hn|]. apply map_sublist, filter_sublist.
Qed.
End dedup.

Definition row_ident (r : Payouts.row) : result string :=
  match cell "Race_ID" r with
  | Ok id => if negb (has_text (VStr id)) then raise ValueError "race_id_missing" else Ok id
  | Err _ => raise ValueError "race_id_missing"
  end.
Definition row_print (r : Payouts.row) : result string := digest (row_value r).
Definition as_table (acc : gset string * list (string * Payouts.row) * Z) : table := Table acc.1.1 acc.1.2 acc.2.
Lemma add_row_step acc r : add_row (as_table acc) r =
  match dedup_step row_ident row_print acc r with Ok acc' => Ok (as_table acc') | Err e => Err e end.
Proof.
  destruct acc as [[s k] n]. unfold add_row, dedup_step, row_ident, row_print.
  destruct (cell "Race_ID" r) as [id|]; [|reflexivity]. cbn [has_text]; destruct (truthy_s (strip_text id)); [|reflexivity]. cbn [negb reject_if mbind result_bind].
  destruct (digest (row_value r)) as [f|]; [|reflexivity]. cbn [mbind result_bind as_table fst snd Payouts.seen].
  by case_bool_decide.
Qed.
Lemma read_rows l : ∀ acc, foldR add_row (as_table acc) l =
  match foldR (dedup_step row_ident row_print) acc l with Ok acc' => Ok (as_table acc') | Err e => Err e end.
Proof.
  induction l as [|r l IH]; intros acc; cbn [foldR]; [done|]. rewrite add_row_step.
  destruct (dedup_step row_ident row_print acc r) as [acc'|e]; [|done]. apply IH.
Qed.

(** ** The join *)
Definition entrant_ident (v : pyval) : result string :=
  match v with
  | VDict row => if has_text (get_or_none "Race_ID" row) then Ok (py_str (get_or_none "Race_ID" row))
                 else raise ValueError "entrant_race_id_missing"
  | _ => raise ValueError "entrant_race_id_missing"
  end.
Lemma add_entrant_step acc v : add_entrant acc v = dedup_step entrant_ident digest acc v.
Proof.
  destruct acc as [[s k] n]. destruct v as [| | | | | | |row]; try reflexivity. unfold add_entrant, dedup_step, entrant_ident. cbv zeta.
  destruct (has_text (get_or_none "Race_ID" row)); [|reflexivity]. cbn [negb reject_if mbind result_bind].
  destruct (digest (VDict row)); [|reflexivity]. cbn [mbind result_bind]. by case_bool_decide.
Qed.
Lemma foldR_ext {A B} (f g : A → B → result A) l : (∀ a b, f a b = g a b) → ∀ a, foldR f a l = foldR g a l.
Proof. intros E. induction l as [|b l IH]; intros a; cbn [foldR]; [done|]. rewrite E. destruct (g a b); [apply IH|done]. Qed.
Lemma filter_again {A} (p : A → bool) l : List.filter p (List.filter p l) = List.filter p l.
Proof. induction l as [|a l IH]; [done|]. cbn. destruct (p a) eqn:E; [cbn; rewrite E; f_equal|]; exact IH. Qed.
Lemma filtered_keys {A} key (l : list (string * A)) k : k ∈ map fst (List.filter (λ ia, String.eqb ia.1 key) l) → k = key.
Proof. intros ([i a] & -> & Hin)%list_elem_of_fmap. apply list_elem_of_In, filter_In in Hin as [_ Hin]. by apply String.eqb_eq in Hin. Qed.

Section facts.
Context `{Readers} (strptime_error : string → string).

(** A candidate joined with its rows. *)
Record joins (kept : list (string * pyval)) (key : string) (source : pydict) (o : list pyval * pydict) : Prop := {
  jo_race : get_or_none "race_id" source = VStr key;
  jo_named : truthy_s key = true;
  jo_digest : digest_matches source = Ok true;
  jo_features : truthy (get_or_none "pre_race_features" source) = false;
  jo_item : join_item source (entrants_of kept key) = Ok o }.
Lemma join_source_inv kept acc v acc' : join_source kept acc v = Ok acc' →
  ∃ key source o, v = VDict source ∧ key ∉ acc.1 ∧ joins kept key source o ∧ acc' = ({[key]} ∪ acc.1, acc.2 ++ [o]).
Proof.
  destruct acc as [ks output]. unfold join_source. destruct v as [| | | | | | |source]; try done.
  intros (key & Hkey & (good & Hgood & (_ & Hr%reject_if_Ok & (_ & Hp%reject_if_Ok & (o & Ho & [= <-])%bind_Ok)%bind_Ok)%bind_Ok)%bind_Ok)%bind_Ok.
  destruct (get_or_none "race_id" source) as [| | | |k| | |] eqn:Erace; try done.
  destruct (truthy_s k && negb (bool_decide (k ∈ ks))) eqn:Ek; [|done]. injection Hkey as ->.
  apply andb_true_iff in Ek as [Hk Hnew%negb_true_iff%bool_decide_eq_false]. apply negb_false_iff in Hr as ->.
  exists key, source, o. split; [done|]. split; [done|]. split; [|done]. by split.
Qed.
Lemma join_source_again kept ks output key source o : joins kept key source o → key ∉ ks →
  join_source kept (ks, output) (VDict source) = Ok ({[key]} ∪ ks, output ++ [o]).
Proof.
  intros [Erace Hk Hd Hp Ho] Hnew. unfold join_source. rewrite Erace, Hk, bool_decide_false by done. cbn [negb andb mbind result_bind].
  rewrite Hd. cbn [negb reject_if mbind result_bind]. rewrite Hp. cbn [reject_if mbind result_bind]. by rewrite Ho.
Qed.
(** Every record of a report is joined under a name of its own. *)
Lemma join_sources kept records : ∀ acc acc', foldR (join_source kept) acc records = Ok acc' →
  ∃ ks sources os, records = map VDict sources ∧ acc'.2 = acc.2 ++ os ∧ NoDup ks ∧ (∀ k, k ∈ ks → k ∉ acc.1) ∧
    Forall3 (joins kept) ks sources os.
Proof.
  induction records as [|v records IH]; intros acc acc'; cbn [foldR].
  { intros [= <-]. exists [], [], []. rewrite app_nil_r. split_and!; try done; [apply NoDup_nil_2|by intros k ?%not_elem_of_nil|constructor]. }
  intros (acc1 & (key & source & o & -> & Hnew & Hj & ->)%join_source_inv & Hrun)%bind_Ok.
  apply IH in Hrun as (ks & sources & os & -> & E & Hn & Hks & Hall). cbn [fst snd] in *.
  exists (key :: ks), (source :: sources), (o :: os). split_and!; [done|by rewrite E, <- (assoc_L (++))| | |by constructor].
  - apply list.NoDup_cons. split; [|done]. intros Hin. apply Hks in Hin. set_solver.
  - intros k [->|Hin]%elem_of_cons; [done|]. apply Hks in Hin. set_solver.
Qed.

(** What [enrich] returns. *)
Record enriched (records entrants : list pyval) (joined : pydict) (kept : list (string * pyval)) (os : list (list pyval * pydict)) : Prop := {
  en_kept : ∃ seen repeated, foldR add_entrant (∅, [], 0) entrants = Ok (seen, kept, repeated);
  en_joined : ∃ ks, foldR (join_source kept) (∅, []) records = Ok (ks, os);
  en_orphans : ∃ strays orphans, mapR (orphan kept) strays = Ok orphans ∧
    dict_get "orphan_entrant_races" joined = Some (VList orphans);
  en_schema : get_or_none "schema_version" joined = VStr "historical-entrant-candidates-v1";
  en_records : dict_get "records" joined = Some (VList (map VDict (map snd os))) }.
Lemma enrich_inv candidates entrants joined : enrich candidates entrants = Ok joined →
  ∃ d records es kept os, candidates = VDict d ∧ get_or_none "records" d = VList records ∧ entrants = VList es ∧
    enriched records es joined kept os.
Proof.
  unfold enrich. intros (version & Hv & (_ & _ & (recs & Hr & Hrun)%bind_Ok)%bind_Ok)%bind_Ok.
  apply get_Ok in Hr as [-> Hd]. destruct candidates as [| | | | | | |d]; try done. cbn [field] in Hrun.
  destruct (get_or_none "records" d) as [| | | | |records| |] eqn:Er; try done. destruct entrants as [| | | | |es| |]; try done.
  apply bind_Ok in Hrun as ([[seen kept] repeated] & Hk & ([ks os] & Hj & (orphans & Ho & [= <-])%bind_Ok)%bind_Ok).
  exists d, records, es, kept, os. split; [done|]. split; [done|]. split; [done|]. split; eauto.
Qed.

(** The report of one candidate and its own rows gives the same item. *)
Lemma enrich_again records es joined kept os rep key source o : enriched records es joined kept os → joins kept key source o →
  dict_get "schema_version" rep = Some (VStr "historical-payout-candidates-v1") → dict_get "records" rep = Some (VList [VDict source]) →
  ∃ again, enrich (VDict rep) (VList (entrants_of kept key)) = Ok again ∧ get_or_none "records" again = VList [VDict o.2].
Proof.
  intros He Hj Hs Hr. destruct (en_kept _ _ _ _ _ He) as (seen & repeated & Hk).
  rewrite (foldR_ext _ _ es add_entrant_step) in Hk. apply dedup_all_fresh in Hk. cbn [fst snd] in Hk.
  set (own := List.filter (λ ir, String.eqb ir.1 key) kept).
  destruct (dedup_kept _ _ own (fresh_filter _ _ _ _ Hk)) as (seen' & Hown).
  rewrite <- (foldR_ext _ _ _ add_entrant_step) in Hown.
  assert (entrants_of own key = entrants_of kept key) as Erows.
  { unfold entrants_of at 1. subst own. by rewrite filter_again. }
  assert (joins own key source o) as Hj' by (destruct Hj; split; by rewrite ?Erows).
  assert (List.filter (λ k, negb (bool_decide (k ∈ ({[key]} ∪ ∅ : gset string)))) (sorted (remove_dups (map fst own))) = []) as Estray.
  { apply filter_nil_iff. intros k. rewrite sorted_perm, elem_of_remove_dups. intros ->%filtered_keys.
    rewrite bool_decide_true by set_solver. done. }
  unfold enrich. unfold get_or_none. cbn [get py_get mbind result_bind]. rewrite Hs, Hr. cbn [from_option id mbind result_bind].
  change (is_text (VStr ?x) ?x) with true. cbn [negb reject_if mbind result_bind].
  change (entrants_of kept key) with (map snd own). rewrite Hown. cbn [mbind result_bind foldR map snd].
  rewrite (join_source_again _ _ _ _ _ _ Hj') by set_solver. cbn [mbind result_bind]. cbv zeta. rewrite Estray.
  cbn [mapR mbind result_bind]. eexists. split; [reflexivity|]. reflexivity.
Qed.

(** ** The candidates *)
(** A record the normaliser makes of the rows of a race, and the same from those rows alone. *)
Record replays (info results payoffs : list Payouts.row) (key : string) (c : option consistent) (cand : pydict) : Prop := {
  re_named : has_text (VStr key) = true;
  re_race : normalize_race strptime_error key info results payoffs = Ok (c, VDict cand);
  re_again : ∃ rep, normalize strptime_error info results payoffs = Ok ([c], VDict rep) ∧
    dict_get "schema_version" rep = Some (VStr "historical-payout-candidates-v1") ∧
    dict_get "records" rep = Some (VList [VDict cand]) }.
(** The races of three tables, and what the normaliser makes of each. *)
Lemma kept_ident l t : read_table l = Ok t → Forall (λ ir, row_ident ir.2 = Ok ir.1) (Payouts.kept t).
Proof.
  unfold read_table. change (Table ∅ [] 0) with (as_table (∅, [], 0)). rewrite read_rows.
  destruct (foldR (dedup_step row_ident row_print) (∅, [], 0) l) as [acc|] eqn:E; [|done]. intros [= <-].
  apply dedup_all_fresh in E as [E _]. eapply list.Forall_impl; [exact E|]. by intros ? [].
Qed.
Lemma ident_named r key : row_ident r = Ok key → has_text (VStr key) = true.
Proof. unfold row_ident. destruct (cell "Race_ID" r) as [id|]; [|done]. destruct (has_text (VStr id)) eqn:E; [by intros [= <-]|done]. Qed.
Definition race_keys (ti tr tp : table) : list string :=
  sorted (elements (list_to_set (map fst (Payouts.kept ti ++ Payouts.kept tr ++ Payouts.kept tp)) : gset string)).
Lemma race_keys_elem ti tr tp k : k ∈ race_keys ti tr tp ↔ k ∈ map fst (Payouts.kept ti ++ Payouts.kept tr ++ Payouts.kept tp).
Proof. unfold race_keys. by rewrite sorted_perm, elem_of_elements, elem_of_list_to_set. Qed.
Lemma race_keys_one ti tr tp k : k ∈ race_keys ti tr tp → (∀ k', k' ∈ race_keys ti tr tp → k' = k) → race_keys ti tr tp = [k].
Proof.
  intros Hin Hall. assert (NoDup (race_keys ti tr tp)) as Hn by (unfold race_keys; rewrite sorted_perm; apply NoDup_elements).
  destruct (race_keys ti tr tp) as [|a [|b l]]; [by apply not_elem_of_nil in Hin| |].
  - f_equal. apply Hall. left.
  - exfalso. apply list.NoDup_cons in Hn as [Hn _]. apply Hn. rewrite (Hall a), <- (Hall b) by (repeat constructor). left.
Qed.
Lemma race_value key info results payoffs c v : normalize_race strptime_error key info results payoffs = Ok (c, v) → ∃ cand, v = VDict cand.
Proof. unfold normalize_race. intros (raw_sha & _ & (found & _ & (sha & _ & [= _ <-])%bind_Ok)%bind_Ok)%bind_Ok. by eexists. Qed.
Definition at_race (key : string) (kept : list (string * Payouts.row)) := List.filter (λ ir, String.eqb ir.1 key) kept.
Lemma race_table_again l t key : read_table l = Ok t →
  ∃ t', read_table (rows_of t key) = Ok t' ∧ Payouts.kept t' = at_race key (Payouts.kept t).
Proof.
  unfold read_table. change (Table ∅ [] 0) with (as_table (∅, [], 0)). rewrite read_rows.
  destruct (foldR (dedup_step row_ident row_print) (∅, [], 0) l) as [acc|] eqn:E; [|done]. intros [= <-].
  apply dedup_all_fresh in E. destruct (dedup_kept _ _ (at_race key acc.1.2) (fresh_filter _ _ _ _ E)) as (seen' & Hown).
  exists (as_table (seen', at_race key acc.1.2, 0)). split; [|done]. rewrite read_rows. unfold rows_of, as_table at 1. cbn [Payouts.kept].
  unfold at_race in *. by rewrite Hown.
Qed.
(** What [normalize] returns, race by race. *)
Record normalized (cs : list (option consistent)) (rep : pyval) (cands : list pydict) : Prop := {
  no_report : ∃ d, rep = VDict d ∧ get_or_none "records" d = VList (map VDict cands);
  no_races : Forall2 (λ c cand, ∃ info results payoffs key, replays info results payoffs key c cand) cs cands }.
Lemma normalize_inv info results payoffs cs rep : normalize strptime_error info results payoffs = Ok (cs, rep) →
  ∃ ti tr tp races, read_table info = Ok ti ∧ read_table results = Ok tr ∧ read_table payoffs = Ok tp ∧
    mapR (λ key, normalize_race strptime_error key (rows_of ti key) (rows_of tr key) (rows_of tp key)) (race_keys ti tr tp) = Ok races ∧
    cs = map fst races ∧ ∃ d, rep = VDict d ∧ get_or_none "records" d = VList (map snd races).
Proof.
  unfold normalize. intros (ti & Hi & (tr & Hr & (tp & Hp & (races & Hraces & [= <- <-])%bind_Ok)%bind_Ok)%bind_Ok)%bind_Ok.
  exists ti, tr, tp, races. split_and!; try done. by eexists.
Qed.
Lemma normalize_one info results payoffs ti tr tp key c cand : read_table info = Ok ti → read_table results = Ok tr →
  read_table payoffs = Ok tp → race_keys ti tr tp = [key] →
  normalize_race strptime_error key (rows_of ti key) (rows_of tr key) (rows_of tp key) = Ok (c, VDict cand) →
  ∃ rep, normalize strptime_error info results payoffs = Ok ([c], VDict rep) ∧
    dict_get "schema_version" rep = Some (VStr "historical-payout-candidates-v1") ∧
    dict_get "records" rep = Some (VList [VDict cand]).
Proof.
  intros Hi Hr Hp Hk Hc. unfold normalize. rewrite Hi, Hr, Hp. cbn [mbind result_bind]. unfold race_keys in Hk. rewrite Hk.
  cbn [mapR mbind result_bind]. rewrite Hc. cbn [mbind result_bind]. eexists. split; [reflexivity|]. by split.
Qed.
Lemma rows_again t t' key : Payouts.kept t' = at_race key (Payouts.kept t) → rows_of t' key = rows_of t key.
Proof. intros E. unfold rows_of. rewrite E. unfold at_race. by rewrite filter_again. Qed.
Lemma race_replays info results payoffs ti tr tp key c v : read_table info = Ok ti → read_table results = Ok tr →
  read_table payoffs = Ok tp → key ∈ race_keys ti tr tp →
  normalize_race strptime_error key (rows_of ti key) (rows_of tr key) (rows_of tp key) = Ok (c, v) →
  ∃ cand, v = VDict cand ∧ replays (rows_of ti key) (rows_of tr key) (rows_of tp key) key c cand.
Proof.
  intros Hi Hr Hp Hin Hc. destruct (race_value _ _ _ _ _ _ Hc) as [cand ->]. exists cand. split; [done|].
  assert (has_text (VStr key) = true) as Hname.
  { apply race_keys_elem in Hin. rewrite !map_app, !elem_of_app in Hin.
    assert (∀ l t, read_table l = Ok t → key ∈ map fst (Payouts.kept t) → has_text (VStr key) = true) as Ht.
    { intros l t Hl ([k r] & -> & Hkr)%list_elem_of_fmap. pose proof (kept_ident _ _ Hl) as Hall. rewrite list.Forall_forall in Hall.
      by apply Hall, ident_named in Hkr. }
    destruct Hin as [Hin|[Hin|Hin]]; [exact (Ht _ _ Hi Hin)|exact (Ht _ _ Hr Hin)|exact (Ht _ _ Hp Hin)]. }
  split; [done|done|].
  destruct (race_table_again _ _ key Hi) as (ti' & Hi' & Ei). destruct (race_table_again _ _ key Hr) as (tr' & Hr' & Er).
  destruct (race_table_again _ _ key Hp) as (tp' & Hp' & Ep). apply (normalize_one _ _ _ ti' tr' tp' key); try done.
  - apply race_keys_one.
    + rewrite race_keys_elem in *. rewrite Ei, Er, Ep. unfold at_race. rewrite <- !List.filter_app.
      apply list_elem_of_fmap in Hin as ([k r] & -> & Hkr). apply list_elem_of_fmap. exists (k, r). split; [done|].
      apply list_elem_of_In, filter_In. split; [by apply list_elem_of_In|]. apply String.eqb_refl.
    + intros k'. rewrite race_keys_elem, Ei, Er, Ep. unfold at_race. rewrite <- !List.filter_app. apply filtered_keys.
  - by rewrite (rows_again _ _ _ Ei), (rows_again _ _ _ Er), (rows_again _ _ _ Ep).
Qed.
Lemma normalize_replays info results payoffs cs rep : normalize strptime_error info results payoffs = Ok (cs, rep) →
  ∃ cands, normalized cs rep cands.
Proof.
  intros (ti & tr & tp & races & Hi & Hr & Hp & Hraces & -> & d & -> & Hd)%normalize_inv. apply mapR_Ok in Hraces.
  assert (∃ cands, map snd races = map VDict cands ∧ Forall2 (λ c cand, ∃ info results payoffs key, replays info results payoffs key c cand) (map fst races) cands)
    as (cands & Ec & Hall); [|exists cands; split; [exists d; by rewrite <- Ec|done]].
  assert (Forall (λ k, k ∈ race_keys ti tr tp) (race_keys ti tr tp)) as Hsub by by apply list.Forall_forall.
  revert Hsub Hraces. generalize (race_keys ti tr tp) at 2 3. intros ks Hsub Hraces. clear Hd.
  induction Hraces as [|k [c v] ks races Hc _ IH]; [by exists []|]. apply list.Forall_cons in Hsub as [Hk Hsub].
  destruct (IH Hsub) as (cands & Ec & Hall). destruct (race_replays _ _ _ _ _ _ _ _ _ Hi Hr Hp Hk Hc) as (cand & -> & Hre).
  exists (cand :: cands). split; [cbn; by rewrite Ec|]. constructor; [|done]. by eexists _, _, _, _.
Qed.

(** ** The items *)
Lemma dict_get_update k d e : dict_get k (dict_update d e) = match dict_get k (rev e) with Some v => Some v | None => dict_get k d end.
Proof.
  unfold dict_update. revert d. induction e as [|[k' v] e IH] using rev_ind; intros d; [done|].
  rewrite fold_left_app, rev_app_distr. cbn [fold_left rev app dict_get fst snd]. rewrite dict_get_set.
  destruct (String.eqb k' k); [done|]. apply IH.
Qed.
Lemma dict_get_without k c d : dict_get k (without c d) = if String.eqb k c then None else dict_get k d.
Proof.
  unfold without. induction d as [|[k' v] d IH]; cbn; [by destruct (String.eqb k c)|].
  destruct (String.eqb_spec k' c) as [->|N]; cbn; rewrite IH.
  - destruct (String.eqb_spec k c) as [->|N]; [done|]. destruct (String.eqb_spec c k); [congruence|done].
  - destruct (String.eqb_spec k' k) as [->|]; [|done]. by destruct (String.eqb_spec k c).
Qed.
Lemma without_again c d v : without c (without c d ++ [(c, v)]) = without c d.
Proof. unfold without. rewrite List.filter_app, filter_again. cbn. by rewrite String.eqb_refl, app_nil_r. Qed.
Lemma digest_ok v : is_ok (digest v) = is_ok (json_dumps v).
Proof. unfold digest. by destruct (json_dumps v). Qed.

(** What the join adds to a candidate. *)
Definition join_entries (source : pydict) (rows : list pyval) (sha status : string) (reasons fs : list pyval) : pydict :=
  [("parent_candidate_sha256", get_or_none "candidate_sha256" source); ("raw_entrants", VList rows);
   ("raw_entrants_sha256", VStr sha); ("entrant_join_status", VStr status); ("entrant_join_reasons", VList reasons);
   ("pre_race_features", VList fs); ("training_approved", VBool false); ("pre_race_state_verified", VBool false)].
Definition unjoined (source : pydict) (rows : list pyval) (sha : string) : pydict :=
  dict_update source (join_entries source rows sha "quarantined" [] []).
Record joined_item (source : pydict) (rows : list pyval) (o : list pyval * pydict) (status : string) (reasons : list pyval) (sha : string) : Prop := {
  ji_status : status = "matched_unverified_features" ∧ _features (unjoined source rows sha) rows = Ok o.1 ∨ status = "quarantined" ∧ o.1 = [];
  ji_get k : k ≠ "candidate_sha256" → dict_get k o.2 = dict_get k (dict_update source (join_entries source rows sha status reasons o.1));
  ji_matches : digest_matches o.2 = Ok true;
  ji_digest : is_ok (json_dumps (VDict o.2)) = true }.
Lemma join_item_ok source rows o : join_item source rows = Ok o → ∃ status reasons sha, joined_item source rows o status reasons sha.
Proof.
  unfold join_item. intros (sha & Hsha & (tried & Htried & (p & Hp & [= <-])%bind_Ok)%bind_Ok)%bind_Ok.
  change (dict_update source _) with (unjoined source rows sha) in Htried.
  assert (∃ status reasons, (status = "matched_unverified_features" ∧ _features (unjoined source rows sha) rows = Ok tried.1 ∨ status = "quarantined" ∧ tried.1 = []) ∧
    ∀ k, dict_get k tried.2 = dict_get k (dict_update source (join_entries source rows sha status reasons tried.1))) as (status & reasons & Hs & Hget).
  { destruct (_ ;; _features _ _) as [fs|e] eqn:E.
    - injection Htried as <-. apply bind_Ok in E as (_ & _ & E). exists "matched_unverified_features", []. split; [by left|].
      intros k. cbn [snd]. rewrite !dict_get_set. unfold unjoined. rewrite !dict_get_update. cbn [rev app dict_get join_entries snd fst].
      destruct (String.eqb_spec "pre_race_features" k) as [<-|]; [reflexivity|].
      by destruct (String.eqb_spec "entrant_join_status" k) as [<-|].
    - destruct (caught_join e); [|done]. injection Htried as <-. exists "quarantined", [VStr (exn_text e)]. split; [by right|].
      intros k. cbn [snd]. rewrite dict_get_set. unfold unjoined. rewrite !dict_get_update. cbn [rev app dict_get join_entries snd fst].
      by destruct (String.eqb_spec "entrant_join_reasons" k) as [<-|]. }
  exists status, reasons, sha. split; cbn [fst snd]; [done| | |].
  - intros k Hk. rewrite dict_get_app, dict_get_without. destruct (String.eqb_spec k "candidate_sha256"); [done|]. rewrite <- Hget.
    destruct (dict_get k tried.2); [done|]. cbn [dict_get]. by destruct (String.eqb_spec "candidate_sha256" k).
  - unfold digest_matches. rewrite without_again, Hp. cbn [mbind result_bind]. unfold get_or_none.
    rewrite dict_get_app, dict_get_without. cbn. by rewrite String.eqb_refl.
  - assert (is_ok (json_dumps (VDict (without "candidate_sha256" tried.2))) = true) as Hj by by rewrite <- digest_ok, Hp.
    rewrite dumps_dict_ok in *. rewrite forallb_app, Hj. done.
Qed.
(** What the normaliser puts in a candidate. *)
Definition raw_value (info results payoffs : list Payouts.row) : pyval :=
  VDict [("info", VList (map row_value info)); ("results", VList (map row_value results)); ("payoffs", VList (map row_value payoffs))].
Definition base_entries (key raw_sha status : string) (raw : pyval) (reasons : list string) : pydict :=
  [("race_id", VStr key); ("raw", raw); ("raw_sha256", VStr raw_sha);
   ("normalization_status", VStr status); ("reasons", VList (map VStr reasons));
   ("external_source_verified", VBool false); ("training_approved", VBool false);
   ("feature_as_of", VNone); ("result_available_at", VNone);
   ("pre_race_state_verified", VBool false); ("pre_race_features", VList []); ("prospective", VBool false)].
Lemma race_entries key info results payoffs c cand : normalize_race strptime_error key info results payoffs = Ok (c, VDict cand) →
  ∃ raw_sha sha status reasons more, cand = (base_entries key raw_sha status (raw_value info results payoffs) reasons ++ more) ++ [("candidate_sha256", VStr sha)] ∧
    match c with
    | Some cc => status = "internally_consistent_candidate" ∧ more = consistent_entries cc ∧ check_race strptime_error key info results payoffs = Ok cc
    | None => status = "quarantined" ∧ more = []
    end.
Proof.
  unfold normalize_race. intros (raw_sha & _ & (found & Hf & (sha & _ & [= <- <-])%bind_Ok)%bind_Ok)%bind_Ok.
  destruct (check_race strptime_error key info results payoffs) as [cc|e].
  - injection Hf as <-. exists raw_sha, sha, "internally_consistent_candidate", [], (consistent_entries cc). by split.
  - destruct (_ || _); [|done]. injection Hf as <-. exists raw_sha, sha, "quarantined", [exn_text e], []. by split.
Qed.

(** ** Documents with distinct keys *)
Lemma changes_unique expected width l : ∀ acc acc', foldR (settle_row expected width) acc l = Ok acc' →
  forallb unique_keys acc.2 = true → forallb unique_keys acc'.2 = true.
Proof.
  induction l as [|r l IH]; intros acc acc'; cbn [foldR]; [by intros [= <-]|]. intros (acc1 & Hstep & Hrun)%bind_Ok Hu.
  apply (IH _ _ Hrun). clear IH Hrun. destruct acc as [[found outs] chs]. unfold settle_row in Hstep. inv_result.
  match goal with H : (let '(_, _) := ?x in _) = Ok _ |- _ => destruct x as [cars rule] end. inv_result. cbn [snd] in *.
  rewrite forallb_app, Hu. cbn [andb]. destruct (String.eqb rule _); inv_result; done.
Qed.
Lemma settlement_unique rows groups w s : _settlement rows groups w = Ok s → unique_keys (settlement_value s) = true.
Proof.
  intros Hs. assert (forallb unique_keys (settlement_changes s) = true) as Hc.
  { unfold _settlement in Hs. inv_result. case_bool_decide.
    - inv_result. match goal with H : (if ?b then _ else _) = Ok _ |- _ => destruct b; [|done] end. inv_result. done.
    - inv_result. match goal with H : foldR _ _ _ = Ok ?x |- _ => destruct x as [[found outs] chs]; apply changes_unique in H; [|done] end.
      inv_result. done. }
  cbn [settlement_value unique_keys keys map fst]. rewrite bool_decide_true by (vm_compute; repeat constructor; set_solver).
  cbn [forallb snd andb]. change (unique_keys (VList ?l)) with (forallb unique_keys l). rewrite Hc, andb_true_r.
  apply forallb_forall. intros v (o & <- & _)%in_map_iff. cbn. rewrite andb_true_r. apply forallb_forall. by intros v (z & <- & _)%in_map_iff.
Qed.
Lemma participants_unique ps : unique_keys (VList (map participant_value ps)) = true.
Proof.
  change (unique_keys (VList ?l)) with (forallb unique_keys l). apply forallb_forall. intros v (p & <- & _)%in_map_iff.
  unfold participant_value. cbn [unique_keys keys map fst]. rewrite bool_decide_true by (vm_compute; repeat constructor; set_solver).
  by destruct (finish_rank p).
Qed.

(** ** The features *)
(** The rows gathered are of distinct cars. *)
Record gathering (expected : list (pyval * pyval)) (acc : joined) : Prop := {
  ga_cars : ∀ c, c ∈ seen_cars acc ↔ c ∈ map fst (features acc);
  ga_distinct : NoDup (map fst (features acc));
  ga_expected : ∀ c, c ∈ seen_cars acc → is_Some (expected_at expected c);
  ga_rows : Forall (λ cf, get_or_none "car_number" cf.2 = VInt cf.1 ∧ unique_keys (VDict cf.2) = true) (features acc) }.
Lemma numeric_entries row l : mapR (numeric_entry row) MAPPING = Ok l →
  keys l = ["race_score"; "S"; "H"; "B"] ∧ forallb (λ kv, unique_keys kv.2) l = true.
Proof.
  assert (∀ s c v, _numeric s c = Ok v → unique_keys v = true) as Hu.
  { intros s c v. unfold _numeric. destruct (String.eqb s ""); [by intros [= <-]|]. destruct (negb _); [done|].
    destruct (String.eqb c "Points"); intros Hr; inv_result; [|done]. by destruct (float_is_finite _); inv_result. }
  assert (∀ st e, numeric_entry row st = Ok e → e.1 = st.2 ∧ unique_keys e.2 = true) as He.
  { intros st e Hr. unfold numeric_entry in Hr. inv_result. split; [done|]. by eapply Hu. }
  intros Hm%mapR_Ok. unfold MAPPING in Hm.
  repeat match goal with H : Forall2 _ _ _ |- _ => inversion H; clear H; subst end.
  repeat match goal with H : _ = Ok ?e |- _ => apply He in H as [? ?]; destruct e end.
  cbn [fst snd] in *. subst.
  split; [done|]. cbn. by repeat match goal with H : unique_keys _ = true |- _ => rewrite H; clear H end.
Qed.
Lemma join_row_ok expected results acc v acc' : gathering expected acc → join_row expected results acc v = Ok acc' → gathering expected acc'.
Proof.
  intros [Hc Hd He Hr]. unfold join_row. destruct v as [| | | | | | |row]; try done.
  intros ([car identity] & Hid & (_ & Hnew%reject_if_Ok & (p & Hp & (_ & _ & (numbers & Hn & [= <-])%bind_Ok)%bind_Ok)%bind_Ok)%bind_Ok)%bind_Ok.
  apply orb_false_iff in Hnew as [Hnew%bool_decide_eq_false _]. apply numeric_entries in Hn as [Ek Hu].
  assert (is_Some (expected_at expected car)) as Hs by (destruct (expected_at expected car); [by eexists|done]).
  assert (unique_keys (get_or_none "Style" row) = true) as Hstyle.
  { unfold row_identity in Hid. apply bind_Ok in Hid as (_ & [_ Hstr%negb_false_iff]%reject_if_Ok%orb_false_iff & _).
    rewrite forallb_forall in Hstr. unfold get_or_none. destruct (dict_get "Style" row) as [x|] eqn:E; [|done].
    apply dict_get_elem_inv, list_elem_of_In, Hstr in E. by destruct x. }
  split; cbn [seen_cars features].
  - intros c. rewrite map_app, elem_of_union, elem_of_singleton, elem_of_app, Hc. cbn. rewrite list_elem_of_singleton. tauto.
  - rewrite map_app. apply list.NoDup_app. split_and!; [done| |apply NoDup_singleton]. intros c Hin ->%list_elem_of_singleton. by apply Hc in Hin.
  - intros c [->%elem_of_singleton|Hin]%elem_of_union; auto.
  - apply Forall_app. split; [done|]. constructor; [|constructor]. cbn [fst snd app]. split; [done|].
    cbn [unique_keys keys map fst]. change (map fst numbers) with (keys numbers). rewrite Ek.
    rewrite bool_decide_true by (vm_compute; repeat constructor; set_solver). cbn [andb forallb snd]. by rewrite Hstyle, Hu.
Qed.
Lemma join_rows_ok expected results l : ∀ acc acc', gathering expected acc → foldR (join_row expected results) acc l = Ok acc' → gathering expected acc'.
Proof.
  induction l as [|v l IH]; intros acc acc' Hg; cbn [foldR]; [by intros [= <-]|]. intros (acc1 & Hstep & Hrun)%bind_Ok.
  eapply IH; [|exact Hrun]. by eapply join_row_ok.
Qed.
Lemma expected_participants ps : mapR by_number (map participant_value ps) = Ok (map (λ p, (VInt (car_number p), participant_value p)) ps).
Proof. induction ps as [|p ps IH]; [done|]. cbn [map mapR]. rewrite IH. reflexivity. Qed.
Lemma expected_car ps c : is_Some (expected_at (map (λ p, (VInt (car_number p), participant_value p)) ps) c) → c ∈ map car_number ps.
Proof.
  unfold expected_at, last_where. intros [v Hv]. destruct (find _ _) as [kp|] eqn:E; [|done].
  apply find_some in E as [Hin Hc]. apply in_rev, in_map_iff in Hin as (p & <- & Hin). cbn in Hc. apply Z.eqb_eq in Hc.
  apply list_elem_of_fmap. exists p. split; [done|by apply list_elem_of_In].
Qed.
(** One row for each participant, in the order of the cars. *)
Lemma features_ok record rows fs ps : _features record rows = Ok fs → get_or_none "participants" record = VList (map participant_value ps) →
  NoDup (map car_number ps) → Sorted Z.le (map car_number ps) →
  forallb unique_keys fs = true ∧ ∃ ds, fs = map VDict ds ∧ map (get_or_none "car_number") ds = map (λ p, VInt (car_number p)) ps.
Proof.
  intros Hf Hps Hn Hsort. unfold _features in Hf. apply bind_Ok in Hf as (_ & _ & (v & Hv & (participants & Hl & Hf)%bind_Ok)%bind_Ok).
  apply getitem_Ok in Hv as [-> _]. cbn [field] in Hl. rewrite Hps in Hl. injection Hl as <-.
  apply bind_Ok in Hf as (_ & _ & (expected & He & (raw & _ & (rs & _ & (results & _ & (numbered & _ & (acc & Hacc & (u & Hseen & [= <-])%bind_Ok)%bind_Ok)%bind_Ok)%bind_Ok)%bind_Ok)%bind_Ok)%bind_Ok).
  rewrite expected_participants in He. injection He as <-. apply reject_if_Ok, negb_false_iff in Hseen.
  assert (gathering (map (λ p, (VInt (car_number p), participant_value p)) ps) acc) as [Hc Hd Hexp Hrows].
  { eapply join_rows_ok; [|exact Hacc]. split; cbn; [set_solver|by apply NoDup_nil_2|set_solver|by constructor]. }
  assert (map fst (features acc) ≡ₚ map car_number ps) as Hperm.
  { apply NoDup_Permutation; [done|done|]. intros c. rewrite <- Hc. split; [by intros ?%Hexp%expected_car|].
    intros (p & -> & Hin)%list_elem_of_fmap. rewrite forallb_forall in Hseen.
    specialize (Hseen (VInt (car_number p), participant_value p)). cbn [fst] in Hseen.
    unfold is_seen in Hseen. apply existsb_exists in Hseen as (c & Hin' & E%Z.eqb_eq).
    - rewrite E. by apply elem_of_elements, list_elem_of_In.
    - apply in_map_iff. exists p. split; [done|by apply list_elem_of_In]. }
  assert (map fst (sorted_by fst (features acc)) = map car_number ps) as Ecars.
  { apply (Sorted_unique Z.le); [|done|].
    - apply StronglySorted_Sorted. pose proof (sorted_by_sorted fst (features acc)) as Hs. clear -Hs.
      induction Hs as [|x l Hs IH Hx]; cbn; [constructor|]. constructor; [done|]. by apply Forall_map.
    - rewrite <- Hperm. apply fmap_Permutation, sorted_by_perm. }
  assert (Forall (λ cf, get_or_none "car_number" cf.2 = VInt cf.1 ∧ unique_keys (VDict cf.2) = true) (sorted_by fst (features acc))) as Hall.
  { by rewrite sorted_by_perm. }
  split.
  - apply forallb_forall. intros v (cf & <- & Hin)%in_map_iff. rewrite list.Forall_forall in Hall. apply (Hall cf). by apply list_elem_of_In.
  - exists (map snd (sorted_by fst (features acc))). rewrite !map_map. split; [done|].
    rewrite <- (map_map car_number VInt), <- Ecars, map_map. apply map_ext_in. intros cf Hin. rewrite list.Forall_forall in Hall.
    by apply (Hall cf), list_elem_of_In.
Qed.
Lemma participants_sorted rows groups ps chs : _result_groups rows = Ok (groups, ps, chs) → Sorted Z.le (map car_number ps).
Proof.
  intros Hr. unfold _result_groups in Hr. cbv zeta in Hr. inv_result.
  assert (Sorted by_car (merge_sort by_car (participants a0))) as Hs by (apply Sorted_merge_sort; intros x y; unfold by_car; lia).
  induction Hs as [|p ps Hs IH Hp]; cbn; constructor; [done|]. by destruct Hp; constructor.
Qed.

(** ** The conversion of an item *)
(** The item of a candidate, joined with its rows. *)
Record item_of (info results payoffs : list Payouts.row) (key : string) (c : option consistent) (rows : list pyval) (item : pydict) : Prop := {
  io_race : dict_get "race_id" item = Some (VStr key);
  io_raw : dict_get "raw" item = Some (raw_value info results payoffs);
  io_rows : dict_get "raw_entrants" item = Some (VList rows);
  io_hashes : ∃ a b p, dict_get "raw_sha256" item = Some (VStr a) ∧ dict_get "raw_entrants_sha256" item = Some (VStr b) ∧
    dict_get "parent_candidate_sha256" item = Some (VStr p);
  io_reasons : ∃ a b, dict_get "reasons" item = Some (VList a) ∧ dict_get "entrant_join_reasons" item = Some (VList b);
  io_status : ∃ a b, dict_get "normalization_status" item = Some (VStr a) ∧ dict_get "entrant_join_status" item = Some (VStr b);
  io_normal : get_or_none "normalization_status" item = VStr "internally_consistent_candidate" ↔ is_Some c;
  io_consistent : ∀ cc, c = Some cc → check_race strptime_error key info results payoffs = Ok cc ∧
    ∀ kv, kv ∈ consistent_entries cc → dict_get kv.1 item = Some kv.2;
  io_features : ∃ fs, dict_get "pre_race_features" item = Some (VList fs) ∧ forallb unique_keys fs = true ∧
    (get_or_none "entrant_join_status" item = VStr "matched_unverified_features" →
     ∀ cc, c = Some cc → ∃ ds, fs = map VDict ds ∧
       map (get_or_none "car_number") ds = map (λ p, VInt (car_number p)) (c_participants cc)) }.
Lemma item_of_join info results payoffs key c cand kept o : replays info results payoffs key c cand → joins kept key cand o →
  item_of info results payoffs key c (entrants_of kept key) o.2.
Proof.
  intros Hre Hj. destruct (join_item_ok _ _ _ (jo_item _ _ _ _ Hj)) as (status & reasons & sha & [Hst Hget _ _]).
  destruct (race_entries _ _ _ _ _ _ (re_race _ _ _ _ _ _ Hre)) as (raw_sha & csha & ns & nreasons & more & Ecand & Hc).
  assert (∀ k v, k ≠ "candidate_sha256" → dict_get k (rev (join_entries cand (entrants_of kept key) sha status reasons o.1)) = None →
    dict_get k (base_entries key raw_sha ns (raw_value info results payoffs) nreasons ++ more) = Some v → dict_get k o.2 = Some v) as Hbase.
  { intros k v Hk Hnone Hv. rewrite Hget, dict_get_update, Hnone, Ecand, dict_get_app by done. by rewrite Hv. }
  assert (∀ k v, k ≠ "candidate_sha256" → dict_get k (rev (join_entries cand (entrants_of kept key) sha status reasons o.1)) = Some v →
    dict_get k o.2 = Some v) as Hjoin by (intros k v Hk Hv; by rewrite Hget, dict_get_update, Hv).
  assert (dict_get "parent_candidate_sha256" o.2 = Some (VStr csha)) as Hparent.
  { apply Hjoin; [done|]. unfold get_or_none. cbn. do 2 f_equal. rewrite Ecand. unfold get_or_none. rewrite dict_get_app.
    destruct c as [cc|]; [destruct Hc as (_ & -> & _)|destruct Hc as (_ & ->)]; reflexivity. }
  assert (dict_get "normalization_status" o.2 = Some (VStr ns)) as Hns by by apply Hbase.
  assert (dict_get "entrant_join_status" o.2 = Some (VStr status)) as Hjs by by apply Hjoin.
  split.
  - by apply Hbase.
  - by apply Hbase.
  - by apply Hjoin.
  - exists raw_sha, sha, csha. split_and!; [by apply Hbase|by apply Hjoin|done].
  - eexists _, _. split; [by apply Hbase|by apply Hjoin].
  - by exists ns, status.
  - unfold get_or_none. rewrite Hns. cbn. destruct c as [cc|]; [destruct Hc as (-> & _)|destruct Hc as (-> & _)].
    + split; [by eexists|done].
    + split; [done|by intros [? ?]].
  - intros cc ->. destruct Hc as (_ & -> & Hcc). split; [done|]. intros kv Hkv.
    unfold consistent_entries in Hkv. repeat (apply elem_of_cons in Hkv as [->|Hkv]; [by apply Hbase|]). by apply not_elem_of_nil in Hkv.
  - exists o.1. split; [by apply Hjoin|]. assert (get_or_none "entrant_join_status" o.2 = VStr status) as -> by (unfold get_or_none; by rewrite Hjs).
    destruct Hst as [[-> Hf]|[-> ->]]; [|split; [done|discriminate]].
    destruct c as [cc|].
    + destruct Hc as (_ & -> & Hcc). destruct (accepted_race_parts _ _ _ _ _ _ Hcc) as (groups & chs & two & three & rows2 & rows3 & Hg & _).
      destruct (features_ok _ _ _ (c_participants cc) Hf) as (Hu & Hds).
      * unfold get_or_none, unjoined. rewrite dict_get_update. cbn [rev app dict_get join_entries]. by rewrite Ecand, dict_get_app.
      * by destruct (result_groups_ok _ _ _ _ Hg).
      * by eapply participants_sorted.
      * split; [done|]. by intros _ cc' [= <-].
    + exfalso. unfold _features in Hf. apply bind_Ok in Hf as (_ & Hnorm%reject_if_Ok & _).
      unfold get_or_none, unjoined in Hnorm. rewrite dict_get_update in Hnorm. cbn [rev app dict_get join_entries] in Hnorm.
      rewrite Ecand, dict_get_app in Hnorm. by destruct Hc as (-> & ->).
Qed.
Lemma text_rows rows : mapR text_row (map row_value rows) = Ok rows.
Proof.
  induction rows as [|r rows IH]; [done|]. cbn [map mapR]. rewrite IH. unfold row_value at 1, text_row at 1.
  assert (mapR text_cell (map (λ kv : string * string, (kv.1, VStr kv.2)) r) = Ok r) as ->; [|done].
  clear. induction r as [|[k v] r IH]; [done|]. cbn [map mapR]. by rewrite IH.
Qed.
Lemma replay_item info results payoffs key c cand records es joined kept os o : replays info results payoffs key c cand →
  enriched records es joined kept os → joins kept key cand o → replay strptime_error o.2 = Ok [VDict o.2].
Proof.
  intros Hre He Hj. pose proof (item_of_join _ _ _ _ _ _ _ _ Hre Hj) as Hi. destruct (re_again _ _ _ _ _ _ Hre) as (rep & Hnorm & Hs & Hr).
  destruct (enrich_again _ _ _ _ _ _ _ _ _ He Hj Hs Hr) as (again & Hagain & Hrec).
  unfold replay. rewrite (io_raw _ _ _ _ _ _ _ Hi). cbn [default from_option id]. unfold raw_table, raw_value.
  cbn [getitem dict_get String.eqb Ascii.eqb Bool.eqb mbind result_bind the_list]. rewrite !text_rows. cbn [mbind result_bind].
  rewrite Hnorm. cbn [mbind result_bind snd getitem]. rewrite (io_rows _ _ _ _ _ _ _ Hi). cbn [mbind result_bind].
  rewrite Hagain. cbn [mbind result_bind]. by rewrite Hrec.
Qed.
Lemma get_dumps k d : is_ok (json_dumps (VDict d)) = true → is_ok (json_dumps (get_or_none k d)) = true.
Proof.
  rewrite dumps_dict_ok, forallb_forall. intros Hall. unfold get_or_none. destruct (dict_get k d) as [v|] eqn:E; [|done].
  apply dict_get_elem_inv, list_elem_of_In, Hall in E. exact E.
Qed.
Lemma get_some k d v : dict_get k d = Some v → get_or_none k d = v.
Proof. unfold get_or_none. by intros ->. Qed.
Lemma item_fields info results payoffs key cc rows item : item_of info results payoffs key (Some cc) rows item →
  dict_get "race_date" item = Some (VStr (c_date cc)) ∧ dict_get "venue" item = Some (VStr (c_venue cc)) ∧
  dict_get "race_number" item = Some (VInt (c_number cc)) ∧
  dict_get "participants" item = Some (VList (map participant_value (c_participants cc))) ∧
  dict_get "actual_starters" item = Some (VInt (actual_starters (c_participants cc))) ∧
  dict_get "settlements" item = Some (VDict (map (λ bs, (bs.1, settlement_value bs.2)) (c_settlements cc))).
Proof.
  intros Hi. destruct (io_consistent _ _ _ _ _ _ _ Hi cc eq_refl) as [_ Hentries].
  assert (∀ k v, (k, v) ∈ consistent_entries cc → dict_get k item = Some v) as Hget by (intros k v Hin; exact (Hentries _ Hin)).
  split_and!; apply Hget; unfold consistent_entries; repeat first [apply list_elem_of_here|apply list_elem_of_further].
Qed.
Lemma item_replayed info results payoffs key cc rows item : item_of info results payoffs key (Some cc) rows item →
  is_ok (json_dumps (VDict item)) = true → forallb (λ k, py_eqb (get_or_none k item) (get_or_none k item)) REPLAYED = true.
Proof.
  intros Hi Hj. destruct (io_consistent _ _ _ _ _ _ _ Hi cc eq_refl) as [Hcc _].
  destruct (accepted_race_parts _ _ _ _ _ _ Hcc) as (groups & chs & two & three & rows2 & rows3 & _ & Ebets & Htwo & Hthree).
  destruct (io_hashes _ _ _ _ _ _ _ Hi) as (h1 & h2 & h3 & E1 & E2 & E3). destruct (io_status _ _ _ _ _ _ _ Hi) as (s1 & s2 & E4 & E5).
  destruct (io_features _ _ _ _ _ _ _ Hi) as (fs & E6 & Hfs & _). destruct (item_fields _ _ _ _ _ _ _ Hi) as (F1 & F2 & F3 & F4 & F5 & F6).
  assert (Forall (λ k, unique_keys (get_or_none k item) = true) REPLAYED) as Hall.
  { repeat (apply list.Forall_cons; split); [..|by constructor].
    all: unfold get_or_none; rewrite ?E1, ?E2, ?E3, ?E4, ?E5, ?E6, ?F1, ?F2, ?F3, ?F4, ?F5, ?F6; try exact eq_refl; try exact Hfs.
    - apply participants_unique.
    - rewrite Ebets. cbn [from_option id map fst snd unique_keys keys forallb].
      rewrite (settlement_unique _ _ _ _ Htwo), (settlement_unique _ _ _ _ Hthree).
      rewrite bool_decide_true by (vm_compute; repeat constructor; set_solver). done. }
  apply forallb_forall. intros k Hk. rewrite list.Forall_forall in Hall. apply py_eqb_refl; [by apply Hall, list_elem_of_In|by apply get_dumps].
Qed.

(** A review record holds what its item and the race it was normalised from do. *)
Record reviewed (cc : consistent) (item r : pydict) : Prop := {
  rv_race : get_or_none "race_id" r = get_or_none "race_id" item;
  rv_info : get_or_none "race_date" r = VStr (c_date cc) ∧ get_or_none "venue" r = VStr (c_venue cc) ∧
    get_or_none "race_number" r = VInt (c_number cc);
  rv_riders : get_or_none "riders" r = VList (map participant_value (c_participants cc));
  rv_features : get_or_none "pre_race_features" r = get_or_none "pre_race_features" item ∧
    ∃ ds, get_or_none "pre_race_features" r = VList (map VDict ds) ∧
      map (get_or_none "car_number") ds = map (λ p, VInt (car_number p)) (c_participants cc);
  rv_settlement : ∃ s, ("3連単", s) ∈ c_settlements cc ∧ get_or_none "trifecta_settlement" r = settlement_value s ∧
    get_or_none "trifecta_outcomes" r = VList (map (λ o, VList (map VInt (combination o))) (outcomes s)) ∧
    get_or_none "dead_heat" r = VBool (String.eqb (settled_status s) "dead_heat");
  rv_source : ∃ source, get_or_none "sources" r = VList [VDict source] ∧
    get_or_none "candidate_sha256" source = get_or_none "candidate_sha256" item }.
Lemma combinations os : mapR (λ x, getitem x "combination") (map outcome_value os) = Ok (map (λ o, VList (map VInt (combination o))) os).
Proof. induction os as [|o os IH]; [done|]. cbn [map mapR]. by rewrite IH. Qed.
Lemma review_item info results payoffs key cc rows item h : item_of info results payoffs key (Some cc) rows item →
  get_or_none "entrant_join_status" item = VStr "matched_unverified_features" → is_ok (json_dumps (VDict item)) = true →
  ∃ r, review_record key item item h = Ok r ∧ reviewed cc item r ∧ is_ok (json_dumps (VDict r)) = true.
Proof.
  intros Hi Hmatched Hd. destruct (io_consistent _ _ _ _ _ _ _ Hi cc eq_refl) as [Hcc _].
  destruct (accepted_race_parts _ _ _ _ _ _ Hcc) as (groups & chs & two & three & rows2 & rows3 & _ & Ebets & _).
  destruct (io_hashes _ _ _ _ _ _ _ Hi) as (h1 & h2 & h3 & E1 & E2 & _). destruct (io_features _ _ _ _ _ _ _ Hi) as (fs & E6 & _ & Hds).
  destruct (item_fields _ _ _ _ _ _ _ Hi) as (F1 & F2 & F3 & F4 & F5 & F6). destruct (Hds Hmatched cc eq_refl) as (ds & -> & Ecars).
  unfold review_record. cbn [getitem mbind result_bind]. rewrite F6, Ebets. cbn [mbind result_bind getitem].
  change (dict_get "3連単" _) with (Some (settlement_value three)). cbn [mbind result_bind]. rewrite F1, F2, F3, F4. cbn [mbind result_bind the_list].
  rewrite F5, E6. cbn [mbind result_bind getitem settlement_value dict_get String.eqb Ascii.eqb Bool.eqb the_list].
  rewrite combinations. cbn [mbind result_bind]. rewrite E1, E2. cbn [mbind result_bind].
  eexists. split; [reflexivity|]. split; [split|].
  - rewrite (get_some _ _ _ (io_race _ _ _ _ _ _ _ Hi)). reflexivity.
  - done.
  - reflexivity.
  - rewrite (get_some _ _ _ E6). split; [reflexivity|]. exists ds. by split.
  - exists three. rewrite Ebets. split_and!; [right; left|reflexivity|reflexivity|reflexivity].
  - eexists. split; reflexivity.
  - pose proof (get_dumps "participants" _ Hd) as D1. pose proof (get_dumps "pre_race_features" _ Hd) as D2.
    pose proof (get_dumps "settlements" _ Hd) as D3. rewrite (get_some _ _ _ F4) in D1. rewrite (get_some _ _ _ E6) in D2.
    rewrite (get_some _ _ _ F6), Ebets, dumps_dict_ok in D3. cbn [map fst snd forallb] in D3. apply andb_true_iff in D3 as [_ D3].
    rewrite andb_true_r in D3. rewrite dumps_dict_ok. cbn [forallb snd]. rewrite D1, D2, D3, !(get_dumps _ _ Hd).
    rewrite (dumps_list_ok [_]), (dumps_list_ok (map _ _)). cbn [forallb]. rewrite dumps_dict_ok. cbn [forallb snd].
    rewrite (get_dumps _ _ Hd). cbn. rewrite andb_true_r. apply forallb_forall. intros v (o & <- & _)%in_map_iff.
    rewrite dumps_list_ok. apply forallb_forall. by intros v (z & <- & _)%in_map_iff.
Qed.
(** ** The report of the join has a canonical text *)
Lemma dict_set_dumps k v d : is_ok (json_dumps v) = true → forallb (λ kv, is_ok (json_dumps kv.2)) d = true →
  forallb (λ kv, is_ok (json_dumps kv.2)) (dict_set k v d) = true.
Proof.
  intros Hv. induction d as [|[k' v'] d IH]; intros Hd; cbn [dict_set forallb snd] in *; [by rewrite Hv|].
  apply andb_true_iff in Hd as [H1 H2]. destruct (String.eqb k' k); cbn [forallb snd]; [by rewrite Hv|]. by rewrite H1, IH.
Qed.
Lemma counted_dumps l : is_ok (json_dumps (VDict (counted l))) = true.
Proof.
  rewrite dumps_dict_ok. unfold counted. assert (forallb (λ kv, is_ok (json_dumps kv.2)) (@nil (string * pyval)) = true) as Hd by done.
  revert Hd. generalize (@nil (string * pyval)). induction l as [|k l IH]; intros d Hd; cbn [foldl]; [done|].
  apply IH. by apply dict_set_dumps.
Qed.
Lemma orphans_dumps kept strays orphans : mapR (orphan kept) strays = Ok orphans → is_ok (json_dumps (VList orphans)) = true.
Proof.
  rewrite dumps_list_ok. intros Hm%mapR_Ok. induction Hm as [|k v strays orphans Hk _ IH]; [done|]. cbn [forallb]. rewrite IH, andb_true_r.
  unfold orphan in Hk. apply bind_Ok in Hk as (sha & Hsha & [= <-]). rewrite dumps_dict_ok. cbn [forallb snd].
  assert (is_ok (json_dumps (VList (entrants_of kept k))) = true) as -> by by rewrite <- digest_ok, Hsha. done.
Qed.
Lemma joined_dumps kept ks sources os : Forall3 (joins kept) ks sources os → is_ok (json_dumps (VList (map VDict (map snd os)))) = true.
Proof.
  rewrite dumps_list_ok. induction 1 as [|k source o ks sources os Hj _ IH]; [done|]. cbn [map forallb]. rewrite IH, andb_true_r.
  by destruct (join_item_ok _ _ _ (jo_item _ _ _ _ Hj)) as (status & reasons & sha & [_ _ _ Hd]).
Qed.
Lemma enrich_digest candidates entrants joined : enrich candidates entrants = Ok joined → ∃ h, digest (VDict joined) = Ok h.
Proof.
  intros Hrun. assert (is_ok (digest (VDict joined)) = true) as Hok; [|destruct (digest (VDict joined)); [by eexists|done]].
  rewrite digest_ok, dumps_dict_ok. revert Hrun. unfold enrich. intros (version & Hv & (_ & _ & (recs & Hr & Hrun)%bind_Ok)%bind_Ok)%bind_Ok.
  destruct recs as [| | | | |records| |]; try done. destruct entrants as [| | | | |es| |]; try done.
  apply bind_Ok in Hrun as ([[seen kept] repeated] & Hk & ([ks os] & Hj & (orphans & Ho%orphans_dumps & [= <-])%bind_Ok)%bind_Ok).
  apply join_sources in Hj as (ks' & sources & os' & _ & Eos & _ & _ & Hall%joined_dumps). cbn [fst snd app] in Eos. subst os'.
  cbn [forallb snd]. rewrite Hall, Ho. cbn [andb]. rewrite andb_true_r. rewrite dumps_dict_ok. cbn [forallb snd].
  rewrite !counted_dumps. reflexivity.
Qed.

(** ** The replay *)
Lemma replays_key info results payoffs key key' c cand kept o : replays info results payoffs key c cand → joins kept key' cand o → key = key'.
Proof.
  intros Hre Hj. destruct (race_entries _ _ _ _ _ _ (re_race _ _ _ _ _ _ Hre)) as (a & b & d & e & more & -> & _).
  pose proof (jo_race _ _ _ _ Hj) as E. cbn in E. congruence.
Qed.
(** What a conversion keeps of an item it does not convert. *)
Definition quarantined (item : pydict) (q : pyval) : Prop :=
  ∃ d, q = VDict d ∧ get_or_none "race_id" d = get_or_none "race_id" item ∧
    get_or_none "candidate_sha256" d = get_or_none "candidate_sha256" item.
Lemma convert_item h records es joined kept os key c cand o : enriched records es joined kept os → joins kept key cand o →
  (∃ info results payoffs key', replays info results payoffs key' c cand) →
  has_text (VStr key) = true ∧ get_or_none "race_id" o.2 = VStr key ∧
  if convertible o.2 then ∃ cc r, c = Some cc ∧ reviewed cc o.2 r ∧ is_ok (json_dumps (VDict r)) = true ∧ convert_candidate strptime_error h key o.2 = Ok (inl r)
  else ∃ q, quarantined o.2 q ∧ convert_candidate strptime_error h key o.2 = Ok (inr q).
Proof.
  intros He Hj (info & results & payoffs & key' & Hre). pose proof (replays_key _ _ _ _ _ _ _ _ _ Hre Hj) as ->.
  pose proof (item_of_join _ _ _ _ _ _ _ _ Hre Hj) as Hi. destruct (join_item_ok _ _ _ (jo_item _ _ _ _ Hj)) as (status & reasons & sha & [_ _ Hm Hd]).
  split; [by eapply re_named|]. pose proof (get_some _ _ _ (io_race _ _ _ _ _ _ _ Hi)) as Erace. split; [done|].
  unfold convert_candidate. rewrite Hm. cbn [negb reject_if mbind result_bind]. destruct (convertible o.2) eqn:Ec; cbn [negb].
  - unfold convertible in Ec. apply andb_true_iff in Ec as [Enorm%is_text_true Ematch%is_text_true].
    apply (io_normal _ _ _ _ _ _ _ Hi) in Enorm as [cc ->]. destruct (review_item _ _ _ _ _ _ _ h Hi Ematch Hd) as (r & Hr & Hrev & Hdr).
    exists cc, r. split; [done|]. split; [done|]. split; [done|]. rewrite (replay_item _ _ _ _ _ _ _ _ _ _ _ _ Hre He Hj). cbn [mbind result_bind].
    unfold is_text at 1. rewrite Erace. cbn [py_eqb]. rewrite String.eqb_refl. cbn [negb reject_if mbind result_bind].
    rewrite (item_replayed _ _ _ _ _ _ _ Hi Hd). cbn [negb reject_if mbind result_bind]. by rewrite Hr.
  - destruct (io_reasons _ _ _ _ _ _ _ Hi) as (a & b & Ea & Eb). unfold quarantined_value, list_at. rewrite Ea, Eb.
    cbn [default from_option id concat_lists mbind result_bind]. eexists. split; [|reflexivity]. eexists. split_and!; reflexivity.
Qed.
(** The candidates converted, and those set aside. *)
Definition outcome_of (cs : list (option consistent)) (items records : list pydict) (quarantine : list pyval) : Prop :=
  Forall2 (λ item r, ∃ cc, Some cc ∈ cs ∧ reviewed cc item r) (List.filter convertible items) records ∧
  Forall2 quarantined (List.filter (λ item, negb (convertible item)) items) quarantine.
Lemma convert_items h records es joined kept os cs ks cands items : enriched records es joined kept os →
  Forall3 (joins kept) ks cands items →
  Forall2 (λ c cand, ∃ info results payoffs key, replays info results payoffs key c cand) cs cands → NoDup ks →
  ∀ seen rs qs, (∀ k, k ∈ ks → k ∉ seen) → ∃ seen' rs' qs',
    foldR (convert_step strptime_error h) (seen, rs, qs) (map VDict (map snd items)) = Ok (seen', rs ++ rs', qs ++ qs') ∧
    outcome_of cs (map snd items) rs' qs' ∧ Forall (λ r, is_ok (json_dumps (VDict r)) = true) rs'.
Proof.
  intros He Hall. revert cs. induction Hall as [|key cand o ks cands items Hj _ IH]; intros cs Hcs Hn seen rs qs Hnew.
  { exists seen, [], []. rewrite !app_nil_r. split; [done|]. split; [split; constructor|constructor]. }
  inversion Hcs as [|c cand' cs' cands' Hc Hcs']; subst. apply list.NoDup_cons in Hn as [Hkey Hn].
  destruct (convert_item h _ _ _ _ _ _ _ _ _ He Hj Hc) as (Hname & Erace & Hres).
  assert (convert_step strptime_error h (seen, rs, qs) (VDict o.2) = c' ← convert_candidate strptime_error h key o.2;
    Ok match c' with inl r => (seen ++ [key], rs ++ [r], qs) | inr q => (seen ++ [key], rs, qs ++ [q]) end) as Estep.
  { unfold convert_step. rewrite Erace, Hname, bool_decide_false by (apply Hnew; left). reflexivity. }
  assert (∀ k, k ∈ ks → k ∉ seen ++ [key]) as Hnew'.
  { intros k Hk [?| ->%list_elem_of_singleton]%elem_of_app; [|done]. eapply Hnew; [by right|done]. }
  cbn [map foldR]. rewrite Estep. unfold outcome_of. cbn [map List.filter]. destruct (convertible o.2).
  - destruct Hres as (cc & r & -> & Hrev & Hdr & Hconv). rewrite Hconv. cbn [mbind result_bind].
    destruct (IH _ Hcs' Hn (seen ++ [key]) (rs ++ [r]) qs Hnew') as (seen' & rs' & qs' & Hrun & [Hr Hq] & Hds).
    exists seen', (r :: rs'), qs'. rewrite Hrun, <- (assoc_L (++)). split; [done|]. split; [|by constructor]. split; [|done]. cbn [negb].
    constructor; [exists cc; split; [left|done]|]. eapply list.Forall2_impl; [exact Hr|]. intros item r' (cc' & ? & ?). exists cc'. split; [by right|done].
  - destruct Hres as (q & Hquar & Hconv). rewrite Hconv. cbn [mbind result_bind].
    destruct (IH _ Hcs' Hn (seen ++ [key]) rs (qs ++ [q]) Hnew') as (seen' & rs' & qs' & Hrun & [Hr Hq] & Hds).
    exists seen', rs', (q :: qs'). rewrite Hrun, <- (assoc_L (++)). split; [done|]. cbn [negb]. split; [|done]. split; [|by constructor].
    eapply list.Forall2_impl; [exact Hr|]. intros item r' (cc' & ? & ?). exists cc'. split; [by right|done].
Qed.

(** C20: What the normaliser and the join of entrants accept is converted.  The report
    of a join is never refused by the conversion: it replays every matched candidate from
    its raw rows and finds the same one, and makes a record of it, with the participants
    and the trifecta settlement of the race that was normalised and one row of features
    for each participant; every other candidate is set aside. *)
Theorem intake_replays info results payoffs cs rep entrants joined :
  normalize strptime_error info results payoffs = Ok (cs, rep) → enrich rep entrants = Ok joined →
  ∃ items out records quarantine, get_or_none "records" joined = VList (map VDict items) ∧
    convert strptime_error (VDict joined) = Ok out ∧
    get_or_none "records" out = VList (map VDict records) ∧ get_or_none "quarantined_records" out = VList quarantine ∧
    is_list (list_at "orphan_entrant_races" joined) = true ∧
    outcome_of cs items records quarantine.
Proof.
  intros (cands & [(d & -> & Hd) Hcs])%normalize_replays Hrun. destruct (enrich_digest _ _ _ Hrun) as (h & Hh).
  apply enrich_inv in Hrun as (d' & records & es & kept & os & [= <-] & Hd' & -> & He). rewrite Hd in Hd'. injection Hd' as <-.
  destruct (en_joined _ _ _ _ _ He) as (ks' & Hjoin). apply join_sources in Hjoin as (ks & sources & os' & Es & Eos & Hn & _ & Hall).
  cbn [fst snd app] in Eos. subst os'.
  assert (sources = cands) as ->.
  { clear -Es. revert sources Es. induction cands as [|a cands IH]; intros [|b sources]; try done. cbn. intros [= -> E]. f_equal. by apply IH. }
  destruct (convert_items h _ _ _ _ _ _ _ _ _ He Hall Hcs Hn [] [] [] ltac:(set_solver)) as (seen & rs & qs & Hconv & Hout & Hds).
  pose proof (get_some _ _ _ (en_records _ _ _ _ _ He)) as Erec. destruct (en_orphans _ _ _ _ _ He) as (strays & orphans & _ & Eorph).
  unfold convert. rewrite (en_schema _ _ _ _ _ He), Erec. change (is_text (VStr ?x) ?x) with true. cbn [negb reject_if mbind result_bind].
  rewrite Hh. cbn [mbind result_bind]. rewrite Hconv. cbn [mbind result_bind app].
  destruct (mapR_total record_sha rs) as [hashes Hhashes].
  { intros r Hr. rewrite list.Forall_forall in Hds. apply Hds in Hr. rewrite <- digest_ok in Hr. unfold record_sha.
    destruct (digest (VDict r)); [by eexists|done]. }
  rewrite Hhashes. cbn [mbind result_bind]. eexists (map snd os), _, rs, qs. split; [done|]. split; [reflexivity|].
  split; [reflexivity|]. split; [reflexivity|]. unfold list_at. by rewrite Eorph.
Qed.
End facts.
Section convert.
Context `{ReaderLaws} (strptime_error : string → string).

(** ** What a conversion returns *)
(** A record that claims nothing: it is of the race [key] and is not approved. *)
Record unapproved (key : string) (r : pydict) : Prop := {
  un_race : get_or_none "race_id" r = VStr key;
  un_named : has_text (VStr key) = true;
  un_use : get_or_none "training_use_status" r = VStr "unconfirmed";
  un_state : get_or_none "pre_race_state_verified" r = VBool false }.
Lemma review_record_unapproved key candidate expected h r : has_text (VStr key) = true →
  review_record key candidate expected h = Ok r → unapproved key r.
Proof. intros Hk Hr. unfold review_record in Hr. inv_result. by split. Qed.

(** The loop, after some candidates. *)
Record converting (seen : list string) (records : list pydict) : Prop := {
  cv_distinct : NoDup seen;
  cv_records : ∃ ks, ks `sublist_of` seen ∧ Forall2 unapproved ks records }.
Lemma convert_step_ok h acc v acc' : converting acc.1.1 acc.1.2 → convert_step strptime_error h acc v = Ok acc' →
  converting acc'.1.1 acc'.1.2.
Proof.
  destruct acc as [[seen records] quarantine]. intros [Hn (ks & Hsub & Hks)]. unfold convert_step.
  destruct v as [| | | | | | |candidate]; try done. destruct (get_or_none "race_id" candidate) as [| | | |key| | |]; try done.
  destruct (has_text (VStr key) && negb (bool_decide (key ∈ seen))) eqn:Ek; [|done].
  apply andb_true_iff in Ek as [Hkey Hnew%negb_true_iff%bool_decide_eq_false]. cbn [mbind result_bind fst snd] in *.
  intros (c & Hc & [= <-])%bind_Ok.
  assert (NoDup (seen ++ [key])) as Hn'.
  { apply list.NoDup_app. split_and!; [done| |apply NoDup_singleton]. by intros x Hx ->%list_elem_of_singleton. }
  destruct c as [r|q]; cbn [fst snd].
  - split; [done|]. exists (ks ++ [key]). split; [by apply sublist_app|]. apply Forall2_app; [done|]. constructor; [|constructor].
    unfold convert_candidate in Hc. apply bind_Ok in Hc as (good & _ & (_ & _ & Hc)%bind_Ok).
    destruct (negb (convertible candidate)); [by apply bind_Ok in Hc as (? & _ & ?)|].
    apply bind_Ok in Hc as (replayed & _ & Hc). destruct replayed as [|[| | | | | | |expected] [|]]; try done.
    apply bind_Ok in Hc as (_ & _ & (_ & _ & (r' & Hr & [= ->])%bind_Ok)%bind_Ok). by eapply review_record_unapproved.
  - split; [done|]. exists ks. split; [|done]. by apply sublist_inserts_r.
Qed.
Lemma convert_steps h l : ∀ acc acc', converting acc.1.1 acc.1.2 → foldR (convert_step strptime_error h) acc l = Ok acc' →
  converting acc'.1.1 acc'.1.2.
Proof.
  induction l as [|v l IH]; intros acc acc' Hi; cbn [foldR]; [by intros [= <-]|].
  intros (acc1 & Hstep & Hrun)%bind_Ok. eapply IH; [|exact Hrun]. by eapply convert_step_ok.
Qed.
Lemma converting_nil : converting [] [].
Proof. split; [apply NoDup_nil_2|]. exists []. by split; [|constructor]. Qed.
(** The record of a converted report, with their hashes. *)
Record converted (d out : pydict) (ks : list string) (records : list pydict) (hashes : pydict) (quarantine : list pyval) : Prop := {
  co_distinct : NoDup ks;
  co_unapproved : Forall2 unapproved ks records;
  co_hashed : mapR record_sha records = Ok hashes;
  co_schema : get_or_none "schema_version" out = VStr "historical-review-records-v1";
  co_records : get_or_none "records" out = VList (map VDict records);
  co_hashes : get_or_none "record_hashes" out = VDict (dict_update [] hashes);
  co_quarantine : dict_get "quarantined_records" out = Some (VList quarantine);
  co_orphans : dict_get "orphan_entrant_races" out = Some (list_at "orphan_entrant_races" d);
  co_details : dict_get "detail_quarantined_records" out = None }.
Lemma convert_inv d out : convert strptime_error (VDict d) = Ok out →
  ∃ ks records hashes quarantine, converted d out ks records hashes quarantine.
Proof.
  unfold convert. intros Hrun. inv_result. destruct (get_or_none "records" d) as [| | | | |candidates| |]; try done.
  apply bind_Ok in Hrun as (h & _ & Hrun). apply bind_Ok in Hrun as ([[seen records] quarantine] & Hfold & Hrun).
  apply bind_Ok in Hrun as (hashes & Hh & [= <-]).
  destruct (convert_steps _ _ ([], [], []) _ converting_nil Hfold) as [Hn (ks & Hsub & Hks)].
  exists ks, records, hashes, quarantine. split; try done. by eapply sublist_NoDup.
Qed.

(** ** What a preparation makes of it *)
Lemma named_unapproved key r : unapproved key r → named (VDict r) = Some key.
Proof. intros Hu. cbn [named]. by rewrite (un_race _ _ Hu), (un_named _ _ Hu). Qed.
Lemma hashed_records ks records hashes : Forall2 unapproved ks records → mapR record_sha records = Ok hashes →
  keys hashes = ks ∧ ∃ hs, mapR record_hash (map VDict records) = Ok hs ∧ forallb (λ h, is_str h.1) hs = true ∧
    map (λ h, (py_str h.1, VStr h.2)) hs = hashes ∧ forallb (λ kv, is_str kv.2) hashes = true.
Proof.
  intros Hu. revert hashes. induction Hu as [|key r ks records Hr _ IH]; intros hashes; cbn [map mapR].
  { intros [= <-]. split; [done|]. by exists []. }
  intros (kv & (sha & Hsha & [= <-])%bind_Ok & (rest & Hrest & [= <-])%bind_Ok)%bind_Ok.
  destruct (IH _ Hrest) as (Ek & hs & Hhs & Hstr & Em & Hval). pose proof (un_race _ _ Hr) as Erace.
  unfold text_at. rewrite Erace. split; [cbn; by f_equal|]. exists ((VStr key, sha) :: hs).
  assert (record_hash (VDict r) = Ok (VStr key, sha)) as ->.
  { unfold record_hash. cbn [getitem]. unfold get_or_none in Erace. destruct (dict_get "race_id" r); cbn in Erace; [|done]. subst.
    cbn [mbind result_bind]. by rewrite Hsha. }
  cbn [mbind result_bind]. rewrite Hhs. split; [done|]. cbn. by rewrite Hstr, Em, Hval.
Qed.
Lemma update_new e : ∀ d, NoDup (keys (d ++ e)) → dict_update d e = d ++ e.
Proof.
  unfold dict_update. induction e as [|[k v] e IH]; intros d Hn; cbn [fold_left fst snd]; [by rewrite app_nil_r|].
  rewrite dict_set_new; [|].
  - rewrite IH; by rewrite <- (assoc_L (++)).
  - unfold dict_has. rewrite dict_get_not_in; [done|]. unfold keys in *. rewrite map_app in Hn.
    apply list.NoDup_app in Hn as (_ & Hd & _). intros Hin. eapply Hd; [exact Hin|]. left.
Qed.
Lemma eqb_hashes hashes : NoDup (keys hashes) → forallb (λ kv, is_str kv.2) hashes = true → py_eqb (VDict hashes) (VDict hashes) = true.
Proof.
  intros Hn Hs. rewrite forallb_forall in Hs. apply py_eqb_refl.
  - cbn [unique_keys]. rewrite bool_decide_true by done. apply forallb_forall. intros kv Hkv. apply Hs in Hkv. by destruct kv.2.
  - rewrite dumps_dict_ok. apply forallb_forall. intros kv Hkv. apply Hs in Hkv. by destruct kv.2.
Qed.
Lemma nothing_placed ks records reviews vs ts pl p : Forall2 unapproved ks records →
  prepare (VList (map VDict records)) (VList reviews) vs ts = Ok pl → group pl p = [].
Proof.
  intros Hu Hrun. destruct (group pl p) as [|r l] eqn:Eg; [done|]. exfalso.
  destruct (placed_admitted _ _ _ _ _ p r Hrun) as (b & record & review & cars & outcome & _ & _ & _ & Hin & _ & _ & _ & Hc & _).
  { rewrite Eg. left. }
  apply list_elem_of_fmap in Hin as (record' & [= <-] & Hin). apply list_elem_of_lookup_1 in Hin as [i Hi].
  eapply Forall2_lookup_r in Hu as (key & _ & Hr); [|exact Hi]. pose proof (cl_use _ _ _ Hc) as E. by rewrite (un_use _ _ Hr) in E.
Qed.
(** The preparation does not block a converted report. *)
Lemma converted_report time_value a d out ks records hashes quarantine reviews pl :
  converted d out ks records hashes quarantine → is_list (list_at "orphan_entrant_races" d) = true →
  prepare (VList (map VDict records)) reviews (VStr (validation_start a)) (VStr (test_start a)) = Ok pl →
  ∃ counts, report_of time_value a (VDict out) reviews =
      Ok (plan_entries time_value pl (VStr (validation_start a)) (VStr (test_start a)) ++ [("preparation_inputs", VDict (inputs a))], counts) ∧
    counts = [("converted_records", VInt (Z.of_nat (length records))); ("quarantined_records", VInt (Z.of_nat (length quarantine)));
              ("detail_quarantined_records", VNone); ("orphan_entrant_races", get_or_none "orphan_entrant_races" counts)].
Proof.
  intros Hc Horphans Hrun. destruct (list_at "orphan_entrant_races" d) as [| | | | |orphans| |] eqn:Eo; try done.
  destruct (hashed_records _ _ _ (co_unapproved _ _ _ _ _ _ Hc) (co_hashed _ _ _ _ _ _ Hc)) as (Ek & hs & Hhs & Hstr & Em & Hval).
  pose proof (co_distinct _ _ _ _ _ _ Hc) as Hn. rewrite <- Ek in Hn.
  eexists. unfold report_of. rewrite (co_records _ _ _ _ _ _ Hc), (co_schema _ _ _ _ _ _ Hc).
  change (is_text (VStr ?x) ?x) with true. cbn [negb]. unfold record_hashes. rewrite Hhs. cbn [mbind result_bind]. rewrite Hstr, Em.
  rewrite (co_hashes _ _ _ _ _ _ Hc), update_new by done. cbn [app]. rewrite eqb_hashes by done.
  assert (length hashes = length records) as ->.
  { rewrite <- (length_map fst hashes). change (map fst hashes) with (keys hashes). rewrite Ek. apply (Forall2_length (co_unapproved _ _ _ _ _ _ Hc)). }
  rewrite length_map, Nat.eqb_refl. cbn [negb orb mapR STAGES]. unfold stage_count.
  rewrite (co_quarantine _ _ _ _ _ _ Hc), (co_details _ _ _ _ _ _ Hc), (co_orphans _ _ _ _ _ _ Hc), Eo. cbn [mbind result_bind].
  rewrite Hrun. cbn [mbind result_bind]. split; reflexivity.
Qed.
Lemma named_all ks records : Forall2 unapproved ks records → omap named (map VDict records) = ks.
Proof. induction 1 as [|key r ks records Hr _ IH]; [done|]. cbn [map omap list_omap]. rewrite (named_unapproved _ _ Hr). f_equal. exact IH. Qed.

(** C21: Nothing that is converted is ever learned from.  Whatever reviews are
    signed for them, the records a conversion makes of entrants and payouts pass
    the checks of the preparation, which returns a plan with no race in any
    partition: every converted race is excluded, once, and the accounting of the
    report closes. *)
Theorem conversion_never_trains time_value a d out reviews rs valid test :
  convert strptime_error (VDict d) = Ok out → is_list (list_at "orphan_entrant_races" d) = true →
  timestamp (VStr (validation_start a)) = Ok valid → timestamp (VStr (test_start a)) = Ok test → valid < test →
  review_map reviews = Ok rs →
  ∃ rows report counts es,
    get_or_none "records" out = VList rows ∧ NoDup (omap named rows) ∧ length (omap named rows) = length rows ∧
    report_of time_value a (VDict out) (VList reviews) = Ok (report, counts) ∧
    sum_counts (get_or_none "partition_counts" report) = 0 ∧
    get_or_none "excluded" report = VList (map exclusion_value es) ∧
    length es = length rows ∧ omap ex_race es ≡ₚ omap named rows ∧
    get_or_none "converted_records_accounted_for" (accounting report counts) = VBool true.
Proof.
  intros (ks & records & hashes & quarantine & Hc)%convert_inv Horphans Hv Ht Hlt Hrs.
  destruct (plan_accounts (map VDict records) reviews _ _ _ _ _ Hv Ht Hlt Hrs) as (pl & Hrun & Hraces & Hlength & _).
  pose proof (co_unapproved _ _ _ _ _ _ Hc) as Hu. pose proof (named_all _ _ Hu) as Enamed. rewrite Enamed in Hraces.
  pose proof (λ p, nothing_placed _ _ _ _ _ _ p Hu Hrun) as Hnone. pose proof (Forall2_length Hu) as Hl.
  unfold placed_races in Hraces. cbn [PARTITIONS map concat] in Hraces. rewrite !Hnone in Hraces. cbn [app map] in Hraces.
  rewrite remove_dups_NoDup in Hraces by exact (co_distinct _ _ _ _ _ _ Hc).
  assert (length (excluded pl) = length records) as Hes.
  { rewrite Hlength, (Permutation_length Hraces), Hl, (proj2 (filter_nil_iff _ _)); [cbn; lia|].
    intros v Hin. unfold is_named. destruct (named v) eqn:E; [done|]. exfalso.
    apply list_elem_of_fmap in Hin as (r & -> & Hin). apply list_elem_of_lookup_1 in Hin as [i Hi].
    eapply Forall2_lookup_r in Hu as (key & _ & Hr); [|exact Hi]. by rewrite (named_unapproved _ _ Hr) in E. }
  destruct (converted_report time_value a _ _ _ _ _ _ _ _ Hc Horphans Hrun) as (counts & Hreport & Hcount).
  eexists (map VDict records), _, counts, (excluded pl). rewrite Enamed, length_map.
  split; [exact (co_records _ _ _ _ _ _ Hc)|]. split; [exact (co_distinct _ _ _ _ _ _ Hc)|]. split; [done|].
  split; [exact Hreport|]. split.
  { cbn. by rewrite !Hnone. }
  split; [done|]. split; [done|]. split; [done|].
  rewrite Hcount. unfold accounting, excluded_count. rewrite !get_or_none_update. cbn. rewrite !Hnone, length_map, Hes. cbn.
  by rewrite Z.eqb_refl.
Qed.
End convert.

(** ** Examples *)
#[local] Existing Instance decimal_readers.
#[local] Existing Instance decimal_laws.
(** Three riders, of whom 2 and 3 share the second place; and a race without entrants. *)
Definition race_name (number : string) : string := ("20240105_松山" ++ number)%string.
Definition info_row (number : string) : Payouts.row :=
  [("Race_ID", race_name number); ("Race_Status", "held"); ("Date", "20240105"); ("Race_Number", number); ("Venue", "松山"); ("Unit", "3")].
Definition result_row (number car rank : string) : Payouts.row :=
  [("Race_ID", race_name number); ("Car", car); ("Player_ID", ("0123" ++ car)%string); ("Player_Name", ("選手 " ++ car)%string);
   ("Rank", rank); ("Status", "")].
Definition payoff_row (number bet out pay : string) : Payouts.row :=
  [("Race_ID", race_name number); ("Bet_Type", bet); ("Outcome", out); ("Payout", pay)].
Definition entrant_row (number car style s : string) : pyval :=
  VDict [("Race_ID", VStr (race_name number)); ("Car", VStr car); ("Player_ID", VStr ("0123" ++ car)); ("Player_Name", VStr ("選手" ++ car));
         ("Status", VStr ""); ("Style", VStr style); ("Points", VStr ""); ("S", VStr s); ("H", VStr "0"); ("B", VStr "12")].
Definition intake_entrants : list pyval :=
  [entrant_row "7" "3" "逃" "4"; entrant_row "7" "1" "追" ""; entrant_row "7" "1" "追" ""; entrant_row "7" "2" "両" "1"].
Definition intake_normalized : result (list (option consistent) * pyval) :=
  normalize (λ _, "") [info_row "7"; info_row "8"]
    [result_row "7" "3" "2"; result_row "7" "1" "1"; result_row "7" "2" "2"; result_row "8" "1" "1"; result_row "8" "2" "2"; result_row "8" "3" "3"]
    [payoff_row "7" "2車単" "1-3" "480"; payoff_row "7" "3連単" "1-3-2" "1,230"; payoff_row "7" "2車単" "1月2日" "510";
     payoff_row "7" "3連単" "2001/2/3" "990"; payoff_row "8" "2車単" "1-2" "300"; payoff_row "8" "3連単" "1-2-3" "700"].
Definition intake_joined : result pydict := nr ← intake_normalized; enrich nr.2 (VList intake_entrants).
Definition intake_converted : result pydict := j ← intake_joined; convert (λ _, "") (VDict j).
(** One record, with two outcomes and the features in the order of the cars; one candidate set aside. *)
Example intake_example :
  match intake_converted with
  | Ok out =>
      match get_or_none "records" out, get_or_none "quarantined_records" out with
      | VList [VDict r], VList [VDict q] =>
          get_or_none "trifecta_outcomes" r = VList (map (λ l, VList (map VInt l)) [[1; 2; 3]; [1; 3; 2]]) ∧
          get_or_none "dead_heat" r = VBool true ∧
          match get_or_none "pre_race_features" r with
          | VList fs => map (λ f, match f with VDict d => (get_or_none "car_number" d, get_or_none "S" d) | _ => (VNone, VNone) end) fs =
                          [(VInt 1, VNone); (VInt 2, VInt 1); (VInt 3, VInt 4)]
          | _ => False
          end ∧
          get_or_none "race_id" q = VStr (race_name "8") ∧ get_or_none "upstream_reasons" q = VList [VStr "entrant_rows_missing"]
      | _, _ => False
      end
  | Err _ => False
  end.
Proof. vm_compute. repeat split. Qed.
Abbreviation intake_replayed := (λ cs joined, ∃ items out records quarantine, get_or_none "records" joined = VList (map VDict items) ∧
    convert (λ _, "") (VDict joined) = Ok out ∧
    get_or_none "records" out = VList (map VDict records) ∧ get_or_none "quarantined_records" out = VList quarantine ∧
    is_list (list_at "orphan_entrant_races" joined) = true ∧ outcome_of cs items records quarantine).
Lemma intake_returns : ∃ cs rep joined, intake_normalized = Ok (cs, rep) ∧ enrich rep (VList intake_entrants) = Ok joined.
Proof.
  assert (∃ joined, intake_joined = Ok joined) as (joined & Hj) by (apply returned; vm_compute; reflexivity).
  unfold intake_joined in Hj. apply bind_Ok in Hj as ([cs rep] & Hn & Hj). exists cs, rep, joined. by split.
Qed.
Lemma intake_replays_witness : ∃ cs rep joined, intake_normalized = Ok (cs, rep) ∧ enrich rep (VList intake_entrants) = Ok joined ∧
  intake_replayed cs joined.
Proof.
  destruct intake_returns as (cs & rep & joined & Hn & Hj). exists cs, rep, joined. split; [exact Hn|]. split; [exact Hj|].
  exact (intake_replays _ _ _ _ cs rep _ joined Hn Hj).
Defined.
Definition intake_adapter : adapter := Adapter "records.json" "reviews.json" "plan.json" "" "" "100" "200".
(** A review of the converted race. *)
Definition intake_review : pyval := VDict [("race_id", VStr (race_name "7")); ("reviewer", VStr "a")].
Lemma conversion_returns : ∃ d out, intake_joined = Ok d ∧ convert (λ _, "") (VDict d) = Ok out ∧ is_list (list_at "orphan_entrant_races" d) = true.
Proof.
  assert (∃ out, intake_converted = Ok out) as (out & Hout) by (apply returned; vm_compute; reflexivity).
  unfold intake_converted in Hout. apply bind_Ok in Hout as (d & Hd & Hout). exists d, out. split; [done|]. split; [done|].
  assert (match intake_joined with Ok d => is_list (list_at "orphan_entrant_races" d) | Err _ => true end = true) as Hl by (vm_compute; reflexivity).
  rewrite Hd in Hl. exact Hl.
Qed.
Lemma conversion_never_trains_witness : ∃ d out, intake_joined = Ok d ∧ convert (λ _, "") (VDict d) = Ok out ∧
  ∃ rows report counts es, get_or_none "records" out = VList rows ∧ NoDup (omap named rows) ∧ length (omap named rows) = length rows ∧
    report_of VInt intake_adapter (VDict out) (VList [intake_review]) = Ok (report, counts) ∧
    sum_counts (get_or_none "partition_counts" report) = 0 ∧
    get_or_none "excluded" report = VList (map exclusion_value es) ∧
    length es = length rows ∧ omap ex_race es ≡ₚ omap named rows ∧
    get_or_none "converted_records_accounted_for" (accounting report counts) = VBool true.
Proof.
  destruct conversion_returns as (d & out & Hd & Hout & Hl). exists d, out. split; [exact Hd|]. split; [exact Hout|].
  apply (conversion_never_trains (λ _, "") VInt intake_adapter d out [intake_review] [(race_name "7", [("race_id", VStr (race_name "7")); ("reviewer", VStr "a")])] 100 200 Hout Hl).
  - vm_compute. reflexivity.
  - vm_compute. reflexivity.
  - lia.
  - vm_compute. reflexivity.
Defined.
